(* ===== verification/_CoqProject ===== *)
-Q . S2P
Prelude.v
RustStr.v
RustStrFacts.v
RustText.v
RustTextFacts.v
Json.v
Fingerprint.v
WorkflowState.v
Enterprise.v
WorkflowAutomation.v
FlowGraph.v
FlowActivation.v
Flow.v
FlowSearch.v
FlowFacts.v
WorkflowInterrupt.v
HumanTask.v
Workflow.v
FlowRun.v
FlowEngine.v
FlowResume.v
FlowStore.v
FlowDriver.v
FlowCommit.v
FlowLoop.v
FlowProgress.v
FlowConcurrency.v
FlowRestart.v
FlowApi.v
ShellLex.v
ShellAnalysis.v
ShellFacts.v
ShellTermination.v
RustPath.v
Sandbox.v
LocalEnvironment.v
SandboxCommand.v
Policy.v
Authority.v
PathFacts.v
SandboxFacts.v
SandboxPlans.v
PolicyFacts.v
LinkFs.v
TextPatch.v
TextPatchFacts.v
FileMutation.v
FileMutationFacts.v
PatchTool.v
PatchFacts.v
FlowCommitFacts.v
FlowResumeFacts.v
FlowLimits.v
WorkflowFacts.v
Concrete.v
Witnesses.v
SandboxWitnesses.v
PatchWitnesses.v
ApiWitnesses.v
