(* ===== verification/Prelude.v ===== *)
(** * OpenTopia: the workflow subsystem

    A development about the Flow subsystem of [crates/opentopia-core/src], the part
    of OpenTopia that turns a reviewed graph of Agents, tools, conditions and
    approvals into a durable, resumable, bounded execution.  File names below are
    relative to that directory.

    ** The program

    A [FlowSpecV1] (flow.rs) is a graph of nodes and edges with a budget and a
    requested capability projection (enterprise.rs).  It is validated, compiled,
    dry-run and published as a [FlowDefinitionV1]; together with one spec per Agent
    node it is compiled to a [CompiledWorkflowV1] (workflow.rs), frozen in a
    [FlowRevisionV1].  A [FlowRunV1] (flow_runtime.rs) is the document of one
    execution.  [drive_flow_run] is its driver: it plans a superstep of ready nodes
    in a checkpoint, executes the nodes (deterministic ones itself, the others
    through the Agent harness, under the authority frozen for the node), records
    their results as pending writes with optimistic concurrency, and commits all of
    them at once: outputs, state channels (workflow_state.rs), routing, loop
    budgets.  It hands over to people by Human tasks (human_task.rs): approvals,
    output reviews, and Agents suspended in the middle of a turn whose continuation
    travels in an interrupt (workflow_interrupt.rs) and comes back with a resume
    command.  Runs and tasks live in SQLite (store.rs,
    store/flow_runtime_repository.rs), where other requests, the pause, resume and
    cancel actions of flow_tools.rs among them, touch them concurrently.  Triggers
    and outputs are described in workflow_automation.rs and flow_activation.rs.

    ** The files

    - [Prelude.v]: the error type and the state monad the models are written in,
      machine integers, identifiers and time, record updates, list lemmas, the
      [keeps] frame calculus and the development's tactics and hint databases.
    - [RustStr.v], [RustStrFacts.v]: the string methods of the Rust standard
      library the program uses, on byte strings; [Json.v]: [serde_json::Value].
    - [Fingerprint.v]: [content_fingerprint] and [estimate_tokens] (model_context.rs).
    - [WorkflowState.v]: workflow_state.rs.  [Enterprise.v]: capability projections,
      workspace roots and Connection authority.  [WorkflowAutomation.v],
      [FlowActivation.v]: triggers and activations.
    - [FlowGraph.v]: the data of flow.rs; [Flow.v]: its validation, compilation, dry
      run and publication; [FlowSearch.v]: its two graph searches; [FlowFacts.v]: the
      declarative well-formedness [flow_well_formed] and the exactness theorems.
    - [WorkflowInterrupt.v], [HumanTask.v], [Workflow.v]: the files of those names;
      [WorkflowFacts.v]: compiled workflows, the creation of runs, the authority of
      nodes.
    - [FlowRun.v] (data and conditions), [FlowEngine.v] (creation, routing, budgets),
      [FlowResume.v] (approval, interrupt resume, recovery, cancellation),
      [FlowStore.v] (the store), [FlowDriver.v] (supersteps and nodes),
      [FlowCommit.v] (pending writes, commit, pauses), [FlowLoop.v] (the loop, its
      task and the control requests): flow_runtime.rs, in the order of its code.
    - [FlowProgress.v], [FlowConcurrency.v], [FlowCommitFacts.v],
      [FlowResumeFacts.v], [FlowLimits.v]: its theorems.
    - [Concrete.v], [Witnesses.v]: every parameter instantiated, small workflows
      evaluated end to end, and each theorem with hypotheses applied to them.

    ** How state and operations correspond

    A method that takes [&mut self] is a computation of the monad [M (S * World)]
    ([S] the object, [World] below); [?] and [ensure!] are its failures, and an early
    [return] is a branch.  The errors are the values of [anyhow] the code compares or
    shows; a panic is the distinguished error [Panic].  Integers are [Z] with the
    saturation and truncation of their Rust type written out.  A [BTreeMap] is a
    [gmap] visited in the order of its sorted keys, a [Vec] a list.  The store is
    the record [FlowStore]; each of its methods is one atomic access, before which
    the environment may change the store in any way ([Environment.interfere]), so a
    read followed by a write is a race in the model as it is in the program.

    ** Parameters

    What is not under src/ or is not Rust is a type class: random identifiers, the
    clock and time formats ([Host]), numbers and text of serde_json ([JsonNumber],
    [JsonText]), derived decoders ([StateWriteCodec], [ActivationCodec],
    [ResponseCodec], ...) and the bytes that are hashed ([SpecCodec],
    [WorkflowBytes]), path canonicalisation ([FileSystem]), Unicode case mapping, URL
    parsing, the Agent behind the nodes ([FlowNodeHarness]) and the order in which
    the asynchronous executor completes futures ([Executor], a permutation).  [World]
    counts the calls made of these services, which determines their answers.  The
    nodes of a superstep are executed one after another and their results then
    permuted: they share no state but the store, which they do not touch.

    ** What is shown

    - The driver (FlowProgress, FlowConcurrency, FlowCommitFacts, FlowResumeFacts):
      it ends, with the run settled, whatever other clients do; recording a node's
      write is atomic among their steps; the order of completion leaves no trace; a
      commit is all or nothing and keeps every loop within its bound; planning,
      cancelling and recovering a superstep keep checkpoint and node runs in
      agreement; the answer to a Human task reaches the driver.
    - Validation and compilation (FlowFacts, FlowSearch, WorkflowFacts, FlowActivation,
      WorkflowState): each validator accepts exactly what a declarative predicate
      describes, the searches terminate, compilation, publication and run creation
      give what they promise.
    - Authority (Enterprise, WorkflowFacts): projections form a lattice, subset never
      widens, attenuation composes, a node runs within its frozen authority.
    - People and time (HumanTask, WorkflowInterrupt, WorkflowAutomation): task life
      cycle, exclusive claims, single-use commands, tamper-evident continuations,
      schedules that catch up and fire once.
    - Limits (FlowLimits, [FlowCommitFacts.commit_overrides_loop_exhaustion]): four
      places where the code does less than its callers expect.

    ** Bounds and fuel

    Loops bounded by a list recurse on it.  [contains_unbounded_cycle] and the
    breadth-first search take fuel computed from the graph, shown to suffice.
    [schedule_due_key_and_advance] takes fuel; [schedule_fuel], the number of slots
    passed, suffices.  [drive_flow_run] takes a number of iterations: more than four
    per node execution left in the budget, plus the distance of the active checkpoint
    from its commit ([stored_fuel]), suffice.  The eight attempts of the persist loops
    are the program's own.

    ** Not modelled

    The Agent loop, model providers, tools, sandboxes, MCP, plugins, collaboration,
    browser and office runtimes, the HTTP server and the desktop application; of the
    store, everything but runs, Human tasks and the reading of effect receipts, and
    of these the [threads] row [touch_thread] updates, foreign keys and I/O failures;
    of enterprise.rs, Agent templates, teams and packages.  Documents are assumed to
    survive their JSON encoding in the store. *)
From Stdlib Require Export ZArith Lia Bool.
From stdpp Require Export base decidable list gmap strings sorting pretty.

Declare Scope rust_scope.
Delimit Scope rust_scope with rust.
#[global] Open Scope string_scope.
#[global] Open Scope list_scope.
#[global] Open Scope Z_scope.
#[global] Open Scope rust_scope.

#[global] Arguments String.append !s1 s2 / : simpl nomatch.

(** * Identifiers and time *)

(** A 128-bit [Uuid]; only equality and the two constructors of the [uuid] crate
    that the program calls matter, so it is a natural number. *)
Definition Uuid : Set := N.

(** [DateTime<Utc>] as a number of nanoseconds since the epoch. *)
Definition DateTime : Set := Z.
Definition duration_seconds (n : Z) : Z := n * 1000000000.
Definition duration_hours (n : Z) : Z := n * 3600000000000.
(** [Duration::num_seconds] truncates towards zero. *)
Definition num_seconds (d : Z) : Z := Z.quot d 1000000000.

(** The services of the [uuid] and [chrono] crates and of the operating system
    clock.  [World] counts the calls made so far; the n-th call of
    [Uuid::new_v4] yields [host_v4 n] and the n-th reading of [Utc::now] yields
    [host_now n]. *)
Class Host := {
  host_v4 : N -> Uuid;
  host_now : N -> DateTime;
  host_v5 : Uuid -> string -> Uuid;
  host_uuid_string : Uuid -> string;
  host_uuid_parse : string -> option Uuid;
  host_rfc3339 : DateTime -> string;
}.

Definition World : Set := N.

Definition new_v4 {H : Host} (w : World) : Uuid * World := (host_v4 w, N.succ w).
Definition utc_now {H : Host} (w : World) : DateTime * World := (host_now w, N.succ w).

(** * Machine integers *)

Definition u32_max : Z := 4294967295.
Definition u64_max : Z := 18446744073709551615.
Definition usize_max : Z := u64_max.

Definition u32_saturating_add (a b : Z) : Z := Z.min (a + b) u32_max.
Definition u32_saturating_sub (a b : Z) : Z := Z.max (a - b) 0.
Definition u64_saturating_sub (a b : Z) : Z := Z.max (a - b) 0.
(** [x as u32] truncates. *)
Definition as_u32 (a : Z) : Z := a mod (u32_max + 1).
(** [u32::try_from(x).unwrap_or(u32::MAX)] for a non-negative [x]. *)
Definition u32_of_usize_sat (a : Z) : Z := if a <=? u32_max then a else u32_max.
Definition u32_try_from (a : Z) : option Z :=
  if (0 <=? a) && (a <=? u32_max) then Some a else None.

Definition is_u32 (a : Z) : Prop := 0 <= a <= u32_max.

Lemma u32_saturating_add_range a b : is_u32 a -> is_u32 b -> is_u32 (u32_saturating_add a b).
Proof. unfold is_u32, u32_saturating_add. lia. Qed.

Lemma u32_saturating_add_exact a b : a + b <= u32_max -> u32_saturating_add a b = a + b.
Proof. unfold u32_saturating_add. lia. Qed.

Lemma u32_saturating_add_mono a b c :
  0 <= c -> a <= b -> a <= u32_max -> a <= u32_saturating_add b c.
Proof. unfold u32_saturating_add. lia. Qed.

Lemma u32_saturating_sub_range a b : is_u32 a -> 0 <= b -> is_u32 (u32_saturating_sub a b).
Proof. unfold is_u32, u32_saturating_sub, u32_max. lia. Qed.

(** [Vec::len]. *)
Definition vec_len {A} (l : list A) : Z := Z.of_nat (length l).

(** * Errors *)

(** [anyhow::Error]: a message, or one of the typed store errors that callers
    recover with [downcast_ref], or a constraint violation reported by SQLite, the
    [ApprovalRequired] of policy.rs, an I/O error of kind [NotFound], or an error below a
    context message.
    [Panic] is not an error value of the program: it marks an unwinding task. *)
Inductive anyhow : Type :=
| Msg (message : string)
| RunNotFound (id : Uuid)
| RunRevisionConflict (current : Z)
| HumanTaskNotFound (id : Uuid)
| HumanTaskRevisionConflict (current : Z)
| UniqueViolation (index : string)
| ApprovalRequired (reason : string)
| IoNotFound (message : string)
| WithContext (message : string) (source : anyhow)
| Panic (message : string).

#[export] Instance anyhow_eq_dec : EqDecision anyhow.
Proof. solve_decision. Defined.

Inductive Result (E A : Type) : Type :=
| Ok (a : A)
| Err (e : E).
Arguments Ok {E A} a.
Arguments Err {E A} e.

#[export] Instance result_eq_dec {E A} `{EqDecision E, EqDecision A} : EqDecision (Result E A).
Proof. solve_decision. Defined.

Definition result_bind {E A B} (m : Result E A) (k : A -> Result E B) : Result E B :=
  match m with Ok a => k a | Err e => Err e end.

Definition result_map {E A B} (f : A -> B) (m : Result E A) : Result E B :=
  match m with Ok a => Ok (f a) | Err e => Err e end.

Definition map_err {E F A} (f : E -> F) (m : Result E A) : Result F A :=
  match m with Ok a => Ok a | Err e => Err (f e) end.

(** [Result::ok]. *)
Definition result_ok {E A} (m : Result E A) : option A :=
  match m with Ok a => Some a | Err _ => None end.

(** [anyhow::ensure!] and [Option::context]. *)
Definition ensure (b : bool) (message : string) : Result anyhow unit :=
  if b then Ok tt else Err (Msg message).

Definition opt_context {A} (o : option A) (message : string) : Result anyhow A :=
  match o with Some a => Ok a | None => Err (Msg message) end.

Notation "'let?' x ':=' m 'in' k" := (result_bind m (fun x => k))
  (at level 10, x pattern, m at level 100, k at level 200) : rust_scope.

Definition is_ok {E A} (m : Result E A) : bool :=
  match m with Ok _ => true | Err _ => false end.

Lemma Ok_inj {E A} (x y : A) : @Ok E A x = Ok y -> x = y.
Proof. by intros [= ->]. Qed.

Lemma result_bind_Ok {E A B} (m : Result E A) (k : A -> Result E B) b :
  result_bind m k = Ok b <-> exists a, m = Ok a /\ k a = Ok b.
Proof. destruct m; cbn; naive_solver. Qed.

Lemma ensure_Ok b s u : ensure b s = Ok u <-> b = true.
Proof. destruct b, u; cbn; naive_solver. Qed.

Lemma opt_context_Ok {A} (o : option A) s a : opt_context o s = Ok a <-> o = Some a.
Proof. destruct o; cbn; naive_solver. Qed.

(** [Error::to_string] for the errors of the runtime. *)
Definition error_string {H : Host} (e : anyhow) : string :=
  match e with
  | Msg s => s
  | RunNotFound id => "Flow run not found: " +:+ host_uuid_string id
  | RunRevisionConflict r => "Flow run revision conflict; current revision is " +:+ pretty r
  | HumanTaskNotFound id => "Human task not found: " +:+ host_uuid_string id
  | HumanTaskRevisionConflict r =>
      "Human task revision conflict; current revision is " +:+ pretty r
  | UniqueViolation index => "UNIQUE constraint failed: " +:+ index
  | ApprovalRequired reason => "approval required: " +:+ reason
  | IoNotFound s | WithContext s _ => s
  | Panic s => s
  end.

(** * State *)

(** A method taking [&mut self] that may fail: the state is returned on both
    paths, since Rust keeps the mutations made before an early return. *)
Definition M (S A : Type) : Type := S -> Result anyhow A * S.

Definition m_ret {S A} (a : A) : M S A := fun s => (Ok a, s).
Definition m_bind {S A B} (m : M S A) (k : A -> M S B) : M S B :=
  fun s => match m s with
           | (Ok a, s') => k a s'
           | (Err e, s') => (Err e, s')
           end.
Definition m_get {S} : M S S := fun s => (Ok s, s).
Definition m_put {S} (s : S) : M S unit := fun _ => (Ok tt, s).
Definition m_modify {S} (f : S -> S) : M S unit := fun s => (Ok tt, f s).
Definition m_lift {S A} (r : Result anyhow A) : M S A := fun s => (r, s).
Definition m_fail {S A} (e : anyhow) : M S A := fun s => (Err e, s).

Notation "'let*' x ':=' m 'in' k" := (m_bind m (fun x => k))
  (at level 10, x pattern, m at level 100, k at level 200) : rust_scope.
Notation "m ';;*' k" := (m_bind m (fun _ => k))
  (at level 100, k at level 200, right associativity) : rust_scope.

Lemma m_bind_Ok {S A B} (m : M S A) (k : A -> M S B) s b s' :
  m_bind m k s = (Ok b, s') <-> exists a s1, m s = (Ok a, s1) /\ k a s1 = (Ok b, s').
Proof. unfold m_bind. destruct (m s) as [[a|e] s1]; naive_solver. Qed.

Lemma m_bind_pure {S A B} (m : M S A) (k : A -> M S B) a s s1 :
  m s = (Ok a, s1) -> m_bind m k s = k a s1.
Proof. intros Hm. unfold m_bind. by rewrite Hm. Qed.

Lemma m_bind_cong {S A B} (m : M S A) (k1 k2 : A -> M S B) s :
  (forall a s', m s = (Ok a, s') -> k1 a s' = k2 a s') -> m_bind m k1 s = m_bind m k2 s.
Proof. intros Hk. unfold m_bind. destruct (m s) as [[a|e] s1]; [by apply Hk|done]. Qed.

(** An invariant of the state preserved by a computation, on success and on
    failure alike. *)
Definition preserves {S A} (P : S -> Prop) (m : M S A) : Prop :=
  forall s, P s -> P (snd (m s)).

Lemma preserves_ret {S A} (P : S -> Prop) (a : A) : preserves P (m_ret a).
Proof. intros s Hs. exact Hs. Qed.

Lemma preserves_fail {S A} (P : S -> Prop) e : preserves P (@m_fail S A e).
Proof. intros s Hs. exact Hs. Qed.

Lemma preserves_lift {S A} (P : S -> Prop) (r : Result anyhow A) : preserves P (m_lift r).
Proof. intros s Hs. exact Hs. Qed.

Lemma preserves_bind {S A B} (P : S -> Prop) (m : M S A) (k : A -> M S B) :
  preserves P m -> (forall a, preserves P (k a)) -> preserves P (m_bind m k).
Proof.
  intros Hm Hk s Hs. unfold m_bind. specialize (Hm s Hs).
  destruct (m s) as [[a|e] s1]; cbn in *; [by apply Hk | done].
Qed.

Lemma preserves_modify {S} (P : S -> Prop) f :
  (forall s, P s -> P (f s)) -> preserves P (m_modify f).
Proof. intros Hf s Hs. cbn. auto. Qed.

(** ** Methods that also read the clock or draw an identifier *)

Definition m_self {S} : M (S * World) S := fun '(s, w) => (Ok s, (s, w)).
Definition m_set {S} (s' : S) : M (S * World) unit := fun '(_, w) => (Ok tt, (s', w)).
Definition m_update {S} (f : S -> S) : M (S * World) unit := fun '(s, w) => (Ok tt, (f s, w)).
Definition m_world {S A} (g : World -> A * World) : M (S * World) A :=
  fun '(s, w) => let '(a, w') := g w in (Ok a, (s, w')).
Definition m_ensure {S} (b : bool) (message : string) : M S unit := m_lift (ensure b message).

(** [for x in l { f(x)? }] *)
Fixpoint m_for {S A} (l : list A) (f : A -> M S unit) : M S unit :=
  match l with
  | [] => m_ret tt
  | x :: l' => f x ;;* m_for l' f
  end.

(** The same over plain results. *)
Fixpoint r_for {A} (l : list A) (f : A -> Result anyhow unit) : Result anyhow unit :=
  match l with
  | [] => Ok tt
  | x :: l' => let? _ := f x in r_for l' f
  end.

(** [collect] of results. *)
Fixpoint r_mapM {A B} (f : A -> Result anyhow B) (l : list A) : Result anyhow (list B) :=
  match l with
  | [] => Ok []
  | x :: l' => let? y := f x in let? ys := r_mapM f l' in Ok (y :: ys)
  end.

Lemma r_for_Ok {A} (l : list A) f u :
  r_for l f = Ok u <-> forall x, x ∈ l -> f x = Ok tt.
Proof.
  destruct u. induction l as [|x l IH]; cbn; [set_solver|].
  rewrite result_bind_Ok. split.
  - intros ([] & Hx & Hl) y [->|Hy]%elem_of_cons; [done|]. by apply IH.
  - intros Hall. exists tt. split; [apply Hall; set_solver|]. apply IH. set_solver.
Qed.

Lemma preserves_for {S A} (P : S -> Prop) (l : list A) (f : A -> M S unit) :
  (forall x, x ∈ l -> preserves P (f x)) -> preserves P (m_for l f).
Proof.
  induction l as [|x l IH]; intros Hf; cbn; [apply preserves_ret|].
  apply preserves_bind; [apply Hf; set_solver|]. intros _. apply IH. set_solver.
Qed.

(** ** Frames: what a method leaves alone *)

(** [m] does not change the reading [g] of the state, whether it succeeds or not. *)
Definition keeps {S X A} (g : S -> X) (m : M (S * World) A) : Prop :=
  forall s w, g (fst (snd (m (s, w)))) = g s.

Section keeps.
Context {S X : Type} (g : S -> X).

Lemma keeps_ret {A} (a : A) : keeps g (m_ret a).
Proof using Type. done. Qed.
Lemma keeps_fail {A} e : keeps g (@m_fail _ A e).
Proof using Type. done. Qed.
Lemma keeps_lift {A} (r : Result anyhow A) : keeps g (m_lift r).
Proof using Type. done. Qed.
Lemma keeps_ensure b s : keeps g (m_ensure b s).
Proof using Type. done. Qed.
Lemma keeps_self : keeps g m_self.
Proof using Type. done. Qed.
Lemma keeps_world {A} (f : World -> A * World) : keeps g (m_world f).
Proof using Type. intros s w. unfold m_world. by destruct (f w). Qed.
Lemma keeps_update f : (forall s, g (f s) = g s) -> keeps g (m_update f).
Proof using Type. intros Hf s w. apply Hf. Qed.
Lemma keeps_bind {A B} (m : M (S * World) A) (k : A -> M (S * World) B) :
  keeps g m -> (forall a, keeps g (k a)) -> keeps g (m_bind m k).
Proof using Type.
  intros Hm Hk s w. specialize (Hm s w). unfold m_bind.
  destruct (m (s, w)) as [[a|e] [s1 w1]]; cbn in *; [|done].
  by rewrite Hk.
Qed.
Lemma keeps_for {A} (l : list A) (f : A -> M (S * World) unit) :
  (forall x, keeps g (f x)) -> keeps g (m_for l f).
Proof using Type.
  intros Hf. induction l as [|x l IH]; cbn; [apply keeps_ret|].
  apply keeps_bind; [apply Hf|]. done.
Qed.

(** Using a frame on a known outcome. *)
Lemma keeps_run {A} (m : M (S * World) A) s w r s' w' :
  keeps g m -> m (s, w) = (r, (s', w')) -> g s' = g s.
Proof using Type. intros Hk Hm. specialize (Hk s w). by rewrite Hm in Hk. Qed.
End keeps.

Create HintDb keeps.

(** Decomposes a method; the methods it calls are found in the hint database. *)
Ltac solve_keeps :=
  repeat match goal with
  | |- keeps _ (m_bind _ _) => apply keeps_bind; [|intros]
  | |- keeps _ (m_update _) => apply keeps_update; intros; reflexivity
  | |- keeps _ (m_world _) => apply keeps_world
  | |- keeps _ (m_ret _) => apply keeps_ret
  | |- keeps _ (m_lift _) => apply keeps_lift
  | |- keeps _ (m_ensure _ _) => apply keeps_ensure
  | |- keeps _ (m_fail _) => apply keeps_fail
  | |- keeps _ m_self => apply keeps_self
  | |- keeps _ (m_for _ _) => apply keeps_for; intros
  | |- keeps _ (match ?x with _ => _ end) => destruct x
  | |- keeps _ _ => solve [eauto with keeps]
  end.

(** * Lists *)

(** [Iterator::find_map]. *)
Definition find_map {A B} (f : A -> option B) : list A -> option B :=
  fix go l := match l with
              | [] => None
              | x :: l' => match f x with Some b => Some b | None => go l' end
              end.

(** [iter_mut().find(p)] followed by a mutation of the element found. *)
Fixpoint update_first {A} (p : A -> bool) (f : A -> A) (l : list A) : option (list A) :=
  match l with
  | [] => None
  | x :: l' => if p x then Some (f x :: l') else cons x <$> update_first p f l'
  end.

(** The same through [if let Some(..)]: nothing happens when no element matches. *)
Definition update_first_or {A} (p : A -> bool) (f : A -> A) (l : list A) : list A :=
  default l (update_first p f l).

(** [iter_mut().rev().find(p)] followed by a mutation. *)
Definition update_last {A} (p : A -> bool) (f : A -> A) (l : list A) : option (list A) :=
  reverse <$> update_first p f (reverse l).

Definition find_last {A} (p : A -> bool) (l : list A) : option A := List.find p (reverse l).

Lemma find_map_Some {A B} (f : A -> option B) l b :
  find_map f l = Some b -> exists x, x ∈ l /\ f x = Some b.
Proof.
  induction l as [|y l IH]; cbn; [done|].
  destruct (f y) eqn:Hy; [intros [= ->]; exists y; set_solver|].
  intros (x & Hin & Hx)%IH. exists x. set_solver.
Qed.

Lemma find_map_None {A B} (f : A -> option B) l :
  find_map f l = None <-> forall x, x ∈ l -> f x = None.
Proof.
  induction l as [|y l IH]; cbn; [set_solver|].
  destruct (f y) eqn:Hy; [set_solver|]. rewrite IH. set_solver.
Qed.

Lemma list_find_Some_elem {A} (p : A -> bool) l x :
  List.find p l = Some x -> x ∈ l /\ p x = true.
Proof. intros [Hin Hp]%find_some. split; [by apply list_elem_of_In|done]. Qed.

Lemma list_find_is_Some {A} (p : A -> bool) l x :
  x ∈ l -> p x = true -> is_Some (List.find p l).
Proof.
  intros Hin Hp. destruct (List.find p l) eqn:Hf; [eauto|].
  eapply find_none in Hf; [|by apply list_elem_of_In]. congruence.
Qed.

Lemma update_first_Some {A} (p : A -> bool) f l l' :
  update_first p f l = Some l' ->
  exists l1 x l2, l = l1 ++ x :: l2 /\ p x = true /\ Forall (fun y => p y = false) l1
    /\ l' = l1 ++ f x :: l2.
Proof.
  revert l'. induction l as [|y l IH]; intros l'; cbn; [done|].
  destruct (p y) eqn:Hp.
  - intros [= <-]. exists [], y, l. by repeat split.
  - destruct (update_first p f l) as [l0|]; [|done]. cbn. intros [= <-].
    destruct (IH l0 eq_refl) as (l1 & x & l2 & -> & Hx & Hall & ->).
    exists (y :: l1), x, l2. repeat split; try done. by constructor.
Qed.

Lemma update_first_None {A} (p : A -> bool) f l :
  update_first p f l = None <-> List.find p l = None.
Proof.
  induction l as [|y l IH]; cbn; [done|]. destruct (p y); [done|].
  rewrite <-IH. destruct (update_first p f l); cbn; naive_solver.
Qed.

(** [find] and [update_first] agree on the element. *)
Lemma find_update_first {A} (p : A -> bool) f l x :
  List.find p l = Some x ->
  exists l1 l2, l = l1 ++ x :: l2 /\ Forall (fun y => p y = false) l1
    /\ update_first p f l = Some (l1 ++ f x :: l2).
Proof.
  induction l as [|y l IH]; cbn; [done|]. destruct (p y) eqn:Hy.
  - intros [= ->]. by exists [], l.
  - intros (l1 & l2 & -> & Hall & ->)%IH. exists (y :: l1), l2.
    split_and!; [done|by constructor|done].
Qed.

Lemma find_map_app_None {A B} (f : A -> option B) l1 l2 :
  (forall x, x ∈ l1 -> f x = None) -> find_map f (l1 ++ l2) = find_map f l2.
Proof.
  induction l1 as [|y l1 IH]; cbn; intros Hall; [done|]. rewrite Hall by set_solver.
  apply IH. set_solver.
Qed.

Lemma update_first_length {A} (p : A -> bool) f l l' :
  update_first p f l = Some l' -> length l' = length l.
Proof.
  intros (l1 & x & l2 & -> & _ & _ & ->)%update_first_Some.
  by rewrite !length_app.
Qed.

Lemma update_first_map {A B} (g : A -> B) (p : A -> bool) f l l' :
  (forall x, g (f x) = g x) -> update_first p f l = Some l' -> g <$> l' = g <$> l.
Proof.
  intros Hg (l1 & x & l2 & -> & _ & _ & ->)%update_first_Some.
  by rewrite !fmap_app, !fmap_cons, Hg.
Qed.

Lemma update_first_or_map {A B} (g : A -> B) (p : A -> bool) f l :
  (forall x, g (f x) = g x) -> g <$> update_first_or p f l = g <$> l.
Proof.
  intros Hg. unfold update_first_or.
  destruct (update_first p f l) eqn:Hu; cbn; [by eapply update_first_map|done].
Qed.

(** * Stable sorting by a string key *)

(** [sort_by(|l, r| l.key.cmp(&r.key))]: Rust's sort is stable and [String]
    compares byte by byte, as [String.leb] does. *)
Fixpoint insert_by_key {A} (key : A -> string) (x : A) (l : list A) : list A :=
  match l with
  | [] => [x]
  | y :: l' => if String.leb (key x) (key y) then x :: y :: l'
               else y :: insert_by_key key x l'
  end.

Definition sort_by_key {A} (key : A -> string) (l : list A) : list A :=
  foldr (insert_by_key key) [] l.

(** The elements of a [BTreeSet<String>] in iteration order. *)
Definition btree_elements (s : gset string) : list string := sort_by_key id (elements s).

(** The entries and values of a [BTreeMap<String, _>] in iteration order. *)
Definition btree_entries {A} (m : gmap string A) : list (string * A) :=
  sort_by_key fst (map_to_list m).
Definition btree_values {A} (m : gmap string A) : list A := snd <$> btree_entries m.
Definition btree_keys {A} (m : gmap string A) : list string := fst <$> btree_entries m.

Section sort.
Context {A : Type} (key : A -> string).

Definition key_le (x y : A) : Prop := String.leb (key x) (key y).

Lemma insert_by_key_perm x l : insert_by_key key x l ≡ₚ x :: l.
Proof using Type.
  induction l as [|y l IH]; cbn; [done|]. destruct (String.leb _ _); [done|].
  rewrite IH. apply Permutation_swap.
Qed.

Lemma sort_by_key_perm l : sort_by_key key l ≡ₚ l.
Proof using Type.
  induction l as [|x l IH]; cbn; [done|]. by rewrite insert_by_key_perm, IH.
Qed.

Lemma insert_by_key_sorted x l :
  StronglySorted key_le l -> StronglySorted key_le (insert_by_key key x l).
Proof using Type.
  induction 1 as [|y l Hl IH Hy]; cbn; [repeat constructor|].
  destruct (String.leb (key x) (key y)) eqn:Hxy.
  - constructor; [by constructor|]. constructor; [by apply Is_true_true|].
    eapply Forall_impl; [exact Hy|]. intros z Hz. unfold key_le in *.
    etrans; [|exact Hz]. by apply Is_true_true.
  - constructor; [done|]. rewrite insert_by_key_perm. constructor; [|done].
    destruct (total String.le (key x) (key y)) as [H|H]; [|done].
    apply Is_true_true in H. congruence.
Qed.

Lemma sort_by_key_sorted l : StronglySorted key_le (sort_by_key key l).
Proof using Type.
  induction l as [|x l IH]; cbn; [constructor|]. by apply insert_by_key_sorted.
Qed.

(** Sorting forgets the order of arrival when the keys are distinct. *)
Lemma sort_by_key_unique l1 l2 :
  l1 ≡ₚ l2 -> NoDup (key <$> l1) -> sort_by_key key l1 = sort_by_key key l2.
Proof using Type.
  intros Hp Hnd. apply (StronglySorted_unique_strong key_le).
  - intros x y Hx Hy Hxy Hyx.
    rewrite sort_by_key_perm in Hx. rewrite sort_by_key_perm, <-Hp in Hy.
    assert (key x = key y) as Hk by (by apply (anti_symm String.le)).
    apply list_elem_of_lookup in Hx as [i Hi]. apply list_elem_of_lookup in Hy as [j Hj].
    assert (i = j) as ->; [|congruence].
    eapply (NoDup_lookup (key <$> l1) i j (key x)); [done|..];
      rewrite list_lookup_fmap; [by rewrite Hi|by rewrite Hj, Hk].
  - apply sort_by_key_sorted.
  - apply sort_by_key_sorted.
  - by rewrite !sort_by_key_perm.
Qed.
End sort.

Lemma btree_entries_elem {A} (m : gmap string A) k x : (k, x) ∈ btree_entries m <-> m !! k = Some x.
Proof. unfold btree_entries. rewrite sort_by_key_perm. apply elem_of_map_to_list. Qed.

Lemma btree_values_elem {A} (m : gmap string A) x :
  x ∈ btree_values m <-> exists k, m !! k = Some x.
Proof.
  unfold btree_values. rewrite list_elem_of_fmap. split.
  - intros ([k y] & -> & Hin). exists k. by apply btree_entries_elem.
  - intros [k Hk]. exists (k, x). by rewrite btree_entries_elem.
Qed.

Lemma btree_keys_elem {A} (m : gmap string A) k : k ∈ btree_keys m <-> is_Some (m !! k).
Proof.
  unfold btree_keys. rewrite list_elem_of_fmap. split.
  - intros ([k' y] & -> & Hin). exists y. by apply btree_entries_elem.
  - intros [x Hx]. exists (k, x). by rewrite btree_entries_elem.
Qed.

Lemma btree_elements_elem s x : x ∈ btree_elements s <-> x ∈ s.
Proof. unfold btree_elements. rewrite sort_by_key_perm. apply elem_of_elements. Qed.

Lemma btree_elements_nodup s : NoDup (btree_elements s).
Proof. unfold btree_elements. rewrite sort_by_key_perm. apply NoDup_elements. Qed.

(** * Record update *)

(** [r <| f := v |>] is the record [r] with its field [f] replaced.  A setter is
    derived from the record's eta-expansion by abstracting the projection. *)
Class Setter {R T : Type} (proj : R -> T) := set_field : T -> R -> R.
Arguments set_field {R T} proj {Setter} v r.
Notation "r '<|' f ':=' v '|>'" := (set_field f v r)
  (at level 12, left associativity, f at level 0, v at level 200,
   format "r  '<|'  f  ':='  v  '|>'") : rust_scope.

Ltac derive_setter eta proj :=
  let e := eval red in eta in
  let e := eval pattern proj in e in
  match e with ?F _ => let t := constr:(fun v r => F (fun _ => v) r) in
    let t := eval cbv beta in t in exact t end.

(** * Automation *)

Create HintDb rust.
Create Rewrite HintDb rust_inv.
#[export] Hint Resolve preserves_ret preserves_fail preserves_lift preserves_bind
  preserves_modify u32_saturating_add_range : rust.
#[export] Hint Rewrite @result_bind_Ok @opt_context_Ok ensure_Ok : rust_inv.

(** Opens a chain of [let?]s that is known to have succeeded. *)
Ltac invert_ok :=
  repeat match goal with
  | H : result_bind _ _ = Ok _ |- _ => apply result_bind_Ok in H as (? & ? & ?)
  | H : ensure _ _ = Ok _ |- _ => apply ensure_Ok in H
  | H : opt_context _ _ = Ok _ |- _ => apply opt_context_Ok in H
  | H : m_bind _ _ _ = (Ok _, _) |- _ => apply m_bind_Ok in H as (? & ? & ? & ?)
  | H : (Err _, _) = (Ok _, _) |- _ => discriminate H
  | _ => progress simplify_eq
  end.
