(* ===== verification/RustStr.v ===== *)
(** Rust's [str] methods as the program uses them.  A [String] is its UTF-8 byte
    sequence, i.e. a Rocq [string]; lengths and indices are byte counts, and
    [trim] removes the encodings of Unicode's [White_Space] characters. *)
From S2P Require Import Prelude.

Definition byte_of (a : Ascii.ascii) : N := Ascii.N_of_ascii a.
Definition str_len (s : string) : Z := Z.of_nat (String.length s).
Definition str_is_empty (s : string) : bool := match s with "" => true | _ => false end.

(** * Characters *)

(** A character literal of the source, written as a one-character string. *)
Definition chr (s : string) : Ascii.ascii :=
  match s with String a _ => a | "" => Ascii.zero end.

(** [char::is_ascii_alphanumeric] on a byte. *)
Definition is_ascii_digit (a : Ascii.ascii) : bool :=
  let n := byte_of a in (48 <=? n)%N && (n <=? 57)%N.
Definition is_ascii_lower (a : Ascii.ascii) : bool :=
  let n := byte_of a in (97 <=? n)%N && (n <=? 122)%N.
Definition is_ascii_upper (a : Ascii.ascii) : bool :=
  let n := byte_of a in (65 <=? n)%N && (n <=? 90)%N.
Definition is_ascii_alphanumeric (a : Ascii.ascii) : bool :=
  is_ascii_digit a || is_ascii_lower a || is_ascii_upper a.
Definition is_ascii (a : Ascii.ascii) : bool := (byte_of a <? 128)%N.
Definition to_ascii_lower (a : Ascii.ascii) : Ascii.ascii :=
  if is_ascii_upper a then Ascii.ascii_of_N (byte_of a + 32) else a.

Fixpoint str_all (p : Ascii.ascii -> bool) (s : string) : bool :=
  match s with "" => true | String a s' => p a && str_all p s' end.

Fixpoint str_map (f : Ascii.ascii -> Ascii.ascii) (s : string) : string :=
  match s with "" => "" | String a s' => String (f a) (str_map f s') end.

(** [chars().count()]: the bytes that start a character. *)
Definition is_continuation (a : Ascii.ascii) : bool :=
  let n := byte_of a in (128 <=? n)%N && (n <? 192)%N.
Fixpoint chars_count (s : string) : Z :=
  match s with
  | "" => 0
  | String a s' => (if is_continuation a then 0 else 1) + chars_count s'
  end.

Definition eq_ignore_ascii_case (s t : string) : bool :=
  String.eqb (str_map to_ascii_lower s) (str_map to_ascii_lower t).

(** * Substrings *)

Fixpoint strip_prefix (pat s : string) : option string :=
  match pat, s with
  | "", _ => Some s
  | String a pat', String b s' =>
      if Ascii.eqb a b then strip_prefix pat' s' else None
  | _, _ => None
  end.

Definition starts_with (pat s : string) : bool :=
  match strip_prefix pat s with Some _ => true | None => false end.

(** [split_once], and with it [find] and [contains]. *)
Fixpoint split_once (pat s : string) : option (string * string) :=
  match strip_prefix pat s with
  | Some rest => Some ("", rest)
  | None =>
      match s with
      | "" => None
      | String a s' =>
          match split_once pat s' with
          | Some (l, r) => Some (String a l, r)
          | None => None
          end
      end
  end.

Definition str_find (pat s : string) : option nat :=
  match split_once pat s with Some (l, _) => Some (String.length l) | None => None end.

Definition str_contains (pat s : string) : bool :=
  match split_once pat s with Some _ => true | None => false end.

(** [split(c)] on a one-byte separator: never empty. *)
Fixpoint split_char (c : Ascii.ascii) (s : string) : list string :=
  match s with
  | "" => [""]
  | String a s' =>
      if Ascii.eqb a c then "" :: split_char c s'
      else match split_char c s' with
           | seg :: segs => String a seg :: segs
           | [] => [String a ""]
           end
  end.

(** [replace(c, with)] for a one-byte pattern. *)
Fixpoint replace_char (c : Ascii.ascii) (w s : string) : string :=
  match s with
  | "" => ""
  | String a s' => (if Ascii.eqb a c then w else String a "") +:+ replace_char c w s'
  end.

(** [trim_start_matches(pat)] removes the pattern as long as it is a prefix. *)
Fixpoint trim_start_matches_fuel (n : nat) (pat s : string) : string :=
  match n with
  | O => s
  | S n' => match strip_prefix pat s with
            | Some rest => trim_start_matches_fuel n' pat rest
            | None => s
            end
  end.
Definition trim_start_matches (pat s : string) : string :=
  trim_start_matches_fuel (String.length s) pat s.

(** [trim_matches(|c| p c)] for a predicate on ASCII characters. *)
Fixpoint trim_start_while (p : Ascii.ascii -> bool) (s : string) : string :=
  match s with
  | "" => ""
  | String a s' => if p a then trim_start_while p s' else s
  end.
Definition trim_matches (p : Ascii.ascii -> bool) (s : string) : string :=
  String.rev (trim_start_while p (String.rev (trim_start_while p s))).

(** * Whitespace *)

Definition ws1 (a : N) : bool := ((9 <=? a) && (a <=? 13) || (a =? 32))%N.
Definition ws2 (a b : N) : bool := ((a =? 194) && ((b =? 133) || (b =? 160)))%N.
Definition ws3 (a b c : N) : bool :=
  ((a =? 225) && (b =? 154) && (c =? 128)
   || (a =? 226) && (b =? 128)
      && ((128 <=? c) && (c <=? 138) || (c =? 168) || (c =? 169) || (c =? 175))
   || (a =? 226) && (b =? 129) && (c =? 159)
   || (a =? 227) && (b =? 128) && (c =? 128))%N.

(** One leading white-space character removed. *)
Definition strip_ws (s : string) : option string :=
  match s with
  | "" => None
  | String a s1 =>
      if ws1 (byte_of a) then Some s1 else
      match s1 with
      | "" => None
      | String b s2 =>
          if ws2 (byte_of a) (byte_of b) then Some s2 else
          match s2 with
          | "" => None
          | String c s3 =>
              if ws3 (byte_of a) (byte_of b) (byte_of c) then Some s3 else None
          end
      end
  end.

(** One trailing white-space character removed, on the reversed bytes. *)
Definition strip_ws_rev (s : string) : option string :=
  match s with
  | "" => None
  | String a s1 =>
      if ws1 (byte_of a) then Some s1 else
      match s1 with
      | "" => None
      | String b s2 =>
          if ws2 (byte_of b) (byte_of a) then Some s2 else
          match s2 with
          | "" => None
          | String c s3 =>
              if ws3 (byte_of c) (byte_of b) (byte_of a) then Some s3 else None
          end
      end
  end.

Fixpoint strip_all (f : string -> option string) (n : nat) (s : string) : string :=
  match n with
  | O => s
  | S n' => match f s with Some r => strip_all f n' r | None => s end
  end.

Definition trim_start (s : string) : string := strip_all strip_ws (String.length s) s.
Definition trim_end (s : string) : string :=
  String.rev (strip_all strip_ws_rev (String.length s) (String.rev s)).
Definition trim (s : string) : string := trim_end (trim_start s).
#[global] Arguments trim : simpl never.

(** [.map(str::trim).filter(|v| !v.is_empty())] on an optional note. *)
Definition trim_nonempty (o : option string) : option string :=
  match o with
  | Some s => if str_is_empty (trim s) then None else Some (trim s)
  | None => None
  end.

(** * Case *)

(** [str::to_lowercase] follows Unicode's tables outside ASCII. *)
Class Unicode := { unicode_lowercase : string -> string }.

Definition to_lowercase `{Unicode} (s : string) : string :=
  if str_all is_ascii s then str_map to_ascii_lower s else unicode_lowercase s.
