(* ===== verification/RustStrFacts.v ===== *)
(** Facts about the [str] methods of [RustStr]: splitting, prefixes, trimming. *)
From S2P Require Import Prelude RustStr.

Lemma str_is_empty_spec s : str_is_empty s = true <-> s = "".
Proof. destruct s; naive_solver. Qed.

Lemma str_is_empty_false s : str_is_empty s = false <-> s <> "".
Proof. destruct s; naive_solver. Qed.

Lemma str_length_app s t : String.length (s +:+ t) = (String.length s + String.length t)%nat.
Proof. induction s as [|a s IH]; simpl; [done|]. by rewrite IH. Qed.

Lemma str_app_assoc s t u : (s +:+ t) +:+ u = s +:+ (t +:+ u).
Proof. induction s as [|a s IH]; simpl; [done|]. by rewrite IH. Qed.

Lemma str_app_nil_r s : s +:+ "" = s.
Proof. induction s as [|a s IH]; simpl; [done|]. by rewrite IH. Qed.

Lemma strip_prefix_Some pat s r : strip_prefix pat s = Some r <-> s = pat +:+ r.
Proof.
  revert s. induction pat as [|a pat IH]; intros s; simpl; [naive_solver|].
  destruct s as [|b s]; [done|].
  destruct (Ascii.eqb_spec a b) as [->|Hab]; [rewrite IH|]; naive_solver.
Qed.

Lemma strip_prefix_app pat r : strip_prefix pat (pat +:+ r) = Some r.
Proof. by apply strip_prefix_Some. Qed.

Lemma split_once_eq pat s :
  split_once pat s =
  match strip_prefix pat s with
  | Some rest => Some ("", rest)
  | None => match s with
            | "" => None
            | String a s' => match split_once pat s' with
                             | Some (l, r) => Some (String a l, r)
                             | None => None
                             end
            end
  end.
Proof. by destruct s. Qed.

Lemma split_once_Some pat s l r : split_once pat s = Some (l, r) -> s = l +:+ pat +:+ r.
Proof.
  revert l. induction s as [|a s IH]; intros l; rewrite split_once_eq;
    destruct (strip_prefix pat _) eqn:Hp; try done.
  - apply strip_prefix_Some in Hp. naive_solver.
  - apply strip_prefix_Some in Hp. naive_solver.
  - destruct (split_once pat s) as [[l' r']|]; [|done]. intros [= <- <-]. simpl.
    by rewrite (IH l' eq_refl).
Qed.

(** There is no occurrence when the split fails. *)
Lemma split_once_None pat s : split_once pat s = None <-> forall l r, s <> l +:+ pat +:+ r.
Proof.
  split.
  - induction s as [|a s IH]; rewrite split_once_eq;
      destruct (strip_prefix pat _) eqn:Hp; try done.
    + intros _ [|c l] r; [|done]. intros Heq. simpl in Heq.
      by rewrite Heq, strip_prefix_app in Hp.
    + destruct (split_once pat s) as [[]|] eqn:Hs; [done|]. intros _ [|c l] r; simpl.
      * intros Heq. by rewrite Heq, strip_prefix_app in Hp.
      * intros [= _ ->]. by eapply IH.
  - intros H. destruct (split_once pat s) as [[l r]|] eqn:Hs; [|done].
    apply split_once_Some in Hs. by destruct (H l r).
Qed.

Lemma str_contains_spec pat s : str_contains pat s = true <-> exists l r, s = l +:+ pat +:+ r.
Proof.
  unfold str_contains. destruct (split_once pat s) as [[l r]|] eqn:Hs.
  - apply split_once_Some in Hs. naive_solver.
  - rewrite split_once_None in Hs. naive_solver.
Qed.

(** * Trimming *)

Section strip.
Variable f : string -> option string.
Hypothesis f_shorter : forall s r, f s = Some r -> (String.length r < String.length s)%nat.

Lemma strip_all_done n s : (String.length s <= n)%nat -> f (strip_all f n s) = None.
Proof using f_shorter.
  revert s. induction n as [|n IH]; intros s Hn; simpl.
  - destruct (f s) eqn:Hf; [|done]. apply f_shorter in Hf. lia.
  - destruct (f s) as [r|] eqn:Hf; [|done]. apply IH. apply f_shorter in Hf. lia.
Qed.

Lemma strip_all_fixed n s : f s = None -> strip_all f n s = s.
Proof using Type. intros Hf. destruct n; simpl; [done|]. by rewrite Hf. Qed.

(** What is left is a suffix of the input. *)
Hypothesis f_suffix : forall s r, f s = Some r -> exists p, s = p +:+ r.

Lemma strip_all_suffix n s : exists p, s = p +:+ strip_all f n s.
Proof using f_suffix.
  clear f_shorter. revert s. induction n as [|n IH]; intros s; simpl; [by exists ""|].
  destruct (f s) as [r|] eqn:Hf; [|by exists ""].
  destruct (f_suffix _ _ Hf) as [p ->]. destruct (IH r) as [q Hq].
  exists (p +:+ q). by rewrite str_app_assoc, <-Hq.
Qed.
End strip.

Ltac solve_strip_suffix :=
  intros ?; repeat case_match; simplify_eq;
  match goal with
  | |- exists p, String ?a ?r = p +:+ ?r /\ _ => by exists (String a "")
  | |- exists p, String ?a (String ?b ?r) = p +:+ ?r /\ _ =>
      by exists (String a (String b ""))
  | |- exists p, String ?a (String ?b (String ?c ?r)) = p +:+ ?r /\ _ =>
      by exists (String a (String b (String c "")))
  end.

Lemma strip_ws_suffix s r : strip_ws s = Some r -> exists p, s = p +:+ r /\ p <> "".
Proof. unfold strip_ws. solve_strip_suffix. Qed.

Lemma strip_ws_rev_suffix s r : strip_ws_rev s = Some r -> exists p, s = p +:+ r /\ p <> "".
Proof. unfold strip_ws_rev. solve_strip_suffix. Qed.

Lemma suffix_shorter f :
  (forall s r, f s = Some r -> exists p, s = p +:+ r /\ p <> "") ->
  forall s r, f s = Some r -> (String.length r < String.length s)%nat.
Proof.
  intros H s r (p & -> & Hp)%H. rewrite str_length_app. destruct p; [done|]. simpl. lia.
Qed.

(** Appending bytes does not hide a leading white-space character. *)
Lemma strip_ws_app s t r : strip_ws s = Some r -> exists r', strip_ws (s +:+ t) = Some r'.
Proof.
  unfold strip_ws. intros Hr. destruct s as [|a [|b [|c s]]]; simpl in *;
    repeat case_match; simplify_eq; eauto.
Qed.

Lemma str_rev_app_spec s t u : String.rev_app s t +:+ u = String.rev_app s (t +:+ u).
Proof. revert t. induction s as [|a s IH]; intros t; simpl; [done|]. by rewrite IH. Qed.

Lemma str_rev_cons a s : String.rev (String a s) = String.rev s +:+ String a "".
Proof. unfold String.rev. simpl. by rewrite str_rev_app_spec. Qed.

Lemma str_rev_app s t : String.rev (s +:+ t) = String.rev t +:+ String.rev s.
Proof.
  induction s as [|a s IH]; simpl.
  - by rewrite str_app_nil_r.
  - by rewrite !str_rev_cons, IH, str_app_assoc.
Qed.

Lemma str_rev_involutive s : String.rev (String.rev s) = s.
Proof.
  induction s as [|a s IH]; [done|]. by rewrite str_rev_cons, str_rev_app, IH.
Qed.

Lemma str_rev_length s : String.length (String.rev s) = String.length s.
Proof.
  induction s as [|a s IH]; [done|]. rewrite str_rev_cons, str_length_app, IH. simpl. lia.
Qed.

Lemma trim_start_done s : strip_ws (trim_start s) = None.
Proof. apply strip_all_done; [apply suffix_shorter, strip_ws_suffix|done]. Qed.

Lemma trim_end_done s : strip_ws_rev (String.rev (trim_end s)) = None.
Proof.
  unfold trim_end. rewrite str_rev_involutive. apply strip_all_done.
  - apply suffix_shorter, strip_ws_rev_suffix.
  - by rewrite str_rev_length.
Qed.

(** [trim_end] keeps a prefix. *)
Lemma trim_end_prefix s : exists p, s = trim_end s +:+ p.
Proof.
  unfold trim_end.
  destruct (strip_all_suffix strip_ws_rev) with (n := String.length s) (s := String.rev s)
    as [p Hp].
  { intros t r (q & -> & _)%strip_ws_rev_suffix. by exists q. }
  exists (String.rev p). rewrite <-str_rev_app, <-Hp. by rewrite str_rev_involutive.
Qed.

Lemma trim_start_trim s : strip_ws (trim s) = None.
Proof.
  unfold trim. destruct (trim_end_prefix (trim_start s)) as [p Hp].
  destruct (strip_ws (trim_end (trim_start s))) as [r|] eqn:Hr; [|done].
  apply (strip_ws_app _ p) in Hr as [r' Hr']. rewrite <-Hp in Hr'.
  by rewrite trim_start_done in Hr'.
Qed.

Lemma trim_idemp s : trim (trim s) = trim s.
Proof.
  unfold trim at 1. unfold trim_start. rewrite strip_all_fixed by apply trim_start_trim.
  unfold trim_end at 1. rewrite strip_all_fixed; [by rewrite str_rev_involutive|].
  apply trim_end_done.
Qed.

Lemma trim_nonempty_Some o s : trim_nonempty o = Some s -> s <> "" /\ trim s = s.
Proof.
  unfold trim_nonempty. destruct o as [t|]; [|done].
  destruct (str_is_empty (trim t)) eqn:He; [done|]. intros [= <-].
  split; [by apply str_is_empty_false|apply trim_idemp].
Qed.

(** * ASCII strings *)

Lemma str_all_app p s t : str_all p (s +:+ t) = str_all p s && str_all p t.
Proof. induction s as [|a s IH]; simpl; [done|]. by rewrite IH, andb_assoc. Qed.

Lemma str_all_rev p s : str_all p (String.rev s) = str_all p s.
Proof.
  induction s as [|a s IH]; [done|]. rewrite str_rev_cons, str_all_app, IH. simpl.
  by rewrite andb_true_r, andb_comm.
Qed.

Lemma str_map_app f s t : str_map f (s +:+ t) = str_map f s +:+ str_map f t.
Proof. induction s as [|a s IH]; simpl; [done|]. by rewrite IH. Qed.

Lemma str_map_rev f s : String.rev (str_map f s) = str_map f (String.rev s).
Proof.
  induction s as [|a s IH]; [done|]. simpl str_map. by rewrite !str_rev_cons, IH, str_map_app.
Qed.

Lemma str_map_map f g s : str_map f (str_map g s) = str_map (fun a => f (g a)) s.
Proof. induction s as [|a s IH]; simpl; [done|]. by rewrite IH. Qed.

Lemma str_map_ext f g s : (forall a, f a = g a) -> str_map f s = str_map g s.
Proof. intros H. induction s as [|a s IH]; simpl; [done|]. by rewrite IH, H. Qed.

Lemma replace_char_map c w s :
  replace_char c (String w "") s = str_map (fun a => if Ascii.eqb a c then w else a) s.
Proof. induction s as [|a s IH]; simpl; [done|]. rewrite IH. by destruct (Ascii.eqb a c). Qed.

Lemma trim_fixed s : strip_ws s = None -> strip_ws_rev (String.rev s) = None -> trim s = s.
Proof.
  intros H1 H2. unfold trim, trim_start. rewrite strip_all_fixed by done.
  unfold trim_end. rewrite strip_all_fixed by done. apply str_rev_involutive.
Qed.

(** The first byte of an ASCII string decides whether white space leads it. *)
Definition ws_head (s : string) : bool :=
  match s with "" => false | String a _ => ws1 (byte_of a) end.

Lemma ascii_not_ws2 a b : is_ascii a = true -> ws2 (byte_of a) b = false /\ ws2 b (byte_of a) = false.
Proof.
  unfold is_ascii, ws2. intros H%N.ltb_lt.
  split; repeat match goal with |- context [(?x =? ?y)%N] => destruct (N.eqb_spec x y) end;
    try done; lia.
Qed.

Lemma ascii_not_ws3 a b c :
  is_ascii a = true -> ws3 (byte_of a) b c = false /\ ws3 b c (byte_of a) = false.
Proof.
  unfold is_ascii, ws3. intros H%N.ltb_lt. split.
  - repeat match goal with |- context [(byte_of a =? ?y)%N] =>
      destruct (N.eqb_spec (byte_of a) y); [lia|] end. done.
  - replace (byte_of a =? 128)%N with false by (symmetry; apply N.eqb_neq; lia).
    replace (128 <=? byte_of a)%N with false by (symmetry; apply N.leb_gt; lia).
    repeat match goal with |- context [(byte_of a =? ?y)%N] =>
      destruct (N.eqb_spec (byte_of a) y); [lia|] end.
    by rewrite !andb_false_r.
Qed.

Lemma strip_ws_ascii s : str_all is_ascii s = true -> strip_ws s = None <-> ws_head s = false.
Proof.
  destruct s as [|a [|b [|c s]]]; simpl; rewrite ?andb_true_iff; intros Hs; try done;
    destruct (ws1 (byte_of a)); try done.
  - by rewrite (proj1 (ascii_not_ws2 a (byte_of b) (proj1 Hs))).
  - rewrite (proj1 (ascii_not_ws2 a (byte_of b) (proj1 Hs))).
    by rewrite (proj1 (ascii_not_ws3 a (byte_of b) (byte_of c) (proj1 Hs))).
Qed.

Lemma strip_ws_rev_ascii s :
  str_all is_ascii s = true -> strip_ws_rev s = None <-> ws_head s = false.
Proof.
  destruct s as [|a [|b [|c s]]]; simpl; rewrite ?andb_true_iff; intros Hs; try done;
    destruct (ws1 (byte_of a)); try done.
  - by rewrite (proj2 (ascii_not_ws2 a (byte_of b) (proj1 Hs))).
  - rewrite (proj2 (ascii_not_ws2 a (byte_of b) (proj1 Hs))).
    by rewrite (proj2 (ascii_not_ws3 a (byte_of c) (byte_of b) (proj1 Hs))).
Qed.

(** Mapping bytes without creating white space keeps a trimmed string trimmed. *)
Lemma trim_map_fixed f s :
  (forall a, is_ascii a = true -> is_ascii (f a) = true) ->
  (forall a, ws1 (byte_of a) = false -> ws1 (byte_of (f a)) = false) ->
  str_all is_ascii (trim s) = true -> trim (str_map f (trim s)) = str_map f (trim s).
Proof.
  intros Hf Hw Ha.
  assert (Hmap : forall t, str_all is_ascii t = true -> str_all is_ascii (str_map f t) = true).
  { induction t as [|b t IH]; simpl; [done|]. rewrite !andb_true_iff. intros []. auto. }
  assert (Hhead : forall t, ws_head t = false -> ws_head (str_map f t) = false)
    by (intros []; simpl; auto).
  apply trim_fixed.
  - apply strip_ws_ascii; [by apply Hmap|]. apply Hhead, strip_ws_ascii; [done|].
    apply trim_start_trim.
  - rewrite str_map_rev. apply strip_ws_rev_ascii; [apply Hmap; by rewrite str_all_rev|].
    apply Hhead, strip_ws_rev_ascii; [by rewrite str_all_rev|]. apply trim_end_done.
Qed.
