(* ===== verification/RustText.v ===== *)
(** More of Rust's [str]: searching, replacing, lines and numbers, on byte strings. *)
From S2P Require Import Prelude RustStr RustStrFacts.

Definition strip_suffix (pat s : string) : option string :=
  String.rev <$> strip_prefix (String.rev pat) (String.rev s).
Definition ends_with (pat s : string) : bool :=
  match strip_suffix pat s with Some _ => true | None => false end.

(** Indices are byte counts; those the program computes are character boundaries. *)
Definition str_take (n : nat) (s : string) : string := String.substring 0 n s.
Definition str_drop (n : nat) (s : string) : string := String.substring n (String.length s - n) s.

(** [String::join] / [[String]::join(sep)]. *)
Fixpoint str_join (sep : string) (l : list string) : string :=
  match l with
  | [] => ""
  | [s] => s
  | s :: l' => s +:+ sep +:+ str_join sep l'
  end.

(** [str::replace] of a nonempty pattern; [fuel] bounds the occurrences. *)
Fixpoint str_replace_fuel (fuel : nat) (pat with_ s : string) : string :=
  match fuel with
  | O => s
  | S fuel' => match split_once pat s with
               | Some (before, after) => before +:+ with_ +:+ str_replace_fuel fuel' pat with_ after
               | None => s
               end
  end.
Definition str_replace (pat with_ s : string) : string :=
  str_replace_fuel (String.length s) pat with_ s.

(** [match_indices], without the matched text: the leftmost occurrences that do not
    overlap.  The empty pattern occurs at every character boundary. *)
Fixpoint occurrences_fuel (fuel : nat) (pat s : string) (offset : nat) : list nat :=
  match fuel with
  | O => []
  | S fuel' =>
      match split_once pat s with
      | Some (before, after) =>
          let index := (offset + String.length before)%nat in
          index :: occurrences_fuel fuel' pat after (index + String.length pat)
      | None => []
      end
  end.

Fixpoint boundaries (s : string) (offset : nat) : list nat :=
  match s with
  | "" => [offset]
  | String a s' => (if is_continuation a then [] else [offset]) ++ boundaries s' (S offset)
  end.

Definition match_indices (pat s : string) : list nat :=
  if str_is_empty pat then boundaries s 0 else occurrences_fuel (String.length s) pat s 0.

(** [chars], each character with its bytes. *)
Fixpoint str_chars (s : string) : list string :=
  match s with
  | "" => []
  | String a s' =>
      match str_chars s' with
      | String b c :: rest =>
          if is_continuation b then String a (String b c) :: rest
          else String a "" :: String b c :: rest
      | rest => String a "" :: rest
      end
  end.

(** [String::replace_range] on [start..start + len] and [insert_str]. *)
Definition replace_range (start len : nat) (with_ s : string) : string :=
  str_take start s +:+ with_ +:+ str_drop (start + len) s.
Definition insert_str (index : nat) (with_ s : string) : string := replace_range index 0 with_ s.

(** * Lines *)

Definition lf : string := Eval cbv in String (Ascii.ascii_of_nat 10) "".
Definition cr : string := Eval cbv in String (Ascii.ascii_of_nat 13) "".
Definition crlf : string := Eval cbv in cr +:+ lf.

(** [split_inclusive('\n')]: each line with its end, none of them empty. *)
Fixpoint split_inclusive (s : string) : list string :=
  match s with
  | "" => []
  | String a s' =>
      if Ascii.eqb a (chr lf) then lf :: split_inclusive s'
      else match split_inclusive s' with
           | line :: lines => String a line :: lines
           | [] => [String a ""]
           end
  end.

(** A line without its ["\n"] or ["\r\n"]. *)
Definition strip_line_end (line : string) : string :=
  match strip_suffix lf line with
  | Some line => default line (strip_suffix cr line)
  | None => line
  end.
Definition str_lines (s : string) : list string := strip_line_end <$> split_inclusive s.

(** * Words and numbers *)

(** The text up to the first white-space character, and from there on. *)
Fixpoint next_word (s : string) : string * string :=
  match s with
  | "" => ("", "")
  | String a s' =>
      match strip_ws s with
      | Some _ => ("", s)
      | None => let '(word, rest) := next_word s' in (String a word, rest)
      end
  end.

Fixpoint split_whitespace_fuel (fuel : nat) (s : string) : list string :=
  match fuel, trim_start s with
  | O, _ | _, "" => []
  | S fuel', s => let '(word, rest) := next_word s in word :: split_whitespace_fuel fuel' rest
  end.
Definition split_whitespace (s : string) : list string := split_whitespace_fuel (String.length s) s.

Fixpoint parse_digits (acc : Z) (s : string) : option Z :=
  match s with
  | "" => Some acc
  | String a s' =>
      if is_ascii_digit a then parse_digits (acc * 10 + (Z.of_N (byte_of a) - 48)) s' else None
  end.

(** [parse::<usize>]: an optional plus sign and digits that fit. *)
Definition parse_usize (s : string) : option Z :=
  let digits := default s (strip_prefix "+" s) in
  if str_is_empty digits then None else
  match parse_digits 0 digits with
  | Some n => if n <=? usize_max then Some n else None
  | None => None
  end.

(** * UTF-8 *)

(** [str::from_utf8(bytes).is_ok()]: well-formed byte sequences. *)
Fixpoint utf8_valid (s : string) : bool :=
  let within a lo hi := (lo <=? byte_of a)%N && (byte_of a <=? hi)%N in
  match s with
  | "" => true
  | String a s1 =>
      if is_ascii a then utf8_valid s1 else
      match s1 with
      | "" => false
      | String b s2 =>
          if within a 194%N 223%N then is_continuation b && utf8_valid s2 else
          match s2 with
          | "" => false
          | String c s3 =>
              if within a 224%N 239%N then
                within b (if N.eqb (byte_of a) 224 then 160 else 128)%N
                         (if N.eqb (byte_of a) 237 then 159 else 191)%N
                && is_continuation c && utf8_valid s3
              else
              match s3 with
              | "" => false
              | String d s4 =>
                  within a 240%N 244%N
                  && within b (if N.eqb (byte_of a) 240 then 144 else 128)%N
                              (if N.eqb (byte_of a) 244 then 143 else 191)%N
                  && is_continuation c && is_continuation d && utf8_valid s4
              end
          end
      end
  end.

Definition utf8_bom : string :=
  Eval cbv in String (Ascii.ascii_of_nat 239) (String (Ascii.ascii_of_nat 187)
                (String (Ascii.ascii_of_nat 191) "")).

(** * Vectors *)

(** [Vec::dedup_by] keeps the first of consecutive equal elements. *)
Fixpoint dedup_after {A} (same : A -> A -> bool) (kept : A) (l : list A) : list A :=
  match l with
  | [] => []
  | y :: l' => if same y kept then dedup_after same kept l' else y :: dedup_after same y l'
  end.
Definition dedup_by {A} (same : A -> A -> bool) (l : list A) : list A :=
  match l with [] => [] | x :: l' => x :: dedup_after same x l' end.
