(* ===== verification/RustTextFacts.v ===== *)
(** Lemmas about searching, replacing and splitting text. *)
From S2P Require Import Prelude RustStr RustStrFacts RustText.

(** * Taking and dropping *)

Lemma str_take_app l r : str_take (String.length l) (l +:+ r) = l.
Proof. unfold str_take. induction l as [|a l IH]; cbn; [by destruct r|]. by rewrite IH. Qed.

Lemma substring_all s : String.substring 0 (String.length s) s = s.
Proof. induction s as [|a s IH]; cbn; [done|]. by rewrite IH. Qed.

Lemma str_drop_app l r : str_drop (String.length l) (l +:+ r) = r.
Proof.
  unfold str_drop. rewrite str_length_app.
  replace (String.length l + String.length r - String.length l)%nat with (String.length r) by lia.
  induction l as [|a l IH]; cbn; [apply substring_all|done].
Qed.

Lemma str_length_join3 l p r :
  String.length (l +:+ p +:+ r) = (String.length l + String.length p + String.length r)%nat.
Proof. rewrite !str_length_app. lia. Qed.

Lemma replace_range_app l old new r :
  replace_range (String.length l) (String.length old) new (l +:+ old +:+ r) = l +:+ new +:+ r.
Proof.
  unfold replace_range. rewrite str_take_app. f_equal. f_equal.
  rewrite <- str_length_app, <- str_app_assoc. apply str_drop_app.
Qed.

Lemma insert_str_app l new r : insert_str (String.length l) new (l +:+ r) = l +:+ new +:+ r.
Proof. apply (replace_range_app l ""). Qed.

(** * Occurrences *)

Lemma str_app_inj_len l1 l2 r1 r2 :
  String.length l1 = String.length l2 -> l1 +:+ r1 = l2 +:+ r2 -> l1 = l2 /\ r1 = r2.
Proof.
  revert l2. induction l1 as [|a l1 IH]; intros [|b l2]; cbn; try done.
  intros [= Hl] [= -> H]. by destruct (IH _ Hl H) as [-> ->].
Qed.

(** The text before an occurrence and after it, given its index. *)
Definition occurs_at (pat s : string) (i : nat) : Prop :=
  exists l r, s = l +:+ pat +:+ r /\ i = String.length l.

Lemma occurrences_sound n pat s off i :
  i ∈ occurrences_fuel n pat s off -> exists j, i = (off + j)%nat /\ occurs_at pat s j.
Proof.
  revert s off. induction n as [|n IH]; intros s off; cbn; [by intros ?%not_elem_of_nil|].
  destruct (split_once pat s) as [[l r]|] eqn:E; [|by intros ?%not_elem_of_nil].
  apply split_once_Some in E as ->. intros [->|Hin]%elem_of_cons.
  - eexists. split; [done|]. by exists l, r.
  - apply IH in Hin as (j & -> & l' & r' & -> & ->).
    exists (String.length l + String.length pat + String.length l')%nat. split; [lia|].
    exists (l +:+ pat +:+ l'), r'. by rewrite !str_app_assoc, str_length_join3.
Qed.

Lemma occurrences_head n pat s off :
  (0 < n)%nat -> occurrences_fuel n pat s off = [] <-> split_once pat s = None.
Proof. destruct n; [lia|]. cbn. by destruct (split_once pat s) as [[]|]. Qed.

Lemma boundaries_sound s off i : i ∈ boundaries s off -> (off <= i <= off + String.length s)%nat.
Proof.
  revert off. induction s as [|a s IH]; intros off; cbn.
  - intros ->%list_elem_of_singleton. lia.
  - intros [Hi|Hi%IH]%elem_of_app; [|lia]. destruct (is_continuation a); set_solver by lia.
Qed.

(** A match is an occurrence, and there is one as soon as the pattern occurs. *)
Lemma match_indices_sound pat s i : i ∈ match_indices pat s -> occurs_at pat s i.
Proof.
  unfold match_indices. destruct (str_is_empty pat) eqn:E.
  - apply str_is_empty_spec in E as ->. intros Hi%boundaries_sound. 
    exists (str_take i s), (str_drop i s). cbn [String.append].
    assert (forall n s, (n <= String.length s)%nat ->
              s = str_take n s +:+ str_drop n s /\ n = String.length (str_take n s)) as H.
    { clear. intros n s Hn. unfold str_take, str_drop. revert n Hn.
      induction s as [|a s IH]; intros [|n] Hn; cbn in *; try lia; [done| |].
      - by rewrite substring_all.
      - destruct (IH n) as [H1 H2]; [lia|]. split; [by rewrite <- H1|by rewrite <- H2]. }
    apply H. lia.
  - intros (j & -> & H)%occurrences_sound. done.
Qed.

Lemma match_indices_nil pat s : pat <> "" -> match_indices pat s = [] <-> split_once pat s = None.
Proof.
  intros Hp. unfold match_indices. rewrite (proj2 (str_is_empty_false _) Hp).
  destruct s as [|a s]; [|apply occurrences_head; cbn; lia].
  cbn. by destruct pat.
Qed.

(** A prefix of a long enough text is a prefix of every extension. *)
Lemma strip_prefix_long pat x r : (String.length pat <= String.length x)%nat ->
  strip_prefix pat (x +:+ r) = (fun y => y +:+ r) <$> strip_prefix pat x.
Proof.
  revert x. induction pat as [|a pat IH]; intros x Hx; [done|].
  destruct x as [|b x]; cbn in Hx |- *; [lia|]. destruct (Ascii.eqb a b); [|done]. apply IH. lia.
Qed.

(** An occurrence that is the first one stays so when text is appended. *)
Lemma split_once_app pat l r : split_once pat (l +:+ pat) = Some (l, "") ->
  split_once pat (l +:+ pat +:+ r) = Some (l, r).
Proof.
  rewrite <- str_app_assoc. induction l as [|a l IH]; intros H.
  - cbn [String.append]. rewrite split_once_eq, strip_prefix_app. done.
  - rewrite split_once_eq in H |- *. cbn [String.append] in *.
    change (String a ((l +:+ pat) +:+ r)) with (String a (l +:+ pat) +:+ r) at 1.
    rewrite strip_prefix_long by (cbn; rewrite str_length_app; lia).
    destruct (strip_prefix pat (String a (l +:+ pat))) eqn:E; [by injection H|]. cbn.
    destruct (split_once pat (l +:+ pat)) as [[l' r']|] eqn:E2; [|done]. injection H as -> ->.
    by rewrite (IH eq_refl).
Qed.

(** * Lines *)

Definition no_lf (s : string) : Prop := str_all (fun a => negb (Ascii.eqb a (chr lf))) s = true.

(** A text without line ends. *)
Definition plain (s : string) : Prop :=
  str_all (fun a => negb (Ascii.eqb a (chr lf) || Ascii.eqb a (chr cr))) s = true.

Lemma str_all_weaken (p q : Ascii.ascii -> bool) s :
  (forall a, p a = true -> q a = true) -> str_all p s = true -> str_all q s = true.
Proof. intros Hpq. induction s as [|a s IH]; cbn; [done|]. rewrite !andb_true_iff. naive_solver. Qed.

Lemma plain_no_lf s : plain s -> no_lf s.
Proof. apply str_all_weaken. intros a. rewrite negb_orb. by intros [? _]%andb_true_iff. Qed.

(** Lines, each with its end. *)
Fixpoint unlines (l : list string) : string :=
  match l with [] => "" | s :: l' => s +:+ lf +:+ unlines l' end.

Lemma unlines_app l k : unlines (l ++ k) = unlines l +:+ unlines k.
Proof. induction l as [|s l IH]; cbn [app unlines]; [done|]. by rewrite IH, !str_app_assoc. Qed.

Lemma join_unlines l : l <> [] -> str_join lf l +:+ lf = unlines l.
Proof.
  induction l as [|s [|s' l] IH]; intros Hl; [done|done|].
  change (str_join lf (s :: s' :: l)) with (s +:+ lf +:+ str_join lf (s' :: l)).
  change (unlines (s :: s' :: l)) with (s +:+ lf +:+ unlines (s' :: l)). by rewrite <- IH, !str_app_assoc.
Qed.

Lemma no_lf_cons a s : no_lf (String a s) <-> a <> chr lf /\ no_lf s.
Proof.
  unfold no_lf. cbn. rewrite andb_true_iff, negb_true_iff. split; intros [H ?]; (split; [|done]).
  - by apply Ascii.eqb_neq.
  - by apply Ascii.eqb_neq.
Qed.

Lemma split_once_no_lf s : no_lf s -> split_once lf s = None.
Proof.
  intros Hs. apply split_once_None. intros l r ->. unfold no_lf in Hs.
  rewrite !str_all_app in Hs. apply andb_true_iff in Hs as [_ Hs]. by cbn in Hs.
Qed.

(** The first line end of a text that starts with such a line. *)
Lemma split_once_line s r : no_lf s -> split_once lf (s +:+ lf +:+ r) = Some (s, r).
Proof.
  intros Hs. apply split_once_app. induction s as [|a s IH]; [done|].
  apply no_lf_cons in Hs as [Ha Hs]. rewrite split_once_eq.
  assert (strip_prefix lf (String a s +:+ lf) = None) as ->.
  { destruct (strip_prefix lf _) as [x|] eqn:E; [|done]. apply strip_prefix_Some in E. by injection E. }
  cbn [String.append]. by rewrite IH.
Qed.

Lemma split_once_crlf s r : no_lf s -> split_once crlf (s +:+ crlf +:+ r) = Some (s, r).
Proof.
  intros Hs. apply split_once_app. induction s as [|a s IH]; [done|].
  apply no_lf_cons in Hs as [Ha Hs]. rewrite split_once_eq.
  assert (strip_prefix crlf (String a s +:+ crlf) = None) as ->.
  { destruct (strip_prefix crlf _) as [x|] eqn:E; [|done]. apply strip_prefix_Some in E.
    destruct s as [|b s]; [done|]. apply no_lf_cons in Hs as [Hb _]. by injection E. }
  cbn [String.append]. by rewrite IH.
Qed.

Lemma no_lf_no_crlf s : no_lf s -> split_once crlf s = None.
Proof.
  intros Hs. apply split_once_None. intros l r ->. unfold no_lf in Hs.
  rewrite !str_all_app in Hs. apply andb_true_iff in Hs as [_ Hs]. by cbn in Hs.
Qed.

(** Every text is free of line ends or starts with a line. *)
Lemma split_line s : no_lf s \/ exists l r, s = l +:+ lf +:+ r /\ no_lf l.
Proof.
  induction s as [|a s IH]; [by left|]. destruct (decide (a = chr lf)) as [->|Ha].
  - right. by exists "", s.
  - destruct IH as [IH|(l & r & -> & Hl)]; [left; by apply no_lf_cons|].
    right. exists (String a l), r. split; [done|]. by apply no_lf_cons.
Qed.

Lemma split_inclusive_line s r : no_lf s -> split_inclusive (s +:+ lf +:+ r) = (s +:+ lf) :: split_inclusive r.
Proof.
  induction s as [|a s IH]; intros Hs; [done|].
  apply no_lf_cons in Hs as [Ha Hs]. cbn [String.append split_inclusive].
  apply Ascii.eqb_neq in Ha as ->. by rewrite IH.
Qed.

Lemma strip_suffix_app s pat : strip_suffix pat (s +:+ pat) = Some s.
Proof. unfold strip_suffix. rewrite str_rev_app, strip_prefix_app. cbn. by rewrite str_rev_involutive. Qed.

Lemma strip_suffix_Some pat s r : strip_suffix pat s = Some r -> s = r +:+ pat.
Proof.
  unfold strip_suffix. destruct (strip_prefix _ _) as [x|] eqn:E; [|done]. intros [= <-].
  apply strip_prefix_Some in E. rewrite <- (str_rev_involutive s), E, str_rev_app. by rewrite str_rev_involutive.
Qed.

Lemma strip_line_end_plain s : plain s -> strip_line_end (s +:+ lf) = s.
Proof.
  intros Hs. unfold strip_line_end. rewrite strip_suffix_app.
  destruct (strip_suffix cr s) as [r|] eqn:E; [|done]. apply strip_suffix_Some in E as ->. exfalso.
  unfold plain in Hs. rewrite str_all_app in Hs. by apply andb_true_iff in Hs as [_ Hs].
Qed.

Lemma str_lines_unlines l : Forall plain l -> str_lines (unlines l) = l.
Proof.
  unfold str_lines. induction 1 as [|s l Hs _ IH]; [done|]. cbn [unlines].
  rewrite split_inclusive_line by (by apply plain_no_lf). cbn. by rewrite strip_line_end_plain, IH.
Qed.

(** The end of a line is where the next one starts. *)
Lemma occurrences_lines n pre post off : pre <> [] -> Forall no_lf pre -> (length pre <= n)%nat ->
  occurrences_fuel n lf (unlines pre +:+ post) off !! (length pre - 1)%nat
  = Some (off + String.length (unlines pre) - 1)%nat.
Proof.
  revert n off. induction pre as [|s pre IH]; intros n off Hne Hp Hn; [done|].
  apply Forall_cons in Hp as [Hs Hp]. destruct n as [|n]; cbn in Hn; [lia|].
  cbn [unlines occurrences_fuel]. rewrite !str_app_assoc, split_once_line by done.
  rewrite !str_length_app. change (String.length lf) with 1%nat.
  destruct pre as [|s' pre]; [cbn; f_equal; lia|].
  replace (length (s :: s' :: pre) - 1)%nat with (S (length (s' :: pre) - 1)) by (cbn; lia).
  cbn [lookup list_lookup]. rewrite IH by (done || lia). f_equal. cbn [unlines]. lia.
Qed.

(** * Replacing *)

Lemma str_replace_none pat w s : split_once pat s = None -> str_replace pat w s = s.
Proof. intros H. unfold str_replace. destruct (String.length s); cbn; [done|]. by rewrite H. Qed.

Notation to_crlf := (replace_char (chr lf) crlf).

Lemma replace_char_app c w s t : replace_char c w (s +:+ t) = replace_char c w s +:+ replace_char c w t.
Proof. induction s as [|a s IH]; cbn [String.append replace_char]; [done|]. by rewrite IH, str_app_assoc. Qed.

Lemma to_crlf_no_lf s : no_lf s -> to_crlf s = s.
Proof.
  induction s as [|a s IH]; [done|]. intros [Ha Hs]%no_lf_cons. cbn [replace_char].
  apply Ascii.eqb_neq in Ha as ->. by rewrite IH.
Qed.

Lemma to_crlf_line l r : no_lf l -> to_crlf (l +:+ lf +:+ r) = l +:+ crlf +:+ to_crlf r.
Proof. intros Hl. rewrite !replace_char_app, to_crlf_no_lf by done. done. Qed.

Lemma of_to_crlf n t : (String.length (to_crlf t) <= n)%nat -> str_replace_fuel n crlf lf (to_crlf t) = t.
Proof.
  revert t. induction n as [|n IH]; intros t Hn.
  - destruct t as [|a t]; [done|]. cbn in Hn. destruct (Ascii.eqb a _); cbn in Hn; lia.
  - cbn. destruct (split_line t) as [Ht|(l & r & -> & Hl)].
    + by rewrite to_crlf_no_lf, no_lf_no_crlf.
    + rewrite to_crlf_line in Hn |- * by done. rewrite split_once_crlf by done. rewrite IH; [done|].
      rewrite !str_length_app in Hn. change (String.length crlf) with 2%nat in Hn. lia.
Qed.

Lemma str_replace_to_crlf t : str_replace crlf lf (to_crlf t) = t.
Proof. by apply of_to_crlf. Qed.

Lemma contains_to_crlf t : str_contains lf t = true -> str_contains crlf (to_crlf t) = true.
Proof.
  intros (l & r & ->)%str_contains_spec. apply str_contains_spec. rewrite !replace_char_app.
  by eexists _, _.
Qed.
