(* ===== verification/Json.v ===== *)
(** [serde_json]'s [Value] as the program builds, matches and reads it.  Numbers
    and the text format belong to the crate and stay parameters; objects are
    [BTreeMap<String, Value>], hence finite maps compared extensionally. *)
From S2P Require Import Prelude RustStr.

(** The crate's [Number]: its identity and the readings the program uses. *)
Class JsonNumber := {
  number : Type;
  number_eq_dec :: EqDecision number;
  number_as_u64 : number -> option Z;      (** [as_u64] *)
  number_nonzero : number -> bool;         (** [as_f64().is_some_and(|v| v != 0.0)] *)
  number_of_u64 : Z -> number;             (** [json!(n)] *)
}.

Inductive Value `{JsonNumber} : Type :=
| Null
| VBool (b : bool)
| VNumber (n : number)
| VString (s : string)
| VArray (l : list Value)
| VObject (m : gmap string Value).

Section json.
Context `{JN : JsonNumber}.

#[export] Instance value_eq_dec : EqDecision Value.
Proof.
  refine (fix go (v1 v2 : Value) :=
    let _ : EqDecision Value := @go in
    match v1, v2 with
    | Null, Null => left eq_refl
    | VBool x, VBool y => cast_if (decide (x = y))
    | VNumber x, VNumber y => cast_if (decide (x = y))
    | VString x, VString y => cast_if (decide (x = y))
    | VArray x, VArray y => cast_if (decide (x = y))
    | VObject x, VObject y => cast_if (decide (x = y))
    | _, _ => right _
    end); congruence.
Defined.

(** [==] on values. *)
Definition value_eqb (x y : Value) : bool := bool_decide (x = y).

Definition as_object (v : Value) : option (gmap string Value) :=
  match v with VObject m => Some m | _ => None end.
Definition as_array (v : Value) : option (list Value) :=
  match v with VArray l => Some l | _ => None end.
Definition as_str (v : Value) : option string :=
  match v with VString s => Some s | _ => None end.
Definition as_bool (v : Value) : option bool :=
  match v with VBool b => Some b | _ => None end.
Definition as_u64 (v : Value) : option Z :=
  match v with VNumber n => number_as_u64 n | _ => None end.

(** [Value::get] with a string index. *)
Definition value_get (v : Value) (key : string) : option Value :=
  match v with VObject m => m !! key | _ => None end.

(** The common chain [config.get(key).and_then(Value::as_..)]. *)
Definition get_str (v : Value) (key : string) : option string := value_get v key ≫= as_str.
Definition get_array (v : Value) (key : string) : option (list Value) :=
  value_get v key ≫= as_array.
Definition get_bool (v : Value) (key : string) : option bool := value_get v key ≫= as_bool.
Definition get_u64 (v : Value) (key : string) : option Z := value_get v key ≫= as_u64.

(** [json!({ .. })]: the entries of an object literal, later keys last. *)
Definition json_object (entries : list (string * Value)) : Value :=
  VObject (fold_left (fun m '(k, v) => <[k := v]> m) entries ∅).

(** [json!(n)] for an unsigned integer and [json!(o)] for an option. *)
Definition json_u64 (n : Z) : Value := VNumber (number_of_u64 n).
Definition json_option {A} (f : A -> Value) (o : option A) : Value :=
  match o with Some a => f a | None => Null end.

(** Following a path of object keys, as both [value_at_path] functions do. *)
Fixpoint follow_path (v : Value) (segments : list string) : option Value :=
  match segments with
  | [] => Some v
  | seg :: segs => match as_object v with
                   | Some m => match m !! seg with
                               | Some v' => follow_path v' segs
                               | None => None
                               end
                   | None => None
                   end
  end.
End json.

(** The crate's text format. *)
Class JsonText `{JsonNumber} := {
  json_parse : string -> option Value;   (** [serde_json::from_str::<Value>(..).ok()] *)
  json_text : Value -> string;           (** [serde_json::to_vec(..)] *)
}.
