(* ===== verification/Fingerprint.v ===== *)
(** [content_fingerprint] and [estimate_tokens] of [model_context.rs]: the 64-bit
    FNV-1a hash that names immutable content, and the token estimate of a text. *)
From S2P Require Import Prelude RustStr RustStrFacts.

Definition fnv_offset : Z := 0xcbf29ce484222325.
Definition fnv_prime : Z := 0x100000001b3.
Definition u64_modulus : Z := u64_max + 1.

(** [hash ^= byte; hash = hash.wrapping_mul(prime)] *)
Definition fnv_step (hash : Z) (byte : Ascii.ascii) : Z :=
  (Z.lxor hash (Z.of_N (byte_of byte)) * fnv_prime) mod u64_modulus.

Fixpoint fnv_hash (hash : Z) (bytes : string) : Z :=
  match bytes with
  | "" => hash
  | String byte bytes' => fnv_hash (fnv_step hash byte) bytes'
  end.

Definition hex_digit (d : Z) : Ascii.ascii :=
  Ascii.ascii_of_N (Z.to_N (if d <? 10 then 48 + d else 87 + d)).

(** The [n] low hexadecimal digits of [x], most significant first. *)
Fixpoint hex_digits (n : nat) (x : Z) : string :=
  match n with
  | O => ""
  | S n' => hex_digits n' (x / 16) +:+ String (hex_digit (x mod 16)) ""
  end.

Definition content_fingerprint (bytes : string) : string :=
  hex_digits 16 (fnv_hash fnv_offset bytes).

(** * The token estimate *)

(** [len_utf8] of the character a leading byte starts. *)
Definition len_utf8 (a : Ascii.ascii) : Z :=
  let n := byte_of a in
  if (n <? 128)%N then 1 else if (n <? 224)%N then 2 else if (n <? 240)%N then 3 else 4.

(** The loop over [text.chars()]; continuation bytes belong to the character
    before them. *)
Fixpoint estimate_loop (estimate ascii_run : Z) (text : string) : Z :=
  match text with
  | "" => estimate + (ascii_run + 3) / 4
  | String a text' =>
      if is_ascii a then estimate_loop estimate (ascii_run + 1) text'
      else if is_continuation a then estimate_loop estimate ascii_run text'
      else estimate_loop (estimate + (ascii_run + 3) / 4
                          + (if len_utf8 a =? 4 then 2 else 1)) 0 text'
  end.

Definition estimate_tokens (text : string) : Z := estimate_loop 0 0 text.

(** * Facts *)

Definition is_u64 (x : Z) : Prop := 0 <= x <= u64_max.

Lemma byte_of_range a : 0 <= Z.of_N (byte_of a) < 256.
Proof. pose proof (Ascii.N_ascii_bounded a). unfold byte_of. lia. Qed.

Lemma byte_of_inj a b : byte_of a = byte_of b -> a = b.
Proof.
  unfold byte_of. intros H. rewrite <-(Ascii.ascii_N_embedding a), <-(Ascii.ascii_N_embedding b).
  by rewrite H.
Qed.

Lemma fnv_step_range h a : is_u64 (fnv_step h a).
Proof.
  unfold fnv_step, is_u64, u64_modulus.
  pose proof (Z.mod_pos_bound (Z.lxor h (Z.of_N (byte_of a)) * fnv_prime) (u64_max + 1)). 
  unfold u64_max in *. lia.
Qed.

Lemma fnv_hash_range h s : is_u64 h -> is_u64 (fnv_hash h s).
Proof.
  revert h. induction s as [|a s IH]; intros h Hh; simpl; [done|].
  apply IH, fnv_step_range.
Qed.

Lemma lxor_u64 x y : is_u64 x -> is_u64 y -> is_u64 (Z.lxor x y).
Proof.
  unfold is_u64. intros Hx Hy.
  assert (Hnn : 0 <= Z.lxor x y) by (apply Z.lxor_nonneg; lia).
  split; [done|]. destruct (Z.eq_dec (Z.lxor x y) 0) as [->|Hne]; [done|].
  assert (Z.lxor x y < 2 ^ 64); [|unfold u64_max; lia].
  apply Z.log2_lt_pow2; [lia|].
  assert (Hlog : forall z, 0 <= z <= u64_max -> Z.log2 z < 64).
  { intros z Hz. destruct (Z.eq_dec z 0) as [->|]; [done|].
    apply Z.log2_lt_pow2; [lia|]. unfold u64_max in Hz. lia. }
  pose proof (Z.log2_lxor x y ltac:(lia) ltac:(lia)).
  pose proof (Hlog x Hx). pose proof (Hlog y Hy). lia.
Qed.

(** The prime is odd, so multiplying by it is injective modulo 2^64. *)
Definition fnv_prime_inverse : Z := 0xce965057aff6957b.

Lemma mul_prime_inj x y :
  is_u64 x -> is_u64 y ->
  (x * fnv_prime) mod u64_modulus = (y * fnv_prime) mod u64_modulus -> x = y.
Proof.
  intros Hx Hy H.
  assert (Hinv : forall z, is_u64 z ->
    ((z * fnv_prime) mod u64_modulus * fnv_prime_inverse) mod u64_modulus = z).
  { intros z Hz. rewrite Z.mul_mod_idemp_l by done. rewrite <-Z.mul_assoc, <-Z.mul_mod_idemp_r by done.
    replace ((fnv_prime * fnv_prime_inverse) mod u64_modulus) with 1 by (vm_compute; reflexivity).
    rewrite Z.mul_1_r. apply Z.mod_small. unfold is_u64, u64_modulus in *. lia. }
  rewrite <-(Hinv x Hx), <-(Hinv y Hy). by rewrite H.
Qed.

Lemma fnv_step_inj_hash h1 h2 a :
  is_u64 h1 -> is_u64 h2 -> fnv_step h1 a = fnv_step h2 a -> h1 = h2.
Proof.
  intros H1 H2 H. pose proof (byte_of_range a).
  assert (is_u64 (Z.of_N (byte_of a))) by (unfold is_u64, u64_max; lia).
  apply mul_prime_inj in H; [|by apply lxor_u64..].
  apply (f_equal (fun z => Z.lxor z (Z.of_N (byte_of a)))) in H.
  by rewrite !Z.lxor_assoc, Z.lxor_nilpotent, !Z.lxor_0_r in H.
Qed.

Lemma fnv_step_inj_byte h a b : is_u64 h -> fnv_step h a = fnv_step h b -> a = b.
Proof.
  intros Hh H. pose proof (byte_of_range a). pose proof (byte_of_range b).
  assert (is_u64 (Z.of_N (byte_of a))) by (unfold is_u64, u64_max; lia).
  assert (is_u64 (Z.of_N (byte_of b))) by (unfold is_u64, u64_max; lia).
  apply mul_prime_inj in H; [|by apply lxor_u64..].
  apply (f_equal (Z.lxor h)) in H.
  rewrite <-!Z.lxor_assoc, Z.lxor_nilpotent, !Z.lxor_0_l in H.
  apply byte_of_inj. lia.
Qed.

Lemma fnv_hash_inj_hash s h1 h2 :
  is_u64 h1 -> is_u64 h2 -> fnv_hash h1 s = fnv_hash h2 s -> h1 = h2.
Proof.
  revert h1 h2. induction s as [|a s IH]; intros h1 h2 H1 H2; simpl; [done|].
  intros H. apply IH in H; try apply fnv_step_range. by eapply fnv_step_inj_hash.
Qed.

Lemma fnv_hash_app h s t : fnv_hash h (s +:+ t) = fnv_hash (fnv_hash h s) t.
Proof. revert h. induction s as [|a s IH]; intros h; simpl; [done|]. apply IH. Qed.

Lemma hex_digit_inj d e : 0 <= d < 16 -> 0 <= e < 16 -> hex_digit d = hex_digit e -> d = e.
Proof.
  intros Hd He H. apply (f_equal byte_of) in H. unfold hex_digit, byte_of in H.
  destruct (Z.ltb_spec d 10), (Z.ltb_spec e 10);
    rewrite !Ascii.N_ascii_embedding in H by lia; lia.
Qed.

Lemma str_app_snoc_inj s t a b : s +:+ String a "" = t +:+ String b "" -> s = t /\ a = b.
Proof.
  revert t. induction s as [|c s IH]; intros [|d t]; simpl; intros H; injection H.
  - done.
  - by destruct t.
  - by destruct s.
  - intros Ht ->. apply IH in Ht as [-> ->]. by subst.
Qed.

Lemma hex_digits_length n x : String.length (hex_digits n x) = n.
Proof.
  revert x. induction n as [|n IH]; intros x; simpl; [done|].
  rewrite str_length_app, IH. simpl. lia.
Qed.

Lemma hex_digits_inj n x y :
  0 <= x < 16 ^ Z.of_nat n -> 0 <= y < 16 ^ Z.of_nat n ->
  hex_digits n x = hex_digits n y -> x = y.
Proof.
  revert x y. induction n as [|n IH]; intros x y Hx Hy; cbn [hex_digits].
  - change (16 ^ Z.of_nat 0) with 1 in *. lia.
  - rewrite Nat2Z.inj_succ, Z.pow_succ_r in Hx, Hy by lia.
    pose proof (Z.mod_pos_bound x 16 ltac:(lia)). pose proof (Z.mod_pos_bound y 16 ltac:(lia)).
    intros [Hd Hm]%str_app_snoc_inj. apply hex_digit_inj in Hm; [|done..].
    apply IH in Hd.
    + rewrite (Z.div_mod x 16), (Z.div_mod y 16) by lia. lia.
    + split; [apply Z.div_pos; lia|apply Z.div_lt_upper_bound; lia].
    + split; [apply Z.div_pos; lia|apply Z.div_lt_upper_bound; lia].
Qed.

Lemma fingerprint_eq s t :
  content_fingerprint s = content_fingerprint t <-> fnv_hash fnv_offset s = fnv_hash fnv_offset t.
Proof.
  split; [|unfold content_fingerprint; by intros ->].
  assert (forall u, 0 <= fnv_hash fnv_offset u < 16 ^ Z.of_nat 16) as Hr.
  { intros u. assert (is_u64 (fnv_hash fnv_offset u)) as Hu by (by apply fnv_hash_range).
    unfold is_u64, u64_max in Hu. change (16 ^ Z.of_nat 16) with 18446744073709551616. lia. }
  apply hex_digits_inj; apply Hr.
Qed.

Lemma fingerprint_byte_change prefix a b suffix :
  a <> b ->
  content_fingerprint (prefix +:+ String a suffix)
  <> content_fingerprint (prefix +:+ String b suffix).
Proof.
  intros Hab. rewrite fingerprint_eq, !fnv_hash_app. simpl. intros H.
  assert (is_u64 (fnv_hash fnv_offset prefix)) by (by apply fnv_hash_range).
  apply fnv_hash_inj_hash in H; [|apply fnv_step_range..].
  by apply fnv_step_inj_byte in H.
Qed.

(** The fingerprint of a content always has the 16 digits of the format, and
    every change of a single byte of the content changes it. *)
Theorem fingerprint_detects_byte_change prefix a b suffix :
  a <> b ->
  str_len (content_fingerprint (prefix +:+ String a suffix)) = 16
  /\ content_fingerprint (prefix +:+ String a suffix)
     <> content_fingerprint (prefix +:+ String b suffix).
Proof.
  intros Hab. split; [unfold str_len, content_fingerprint; by rewrite hex_digits_length|].
  by apply fingerprint_byte_change.
Qed.

Lemma estimate_loop_shift e r s : estimate_loop e r s = e + estimate_loop 0 r s.
Proof.
  revert e r. induction s as [|a s IH]; intros e r; simpl; [lia|].
  destruct (is_ascii a); [apply IH|]. destruct (is_continuation a); [apply IH|].
  rewrite IH, (IH (0 + _ + _)). lia.
Qed.

Lemma estimate_loop_run r1 r2 s :
  0 <= r1 -> 0 <= r2 ->
  estimate_loop 0 (r1 + r2) s <= (r1 + 3) / 4 + estimate_loop 0 r2 s
  /\ (r1 + 3) / 4 + estimate_loop 0 r2 s <= estimate_loop 0 (r1 + r2) s + 1.
Proof.
  revert r1 r2. induction s as [|a s IH]; intros r1 r2 H1 H2; simpl.
  - rewrite !Z.add_0_l. split; Z.to_euclidean_division_equations; lia.
  - destruct (is_ascii a); [rewrite <-Z.add_assoc; apply IH; lia|].
    destruct (is_continuation a); [by apply IH|].
    rewrite (estimate_loop_shift (0 + (r1 + r2 + 3) / 4 + _)).
    rewrite (estimate_loop_shift (0 + (r2 + 3) / 4 + _)).
    split; Z.to_euclidean_division_equations; lia.
Qed.

Lemma estimate_loop_app r s t :
  0 <= r ->
  estimate_loop 0 r (s +:+ t) <= estimate_loop 0 r s + estimate_loop 0 0 t
  /\ estimate_loop 0 r s + estimate_loop 0 0 t <= estimate_loop 0 r (s +:+ t) + 1.
Proof.
  revert r. induction s as [|a s IH]; intros r Hr; simpl.
  - pose proof (estimate_loop_run r 0 t Hr ltac:(lia)) as H. rewrite Z.add_0_r in H. lia.
  - destruct (is_ascii a); [apply IH; lia|]. destruct (is_continuation a); [by apply IH|].
    rewrite !(estimate_loop_shift (0 + (r + 3) / 4 + _)). pose proof (IH 0 ltac:(lia)). lia.
Qed.

(** The estimate is additive up to one token: splitting a text over-counts by
    at most one. *)
Theorem estimate_tokens_split s t :
  estimate_tokens (s +:+ t) <= estimate_tokens s + estimate_tokens t <= estimate_tokens (s +:+ t) + 1.
Proof. apply estimate_loop_app. lia. Qed.
