(* ===== verification/WorkflowState.v ===== *)
(** [workflow_state.rs]: reducer-owned state channels.  A node declares its writes
    in [config.stateWrites]; the runtime parses them, checks the channel contracts
    of a whole graph, and applies the writes when a superstep commits. *)
From S2P Require Import Prelude RustStr RustStrFacts Json.

Definition MAX_WORKFLOW_STATE_WRITES_PER_NODE : Z := 32.
Definition MAX_WORKFLOW_STATE_CHANNEL_LENGTH : Z := 128.

Inductive WorkflowStateReducerV1 := Replace | Append | MergeObject.

#[export] Instance reducer_eq_dec : EqDecision WorkflowStateReducerV1.
Proof. solve_decision. Defined.

Record WorkflowStateWriteV1 := {
  channel : string;
  reducer : WorkflowStateReducerV1;
  value_path : option string;
}.

(** [serde_json::from_value::<WorkflowStateWriteV1>]: the deserializer that serde
    generates, with the text of its error. *)
Class StateWriteCodec `{JsonNumber} := {
  decode_state_write : Value -> Result string WorkflowStateWriteV1;
}.

Definition channel_char (a : Ascii.ascii) : bool :=
  is_ascii_alphanumeric a || Ascii.eqb a (chr "_") || Ascii.eqb a (chr "-") || Ascii.eqb a (chr ".").

Definition validate_channel_name (channel : string) : Result string unit :=
  if str_is_empty channel
     || (MAX_WORKFLOW_STATE_CHANNEL_LENGTH <? str_len channel)
     || negb (str_all channel_char channel)
  then Err ("state channel '" +:+ channel +:+ "' must use 1-"
            +:+ pretty MAX_WORKFLOW_STATE_CHANNEL_LENGTH
            +:+ " letters, digits, dots, underscores, or hyphens")
  else Ok tt.

Section state.
Context `{JN : JsonNumber}.

Definition value_at_path (value : Value) (path : string) : option Value :=
  let path := trim_start_matches "$." (trim path) in
  if str_is_empty path || String.eqb path "$" then Some value
  else follow_path value (split_char (chr ".") path).

Section parse.
Context `{!StateWriteCodec}.

(** One iteration of the parsing loop. *)
Definition parse_state_write (raw_write : Value) : Result string WorkflowStateWriteV1 :=
  let? write := map_err (fun e => "invalid state write: " +:+ e)
                        (decode_state_write raw_write) in
  let? _ := validate_channel_name (channel write) in
  match value_path write with
  | Some path => if 256 <? str_len path
                 then Err "state write valuePath cannot exceed 256 characters"
                 else Ok write
  | None => Ok write
  end.

Fixpoint parse_state_write_list (raw : list Value) : Result string (list WorkflowStateWriteV1) :=
  match raw with
  | [] => Ok []
  | v :: raw' => let? write := parse_state_write v in
                 let? rest := parse_state_write_list raw' in
                 Ok (write :: rest)
  end.

Definition parse_state_writes (config : Value) : Result string (list WorkflowStateWriteV1) :=
  match value_get config "stateWrites" with
  | None => Ok []
  | Some raw =>
      match as_array raw with
      | None => Err "config.stateWrites must be an array"
      | Some writes =>
          if MAX_WORKFLOW_STATE_WRITES_PER_NODE <? vec_len writes
          then Err ("config.stateWrites cannot contain more than "
                    +:+ pretty MAX_WORKFLOW_STATE_WRITES_PER_NODE +:+ " entries")
          else parse_state_write_list writes
      end
  end.

(** The accumulators of [validate_graph_state_writes]. *)
Record channel_audit := {
  audit_issues : list (string * string);
  audit_reducers : gmap string WorkflowStateReducerV1;
  audit_replace_writers : gmap string string;
}.

Definition audit_issue (node_id message : string) (acc : channel_audit) : channel_audit :=
  {| audit_issues := audit_issues acc ++ [(node_id, message)];
     audit_reducers := audit_reducers acc;
     audit_replace_writers := audit_replace_writers acc |}.

Definition audit_reducer (node_id : string) (write : WorkflowStateWriteV1)
    (acc : channel_audit) : channel_audit :=
  let old := audit_reducers acc !! channel write in
  let acc := {| audit_issues := audit_issues acc;
                audit_reducers := <[channel write := reducer write]> (audit_reducers acc);
                audit_replace_writers := audit_replace_writers acc |} in
  match old with
  | Some existing =>
      if decide (existing = reducer write) then acc
      else audit_issue node_id
             ("state channel '" +:+ channel write +:+ "' uses conflicting reducers") acc
  | None => acc
  end.

Definition audit_replace (node_id : string) (write : WorkflowStateWriteV1)
    (acc : channel_audit) : channel_audit :=
  if decide (reducer write = Replace) then
    let old := audit_replace_writers acc !! channel write in
    let acc := {| audit_issues := audit_issues acc;
                  audit_reducers := audit_reducers acc;
                  audit_replace_writers :=
                    <[channel write := node_id]> (audit_replace_writers acc) |} in
    match old with
    | Some existing =>
        if decide (existing = node_id) then acc
        else audit_issue node_id
               ("replace state channel '" +:+ channel write
                +:+ "' must have exactly one writer (already written by "
                +:+ existing +:+ ")") acc
    | None => acc
    end
  else acc.

Definition audit_write (node_id : string) (acc : channel_audit)
    (write : WorkflowStateWriteV1) : channel_audit :=
  audit_replace node_id write (audit_reducer node_id write acc).

Definition audit_node (acc : channel_audit) (node : string * Value) : channel_audit :=
  match parse_state_writes node.2 with
  | Ok writes => fold_left (audit_write node.1) writes acc
  | Err message => audit_issue node.1 message acc
  end.

Definition validate_graph_state_writes (nodes : list (string * Value))
    : list (string * string) :=
  audit_issues (fold_left audit_node nodes
    {| audit_issues := []; audit_reducers := ∅; audit_replace_writers := ∅ |}).
End parse.

(** [state.entry(channel).or_insert_with(..)] *)
Definition entry_or_insert (ch : string) (fresh : Value) (state : gmap string Value)
    : Value * gmap string Value :=
  match state !! ch with
  | Some v => (v, state)
  | None => (fresh, <[ch := fresh]> state)
  end.

Definition write_value (write : WorkflowStateWriteV1) (output : Value) : Result anyhow Value :=
  match value_path write with
  | Some path =>
      opt_context (value_at_path output path)
        ("state write for '" +:+ channel write +:+ "' could not resolve valuePath '"
         +:+ path +:+ "'")
  | None => Ok output
  end.

(** One iteration of [apply_state_writes]; the state is returned on the error
    paths too, because the map is mutated in place. *)
Definition apply_state_write (write : WorkflowStateWriteV1) (output : Value)
    : M (gmap string Value) unit :=
  let* value := m_lift (write_value write output) in
  match reducer write with
  | Replace => m_modify (fun state => <[channel write := value]> state)
  | Append => fun state =>
      let '(target, state) := entry_or_insert (channel write) (VArray []) state in
      match as_array target with
      | None => (Err (Msg ("state channel '" +:+ channel write +:+ "' is not an array")), state)
      | Some items =>
          let items' := match value with
                        | VArray values => items ++ values
                        | _ => items ++ [value]
                        end in
          (Ok tt, <[channel write := VArray items']> state)
      end
  | MergeObject => fun state =>
      let '(target, state) := entry_or_insert (channel write) (VObject ∅) state in
      match as_object target with
      | None => (Err (Msg ("state channel '" +:+ channel write +:+ "' is not an object")), state)
      | Some fields =>
          match as_object value with
          | None => (Err (Msg ("merge_object state write for '" +:+ channel write
                               +:+ "' requires an object")), state)
          | Some new_fields =>
              (* the inserted keys win *)
              (Ok tt, <[channel write := VObject (new_fields ∪ fields)]> state)
          end
      end
  end.

Fixpoint apply_state_writes (writes : list WorkflowStateWriteV1) (output : Value)
    : M (gmap string Value) unit :=
  match writes with
  | [] => m_ret tt
  | write :: writes' => apply_state_write write output ;;* apply_state_writes writes' output
  end.
End state.

(** * Parsing *)

Definition channel_name_ok (name : string) : Prop :=
  name <> "" /\ str_len name <= MAX_WORKFLOW_STATE_CHANNEL_LENGTH
  /\ str_all channel_char name = true.

Lemma validate_channel_name_Ok name : validate_channel_name name = Ok tt <-> channel_name_ok name.
Proof.
  unfold validate_channel_name, channel_name_ok. rewrite <-str_is_empty_false.
  destruct (str_is_empty name), (Z.ltb_spec MAX_WORKFLOW_STATE_CHANNEL_LENGTH (str_len name)),
    (str_all channel_char name); cbn; split; intros; try done; naive_solver lia.
Qed.

(** What the runtime may assume of a parsed write. *)
Definition state_write_ok (write : WorkflowStateWriteV1) : Prop :=
  channel_name_ok (channel write)
  /\ (forall path, value_path write = Some path -> str_len path <= 256).

Section facts.
Context `{JN : JsonNumber} `{SWC : !StateWriteCodec}.
Implicit Types (state : gmap string Value) (write : WorkflowStateWriteV1).

Lemma parse_state_write_Ok raw write :
  parse_state_write raw = Ok write -> state_write_ok write.
Proof using Type.
  unfold parse_state_write. intros H. invert_ok. destruct x0.
  apply validate_channel_name_Ok in H0. destruct (value_path x) as [path|] eqn:Hp.
  - destruct (Z.ltb_spec 256 (str_len path)); [done|]. simplify_eq.
    split; [done|]. intros p' Hp'. simplify_eq. lia.
  - simplify_eq. split; [done|]. intros p' Hp'. congruence.
Qed.

Lemma parse_state_write_list_Ok raw writes :
  parse_state_write_list raw = Ok writes ->
  length writes = length raw /\ Forall state_write_ok writes.
Proof using Type.
  revert writes. induction raw as [|v raw IH]; intros writes H; cbn in H.
  - simplify_eq. by split.
  - invert_ok. apply parse_state_write_Ok in H. apply IH in H0 as [Hl Hall].
    split; [cbn; by rewrite Hl|by constructor].
Qed.

(** A successfully parsed write list respects the module's limits. *)
Theorem parse_state_writes_within_limits config writes :
  parse_state_writes config = Ok writes ->
  vec_len writes <= MAX_WORKFLOW_STATE_WRITES_PER_NODE /\ Forall state_write_ok writes.
Proof using Type.
  unfold parse_state_writes. destruct (value_get config "stateWrites") as [raw|];
    [|intros; simplify_eq; split; [done|constructor]].
  destruct (as_array raw) as [l|]; [|done].
  destruct (Z.ltb_spec MAX_WORKFLOW_STATE_WRITES_PER_NODE (vec_len l)) as [|Hle]; [done|].
  intros [Hl Hall]%parse_state_write_list_Ok. split; [|done].
  unfold vec_len in *. by rewrite Hl.
Qed.

(** * The graph-wide channel contract *)

Notation owned := (string * WorkflowStateWriteV1)%type.

(** Two writes agree when they use one reducer for a shared channel, and a
    [Replace] channel has one writing node. *)
Definition writes_agree (x y : owned) : Prop :=
  channel x.2 = channel y.2 ->
  reducer x.2 = reducer y.2 /\ (reducer x.2 = Replace -> x.1 = y.1).

Definition contract_ok (ws : list owned) : Prop :=
  forall x y, x ∈ ws -> y ∈ ws -> writes_agree x y.

Definition node_writes (node : string * Value) : list owned :=
  match parse_state_writes node.2 with Ok ws => pair node.1 <$> ws | Err _ => [] end.

Record audit_inv (seen : list owned) (acc : channel_audit) : Prop := {
  ai_issues : audit_issues acc = [];
  ai_contract : contract_ok seen;
  ai_reducers : forall c r, audit_reducers acc !! c = Some r <->
    exists x, x ∈ seen /\ channel x.2 = c /\ reducer x.2 = r;
  ai_writers : forall c n, audit_replace_writers acc !! c = Some n <->
    exists x, x ∈ seen /\ channel x.2 = c /\ reducer x.2 = Replace /\ x.1 = n;
}.

Lemma contract_ok_app ws1 ws2 : contract_ok (ws1 ++ ws2) -> contract_ok ws1.
Proof using Type. intros H x y Hx Hy. apply H; set_solver. Qed.

Lemma audit_write_mono n acc w : exists k, audit_issues (audit_write n acc w) = audit_issues acc ++ k.
Proof using Type.
  unfold audit_write, audit_replace, audit_reducer.
  repeat case_match; cbn; rewrite <-?app_assoc; eauto; exists []; by rewrite app_nil_r.
Qed.

Lemma audit_writes_mono n ws acc :
  exists k, audit_issues (fold_left (audit_write n) ws acc) = audit_issues acc ++ k.
Proof using Type.
  revert acc. induction ws as [|w ws IH]; intros acc; cbn; [exists []; by rewrite app_nil_r|].
  destruct (IH (audit_write n acc w)) as [k ->]. destruct (audit_write_mono n acc w) as [k' ->].
  rewrite <-app_assoc. eauto.
Qed.

Lemma audit_nodes_mono nodes acc :
  exists k, audit_issues (fold_left audit_node nodes acc) = audit_issues acc ++ k.
Proof using Type.
  revert acc. induction nodes as [|nd nodes IH]; intros acc; cbn; [exists []; by rewrite app_nil_r|].
  destruct (IH (audit_node acc nd)) as [k ->]. unfold audit_node.
  destruct (parse_state_writes nd.2) as [ws|e]; cbn.
  - destruct (audit_writes_mono nd.1 ws acc) as [k' ->]. rewrite <-app_assoc. eauto.
  - rewrite <-app_assoc. eauto.
Qed.

Lemma audit_inv_empty :
  audit_inv [] {| audit_issues := []; audit_reducers := ∅; audit_replace_writers := ∅ |}.
Proof using Type.
  split; [done|by intros x y Hx; apply not_elem_of_nil in Hx|..];
    cbn; intros; rewrite lookup_empty; split; try done; intros (x & Hx & _);
    by apply not_elem_of_nil in Hx.
Qed.

(** The write [w] of node [n] agrees with everything seen so far. *)
Definition agrees_with (seen : list owned) (n : string) (w : WorkflowStateWriteV1) : Prop :=
  forall x, x ∈ seen -> writes_agree x (n, w).

Lemma contract_ok_snoc seen n w :
  contract_ok seen -> (contract_ok (seen ++ [(n, w)]) <-> agrees_with seen n w).
Proof using Type.
  intros Hseen. split.
  - intros H x Hx. apply H; set_solver.
  - intros H x y Hx Hy. rewrite elem_of_app, list_elem_of_singleton in Hx, Hy.
    destruct Hx as [Hx| ->], Hy as [Hy| ->]; try by auto.
    intros Hc. destruct (H y Hy (eq_sym Hc)) as [Hr Hn].
    split; [by rewrite Hr|]. cbn in *. rewrite <-Hr. intros Hrep. by rewrite (Hn Hrep).
Qed.

Lemma audit_reducer_step seen acc n w :
  audit_inv seen acc ->
  audit_issues (audit_reducer n w acc) = [] <->
  (forall x, x ∈ seen -> channel x.2 = channel w -> reducer x.2 = reducer w).
Proof using Type.
  intros [Hi Hc Hr _]. unfold audit_reducer.
  destruct (audit_reducers acc !! channel w) as [r|] eqn:Hl.
  - apply Hr in Hl as (x & Hx & Hxc & Hxr). case_decide as Hd; cbn; rewrite Hi.
    + split; [|done]. intros _ y Hy Hyc. destruct (Hc x y) as [Heq _]; [done..|congruence|].
      congruence.
    + split; [done|]. intros H. specialize (H x Hx Hxc). congruence.
  - cbn. rewrite Hi. split; [|done]. intros _ x Hx Hxc.
    assert (audit_reducers acc !! channel w = Some (reducer x.2)) by (apply Hr; eauto).
    congruence.
Qed.

Lemma audit_write_step seen acc n w :
  audit_inv seen acc ->
  audit_issues (audit_write n acc w) = [] <-> agrees_with seen n w.
Proof using Type.
  intros Hinv. pose proof Hinv as [Hi Hc Hr Hw].
  assert (Hwr : audit_replace_writers (audit_reducer n w acc) = audit_replace_writers acc).
  { unfold audit_reducer. by repeat case_match. }
  unfold audit_write, audit_replace, agrees_with, writes_agree. rewrite Hwr. cbn.
  pose proof (audit_reducer_step seen acc n w Hinv) as Hred.
  destruct (decide (reducer w = Replace)) as [Hrep|Hrep]; cbn.
  - destruct (audit_replace_writers acc !! channel w) as [n'|] eqn:Hl.
    + apply Hw in Hl as (x & Hx & Hxc & Hxr & Hxn).
      case_decide as Hd; cbn.
      * rewrite Hred. split; [|naive_solver]. intros H y Hy Hyc. split; [by apply H|].
        intros Hyr. destruct (Hc x y) as [_ Heq]; [done..|congruence|].
        rewrite <-Heq by done. congruence.
      * split; [intros Hnil; destruct (audit_issues (audit_reducer n w acc)); done|].
        intros H. destruct (H x Hx Hxc) as [_ Hnn]. rewrite Hnn in Hxn; congruence.
    + cbn. rewrite Hred. split; [|naive_solver]. intros H y Hy Hyc. split; [by apply H|].
      intros Hyr. assert (audit_replace_writers acc !! channel w = Some y.1) by (apply Hw; eauto).
      congruence.
  - rewrite Hred. split; [|naive_solver]. intros H y Hy Hyc.
    rewrite (H y Hy Hyc). split; [done|]. intros; congruence.
Qed.

Lemma audit_write_inv seen acc n w :
  audit_inv seen acc -> agrees_with seen n w ->
  audit_inv (seen ++ [(n, w)]) (audit_write n acc w).
Proof using Type.
  intros Hinv Ha. pose proof (proj2 (audit_write_step seen acc n w Hinv) Ha) as Hiss.
  destruct Hinv as [Hi Hc Hr Hw].
  assert (Hred : audit_reducers (audit_write n acc w) = <[channel w := reducer w]> (audit_reducers acc)).
  { unfold audit_write, audit_replace, audit_reducer. by repeat case_match. }
  assert (Hrep : audit_replace_writers (audit_write n acc w) =
    if decide (reducer w = Replace) then <[channel w := n]> (audit_replace_writers acc)
    else audit_replace_writers acc).
  { unfold audit_write, audit_replace, audit_reducer. by repeat case_match. }
  split; [done|by apply contract_ok_snoc|..].
  - intros c r. rewrite Hred, lookup_insert. destruct (decide (channel w = c)) as [Hcw|Hcw].
    + subst c. split.
      * intros [= <-]. exists (n, w). set_solver.
      * intros (x & Hx & Hxc & <-). f_equal. rewrite elem_of_app, list_elem_of_singleton in Hx.
        destruct Hx as [Hx| ->]; [|done]. symmetry. by apply (Ha x Hx).
    + rewrite Hr. split; intros (x & Hx & Hxc & Hxr); exists x; [set_solver|].
      rewrite elem_of_app, list_elem_of_singleton in Hx. destruct Hx as [Hx| ->]; done.
  - intros c m. rewrite Hrep. destruct (decide (reducer w = Replace)) as [Hrw|Hrw].
    + rewrite lookup_insert. destruct (decide (channel w = c)) as [Hcw|Hcw].
      * subst c. split.
        -- intros [= <-]. exists (n, w). set_solver.
        -- intros (x & Hx & Hxc & Hxr & <-). f_equal.
           rewrite elem_of_app, list_elem_of_singleton in Hx.
           destruct Hx as [Hx| ->]; [|done]. symmetry. by apply (Ha x Hx).
      * rewrite Hw. split; intros (x & Hx & Hxc & Hxr & Hxn); exists x; [set_solver|].
        rewrite elem_of_app, list_elem_of_singleton in Hx. destruct Hx as [Hx| ->]; done.
    + rewrite Hw. split; intros (x & Hx & Hxc & Hxr & Hxn); exists x; [set_solver|].
      rewrite elem_of_app, list_elem_of_singleton in Hx. destruct Hx as [Hx| ->]; done.
Qed.

Lemma audit_writes_inv seen acc n ws :
  audit_inv seen acc ->
  (audit_issues (fold_left (audit_write n) ws acc) = [] <->
   contract_ok (seen ++ (pair n <$> ws)))
  /\ (audit_issues (fold_left (audit_write n) ws acc) = [] ->
      audit_inv (seen ++ (pair n <$> ws)) (fold_left (audit_write n) ws acc)).
Proof using Type.
  revert seen acc. induction ws as [|w ws IH]; intros seen acc Hinv; cbn.
  - rewrite app_nil_r. split; [|done]. destruct Hinv; naive_solver.
  - replace (seen ++ (n, w) :: (pair n <$> ws)) with ((seen ++ [(n, w)]) ++ (pair n <$> ws))
      by by rewrite <-app_assoc.
    destruct (decide (audit_issues (audit_write n acc w) = [])) as [Hz|Hz].
    + apply IH. apply audit_write_inv; [done|]. by apply (audit_write_step seen acc).
    + destruct (audit_writes_mono n ws (audit_write n acc w)) as [k Hk].
      assert (Hne : audit_issues (fold_left (audit_write n) ws (audit_write n acc w)) <> []).
      { rewrite Hk. by destruct (audit_issues (audit_write n acc w)). }
      split; [|done]. split; [done|]. intros Hc. destruct Hz.
      apply (audit_write_step seen acc); [done|]. apply contract_ok_snoc; [apply Hinv|].
      by eapply contract_ok_app.
Qed.

Lemma audit_nodes_spec nodes seen acc :
  audit_inv seen acc ->
  audit_issues (fold_left audit_node nodes acc) = [] <->
  Forall (fun nd => is_ok (parse_state_writes nd.2) = true) nodes
  /\ contract_ok (seen ++ concat (node_writes <$> nodes)).
Proof using Type.
  revert seen acc. induction nodes as [|nd nodes IH]; intros seen acc Hinv; cbn.
  - rewrite app_nil_r. destruct Hinv. naive_solver.
  - unfold audit_node at 2, node_writes at 1. rewrite Forall_cons.
    destruct (parse_state_writes nd.2) as [ws|e] eqn:Hp; cbn.
    + destruct (audit_writes_inv seen acc nd.1 ws Hinv) as [Hiff Hstep].
      rewrite app_assoc.
      destruct (decide (audit_issues (fold_left (audit_write nd.1) ws acc) = [])) as [Hz|Hz].
      * rewrite (IH _ _ (Hstep Hz)). naive_solver.
      * destruct (audit_nodes_mono nodes (fold_left (audit_write nd.1) ws acc)) as [k Hk].
        split.
        -- rewrite Hk. by destruct (audit_issues _).
        -- intros [_ Hc]. apply contract_ok_app in Hc. by apply Hiff in Hc.
    + split; [|naive_solver]. intros Hnil.
      destruct (audit_nodes_mono nodes (audit_issue nd.1 e acc)) as [k Hk].
      rewrite Hk in Hnil. cbn in Hnil. by destruct (audit_issues acc).
Qed.

Lemma validate_graph_state_writes_ok nodes :
  validate_graph_state_writes nodes = [] <->
  Forall (fun nd => is_ok (parse_state_writes nd.2) = true) nodes
  /\ contract_ok (concat (node_writes <$> nodes)).
Proof using Type.
  unfold validate_graph_state_writes. by rewrite (audit_nodes_spec nodes [] _ audit_inv_empty).
Qed.

(** the validator accepts exactly the graphs whose nodes all parse and whose
    writes keep the channel contract: one reducer per channel, and one writing
    node per [Replace] channel. *)
Theorem validate_graph_state_writes_exact nodes :
  validate_graph_state_writes nodes = [] <->
  Forall (fun nd => is_ok (parse_state_writes nd.2) = true) nodes
  /\ contract_ok (concat (node_writes <$> nodes)).
Proof using Type. apply validate_graph_state_writes_ok. Qed.

(** * Applying writes *)

(** The reducer's meaning on one channel: the value after the write, or [None]
    when the runtime rejects it. *)
Definition reduce_value (r : WorkflowStateReducerV1) (old : option Value) (v : Value)
    : option Value :=
  match r with
  | Replace => Some v
  | Append =>
      items ← as_array (default (VArray []) old);
      Some (VArray (items ++ default [v] (as_array v)))
  | MergeObject =>
      fields ← as_object (default (VObject ∅) old);
      new_fields ← as_object v;
      Some (VObject (new_fields ∪ fields))
  end.

Definition reduce_write (output : Value) (old : option Value) (w : WorkflowStateWriteV1)
    : option Value :=
  v ← result_ok (write_value w output);
  reduce_value (reducer w) old v.

(** The abstract semantics: a channel evolves by its own writes only. *)
Fixpoint reduce_channel (c : string) (output : Value) (ws : list WorkflowStateWriteV1)
    (old : option Value) : option (option Value) :=
  match ws with
  | [] => Some old
  | w :: ws' => if decide (channel w = c)
                then v ← reduce_write output old w; reduce_channel c output ws' (Some v)
                else reduce_channel c output ws' old
  end.

Lemma apply_state_write_Ok w output state state' :
  apply_state_write w output state = (Ok tt, state') <->
  exists v, reduce_write output (state !! channel w) w = Some v
            /\ state' = <[channel w := v]> state.
Proof using Type.
  unfold apply_state_write, reduce_write, m_bind, m_lift.
  destruct (write_value w output) as [v|e]; cbn; [|naive_solver].
  unfold reduce_value, m_modify, entry_or_insert. destruct (reducer w); cbn.
  - naive_solver.
  - destruct (state !! channel w) as [old|]; cbn.
    + destruct (as_array old) as [items|]; cbn; [|naive_solver].
      destruct v; cbn; naive_solver.
    + rewrite insert_insert_eq. destruct v; cbn; naive_solver.
  - destruct (state !! channel w) as [old|]; cbn.
    + destruct (as_object old) as [fields|]; cbn; [|naive_solver].
      destruct (as_object v); cbn; naive_solver.
    + destruct (as_object v); cbn; [|naive_solver]. rewrite insert_insert_eq. naive_solver.
Qed.

(** the in-place loop implements the per-channel semantics: it succeeds with
    [state'] exactly when every channel's own writes reduce to its value there. *)
Theorem apply_state_writes_refines ws output state state' :
  apply_state_writes ws output state = (Ok tt, state') <->
  forall c, reduce_channel c output ws (state !! c) = Some (state' !! c).
Proof using Type.
  revert state. induction ws as [|w ws IH]; intros state; cbn.
  - split; [by intros [= ->]|]. intros H. unfold m_ret. do 2 f_equal.
    apply map_eq. intros c. specialize (H c). congruence.
  - rewrite m_bind_Ok. split.
    + intros ([] & state1 & Hw & Hws) c. apply apply_state_write_Ok in Hw as (v & Hv & ->).
      rewrite IH in Hws. specialize (Hws c). destruct (decide (channel w = c)) as [<-|Hne].
      * rewrite Hv. cbn. by rewrite lookup_insert_eq in Hws.
      * by rewrite lookup_insert_ne in Hws.
    + intros H. pose proof (H (channel w)) as Hc. rewrite decide_True in Hc by done.
      destruct (reduce_write output (state !! channel w) w) as [v|] eqn:Hv; [|done].
      exists tt, (<[channel w := v]> state). split; [by apply apply_state_write_Ok; exists v|].
      apply IH. intros c. specialize (H c). destruct (decide (channel w = c)) as [<-|Hne].
      * rewrite lookup_insert_eq. by rewrite Hv in H.
      * by rewrite lookup_insert_ne.
Qed.

Lemma reduce_channel_filter c output ws old :
  reduce_channel c output ws old
  = reduce_channel c output (filter (fun w => channel w = c) ws) old.
Proof using Type.
  revert old. induction ws as [|w ws IH]; intros old; [done|].
  rewrite filter_cons. cbn. destruct (decide (channel w = c)) as [Hc|Hc]; cbn; [|apply IH].
  rewrite decide_True by done. destruct (reduce_write output old w); cbn; [apply IH|done].
Qed.

(** Only the order of the writes to one channel matters. *)
Theorem apply_state_writes_interleaving ws1 ws2 output state state' :
  (forall c, filter (fun w => channel w = c) ws1 = filter (fun w => channel w = c) ws2) ->
  apply_state_writes ws1 output state = (Ok tt, state') ->
  apply_state_writes ws2 output state = (Ok tt, state').
Proof using Type.
  intros Hf. rewrite !apply_state_writes_refines. intros H c.
  by rewrite reduce_channel_filter, <-Hf, <-reduce_channel_filter.
Qed.

Lemma apply_state_write_frame w output state c :
  channel w <> c -> snd (apply_state_write w output state) !! c = state !! c.
Proof using Type.
  intros Hne. unfold apply_state_write, m_bind, m_lift, m_modify, entry_or_insert.
  destruct (write_value w output); [|done].
  destruct (reducer w), (state !! channel w); cbn; repeat case_match; cbn;
    by rewrite ?lookup_insert_ne.
Qed.

(** A channel no write names keeps its value, also when a later write fails. *)
Theorem apply_state_writes_frame ws output state c :
  c ∉ channel <$> ws -> snd (apply_state_writes ws output state) !! c = state !! c.
Proof using Type.
  revert state. induction ws as [|w ws IH]; intros state Hc; [done|]. cbn.
  rewrite fmap_cons, not_elem_of_cons in Hc. destruct Hc as [Hne Hc].
  unfold m_bind. pose proof (apply_state_write_frame w output state c (not_eq_sym Hne)) as Hf.
  destruct (apply_state_write w output state) as [[u|e] s1]; cbn in *; [|done].
  by rewrite IH.
Qed.
End facts.
