(* ===== verification/Enterprise.v ===== *)
(** [enterprise.rs], [connection_operation_runtime.rs] and the operation type of
    [enterprise_connection_grants.rs]: the capability projection that bounds an
    execution, its lattice operations, and the frozen authority for external
    Connection operations. *)
From S2P Require Import Prelude RustStr RustStrFacts.

Definition ENTERPRISE_SCHEMA_VERSION_V1 : Z := 1.

(** [PathBuf], spelled as its string. *)
Notation PathBuf := string (only parsing).

(** The operating system: [Path::canonicalize], and whether [cfg(windows)]. *)
Class FileSystem := {
  canonicalize : PathBuf -> option PathBuf;
  cfg_windows : bool;
}.

Inductive DataClassification := Public | Internal | Confidential | Restricted.

(** The derived [Ord]. *)
Definition classification_rank (c : DataClassification) : Z :=
  match c with Public => 0 | Internal => 1 | Confidential => 2 | Restricted => 3 end.

Inductive AgentRiskClassV1 := Low | Medium | High | Critical.

Record CapabilityProjection := {
  allow_all_tools : bool;
  tools : gset string;
  allow_all_skills : bool;
  skills : gset string;
  allow_all_plugins : bool;
  plugins : gset string;
  allow_all_mcp_servers : bool;
  mcp_servers : gset string;
  allow_all_workspace_roots : bool;
  workspace_roots : gset PathBuf;
}.

#[export] Instance capability_projection_eq_dec : EqDecision CapabilityProjection.
Proof. solve_decision. Defined.

Definition deny_all : CapabilityProjection :=
  {| allow_all_tools := false; tools := ∅;
     allow_all_skills := false; skills := ∅;
     allow_all_plugins := false; plugins := ∅;
     allow_all_mcp_servers := false; mcp_servers := ∅;
     allow_all_workspace_roots := false; workspace_roots := ∅ |}.

Definition unrestricted : CapabilityProjection :=
  {| allow_all_tools := true; tools := tools deny_all;
     allow_all_skills := true; skills := skills deny_all;
     allow_all_plugins := true; plugins := plugins deny_all;
     allow_all_mcp_servers := true; mcp_servers := mcp_servers deny_all;
     allow_all_workspace_roots := true; workspace_roots := workspace_roots deny_all |}.

Definition only_tools (names : list string) : CapabilityProjection :=
  {| allow_all_tools := false; tools := list_to_set names;
     allow_all_skills := allow_all_skills unrestricted; skills := skills unrestricted;
     allow_all_plugins := allow_all_plugins unrestricted; plugins := plugins unrestricted;
     allow_all_mcp_servers := allow_all_mcp_servers unrestricted;
     mcp_servers := mcp_servers unrestricted;
     allow_all_workspace_roots := allow_all_workspace_roots unrestricted;
     workspace_roots := workspace_roots unrestricted |}.

(** * Scopes *)

Definition scope_is_subset (requested_all : bool) (requested : gset string)
    (ceiling_all : bool) (ceiling : gset string) : bool :=
  if requested_all then ceiling_all
  else ceiling_all || bool_decide (requested ⊆ ceiling).

Definition intersect_scope (left_all : bool) (left : gset string)
    (right_all : bool) (right : gset string) : bool * gset string :=
  match left_all, right_all with
  | true, true => (true, ∅)
  | true, false => (false, right)
  | false, true => (false, left)
  | false, false => (false, left ∩ right)
  end.

Definition union_scope (left_all : bool) (left : gset string)
    (right_all : bool) (right : gset string) : bool * gset string :=
  if left_all || right_all then (true, ∅) else (false, left ∪ right).

Section workspace.
Context `{FS : FileSystem} `{U : Unicode}.

(** The prefix stripping of the [cfg(windows)] branch. *)
Definition strip_verbatim (value : string) : string :=
  match strip_prefix "\\?\UNC\" value with
  | Some rest => "\\" +:+ rest
  | None =>
      match strip_prefix "\\?\" value with
      | Some rest => rest
      | None => match strip_prefix "\??\" value with Some rest => rest | None => value end
      end
  end.

Definition workspace_root_identity (path : PathBuf) : PathBuf :=
  let path := default path (canonicalize path) in
  if cfg_windows then to_lowercase (strip_verbatim (replace_char (chr "/") "\" path)) else path.

Definition workspace_roots_equal (left right : PathBuf) : bool :=
  bool_decide (workspace_root_identity left = workspace_root_identity right).

Definition workspace_scope_is_subset (requested_all : bool) (requested : gset PathBuf)
    (ceiling_all : bool) (ceiling : gset PathBuf) : bool :=
  if requested_all then ceiling_all
  else ceiling_all
       || forallb (fun root => existsb (workspace_roots_equal root) (elements ceiling))
                  (elements requested).

Definition normalized_workspace_roots (roots : gset PathBuf) : gset PathBuf :=
  set_map workspace_root_identity roots.

Definition intersect_workspace_scope (left_all : bool) (left : gset PathBuf)
    (right_all : bool) (right : gset PathBuf) : bool * gset PathBuf :=
  match left_all, right_all with
  | true, true => (true, ∅)
  | true, false => (false, normalized_workspace_roots right)
  | false, true => (false, normalized_workspace_roots left)
  | false, false =>
      (false,
       set_map workspace_root_identity
         (filter (fun candidate =>
                    existsb (workspace_roots_equal candidate) (elements right) = true) left))
  end.

Definition union_workspace_scope (left_all : bool) (left : gset PathBuf)
    (right_all : bool) (right : gset PathBuf) : bool * gset PathBuf :=
  if left_all || right_all then (true, ∅)
  else (false, set_map workspace_root_identity (left ∪ right)).

(** * [impl CapabilityProjection] *)

Definition intersect (self other : CapabilityProjection) : CapabilityProjection :=
  let t := intersect_scope (allow_all_tools self) (tools self)
                           (allow_all_tools other) (tools other) in
  let s := intersect_scope (allow_all_skills self) (skills self)
                           (allow_all_skills other) (skills other) in
  let p := intersect_scope (allow_all_plugins self) (plugins self)
                           (allow_all_plugins other) (plugins other) in
  let m := intersect_scope (allow_all_mcp_servers self) (mcp_servers self)
                           (allow_all_mcp_servers other) (mcp_servers other) in
  let w := intersect_workspace_scope (allow_all_workspace_roots self) (workspace_roots self)
                           (allow_all_workspace_roots other) (workspace_roots other) in
  {| allow_all_tools := t.1; tools := t.2;
     allow_all_skills := s.1; skills := s.2;
     allow_all_plugins := p.1; plugins := p.2;
     allow_all_mcp_servers := m.1; mcp_servers := m.2;
     allow_all_workspace_roots := w.1; workspace_roots := w.2 |}.

Definition union (self other : CapabilityProjection) : CapabilityProjection :=
  let t := union_scope (allow_all_tools self) (tools self)
                       (allow_all_tools other) (tools other) in
  let s := union_scope (allow_all_skills self) (skills self)
                       (allow_all_skills other) (skills other) in
  let p := union_scope (allow_all_plugins self) (plugins self)
                       (allow_all_plugins other) (plugins other) in
  let m := union_scope (allow_all_mcp_servers self) (mcp_servers self)
                       (allow_all_mcp_servers other) (mcp_servers other) in
  let w := union_workspace_scope (allow_all_workspace_roots self) (workspace_roots self)
                       (allow_all_workspace_roots other) (workspace_roots other) in
  {| allow_all_tools := t.1; tools := t.2;
     allow_all_skills := s.1; skills := s.2;
     allow_all_plugins := p.1; plugins := p.2;
     allow_all_mcp_servers := m.1; mcp_servers := m.2;
     allow_all_workspace_roots := w.1; workspace_roots := w.2 |}.

Definition allows_tool (self : CapabilityProjection) (name : string) : bool :=
  allow_all_tools self || bool_decide (name ∈ tools self).
Definition allows_skill (self : CapabilityProjection) (id : string) : bool :=
  allow_all_skills self || bool_decide (id ∈ skills self).
Definition allows_plugin (self : CapabilityProjection) (id_or_name : string) : bool :=
  allow_all_plugins self || bool_decide (id_or_name ∈ plugins self).
Definition allows_mcp_server (self : CapabilityProjection) (server_id : string) : bool :=
  allow_all_mcp_servers self || bool_decide (server_id ∈ mcp_servers self).
Definition allows_workspace_root (self : CapabilityProjection) (root : PathBuf) : bool :=
  allow_all_workspace_roots self
  || existsb (fun allowed => workspace_roots_equal allowed root)
             (elements (workspace_roots self)).

Definition is_subset_of (self ceiling : CapabilityProjection) : bool :=
  scope_is_subset (allow_all_tools self) (tools self)
                  (allow_all_tools ceiling) (tools ceiling)
  && scope_is_subset (allow_all_skills self) (skills self)
                     (allow_all_skills ceiling) (skills ceiling)
  && scope_is_subset (allow_all_plugins self) (plugins self)
                     (allow_all_plugins ceiling) (plugins ceiling)
  && scope_is_subset (allow_all_mcp_servers self) (mcp_servers self)
                     (allow_all_mcp_servers ceiling) (mcp_servers ceiling)
  && workspace_scope_is_subset (allow_all_workspace_roots self) (workspace_roots self)
                     (allow_all_workspace_roots ceiling) (workspace_roots ceiling).
End workspace.

(** * Connection operations *)

Record ExecutionConnectionOperationV1 := {
  op_connection_id : Uuid;
  op_capability_revision : Z;
  operation_id : string;
  mcp_server_id : Uuid;
  provider_tool_name : string;
  model_tool_name : string;
  pinned_operation_fingerprint : string;
}.

#[export] Instance operation_eq_dec : EqDecision ExecutionConnectionOperationV1.
Proof. solve_decision. Defined.

Inductive RuntimeConnectionAuthorityV1 :=
| DenyAll
| LegacyMcp
| Structured (operations : list ExecutionConnectionOperationV1).

#[export] Instance authority_eq_dec : EqDecision RuntimeConnectionAuthorityV1.
Proof. solve_decision. Defined.

Definition inferred_from_projection (projection : CapabilityProjection)
    : RuntimeConnectionAuthorityV1 :=
  if allow_all_mcp_servers projection || negb (bool_decide (mcp_servers projection = ∅))
  then LegacyMcp else DenyAll.

Section authority.
Context `{HO : Host}.

(** The filter of [attenuate]. *)
Definition operation_allowed (projection : CapabilityProjection)
    (operation : ExecutionConnectionOperationV1) : bool :=
  allows_tool projection (model_tool_name operation)
  && allows_mcp_server projection (host_uuid_string (mcp_server_id operation)).

Definition attenuate (self : RuntimeConnectionAuthorityV1) (projection : CapabilityProjection)
    : RuntimeConnectionAuthorityV1 :=
  match self with
  | DenyAll => DenyAll
  | LegacyMcp => LegacyMcp
  | Structured operations => Structured (List.filter (operation_allowed projection) operations)
  end.

(** One iteration of [capabilities_with_connection_operations]. *)
Definition admit_operation (capabilities : CapabilityProjection)
    (operation : ExecutionConnectionOperationV1) : CapabilityProjection :=
  {| allow_all_tools := allow_all_tools capabilities;
     tools := if allow_all_tools capabilities then tools capabilities
              else {[model_tool_name operation]} ∪ tools capabilities;
     allow_all_skills := allow_all_skills capabilities; skills := skills capabilities;
     allow_all_plugins := allow_all_plugins capabilities; plugins := plugins capabilities;
     allow_all_mcp_servers := allow_all_mcp_servers capabilities;
     mcp_servers := if allow_all_mcp_servers capabilities then mcp_servers capabilities
                    else {[host_uuid_string (mcp_server_id operation)]}
                         ∪ mcp_servers capabilities;
     allow_all_workspace_roots := allow_all_workspace_roots capabilities;
     workspace_roots := workspace_roots capabilities |}.

Definition capabilities_with_connection_operations (base : CapabilityProjection)
    (operations : list ExecutionConnectionOperationV1) : CapabilityProjection :=
  fold_left admit_operation operations base.
End authority.

(** * The lattice of projections *)

Lemma scope_meet c_all c a_all a b_all b :
  scope_is_subset c_all c (intersect_scope a_all a b_all b).1 (intersect_scope a_all a b_all b).2
  = scope_is_subset c_all c a_all a && scope_is_subset c_all c b_all b.
Proof.
  unfold scope_is_subset, intersect_scope.
  destruct c_all, a_all, b_all; cbn; rewrite ?andb_true_r; try done.
  apply eq_true_iff_eq. rewrite andb_true_iff, !bool_decide_eq_true. set_solver.
Qed.

(** A scope is included in another exactly when it admits no further name. *)
Lemma scope_is_subset_semantic r_all r c_all c :
  scope_is_subset r_all r c_all c = true <->
  (forall x : string, r_all = true \/ x ∈ r -> c_all = true \/ x ∈ c).
Proof.
  unfold scope_is_subset. destruct r_all, c_all; cbn; try naive_solver.
  - split; [done|]. intros H. destruct (H (fresh c)) as [|Hin]; [by left|done|].
    by apply is_fresh in Hin.
  - rewrite bool_decide_eq_true. split; [set_solver|]. intros H x Hx.
    destruct (H x); [by right|done|done].
Qed.

Section lattice.
Context `{FS : FileSystem} `{U : Unicode}.

(** Canonical paths are canonical: the identity of a root's identity is itself. *)
Definition identity_stable : Prop :=
  forall p, workspace_root_identity (workspace_root_identity p) = workspace_root_identity p.

Lemma roots_equal_spec p q :
  workspace_roots_equal p q = true <-> workspace_root_identity p = workspace_root_identity q.
Proof using Type. apply bool_decide_eq_true. Qed.

Lemma workspace_subset_spec r_all r c_all c :
  workspace_scope_is_subset r_all r c_all c = true <->
  (if r_all then c_all = true
   else c_all = true \/ forall p, p ∈ r -> exists q, q ∈ c
          /\ workspace_root_identity p = workspace_root_identity q).
Proof using Type.
  unfold workspace_scope_is_subset. destruct r_all; [done|].
  rewrite orb_true_iff, forallb_forall.
  assert (Hex : forall p, existsb (workspace_roots_equal p) (elements c) = true <->
    exists q, q ∈ c /\ workspace_root_identity p = workspace_root_identity q).
  { intros p. rewrite existsb_exists. setoid_rewrite <-list_elem_of_In.
    setoid_rewrite elem_of_elements. by setoid_rewrite roots_equal_spec. }
  setoid_rewrite <-list_elem_of_In. setoid_rewrite elem_of_elements. by setoid_rewrite Hex.
Qed.

Lemma workspace_meet c_all c a_all a b_all b :
  identity_stable ->
  workspace_scope_is_subset c_all c (intersect_workspace_scope a_all a b_all b).1
    (intersect_workspace_scope a_all a b_all b).2
  = workspace_scope_is_subset c_all c a_all a && workspace_scope_is_subset c_all c b_all b.
Proof using Type.
  intros Hid. apply eq_true_iff_eq. rewrite andb_true_iff, !workspace_subset_spec.
  assert (Hnorm : forall p s,
    (exists q, q ∈ normalized_workspace_roots s
       /\ workspace_root_identity p = workspace_root_identity q) <->
    (exists q, q ∈ s /\ workspace_root_identity p = workspace_root_identity q)).
  { intros p s. unfold normalized_workspace_roots. split.
    - intros (q & (q' & -> & Hq')%elem_of_map & Heq). rewrite Hid in Heq. eauto.
    - intros (q & Hq & Heq). exists (workspace_root_identity q).
      rewrite Hid. split; [|done]. apply elem_of_map. eauto. }
  unfold intersect_workspace_scope.
  destruct c_all, a_all, b_all; cbn [fst snd]; rewrite ?Hnorm; try (setoid_rewrite Hnorm);
    try (intuition congruence).
  split.
  - intros [|H]; [done|].
    split; right; intros p Hp; destruct (H p Hp) as (q & [Hr Hl]%elem_of_filter & Heq); [eauto|].
    apply existsb_exists in Hr as (q' & Hq' & Hqq). apply roots_equal_spec in Hqq.
    apply list_elem_of_In, elem_of_elements in Hq'. exists q'. split; [done|]. congruence.
  - intros [[|Ha] [|Hb]]; try done. right. intros p Hp.
    destruct (Ha p Hp) as (q & Hq & Heq), (Hb p Hp) as (q' & Hq' & Heq').
    exists q. split; [|done]. apply elem_of_filter. split; [|done].
    apply existsb_exists. exists q'. split; [by apply list_elem_of_In, elem_of_elements|].
    apply roots_equal_spec. congruence.
Qed.

Lemma intersect_meet (Hid : identity_stable) c a b :
  is_subset_of c (intersect a b) = is_subset_of c a && is_subset_of c b.
Proof using Type.
  unfold is_subset_of, intersect. cbn. rewrite !scope_meet, workspace_meet by done.
  repeat match goal with |- context [scope_is_subset ?x ?y ?z ?w] =>
    generalize (scope_is_subset x y z w); intros ? end.
  repeat match goal with |- context [workspace_scope_is_subset ?x ?y ?z ?w] =>
    generalize (workspace_scope_is_subset x y z w); intros ? end.
  by repeat match goal with b : bool |- _ => destruct b; cbn; clear b end.
Qed.

(** Dually, the union is the least upper bound. *)
Lemma scope_join a_all (a : gset string) b_all b c_all c :
  scope_is_subset (union_scope a_all a b_all b).1 (union_scope a_all a b_all b).2 c_all c
  = scope_is_subset a_all a c_all c && scope_is_subset b_all b c_all c.
Proof.
  unfold scope_is_subset, union_scope.
  destruct a_all, b_all, c_all; cbn; rewrite ?andb_true_r, ?andb_false_r; try done.
  rewrite <-bool_decide_and. apply bool_decide_ext. set_solver.
Qed.

Lemma workspace_join a_all (a : gset PathBuf) b_all b c_all c :
  identity_stable ->
  workspace_scope_is_subset (union_workspace_scope a_all a b_all b).1
    (union_workspace_scope a_all a b_all b).2 c_all c
  = workspace_scope_is_subset a_all a c_all c && workspace_scope_is_subset b_all b c_all c.
Proof using Type.
  intros Hid. apply eq_bool_prop_intro. rewrite andb_True, !Is_true_true, !workspace_subset_spec.
  unfold union_workspace_scope. destruct a_all, b_all; cbn; [tauto..|].
  destruct c_all; [tauto|].
  assert (forall P : Prop, false = true \/ P <-> P) as Hfalse by (intros P; split; [by intros [?|?]|auto]).
  rewrite !Hfalse. split.
  - intros H. split; intros p Hp; (destruct (H (workspace_root_identity p)) as (q & Hq & Heq);
      [apply elem_of_map; exists p; set_solver|exists q; by rewrite <-Hid]).
  - intros [Ha Hb] p (p0 & -> & Hp0)%elem_of_map. rewrite Hid.
    apply elem_of_union in Hp0 as [?|?]; auto.
Qed.

Lemma union_join (Hid : identity_stable) a b c :
  is_subset_of (union a b) c = is_subset_of a c && is_subset_of b c.
Proof using Type.
  unfold is_subset_of, union. cbn. rewrite !scope_join, workspace_join by done.
  repeat match goal with |- context [scope_is_subset ?x ?y ?z ?w] =>
    generalize (scope_is_subset x y z w); intros ? end.
  repeat match goal with |- context [workspace_scope_is_subset ?x ?y ?z ?w] =>
    generalize (workspace_scope_is_subset x y z w); intros ? end.
  by repeat match goal with b : bool |- _ => destruct b; cbn; clear b end.
Qed.

(** C36: the capability order is a lattice: a projection fits below an intersection
    exactly when it fits below both operands, and a union fits below a ceiling
    exactly when both operands do. *)
Theorem intersect_union_lattice (Hid : identity_stable) a b c :
  is_subset_of c (intersect a b) = is_subset_of c a && is_subset_of c b
  /\ is_subset_of (union a b) c = is_subset_of a c && is_subset_of b c.
Proof using Type. split; [by apply intersect_meet|by apply union_join]. Qed.

Lemma is_subset_of_refl c : is_subset_of c c = true.
Proof using Type.
  assert (Hs : forall all (s : gset string), scope_is_subset all s all s = true)
    by (intros; apply scope_is_subset_semantic; done).
  assert (Hw : forall all (s : gset string), workspace_scope_is_subset all s all s = true).
  { intros [] s; [done|]. apply workspace_subset_spec. right. eauto. }
  unfold is_subset_of. by rewrite !Hs, Hw.
Qed.

(** An intersection grants no more than either operand. *)
Lemma intersect_subset (Hid : identity_stable) a b :
  is_subset_of (intersect a b) a = true /\ is_subset_of (intersect a b) b = true.
Proof using Type.
  apply andb_true_iff. rewrite <-intersect_meet by done. apply is_subset_of_refl.
Qed.

Lemma scope_allows_intersect a_all (a : gset string) b_all b x :
  (intersect_scope a_all a b_all b).1 || bool_decide (x ∈ (intersect_scope a_all a b_all b).2)
  = (a_all || bool_decide (x ∈ a)) && (b_all || bool_decide (x ∈ b)).
Proof using Type.
  unfold intersect_scope. destruct a_all, b_all; cbn; rewrite ?andb_true_r; try done.
  apply eq_true_iff_eq. rewrite andb_true_iff, !bool_decide_eq_true. set_solver.
Qed.

Lemma allows_tool_intersect a b x :
  allows_tool (intersect a b) x = allows_tool a x && allows_tool b x.
Proof using Type. apply scope_allows_intersect. Qed.

Lemma allows_mcp_server_intersect a b x :
  allows_mcp_server (intersect a b) x = allows_mcp_server a x && allows_mcp_server b x.
Proof using Type. apply scope_allows_intersect. Qed.

Lemma scope_subset_allows r_all (r : gset string) c_all c x :
  scope_is_subset r_all r c_all c = true ->
  r_all || bool_decide (x ∈ r) = true -> c_all || bool_decide (x ∈ c) = true.
Proof using Type.
  rewrite scope_is_subset_semantic, !orb_true_iff, !bool_decide_eq_true. intros H. apply H.
Qed.

Lemma allows_workspace_root_spec c p :
  allows_workspace_root c p = true <->
  allow_all_workspace_roots c = true \/ exists q, q ∈ workspace_roots c
    /\ workspace_root_identity q = workspace_root_identity p.
Proof using Type.
  unfold allows_workspace_root. rewrite orb_true_iff, existsb_exists.
  setoid_rewrite <-list_elem_of_In. setoid_rewrite elem_of_elements.
  by setoid_rewrite roots_equal_spec.
Qed.

(** A projection accepted by [is_subset_of] allows nothing its ceiling
    refuses, in any of the five scopes. *)
Theorem is_subset_of_never_widens a b :
  is_subset_of a b = true ->
  forall x,
    (allows_tool a x = true -> allows_tool b x = true)
    /\ (allows_skill a x = true -> allows_skill b x = true)
    /\ (allows_plugin a x = true -> allows_plugin b x = true)
    /\ (allows_mcp_server a x = true -> allows_mcp_server b x = true)
    /\ (allows_workspace_root a x = true -> allows_workspace_root b x = true).
Proof using Type.
  unfold is_subset_of. rewrite !andb_true_iff. intros [[[[Ht Hs] Hp] Hm] Hw] x.
  split_and!; try (by apply scope_subset_allows).
  rewrite !allows_workspace_root_spec. apply workspace_subset_spec in Hw.
  destruct (allow_all_workspace_roots a); [by left|].
  intros [|(q & Hq & Heq)]; [done|]. destruct Hw as [|Hw]; [by left|].
  destruct (Hw q Hq) as (q' & Hq' & Heq'). right. exists q'. split; congruence.
Qed.
End lattice.

(** * Frozen Connection authority *)

Section authority_facts.
Context `{HO : Host} `{FS : FileSystem} `{U : Unicode}.

Lemma operation_allowed_intersect p q op :
  operation_allowed (intersect p q) op = operation_allowed p op && operation_allowed q op.
Proof using Type.
  unfold operation_allowed. rewrite allows_tool_intersect, allows_mcp_server_intersect.
  by destruct (allows_tool p _), (allows_tool q _), (allows_mcp_server p _).
Qed.

(** Attenuating twice is attenuating by the intersection, so the order in
    which ceilings are applied is irrelevant and authority only shrinks. *)
Theorem attenuate_attenuate authority p q :
  attenuate (attenuate authority p) q = attenuate authority (intersect p q).
Proof using Type.
  destruct authority as [| |ops]; cbn; [done..|]. f_equal.
  induction ops as [|op ops IH]; cbn; [done|]. rewrite operation_allowed_intersect.
  destruct (operation_allowed p op); cbn; [|done].
  destruct (operation_allowed q op); cbn; by rewrite IH.
Qed.

Lemma admit_operation_keeps base op op' :
  operation_allowed base op' = true -> operation_allowed (admit_operation base op) op' = true.
Proof using Type.
  unfold operation_allowed, allows_tool, allows_mcp_server, admit_operation. cbn.
  destruct (allow_all_tools base), (allow_all_mcp_servers base); cbn;
    rewrite ?andb_true_iff, ?bool_decide_eq_true; set_solver.
Qed.

Lemma admit_operation_admits base op : operation_allowed (admit_operation base op) op = true.
Proof using Type.
  unfold operation_allowed, allows_tool, allows_mcp_server, admit_operation. cbn.
  destruct (allow_all_tools base), (allow_all_mcp_servers base); cbn;
    rewrite ?andb_true_iff, ?bool_decide_eq_true; set_solver.
Qed.

Lemma capabilities_with_operations_keeps base ops op :
  operation_allowed base op = true ->
  operation_allowed (capabilities_with_connection_operations base ops) op = true.
Proof using Type.
  revert base. induction ops as [|op' ops IH]; intros base H; cbn; [done|].
  by apply IH, admit_operation_keeps.
Qed.

Lemma capabilities_with_operations_admits base ops op :
  op ∈ ops -> operation_allowed (capabilities_with_connection_operations base ops) op = true.
Proof using Type.
  revert base. induction ops as [|op' ops IH]; intros base; [by intros ?%not_elem_of_nil|].
  intros [->|Hin]%elem_of_cons; cbn; [|by apply IH].
  apply capabilities_with_operations_keeps, admit_operation_admits.
Qed.

(** The capabilities compiled for an Agent node admit every Connection
    operation frozen with it: attenuating by them loses nothing. *)
Theorem compiled_capabilities_admit_operations base ops :
  attenuate (Structured ops) (capabilities_with_connection_operations base ops) = Structured ops.
Proof using Type.
  cbn. f_equal. apply forallb_filter_id, forallb_forall. intros op Hop.
  by apply capabilities_with_operations_admits, list_elem_of_In.
Qed.
End authority_facts.
