(* ===== verification/WorkflowAutomation.v ===== *)
(** [workflow_automation.rs]: trigger and output specifications of a workflow,
    their validation, and the advance of a schedule past the current time. *)
From S2P Require Import Prelude RustStr RustStrFacts Enterprise.

Definition WORKFLOW_AUTOMATION_SCHEMA_VERSION_V1 : Z := 1.

Inductive WorkflowIngressPolicyV1 := Immediate | RequireReview.

Definition ingress_policy_default : WorkflowIngressPolicyV1 := Immediate.

Inductive WorkflowTriggerSpecV1 :=
| Manual
| Webhook (trigger_id : Uuid) (token_ref : string)
| Schedule (trigger_id : Uuid) (interval_seconds : Z) (next_fire_at : DateTime)
| EventSubscription (trigger_id : Uuid) (source event_type : string).

#[export] Instance trigger_spec_eq_dec : EqDecision WorkflowTriggerSpecV1.
Proof. solve_decision. Defined.

Inductive WorkflowOutputSpecV1 :=
| Inbox
| OutputWebhook (endpoint : string) (credential_ref : option string)
| ConnectionOperation (operation : ExecutionConnectionOperationV1)
| OutputHumanTask (title description : string) (assigned_to : option string).

(** [reqwest::Url::parse] and the accessors the program reads. *)
Record Url := {
  scheme : string;
  username : string;
  password : option string;
  host_str : option string;
}.

Class UrlParser := { url_parse : string -> Result string Url }.

(** * Validation *)

Definition validate_bounded_text (value name : string) (limit : Z) : Result anyhow unit :=
  let? _ := ensure (negb (str_is_empty (trim value))) (name +:+ " cannot be empty") in
  ensure (chars_count value <=? limit) (name +:+ " is too long").

Definition validate_bounded_label (value name : string) : Result anyhow unit :=
  validate_bounded_text value name 128.

Definition validate_credential_ref (reference : string) : Result anyhow unit :=
  let reference := trim reference in
  let? _ := ensure (match strip_prefix "env:" reference with
                    | Some name => negb (str_is_empty (trim name))
                    | None => false
                    end)
              "credential references must use env:NAME and never contain a secret value" in
  ensure (str_len reference <=? 256) "credential reference is too long".

Definition validate_webhook_endpoint `{UrlParser} (endpoint : string) : Result anyhow unit :=
  let? parsed := map_err Msg (url_parse (trim endpoint)) in
  let? _ := ensure (String.eqb (scheme parsed) "http" || String.eqb (scheme parsed) "https")
              "webhook endpoint must use http or https" in
  let? _ := ensure (str_is_empty (username parsed)
                    && match password parsed with None => true | Some _ => false end)
              "webhook endpoint cannot contain credentials" in
  let? _ := if String.eqb (scheme parsed) "http"
            then let host := default "" (host_str parsed) in
                 ensure (String.eqb host "localhost" || String.eqb host "127.0.0.1"
                         || String.eqb host "::1")
                   "non-loopback webhook endpoints must use https"
            else Ok tt in
  ensure (str_len endpoint <=? 2048) "webhook endpoint is too long".

(** [impl WorkflowTriggerSpecV1] *)
Definition trigger_id (self : WorkflowTriggerSpecV1) : option Uuid :=
  match self with
  | Manual => None
  | Webhook id _ | Schedule id _ _ | EventSubscription id _ _ => Some id
  end.

Definition trigger_kind_name (self : WorkflowTriggerSpecV1) : string :=
  match self with
  | Manual => "manual"
  | Webhook _ _ => "webhook"
  | Schedule _ _ _ => "schedule"
  | EventSubscription _ _ _ => "event_subscription"
  end.

Definition validate_trigger (self : WorkflowTriggerSpecV1) : Result anyhow unit :=
  match self with
  | Manual => Ok tt
  | Webhook _ token_ref => validate_credential_ref token_ref
  | Schedule _ interval_seconds _ =>
      let? _ := ensure ((60 <=? interval_seconds) && (interval_seconds <=? 31536000))
                  "schedule intervalSeconds must be between 60 and 31536000" in
      Ok tt
  | EventSubscription _ source event_type =>
      let? _ := validate_bounded_label source "event source" in
      validate_bounded_label event_type "event type"
  end.

(** [impl WorkflowOutputSpecV1] *)
Definition output_kind_name (self : WorkflowOutputSpecV1) : string :=
  match self with
  | Inbox => "inbox"
  | OutputWebhook _ _ => "webhook"
  | ConnectionOperation _ => "connection_operation"
  | OutputHumanTask _ _ _ => "human_task"
  end.

Definition validate_output `{UrlParser} (self : WorkflowOutputSpecV1) : Result anyhow unit :=
  match self with
  | Inbox | ConnectionOperation _ => Ok tt
  | OutputWebhook endpoint credential_ref =>
      let? _ := validate_webhook_endpoint endpoint in
      match credential_ref with
      | Some reference => validate_credential_ref reference
      | None => Ok tt
      end
  | OutputHumanTask title description assigned_to =>
      let? _ := validate_bounded_text title "HumanTask title" 160 in
      let? _ := validate_bounded_text description "HumanTask description" 2000 in
      match assigned_to with
      | Some assignee => validate_bounded_label assignee "HumanTask assignee"
      | None => Ok tt
      end
  end.

(** * The schedule *)

(** [while *next_fire_at <= now { *next_fire_at += interval }]; [None] when the
    fuel does not suffice. *)
Fixpoint advance_past (fuel : nat) (interval : Z) (next now : DateTime) : option DateTime :=
  if next <=? now
  then match fuel with
       | O => None
       | S fuel' => advance_past fuel' interval (next + interval) now
       end
  else Some next.

(** The method mutates the trigger in place: its result and the trigger
    afterwards, or [None] when the loop is cut off. *)
Definition schedule_due_key_and_advance `{Host} (fuel : nat) (self : WorkflowTriggerSpecV1)
    (now : DateTime) : option (option string * WorkflowTriggerSpecV1) :=
  match self with
  | Schedule id interval_seconds next_fire_at =>
      if now <? next_fire_at then Some (None, self)
      else let due := next_fire_at in
           let interval := duration_seconds interval_seconds in
           next ← advance_past fuel interval next_fire_at now;
           Some (Some ("schedule:" +:+ host_rfc3339 due), Schedule id interval_seconds next)
  | _ => Some (None, self)
  end.

(** * Facts *)

Lemma validate_bounded_text_Ok value name limit :
  validate_bounded_text value name limit = Ok tt <->
  trim value <> "" /\ chars_count value <= limit.
Proof.
  unfold validate_bounded_text. rewrite <-str_is_empty_false.
  destruct (str_is_empty (trim value)), (Z.leb_spec (chars_count value) limit); cbn;
    split; intros; try done; naive_solver lia.
Qed.

(** A credential reference never carries a secret: it names an environment
    variable. *)
Lemma validate_credential_ref_Ok reference :
  validate_credential_ref reference = Ok tt ->
  exists name, trim reference = "env:" +:+ name /\ trim name <> ""
               /\ str_len (trim reference) <= 256.
Proof.
  unfold validate_credential_ref. intros H. invert_ok.
  destruct (strip_prefix "env:" (trim reference)) as [name|] eqn:Hp; [|done].
  apply strip_prefix_Some in Hp. exists name.
  apply negb_true_iff, str_is_empty_false in H. apply Z.leb_le in H0. done.
Qed.

(** The loop stops with the first [next + k * interval] after [now]. *)
Lemma advance_past_spec k interval next now fuel :
  0 < interval -> 0 <= k -> (Z.to_nat k <= fuel)%nat ->
  next + (k - 1) * interval <= now < next + k * interval ->
  advance_past fuel interval next now = Some (next + k * interval).
Proof.
  intros Hi. revert k next. induction fuel as [|fuel IH]; intros k next Hk Hf Hb; cbn.
  - assert (k = 0) as -> by lia. destruct (Z.leb_spec next now); [lia|]. f_equal. lia.
  - destruct (Z.leb_spec next now) as [Hle|Hgt].
    + assert (0 < k) by nia. rewrite (IH (k - 1)); [f_equal; lia|lia|lia|nia].
    + assert (k = 0) as -> by nia. f_equal. lia.
Qed.

Lemma advance_past_mono fuel fuel' interval next now r :
  (fuel <= fuel')%nat -> advance_past fuel interval next now = Some r ->
  advance_past fuel' interval next now = Some r.
Proof.
  revert fuel' next. induction fuel as [|fuel IH]; intros fuel' next Hle; cbn.
  - destruct (Z.leb_spec next now) as [|Hgt]; [done|]. intros [= <-].
    destruct fuel'; cbn; by destruct (Z.leb_spec next now); [lia|].
  - destruct fuel' as [|fuel']; [lia|]. cbn.
    destruct (next <=? now); [|done]. apply IH. lia.
Qed.

(** Without the validated lower bound the loop would not end. *)
Lemma advance_past_zero_interval fuel next now :
  next <= now -> advance_past fuel 0 next now = None.
Proof.
  intros Hle. induction fuel as [|fuel IH]; cbn; destruct (Z.leb_spec next now); try done; try lia.
  by rewrite Z.add_0_r.
Qed.

Section schedule.
Context `{HO : Host}.

Definition schedule_fuel (interval_seconds : Z) (next now : DateTime) : nat :=
  Z.to_nat ((now - next) / duration_seconds interval_seconds + 1).

Lemma validate_schedule_Ok id i next :
  validate_trigger (Schedule id i next) = Ok tt <-> 60 <= i <= 31536000.
Proof using Type.
  unfold validate_trigger. destruct (Z.leb_spec 60 i), (Z.leb_spec i 31536000); cbn;
    split; intros; try done; lia.
Qed.

(** A validated schedule that is due fires once for the due time and moves to
    the first tick of its grid after [now], in finitely many iterations. *)
Theorem schedule_advance_terminates id i next now fuel :
  validate_trigger (Schedule id i next) = Ok tt -> next <= now ->
  (schedule_fuel i next now <= fuel)%nat ->
  exists k, 0 < k
    /\ next + (k - 1) * duration_seconds i <= now < next + k * duration_seconds i
    /\ schedule_due_key_and_advance fuel (Schedule id i next) now
       = Some (Some ("schedule:" +:+ host_rfc3339 next),
               Schedule id i (next + k * duration_seconds i)).
Proof using Type.
  intros Hv%validate_schedule_Ok Hdue Hfuel. unfold schedule_fuel in Hfuel.
  assert (0 < duration_seconds i) as Hi by (unfold duration_seconds; lia).
  pose proof (Z.div_pos (now - next) _ ltac:(lia) Hi).
  pose proof (Z.mul_div_le (now - next) _ Hi).
  pose proof (Z.mul_succ_div_gt (now - next) _ Hi).
  set (q := (now - next) / duration_seconds i) in *. exists (q + 1).
  assert (next + (q + 1 - 1) * duration_seconds i <= now < next + (q + 1) * duration_seconds i)
    by lia.
  split; [lia|]. split; [done|]. cbn. destruct (Z.ltb_spec now next); [lia|].
  by rewrite (advance_past_spec (q + 1)) by (done || lia).
Qed.

Lemma advance_past_after fuel interval next now r :
  advance_past fuel interval next now = Some r -> now < r.
Proof using Type.
  revert next. induction fuel as [|fuel IH]; intros next; cbn;
    destruct (Z.leb_spec next now); try done; try (intros [= <-]; lia); apply IH.
Qed.

(** No double firing: once advanced, the trigger is not due again at the
    same instant or before. *)
Theorem schedule_fires_once fuel fuel' self now now' key self' :
  schedule_due_key_and_advance fuel self now = Some (Some key, self') -> now' <= now ->
  schedule_due_key_and_advance fuel' self' now' = Some (None, self').
Proof using Type.
  destruct self as [|?|id i next|]; cbn; try done.
  destruct (Z.ltb_spec now next); [done|].
  destruct (advance_past fuel _ next now) as [r|] eqn:Ha; [|done]. cbn.
  intros [= <- <-] Hle. apply advance_past_after in Ha. cbn.
  destruct (Z.ltb_spec now' r); [done|lia].
Qed.
End schedule.
