(* ===== verification/FlowGraph.v ===== *)
(** The data model of [flow.rs]: graphs, budgets, specifications, validation
    reports, drafts, definitions, trials and compiled plans. *)
From S2P Require Import Prelude RustStr Json Enterprise.

Definition MAX_FLOW_NODES : Z := 128.
Definition MAX_FLOW_LOOP_ITERATIONS : Z := 50.
Definition MAX_FLOW_DURATION_SECONDS : Z := 86400.

Inductive FlowSourceV1 :=
| NaturalLanguage (description : string)
| RunTrace (run_id : Uuid) (trace_hash : string).

Inductive FlowDraftStatusV1 := Drafting | Reviewing | Validating | ReadyToPublish | Published.

Definition draft_status_as_str (self : FlowDraftStatusV1) : string :=
  match self with
  | Drafting => "drafting"
  | Reviewing => "reviewing"
  | Validating => "validating"
  | ReadyToPublish => "ready_to_publish"
  | Published => "published"
  end.

Inductive GraphNodeKindV1 :=
| Agent | Skill | Tool | Condition | Validator | Approval | Join | Loop | Output.

#[export] Instance node_kind_eq_dec : EqDecision GraphNodeKindV1.
Proof. solve_decision. Defined.

Inductive LoopExhaustionActionV1 := RequireHuman | ReturnPartial | Fail.

#[export] Instance exhaustion_eq_dec : EqDecision LoopExhaustionActionV1.
Proof. solve_decision. Defined.

Record GraphLoopPolicyV1 := {
  max_iterations : Z;
  continue_condition : string;
  on_exhausted : LoopExhaustionActionV1;
}.

Record GraphEdgeV1 := {
  edge_from : string;
  edge_to : string;
  condition : option string;
  allowed_fields : gset string;
  data_classification : DataClassification;
  on_error : option string;
  loop_policy : option GraphLoopPolicyV1;
}.

Record FlowBudgetV1 := {
  max_node_executions : Z;
  max_tool_calls : Z;
  max_duration_seconds : Z;
  max_loop_iterations : Z;
}.

Definition flow_budget_default : FlowBudgetV1 :=
  {| max_node_executions := 100; max_tool_calls := 60;
     max_duration_seconds := 3600; max_loop_iterations := 10 |}.

Inductive FlowValidationSeverityV1 := Error | Warning.

#[export] Instance severity_eq_dec : EqDecision FlowValidationSeverityV1.
Proof. solve_decision. Defined.

Record FlowValidationIssueV1 := {
  severity : FlowValidationSeverityV1;
  code : string;
  message : string;
  issue_node_id : option string;
  issue_edge_index : option nat;
  remediation : string;
}.

Record FlowValidationReportV1 := {
  valid : bool;
  issues : list FlowValidationIssueV1;
  validated_at : DateTime;
}.

Definition error_count (self : FlowValidationReportV1) : nat :=
  length (List.filter (fun issue => bool_decide (severity issue = Error)) (issues self)).

Section json.
Context `{JN : JsonNumber}.

Record GraphNodeV1 := {
  node_id : string;
  label : string;
  kind : GraphNodeKindV1;
  config : Value;
  input_schema : Value;
  output_schema : Value;
}.

Record GraphDefinitionV1 := {
  graph_schema_version : Z;
  entry_node_id : string;
  nodes : list GraphNodeV1;
  edges : list GraphEdgeV1;
}.

Record FlowSpecV1 := {
  spec_flow_id : string;
  spec_name : string;
  spec_description : string;
  spec_owner : string;
  spec_categories : gset string;
  spec_source : FlowSourceV1;
  spec_input_schema : Value;
  spec_output_schema : Value;
  spec_graph : GraphDefinitionV1;
  requested_capabilities : CapabilityProjection;
  spec_budget : FlowBudgetV1;
  spec_risk_class : AgentRiskClassV1;
  pending_decisions : list string;
}.

Record FlowDraftV1 := {
  draft_schema_version : Z;
  draft_id : Uuid;
  draft_thread_id : Uuid;
  draft_revision : Z;
  draft_status : FlowDraftStatusV1;
  draft_spec : FlowSpecV1;
  effective_capabilities : CapabilityProjection;
  draft_content_hash : string;
  last_validation : option FlowValidationReportV1;
  draft_created_at : DateTime;
  draft_updated_at : DateTime;
}.

Record FlowDefinitionV1 := {
  def_schema_version : Z;
  def_id : Uuid;
  def_flow_id : string;
  def_name : string;
  def_version : Z;
  def_owner : string;
  def_description : string;
  def_categories : gset string;
  def_source : FlowSourceV1;
  def_graph : GraphDefinitionV1;
  def_input_schema : Value;
  def_output_schema : Value;
  def_capabilities : CapabilityProjection;
  def_budget : FlowBudgetV1;
  def_risk_class : AgentRiskClassV1;
  def_content_hash : string;
  published_at : DateTime;
  published_by : string;
}.

(** [FlowDefinitionV1::to_spec] *)
Definition to_spec (self : FlowDefinitionV1) : FlowSpecV1 :=
  {| spec_flow_id := def_flow_id self;
     spec_name := def_name self;
     spec_description := def_description self;
     spec_owner := def_owner self;
     spec_categories := def_categories self;
     spec_source := def_source self;
     spec_input_schema := def_input_schema self;
     spec_output_schema := def_output_schema self;
     spec_graph := def_graph self;
     requested_capabilities := def_capabilities self;
     spec_budget := def_budget self;
     spec_risk_class := def_risk_class self;
     pending_decisions := [] |}.
End json.

Inductive FlowTrialStatusV1 := Passed | TrialFailed.

Definition trial_status_as_str (self : FlowTrialStatusV1) : string :=
  match self with Passed => "passed" | TrialFailed => "failed" end.

Record FlowSimulationStepV1 := {
  order : Z;
  step_node_id : string;
  harness_target : string;
  bounded_by : option Z;
}.

Record FlowTrialV1 `{JsonNumber} := {
  trial_schema_version : Z;
  trial_id : Uuid;
  trial_draft_id : Uuid;
  trial_draft_revision : Z;
  trial_status : FlowTrialStatusV1;
  trial_input : Value;
  steps : list FlowSimulationStepV1;
  report : FlowValidationReportV1;
  trial_created_at : DateTime;
}.

Inductive HarnessNodeTargetV1 :=
| AgentCore | AgentRunScheduler | SkillRuntime | ToolRegistry | RuntimeCondition
| RuntimeValidator | RuntimeApproval | RuntimeJoin | RuntimeLoop | RuntimeOutput.

Definition harness_target_as_str (self : HarnessNodeTargetV1) : string :=
  match self with
  | AgentCore => "agent_core"
  | AgentRunScheduler => "agent_run_scheduler"
  | SkillRuntime => "skill_runtime"
  | ToolRegistry => "tool_registry"
  | RuntimeCondition => "runtime_condition"
  | RuntimeValidator => "runtime_validator"
  | RuntimeApproval => "runtime_approval"
  | RuntimeJoin => "runtime_join"
  | RuntimeLoop => "runtime_loop"
  | RuntimeOutput => "runtime_output"
  end.

Record CompiledFlowNodeV1 := {
  compiled_node_id : string;
  target : HarnessNodeTargetV1;
  reference : option string;
}.

Record CompiledFlowPlanV1 := {
  plan_schema_version : Z;
  plan_flow_id : string;
  plan_content_hash : string;
  plan_entry_node_id : string;
  plan_nodes : list CompiledFlowNodeV1;
  plan_edges : list GraphEdgeV1;
  plan_budget : FlowBudgetV1;
}.

(** [graph.nodes.iter().find(|node| node.id == id)] *)
Definition find_node `{JsonNumber} (graph : GraphDefinitionV1) (id : string) : option GraphNodeV1 :=
  List.find (fun node => String.eqb (node_id node) id) (nodes graph).

Lemma find_node_Some `{JN : JsonNumber} (graph : GraphDefinitionV1) id node :
  find_node graph id = Some node -> node ∈ nodes graph /\ node_id node = id.
Proof. intros [Hin Heq]%list_find_Some_elem. split; [done|by apply String.eqb_eq]. Qed.
