(* ===== verification/FlowActivation.v ===== *)
(** [flow_activation.rs]: trigger expressions attached to Flow nodes, the nodes a
    run starts with, and the agreement of subscriptions with the graph's edges. *)
From S2P Require Import Prelude RustStr RustStrFacts Json WorkflowAutomation FlowGraph.

Inductive FlowTriggerSourceV1 :=
| FlowInput
| AgentFinal (final_node_id : string)
| SrcManual
| SrcWebhook (trigger_id : Uuid) (token_ref : string)
| SrcSchedule (trigger_id : Uuid) (interval_seconds : Z) (next_fire_at : DateTime)
| SrcEventSubscription (trigger_id : Uuid) (source event_type : string).

Definition as_workflow_trigger (self : FlowTriggerSourceV1) : option WorkflowTriggerSpecV1 :=
  match self with
  | FlowInput | AgentFinal _ => None
  | SrcManual => Some Manual
  | SrcWebhook id token_ref => Some (Webhook id token_ref)
  | SrcSchedule id interval next => Some (Schedule id interval next)
  | SrcEventSubscription id source event_type => Some (EventSubscription id source event_type)
  end.

Definition matches_ingress (self : FlowTriggerSourceV1) (trigger : option WorkflowTriggerSpecV1)
    : bool :=
  match self with
  | FlowInput => true
  | AgentFinal _ => false
  | SrcManual => match trigger with None | Some Manual => true | _ => false end
  | SrcWebhook id _ =>
      match trigger with Some (Webhook current _) => bool_decide (current = id) | _ => false end
  | SrcSchedule id _ _ =>
      match trigger with Some (Schedule current _ _) => bool_decide (current = id) | _ => false end
  | SrcEventSubscription id _ _ =>
      match trigger with
      | Some (EventSubscription current _ _) => bool_decide (current = id)
      | _ => false
      end
  end.

Definition is_agent_final (source : FlowTriggerSourceV1) : bool :=
  match source with AgentFinal _ => true | _ => false end.

Inductive FlowTriggerExpressionV1 :=
| Source (source : FlowTriggerSourceV1)
| And (inputs : list FlowTriggerExpressionV1)
| Or (inputs : list FlowTriggerExpressionV1)
| Not (input : FlowTriggerExpressionV1).

Fixpoint evaluate (self : FlowTriggerExpressionV1) (trigger : option WorkflowTriggerSpecV1)
    (completed_nodes : gset string) : bool :=
  match self with
  | Source source =>
      match source with
      | AgentFinal id => bool_decide (id ∈ completed_nodes)
      | _ => matches_ingress source trigger
      end
  | And inputs =>
      negb (bool_decide (length inputs = O))
      && forallb (fun input => evaluate input trigger completed_nodes) inputs
  | Or inputs => existsb (fun input => evaluate input trigger completed_nodes) inputs
  | Not input => negb (evaluate input trigger completed_nodes)
  end.

Fixpoint has_positive_ingress (self : FlowTriggerExpressionV1) (negated : bool) : bool :=
  match self with
  | Source source => negb negated && negb (is_agent_final source)
  | And inputs | Or inputs => existsb (fun input => has_positive_ingress input negated) inputs
  | Not input => has_positive_ingress input (negb negated)
  end.

Fixpoint first_external_trigger (self : FlowTriggerExpressionV1) (negated : bool)
    : option WorkflowTriggerSpecV1 :=
  match self with
  | Source source => if negated then None else as_workflow_trigger source
  | And inputs | Or inputs => find_map (fun input => first_external_trigger input negated) inputs
  | Not input => first_external_trigger input (negb negated)
  end.

Fixpoint contains_external_trigger (self : FlowTriggerExpressionV1)
    (trigger : WorkflowTriggerSpecV1) (negated : bool) : bool :=
  match self with
  | Source source =>
      negb negated
      && negb (match source with FlowInput | AgentFinal _ => true | _ => false end)
      && matches_ingress source (Some trigger)
  | And inputs | Or inputs =>
      existsb (fun input => contains_external_trigger input trigger negated) inputs
  | Not input => contains_external_trigger input trigger (negb negated)
  end.

Fixpoint collect_agent_final_sources (self : FlowTriggerExpressionV1) (target : gset string)
    : gset string :=
  match self with
  | Source (AgentFinal id) => {[id]} ∪ target
  | Source _ => target
  | And inputs | Or inputs =>
      fold_left (fun target input => collect_agent_final_sources input target) inputs target
  | Not input => collect_agent_final_sources input target
  end.

(** The loop [for input in inputs { input.validate()? }]. *)
Definition for_each {A} (f : A -> Result anyhow unit) : list A -> Result anyhow unit :=
  fix go l := match l with
              | [] => Ok tt
              | x :: l' => let? _ := f x in go l'
              end.

Fixpoint validate_expression (self : FlowTriggerExpressionV1) : Result anyhow unit :=
  match self with
  | Source source =>
      let? _ := match as_workflow_trigger source with
                | Some trigger => validate_trigger trigger
                | None => Ok tt
                end in
      match source with
      | AgentFinal id =>
          ensure (negb (str_is_empty (trim id))) "Agent Final nodeId is required"
      | _ => Ok tt
      end
  | And inputs | Or inputs =>
      let? _ := ensure (2 <=? vec_len inputs)
                  "AND/OR Trigger expressions require at least two inputs" in
      for_each validate_expression inputs
  | Not input => validate_expression input
  end.

Record FlowNodeActivationV1 := {
  expression : FlowTriggerExpressionV1;
  ingress_policy : WorkflowIngressPolicyV1;
}.

(** [serde_json::from_value::<FlowNodeActivationV1>]. *)
Class ActivationCodec `{JsonNumber} := {
  decode_activation : Value -> Result string FlowNodeActivationV1;
}.

Section activation.
Context `{JN : JsonNumber} `{AC : !ActivationCodec} `{HO : Host}.

Definition parse_node_activation (node : GraphNodeV1)
    : Result anyhow (option FlowNodeActivationV1) :=
  match value_get (config node) "activation" with
  | None => Ok None
  | Some value =>
      let? activation := map_err Msg (decode_activation value) in
      let? _ := validate_expression (expression activation) in
      Ok (Some activation)
  end.

(** [parse_node_activation(node).ok().flatten()] *)
Definition node_activation (node : GraphNodeV1) : option FlowNodeActivationV1 :=
  match parse_node_activation node with Ok o => o | Err _ => None end.

Definition activation_agent_final_sources (node : GraphNodeV1) : Result anyhow (gset string) :=
  let? activation := parse_node_activation node in
  match activation with
  | None => Ok ∅
  | Some activation => Ok (collect_agent_final_sources (expression activation) ∅)
  end.

Definition is_activation_root (node : GraphNodeV1) : bool :=
  match node_activation node with
  | Some activation => has_positive_ingress (expression activation) false
  | None => false
  end.

Definition activation_root_node_ids (graph : GraphDefinitionV1) : gset string :=
  list_to_set (node_id <$> List.filter is_activation_root (nodes graph)).

Definition default_graph_trigger (graph : GraphDefinitionV1) : WorkflowTriggerSpecV1 :=
  let trigger_of node :=
    activation ← node_activation node;
    first_external_trigger (expression activation) false in
  let from_entry := node ← find_node graph (entry_node_id graph); trigger_of node in
  default Manual (match from_entry with
                  | Some t => Some t
                  | None => find_map trigger_of (nodes graph)
                  end).

Definition default_graph_ingress_policy (graph : GraphDefinitionV1) : WorkflowIngressPolicyV1 :=
  default ingress_policy_default
    (ingress_policy <$> (find_node graph (entry_node_id graph) ≫= node_activation)).

Definition graph_ingress_policy_for_trigger (graph : GraphDefinitionV1)
    (trigger : WorkflowTriggerSpecV1) : WorkflowIngressPolicyV1 :=
  default ingress_policy_default
    (ingress_policy <$>
     List.find (fun activation =>
                  contains_external_trigger (expression activation) trigger false)
               (omap node_activation (nodes graph))).

(** The closure of [initial_ready_nodes]. *)
Definition matches_trigger (trigger : option WorkflowTriggerSpecV1) (node : GraphNodeV1)
    : bool :=
  match node_activation node with
  | Some activation => has_positive_ingress (expression activation) false
                       && evaluate (expression activation) trigger ∅
  | None => false
  end.

Definition initial_ready_nodes (graph : GraphDefinitionV1)
    (trigger : option WorkflowTriggerSpecV1) : list string :=
  let matched := node_id <$> List.filter (matches_trigger trigger) (nodes graph) in
  let entry_has_activation :=
    match find_node graph (entry_node_id graph) with
    | Some node => match node_activation node with Some _ => true | None => false end
    | None => false
    end in
  if bool_decide (length matched = O) && negb entry_has_activation
  then [entry_node_id graph] else matched.

Definition node_activation_ready (node : GraphNodeV1) (trigger : option WorkflowTriggerSpecV1)
    (completed_nodes : list string) : Result anyhow (option bool) :=
  let? activation := parse_node_activation node in
  match activation with
  | None => Ok None
  | Some activation =>
      Ok (Some (evaluate (expression activation) trigger (list_to_set completed_nodes)))
  end.

(** One iteration of the inner loop of [validate_graph_activations]. *)
Definition subscription_issue (node_ids : gset string) (edges : gset (string * string))
    (node : GraphNodeV1) (source : string) : option (string * string) :=
  if negb (bool_decide (source ∈ node_ids))
  then Some (node_id node, "Trigger references missing Agent Final '" +:+ source +:+ "'")
  else if negb (bool_decide ((source, node_id node) ∈ edges))
  then Some (node_id node, "Trigger subscribes to Agent Final '" +:+ source
                           +:+ "' without a matching graph edge")
  else None.

Definition node_activation_issues (node_ids : gset string) (edges : gset (string * string))
    (node : GraphNodeV1) : list (string * string) :=
  match parse_node_activation node with
  | Ok (Some activation) =>
      omap (subscription_issue node_ids edges node)
           (btree_elements (collect_agent_final_sources (expression activation) ∅))
  | Ok None => []
  | Err error => [(node_id node, error_string error)]
  end.

Definition graph_node_ids (graph : GraphDefinitionV1) : gset string :=
  list_to_set (node_id <$> nodes graph).
Definition graph_edge_pairs (graph : GraphDefinitionV1) : gset (string * string) :=
  list_to_set ((fun edge => (edge_from edge, edge_to edge)) <$> edges graph).

Definition validate_graph_activations (graph : GraphDefinitionV1) : list (string * string) :=
  concat (node_activation_issues (graph_node_ids graph) (graph_edge_pairs graph) <$> nodes graph).
End activation.

(** * Facts *)

(** Induction that reaches the inputs of [And] and [Or]. *)
Section expression_ind.
Variable P : FlowTriggerExpressionV1 -> Prop.
Hypothesis P_source : forall source, P (Source source).
Hypothesis P_and : forall inputs, Forall P inputs -> P (And inputs).
Hypothesis P_or : forall inputs, Forall P inputs -> P (Or inputs).
Hypothesis P_not : forall input, P input -> P (Not input).

Fixpoint expression_ind (e : FlowTriggerExpressionV1) : P e :=
  let go := fix go l : Forall P l :=
    match l with
    | [] => List.Forall_nil P
    | x :: l' => List.Forall_cons P x l' (expression_ind x) (go l')
    end in
  match e with
  | Source source => P_source source
  | And inputs => P_and inputs (go inputs)
  | Or inputs => P_or inputs (go inputs)
  | Not input => P_not input (expression_ind input)
  end.
End expression_ind.

Lemma existsb_mono {A} (f g : A -> bool) l :
  Forall (fun x => f x = true -> g x = true) l -> existsb f l = true -> existsb g l = true.
Proof.
  induction 1 as [|x l Hx _ IH]; cbn; [done|]. rewrite !orb_true_iff. intuition.
Qed.

Lemma forallb_mono {A} (f g : A -> bool) l :
  Forall (fun x => f x = true -> g x = true) l -> forallb f l = true -> forallb g l = true.
Proof.
  induction 1 as [|x l Hx _ IH]; cbn; [done|]. rewrite !andb_true_iff. intuition.
Qed.

Lemma existsb_ext {A} (f g : A -> bool) l :
  Forall (fun x => f x = g x) l -> existsb f l = existsb g l.
Proof. induction 1 as [|x l Hx _ IH]; cbn; [done|]. by rewrite Hx, IH. Qed.

Lemma forallb_ext {A} (f g : A -> bool) l :
  Forall (fun x => f x = g x) l -> forallb f l = forallb g l.
Proof. induction 1 as [|x l Hx _ IH]; cbn; [done|]. by rewrite Hx, IH. Qed.

(** The Agent Final subscriptions of an expression. *)
Fixpoint agent_finals (e : FlowTriggerExpressionV1) : gset string :=
  match e with
  | Source (AgentFinal id) => {[id]}
  | Source _ => ∅
  | And inputs | Or inputs => ⋃ (agent_finals <$> inputs)
  | Not input => agent_finals input
  end.

Lemma collect_agent_final_sources_spec e target :
  collect_agent_final_sources e target = agent_finals e ∪ target.
Proof.
  revert target. induction e as [source|inputs IH|inputs IH|input IH] using expression_ind;
    intros target; cbn.
  - destruct source; set_solver.
  - revert target. induction IH as [|x l Hx _ IHl]; intros target; cbn; [set_solver|].
    rewrite Hx, IHl. set_solver.
  - revert target. induction IH as [|x l Hx _ IHl]; intros target; cbn; [set_solver|].
    rewrite Hx, IHl. set_solver.
  - apply IH.
Qed.

(** The set of completed nodes matters only on the subscriptions. *)
Lemma evaluate_local e trigger c1 c2 :
  (forall id, id ∈ agent_finals e -> id ∈ c1 <-> id ∈ c2) ->
  evaluate e trigger c1 = evaluate e trigger c2.
Proof.
  induction e as [source|inputs IH|inputs IH|input IH] using expression_ind; cbn; intros Hc.
  - destruct source; try done. apply bool_decide_ext, Hc. set_solver.
  - f_equal. apply forallb_ext. rewrite Forall_forall in IH |- *. intros x Hx.
    apply IH; [done|]. intros id Hid. apply Hc, elem_of_union_list. set_solver.
  - apply existsb_ext. rewrite Forall_forall in IH |- *. intros x Hx.
    apply IH; [done|]. intros id Hid. apply Hc, elem_of_union_list. set_solver.
  - f_equal. by apply IH.
Qed.

Fixpoint negation_free (e : FlowTriggerExpressionV1) : bool :=
  match e with
  | Source _ => true
  | And inputs | Or inputs => forallb negation_free inputs
  | Not _ => false
  end.

(** Without [Not], completing more Agents never disables a node: joins can only
    become ready. *)
Theorem evaluate_monotone e trigger c1 c2 :
  negation_free e = true -> c1 ⊆ c2 ->
  evaluate e trigger c1 = true -> evaluate e trigger c2 = true.
Proof.
  intros Hn Hc. induction e as [source|inputs IH|inputs IH|input IH] using expression_ind;
    cbn in *; [|..|done].
  - destruct source; try done. rewrite !bool_decide_eq_true. set_solver.
  - rewrite !andb_true_iff. intros [He Ha]. split; [done|]. revert Ha. apply forallb_mono.
    rewrite forallb_forall in Hn. rewrite Forall_forall in IH |- *.
    intros x Hx. by apply IH, Hn, list_elem_of_In.
  - apply existsb_mono. rewrite forallb_forall in Hn. rewrite Forall_forall in IH |- *.
    intros x Hx. by apply IH, Hn, list_elem_of_In.
Qed.

Lemma as_workflow_trigger_matches source t :
  as_workflow_trigger source = Some t -> matches_ingress source (Some t) = true
    /\ match source with FlowInput | AgentFinal _ => true | _ => false end = false.
Proof. destruct source; cbn; intros; simplify_eq; by rewrite ?bool_decide_eq_true_2. Qed.

Lemma first_external_trigger_contained e negated t :
  first_external_trigger e negated = Some t -> contains_external_trigger e t negated = true.
Proof.
  revert negated. induction e as [source|inputs IH|inputs IH|input IH] using expression_ind;
    intros negated; cbn.
  - destruct negated; [done|]. by intros [-> ->]%as_workflow_trigger_matches.
  - intros (x & Hx & Hf)%find_map_Some. apply existsb_exists. exists x.
    rewrite Forall_forall in IH. split; [by apply list_elem_of_In|by apply IH].
  - intros (x & Hx & Hf)%find_map_Some. apply existsb_exists. exists x.
    rewrite Forall_forall in IH. split; [by apply list_elem_of_In|by apply IH].
  - apply IH.
Qed.

Section activation_facts.
Context `{JN : JsonNumber} `{AC : !ActivationCodec} `{HO : Host}.
Implicit Types (graph : GraphDefinitionV1) (node : GraphNodeV1).

Lemma node_activation_Some node a :
  node_activation node = Some a <-> parse_node_activation node = Ok (Some a).
Proof using Type. unfold node_activation. destruct (parse_node_activation node); naive_solver. Qed.

(** The trigger a graph advertises by default is one of its own: unless it is
    [Manual], some node of the graph subscribes to it positively. *)
Theorem default_graph_trigger_subscribed graph :
  default_graph_trigger graph = Manual \/
  exists node activation, node ∈ nodes graph /\ node_activation node = Some activation
    /\ contains_external_trigger (expression activation) (default_graph_trigger graph) false
       = true.
Proof using Type.
  unfold default_graph_trigger.
  assert (Hw : forall node t, node ∈ nodes graph ->
    (activation ← node_activation node; first_external_trigger (expression activation) false)
      = Some t ->
    exists node activation, node ∈ nodes graph /\ node_activation node = Some activation
      /\ contains_external_trigger (expression activation) t false = true).
  { intros node t Hin Ht. apply bind_Some in Ht as (a & Ha & Ht).
    apply first_external_trigger_contained in Ht. eauto. }
  destruct (find_node graph (entry_node_id graph)) as [node|] eqn:Hf; cbn.
  - destruct (node_activation node ≫= _) as [t|] eqn:Ht; cbn.
    + right. apply find_node_Some in Hf as [Hin _]. by eapply Hw.
    + destruct (find_map _ (nodes graph)) as [t|] eqn:Hm; cbn; [|by left].
      right. apply find_map_Some in Hm as (n & Hin & Hn). by eapply Hw.
  - destruct (find_map _ (nodes graph)) as [t|] eqn:Hm; cbn; [|by left].
    right. apply find_map_Some in Hm as (n & Hin & Hn). by eapply Hw.
Qed.

(** The nodes of a graph parse, and subscribe only to their predecessors. *)
Definition subscriptions_ok graph : Prop :=
  forall node, node ∈ nodes graph ->
    exists o, parse_node_activation node = Ok o /\
      forall activation, o = Some activation -> forall source,
        source ∈ agent_finals (expression activation) ->
        (exists n, n ∈ nodes graph /\ node_id n = source)
        /\ (exists e, e ∈ edges graph /\ edge_from e = source /\ edge_to e = node_id node).

Lemma omap_nil {A B} (f : A -> option B) l : omap f l = [] <-> forall x, x ∈ l -> f x = None.
Proof using Type.
  induction l as [|x l IH]; cbn; [set_solver|]. destruct (f x) eqn:Hx; [set_solver|].
  rewrite IH. set_solver.
Qed.

Lemma concat_nil {A} (ls : list (list A)) : concat ls = [] <-> forall l, l ∈ ls -> l = [].
Proof using Type.
  induction ls as [|l ls IH]; cbn; [set_solver|].
  destruct l; cbn; [rewrite IH; set_solver|]. split; [done|]. intros H.
  by specialize (H _ (list_elem_of_here _ _)).
Qed.

Lemma subscription_issue_None ids es node source :
  subscription_issue ids es node source = None <-> source ∈ ids /\ (source, node_id node) ∈ es.
Proof using Type.
  unfold subscription_issue. destruct (decide (source ∈ ids)) as [H1|H1].
  - rewrite (bool_decide_eq_true_2 (source ∈ ids)) by done. cbn.
    destruct (decide ((source, node_id node) ∈ es)) as [H2|H2].
    + rewrite bool_decide_eq_true_2 by done. naive_solver.
    + rewrite bool_decide_eq_false_2 by done. naive_solver.
  - rewrite (bool_decide_eq_false_2 (source ∈ ids)) by done. naive_solver.
Qed.

Lemma graph_node_ids_elem graph x :
  x ∈ graph_node_ids graph <-> exists n, n ∈ nodes graph /\ node_id n = x.
Proof using Type.
  unfold graph_node_ids. rewrite elem_of_list_to_set, list_elem_of_fmap. naive_solver.
Qed.

Lemma graph_edge_pairs_elem graph a b :
  (a, b) ∈ graph_edge_pairs graph <->
  exists e, e ∈ edges graph /\ edge_from e = a /\ edge_to e = b.
Proof using Type.
  unfold graph_edge_pairs. rewrite elem_of_list_to_set, list_elem_of_fmap. naive_solver.
Qed.

Lemma validate_graph_activations_ok graph :
  validate_graph_activations graph = [] <-> subscriptions_ok graph.
Proof using Type.
  unfold validate_graph_activations, subscriptions_ok. rewrite concat_nil.
  setoid_rewrite list_elem_of_fmap.
  assert (Hnode : forall node, node_activation_issues (graph_node_ids graph)
      (graph_edge_pairs graph) node = [] <->
    exists o, parse_node_activation node = Ok o /\
      forall a, o = Some a -> forall source, source ∈ agent_finals (expression a) ->
        source ∈ graph_node_ids graph /\ (source, node_id node) ∈ graph_edge_pairs graph).
  { intros node. unfold node_activation_issues.
    destruct (parse_node_activation node) as [[a|]|e]; cbn.
    - rewrite omap_nil. setoid_rewrite btree_elements_elem.
      rewrite collect_agent_final_sources_spec. setoid_rewrite subscription_issue_None.
      setoid_rewrite elem_of_union. split.
      + intros H. exists (Some a). split; [done|]. intros ? [= <-] s Hs. apply H. by left.
      + intros (o & [= <-] & H) s [Hs|Hs]; [by apply (H a eq_refl)|set_solver].
    - split; [|done]. intros _. exists None. split; [done|]. intros ??; congruence.
    - split; [done|]. by intros (? & ? & _). }
  setoid_rewrite <-graph_node_ids_elem. setoid_rewrite <-graph_edge_pairs_elem.
  split.
  - intros H node Hin. apply Hnode, H. eauto.
  - intros H l (node & -> & Hin). by apply Hnode, H.
Qed.

(** The validator reports nothing exactly when every node's activation parses
    and every Agent Final subscription follows an edge of the graph. *)
Theorem validate_graph_activations_exact graph :
  validate_graph_activations graph = [] <-> subscriptions_ok graph.
Proof using Type. apply validate_graph_activations_ok. Qed.

(** In a graph that passes validation, whether a node is ready depends only on
    which of its predecessors completed, so re-checking readiness after a
    predecessor completes misses nothing. *)
Theorem node_activation_ready_local graph node trigger done1 done2 :
  validate_graph_activations graph = [] -> node ∈ nodes graph ->
  (forall e, e ∈ edges graph -> edge_to e = node_id node ->
     edge_from e ∈ done1 <-> edge_from e ∈ done2) ->
  node_activation_ready node trigger done1 = node_activation_ready node trigger done2.
Proof using Type.
  intros Hv Hin Hd. apply validate_graph_activations_ok in Hv.
  destruct (Hv node Hin) as (o & Ho & Hs). unfold node_activation_ready. rewrite Ho. cbn.
  destruct o as [a|]; [|done]. do 2 f_equal. apply evaluate_local. intros id Hid.
  destruct (Hs a eq_refl id Hid) as (_ & e & He & <- & Hto).
  rewrite !elem_of_list_to_set. by apply Hd.
Qed.

Lemma initial_ready_nodes_spec graph trigger id :
  id ∈ initial_ready_nodes graph trigger <->
  (exists node, node ∈ nodes graph /\ node_id node = id /\ matches_trigger trigger node = true)
  \/ (id = entry_node_id graph
      /\ (forall node, node ∈ nodes graph -> matches_trigger trigger node = false)
      /\ forall node, find_node graph (entry_node_id graph) = Some node ->
           node_activation node = None).
Proof using Type.
  unfold initial_ready_nodes.
  assert (Hm : forall x, x ∈ node_id <$> List.filter (matches_trigger trigger) (nodes graph) <->
    exists node, node ∈ nodes graph /\ node_id node = x /\ matches_trigger trigger node = true).
  { intros x. rewrite list_elem_of_fmap. setoid_rewrite list_elem_of_In.
    setoid_rewrite filter_In. naive_solver. }
  set (matched := node_id <$> _) in *.
  assert (Hnil : matched = [] <->
    forall node, node ∈ nodes graph -> matches_trigger trigger node = false).
  { split.
    - intros Hn node Hin. apply not_true_iff_false. intros Ht.
      assert (node_id node ∈ matched) as Habs by (apply Hm; eauto).
      rewrite Hn in Habs. by apply not_elem_of_nil in Habs.
    - intros Hall. destruct matched as [|x l]; [done|].
      destruct (proj1 (Hm x) (list_elem_of_here _ _)) as (n & Hin & _ & Ht).
      rewrite (Hall n Hin) in Ht. done. }
  destruct matched as [|x l] eqn:Hmat.
  - rewrite (bool_decide_eq_true_2 (length [] = O)) by done. rewrite andb_true_l.
    destruct (find_node graph (entry_node_id graph)) as [node|] eqn:Hf.
    + destruct (node_activation node) as [a|] eqn:Ha; cbn.
      * split; [set_solver|]. intros [Hx|(_ & _ & Hno)]; [by apply Hm|].
        specialize (Hno node eq_refl). congruence.
      * rewrite list_elem_of_singleton. split.
        -- intros ->. right. split; [done|]. split; [by apply Hnil|]. intros n [= <-]. done.
        -- intros [Hx|(-> & _)]; [|done]. apply Hm in Hx. set_solver.
    + cbn [negb]. rewrite list_elem_of_singleton. split.
      * intros ->. right. split; [done|]. split; [by apply Hnil|done].
      * intros [Hx|(-> & _)]; [|done]. apply Hm in Hx. set_solver.
  - rewrite bool_decide_eq_false_2 by done. rewrite andb_false_l.
    rewrite Hm. split; [by left|]. intros [Hx|(_ & Hall & _)]; [done|].
    apply Hnil in Hall. done.
Qed.

(** A run starts at exactly the nodes whose activation the trigger satisfies
    and that have a positive ingress; the entry node is the fallback of graphs
    whose entry carries no activation. *)
Theorem initial_ready_nodes_exact graph trigger id :
  id ∈ initial_ready_nodes graph trigger <->
  (exists node, node ∈ nodes graph /\ node_id node = id /\ matches_trigger trigger node = true)
  \/ (id = entry_node_id graph
      /\ (forall node, node ∈ nodes graph -> matches_trigger trigger node = false)
      /\ forall node, find_node graph (entry_node_id graph) = Some node ->
           node_activation node = None).
Proof using Type. apply initial_ready_nodes_spec. Qed.
End activation_facts.
