(* ===== verification/Flow.v ===== *)
(** [flow.rs]: normalisation, validation, compilation and dry-run of Flow
    specifications, and the draft's life before publication. *)
From S2P Require Import Prelude RustStr RustStrFacts Json WorkflowState Enterprise WorkflowAutomation FlowGraph FlowActivation Fingerprint.

(** * Expressions, schemas and classifications *)

Definition unsafe_tokens : list string :=
  [";"; "{"; "}"; "=>"; "function"; "import"; "eval"; "exec("].

Definition safe_condition (condition : string) : bool :=
  negb (str_is_empty (trim condition))
  && (str_len condition <=? 512)
  && negb (existsb (fun token => str_contains token condition) unsafe_tokens).

Definition parse_classification (value : string) : option DataClassification :=
  if String.eqb value "public" then Some Public
  else if String.eqb value "internal" then Some Internal
  else if String.eqb value "confidential" then Some Confidential
  else if String.eqb value "restricted" then Some Restricted
  else None.

Definition default_classification : DataClassification := Internal.

(** * Cycle detection *)

(** The two sets [visit] mutates. *)
Record dfs := { visiting : gset string; visited : gset string }.

(** The loop of [visit] over the successors; [go] is the recursive call. *)
Fixpoint visit_next (go : string -> dfs -> option (bool * dfs)) (next : list (string * bool))
    (st : dfs) : option (bool * dfs) :=
  match next with
  | [] => Some (false, st)
  | (target, bounded) :: rest =>
      if (bounded : bool) then visit_next go rest st
      else match go target st with
           | None => None
           | Some (true, st') => Some (true, st')
           | Some (false, st') => visit_next go rest st'
           end
  end.

(** [None] when the recursion is deeper than the fuel. *)
Fixpoint visit (fuel : nat) (adjacency : gmap string (list (string * bool))) (id : string)
    (st : dfs) : option (bool * dfs) :=
  match fuel with
  | O => None
  | S fuel' =>
      if decide (id ∈ visiting st) then Some (true, st)
      else
        let st1 := {| visiting := {[id]} ∪ visiting st; visited := visited st |} in
        if decide (id ∈ visited st1)
        then Some (false, {| visiting := visiting st1 ∖ {[id]}; visited := visited st1 |})
        else match visit_next (visit fuel' adjacency) (default [] (adjacency !! id)) st1 with
             | None => None
             | Some (true, st2) => Some (true, st2)
             | Some (false, st2) =>
                 Some (false, {| visiting := visiting st2 ∖ {[id]};
                                 visited := {[id]} ∪ visited st2 |})
             end
  end.

(** [entry(from).or_default().push(x)], for the edges in order. *)
Definition push_adjacent {A} (adjacency : gmap string (list A)) (from : string) (x : A)
    : gmap string (list A) :=
  <[from := default [] (adjacency !! from) ++ [x]]> adjacency.

Definition cycle_adjacency (edges : list GraphEdgeV1) : gmap string (list (string * bool)) :=
  fold_left (fun adjacency edge =>
               push_adjacent adjacency (edge_from edge)
                 (edge_to edge, match loop_policy edge with Some _ => true | None => false end))
            edges ∅.

(** [nodes.iter().any(|node| !visited.contains(id) && visit(id, ..))] *)
Fixpoint any_cycle (fuel : nat) (adjacency : gmap string (list (string * bool)))
    (ids : list string) (st : dfs) : option bool :=
  match ids with
  | [] => Some false
  | id :: ids' =>
      if decide (id ∈ visited st) then any_cycle fuel adjacency ids' st
      else match visit fuel adjacency id st with
           | None => None
           | Some (true, _) => Some true
           | Some (false, st') => any_cycle fuel adjacency ids' st'
           end
  end.

(** * Reachability *)

Fixpoint bfs (fuel : nat) (adjacency : gmap string (list string)) (reachable : gset string)
    (queue : list string) : option (gset string) :=
  match queue with
  | [] => Some reachable
  | id :: queue' =>
      match fuel with
      | O => None
      | S fuel' =>
          if decide (id ∈ reachable) then bfs fuel' adjacency reachable queue'
          else bfs fuel' adjacency ({[id]} ∪ reachable)
                 (queue' ++ default [] (adjacency !! id))
      end
  end.

Definition flow_error (code message : string) (node_id : option string) (edge_index : option nat)
    (remediation : string) : FlowValidationIssueV1 :=
  {| severity := Error; code := code; message := message; issue_node_id := node_id;
     issue_edge_index := edge_index; remediation := remediation |}.

(** An issue reported when a check fails. *)
Definition report_if (b : bool) (issue : FlowValidationIssueV1) : list FlowValidationIssueV1 :=
  if b then [issue] else [].

(** [serde_json::to_vec(spec)], the serialization serde generates. *)
Class SpecCodec `{JsonNumber} := { spec_bytes : FlowSpecV1 -> string }.

Section flow.
Context `{JN : JsonNumber} `{SWC : !StateWriteCodec} `{AC : !ActivationCodec}
  `{SC : !SpecCodec} `{FS : FileSystem} `{U : Unicode} `{HO : Host}.

Definition object_schema : Value := json_object [("type", VString "object")].

Definition schema_type (schema : Value) : option string := get_str schema "type".

Definition schemas_compatible (source target : Value) (allowed_fields : gset string) : bool :=
  if match schema_type source, schema_type target with
     | Some l, Some r => negb (String.eqb l r)
     | _, _ => false
     end
  then false
  else match value_get source "properties" ≫= as_object, get_array target "required" with
       | Some properties, Some required =>
           forallb (fun field =>
             match as_str field with
             | Some field => bool_decide (is_Some (properties !! field))
                             && (bool_decide (allowed_fields = ∅)
                                 || bool_decide (field ∈ allowed_fields))
             | None => false
             end) required
       | _, _ => true
       end.

Definition contains_unbounded_cycle (graph : GraphDefinitionV1) : option bool :=
  any_cycle (S (length (nodes graph) + length (edges graph))) (cycle_adjacency (edges graph))
    (node_id <$> nodes graph) {| visiting := ∅; visited := ∅ |}.

Definition normalize_node (node : GraphNodeV1) : GraphNodeV1 :=
  {| node_id := trim (node_id node); label := trim (label node); kind := kind node;
     config := config node; input_schema := input_schema node;
     output_schema := output_schema node |}.

Definition normalize_flow_spec (spec : FlowSpecV1) : FlowSpecV1 :=
  {| spec_flow_id := replace_char (chr " ") "-" (to_lowercase (trim (spec_flow_id spec)));
     spec_name := trim (spec_name spec);
     spec_description := trim (spec_description spec);
     spec_owner := trim (spec_owner spec);
     spec_categories := spec_categories spec;
     spec_source := spec_source spec;
     spec_input_schema := spec_input_schema spec;
     spec_output_schema := spec_output_schema spec;
     spec_graph :=
       {| graph_schema_version := graph_schema_version (spec_graph spec);
          entry_node_id := trim (entry_node_id (spec_graph spec));
          nodes := normalize_node <$> nodes (spec_graph spec);
          edges := edges (spec_graph spec) |};
     requested_capabilities := requested_capabilities spec;
     spec_budget := spec_budget spec;
     spec_risk_class := spec_risk_class spec;
     pending_decisions := pending_decisions spec |}.

Definition flow_content_hash (spec : FlowSpecV1) : string := content_fingerprint (spec_bytes spec).

(** * [validate_flow_spec], one definition per group of checks *)

(** The [BTreeMap] of the nodes; a later duplicate id wins. *)
Definition node_map (graph : GraphDefinitionV1) : gmap string GraphNodeV1 :=
  fold_left (fun m node => <[node_id node := node]> m) (nodes graph) ∅.

Definition header_issues (spec : FlowSpecV1) : list FlowValidationIssueV1 :=
  report_if (str_is_empty (spec_flow_id spec) || str_is_empty (spec_name spec)
             || str_is_empty (spec_owner spec))
    (flow_error "flow.identity.required" "flowId, name and owner are required" None None
      "Provide a stable flowId, a reviewable name, and an accountable owner.")
  ++ report_if (negb (bool_decide (length (pending_decisions spec) = O)))
    (flow_error "flow.decisions.pending"
      (pretty (vec_len (pending_decisions spec))
       +:+ " design decision(s) still require human confirmation") None None
      "Resolve or explicitly remove every pending decision before publication.")
  ++ report_if (bool_decide (length (nodes (spec_graph spec)) = O)
                || (MAX_FLOW_NODES <? vec_len (nodes (spec_graph spec))))
    (flow_error "graph.node_count.invalid"
      ("graph must contain between 1 and " +:+ pretty MAX_FLOW_NODES +:+ " nodes") None None
      "Split very large workflows into reusable child Flows.")
  ++ report_if ((max_node_executions (spec_budget spec) =? 0)
                || (max_tool_calls (spec_budget spec) =? 0)
                || (max_duration_seconds (spec_budget spec) =? 0)
                || (MAX_FLOW_DURATION_SECONDS <? max_duration_seconds (spec_budget spec))
                || (max_loop_iterations (spec_budget spec) =? 0)
                || (MAX_FLOW_LOOP_ITERATIONS <? max_loop_iterations (spec_budget spec)))
    (flow_error "flow.budget.invalid" "all budgets must be positive and within platform limits"
      None None "Set explicit node, tool, duration, and loop budgets within platform limits.").

Definition is_output (node : GraphNodeV1) : bool := bool_decide (kind node = Output).

Definition node_set_issues (graph : GraphDefinitionV1) : list FlowValidationIssueV1 :=
  report_if (negb (bool_decide (size (node_map graph) = length (nodes graph))))
    (flow_error "graph.node_id.duplicate" "node ids must be unique" None None
      "Assign a unique stable id to every node.")
  ++ report_if (negb (bool_decide (is_Some (node_map graph !! entry_node_id graph))))
    (flow_error "graph.entry.missing"
      ("entry node '" +:+ entry_node_id graph +:+ "' does not exist") None None
      "Set entryNodeId to exactly one existing node.")
  ++ report_if (bool_decide (length (List.filter is_output (nodes graph)) = O))
    (flow_error "graph.output.missing" "graph requires at least one output node" None None
      "Add an output node for every terminal path.").

Definition loop_policy_invalid (budget : FlowBudgetV1) (policy : GraphLoopPolicyV1) : bool :=
  (max_iterations policy =? 0)
  || (max_loop_iterations budget <? max_iterations policy)
  || (MAX_FLOW_LOOP_ITERATIONS <? max_iterations policy)
  || str_is_empty (trim (continue_condition policy))
  || negb (safe_condition (continue_condition policy)).

Definition source_classification (node : GraphNodeV1) : DataClassification :=
  default Internal (get_str (config node) "outputClassification" ≫= parse_classification).

(** The body of the edge loop once both endpoints are known. *)
Definition known_edge_issues (budget : FlowBudgetV1) (index : nat) (edge : GraphEdgeV1)
    (source target : GraphNodeV1) : list FlowValidationIssueV1 :=
  report_if (match condition edge with Some c => negb (safe_condition c) | None => false end)
    (flow_error "graph.condition.unsafe" "conditions must use the bounded expression subset"
      None (Some index)
      "Use field comparisons and boolean operators; do not embed code or calls.")
  ++ report_if (match loop_policy edge with
                | Some policy => loop_policy_invalid budget policy
                | None => false
                end)
    (flow_error "graph.loop.unbounded"
      "loop edge exceeds the Flow budget or has no safe termination condition" None (Some index)
      "Declare maxIterations, a structured continueCondition, and onExhausted.")
  ++ report_if (negb (schemas_compatible (output_schema source) (input_schema target)
                       (allowed_fields edge)))
    (flow_error "graph.schema.incompatible"
      ("edge " +:+ pretty index +:+ " does not satisfy the target input schema") None (Some index)
      "Align node schemas or whitelist only fields accepted by the target.")
  ++ report_if (classification_rank (data_classification edge)
                <? classification_rank (source_classification source))
    (flow_error "graph.data_classification.downgrade"
      ("edge " +:+ pretty index +:+ " downgrades its source data classification") None (Some index)
      "Keep or raise classification across an edge; declassification requires a separate governed process.").

Definition edge_issues (budget : FlowBudgetV1) (nodes : gmap string GraphNodeV1) (index : nat)
    (edge : GraphEdgeV1) : list FlowValidationIssueV1 :=
  match nodes !! edge_from edge, nodes !! edge_to edge with
  | Some source, Some target => known_edge_issues budget index edge source target
  | _, _ =>
      [flow_error "graph.edge.reference_missing"
        ("edge " +:+ pretty index +:+ " references a missing node") None (Some index)
        "Make both edge endpoints reference existing node ids."]
  end.

(** The adjacency built by the edge loop skips edges with a missing endpoint. *)
Definition edge_known (nodes : gmap string GraphNodeV1) (edge : GraphEdgeV1) : bool :=
  bool_decide (is_Some (nodes !! edge_from edge)) && bool_decide (is_Some (nodes !! edge_to edge)).

Definition flow_adjacency (graph : GraphDefinitionV1) : gmap string (list string) :=
  fold_left (fun adjacency edge => push_adjacent adjacency (edge_from edge) (edge_to edge))
    (List.filter (edge_known (node_map graph)) (edges graph)) ∅.

Definition activation_issues (graph : GraphDefinitionV1) : list FlowValidationIssueV1 :=
  (fun '(id, message) =>
     flow_error "graph.trigger.invalid" message (Some id) None
       "Make every Trigger source valid and keep Agent Final subscriptions aligned with graph edges.")
  <$> validate_graph_activations graph.

Definition bfs_roots (graph : GraphDefinitionV1) : list string :=
  let roots := btree_elements (activation_root_node_ids graph) in
  if bool_decide (length roots = O) then [entry_node_id graph] else roots.

Definition reachable_nodes (graph : GraphDefinitionV1) : option (gset string) :=
  bfs (length (bfs_roots graph) + length (edges graph)) (flow_adjacency graph) ∅ (bfs_roots graph).

Definition validate_node (node : GraphNodeV1) (caps : CapabilityProjection)
    : list FlowValidationIssueV1 :=
  let reference := get_str (config node) "reference" in
  match kind node with
  | Tool =>
      match reference with
      | Some name =>
          if allows_tool caps name then
            let side_effect := default "none" (get_str (config node) "sideEffect") in
            report_if (negb (String.eqb side_effect "none" || String.eqb side_effect "read_only")
                       && negb (bool_decide (is_Some (value_get (config node) "recoveryPolicy"))))
              (flow_error "node.tool.recovery_required"
                ("side-effecting tool '" +:+ name +:+ "' has no recoveryPolicy")
                (Some (node_id node)) None
                "Declare idempotency, retry safety, compensation, or require-human recovery behavior.")
          else [flow_error "node.tool.not_visible"
                 ("tool '" +:+ name +:+ "' is not visible in the active ExecutionContext")
                 (Some (node_id node)) None
                 "Choose a visible tool or update the Agent template outside this Flow."]
      | None => [flow_error "node.tool.reference_required" "tool nodes require config.reference"
                  (Some (node_id node)) None
                  "Pin the exact tool name that the existing ToolRegistry exposes."]
      end
  | Skill =>
      match reference with
      | Some id =>
          report_if (negb (allows_skill caps id))
            (flow_error "node.skill.not_visible"
              ("Skill '" +:+ id +:+ "' is not visible in the active ExecutionContext")
              (Some (node_id node)) None
              "Choose a visible Skill or update the Agent template outside this Flow.")
      | None => [flow_error "node.skill.reference_required" "Skill nodes require config.reference"
                  (Some (node_id node)) None "Pin the exact Skill id and version."]
      end
  | Agent =>
      report_if (negb (bool_decide (is_Some reference))
                 || negb (bool_decide (is_Some (get_u64 (config node) "templateVersion"))))
        (flow_error "node.agent.version_required"
          "Agent nodes require config.reference and a pinned templateVersion"
          (Some (node_id node)) None
          "Reference a published Agent template and pin its immutable version.")
  | Loop =>
      report_if (negb (bool_decide (is_Some (value_get (config node) "feedbackSchema"))))
        (flow_error "node.loop.feedback_required"
          "loop nodes require a structured feedbackSchema" (Some (node_id node)) None
          "Describe the test/review feedback returned to the rework node.")
  | _ => []
  end.

Definition node_issues (caps : CapabilityProjection) (reachable : gset string)
    (adjacency : gmap string (list string)) (node : GraphNodeV1) : list FlowValidationIssueV1 :=
  report_if (negb (bool_decide (node_id node ∈ reachable)))
    (flow_error "graph.node.unreachable" ("node '" +:+ node_id node +:+ "' is unreachable")
      (Some (node_id node)) None "Connect the node from the entry path or remove it.")
  ++ report_if (is_output node
                && match adjacency !! node_id node with
                   | Some outgoing => negb (bool_decide (length outgoing = O))
                   | None => false
                   end)
    (flow_error "graph.output.not_terminal"
      ("output node '" +:+ node_id node +:+ "' has outgoing edges") (Some (node_id node)) None
      "Remove outgoing edges so every output node is terminal.")
  ++ validate_node node caps.

Definition state_issues (graph : GraphDefinitionV1) : list FlowValidationIssueV1 :=
  (fun '(id, message) =>
     flow_error "graph.state_channel.invalid" message (Some id) None
       "Use a stable channel name and one reducer contract; replace channels must have a single writer.")
  <$> validate_graph_state_writes ((fun node => (node_id node, config node)) <$> nodes graph).

Definition validate_capability_scope (requested available : CapabilityProjection)
    : list FlowValidationIssueV1 :=
  report_if (negb (is_subset_of requested available))
    (flow_error "flow.capability.expansion"
      "requested capabilities exceed the active ExecutionContext" None None
      "Reduce requestedCapabilities; a Flow cannot grant tools, Skills, plugins, data, or workspace access.").

Definition has_kind (k : GraphNodeKindV1) (graph : GraphDefinitionV1) : bool :=
  existsb (fun node => bool_decide (kind node = k)) (nodes graph).

Definition risk_issues (spec : FlowSpecV1) : list FlowValidationIssueV1 :=
  match spec_risk_class spec with
  | High | Critical =>
      report_if (negb (has_kind Validator (spec_graph spec))
                 || negb (has_kind Approval (spec_graph spec)))
        (flow_error "flow.risk.gate_missing"
          "high-risk Flows require both validator and approval nodes" None None
          "Add deterministic validation and an explicit human approval gate.")
  | _ => []
  end.

Definition flow_spec_issues (spec : FlowSpecV1) (caps : CapabilityProjection)
    : list FlowValidationIssueV1 :=
  let graph := spec_graph spec in
  header_issues spec
  ++ node_set_issues graph
  ++ concat (imap (edge_issues (spec_budget spec) (node_map graph)) (edges graph))
  ++ activation_issues graph
  ++ concat (node_issues caps (default ∅ (reachable_nodes graph)) (flow_adjacency graph)
             <$> nodes graph)
  ++ state_issues graph
  ++ report_if (default false (contains_unbounded_cycle graph))
       (flow_error "graph.cycle.unbounded" "every cycle must include a bounded loop edge"
         None None "Mark the feedback edge with a loopPolicy and an exhaustion action.")
  ++ validate_capability_scope (requested_capabilities spec) caps
  ++ risk_issues spec.

Definition is_error (issue : FlowValidationIssueV1) : bool :=
  bool_decide (severity issue = Error).

Definition validate_flow_spec (spec : FlowSpecV1) (caps : CapabilityProjection) (w : World)
    : FlowValidationReportV1 * World :=
  let issues := flow_spec_issues spec caps in
  let '(now, w) := utc_now w in
  ({| valid := negb (existsb is_error issues); issues := issues; validated_at := now |}, w).

(** * Compilation *)

Definition node_target (node : GraphNodeV1) : HarnessNodeTargetV1 :=
  match kind node with
  | Agent => if bool_decide (get_bool (config node) "delegate" = Some true)
             then AgentRunScheduler else AgentCore
  | Skill => SkillRuntime
  | Tool => ToolRegistry
  | Condition => RuntimeCondition
  | Validator => RuntimeValidator
  | Approval => RuntimeApproval
  | Join => RuntimeJoin
  | Loop => RuntimeLoop
  | Output => RuntimeOutput
  end.

Definition compile_node (node : GraphNodeV1) : CompiledFlowNodeV1 :=
  {| compiled_node_id := node_id node; target := node_target node;
     reference := get_str (config node) "reference" |}.

Definition compile_flow (spec : FlowSpecV1) (caps : CapabilityProjection) (w : World)
    : Result FlowValidationReportV1 CompiledFlowPlanV1 * World :=
  let '(report, w) := validate_flow_spec spec caps w in
  if negb (valid report) then (Err report, w)
  else (Ok {| plan_schema_version := ENTERPRISE_SCHEMA_VERSION_V1;
              plan_flow_id := spec_flow_id spec;
              plan_content_hash := flow_content_hash spec;
              plan_entry_node_id := entry_node_id (spec_graph spec);
              plan_nodes := compile_node <$> nodes (spec_graph spec);
              plan_edges := edges (spec_graph spec);
              plan_budget := spec_budget spec |}, w).

Definition simulation_step (draft : FlowDraftV1) (index : nat) (node : CompiledFlowNodeV1)
    : FlowSimulationStepV1 :=
  {| order := as_u32 (Z.of_nat index);
     step_node_id := compiled_node_id node;
     harness_target := harness_target_as_str (target node);
     bounded_by :=
       edge ← List.find (fun edge => String.eqb (edge_to edge) (compiled_node_id node))
                (edges (spec_graph (draft_spec draft)));
       max_iterations <$> loop_policy edge |}.

Definition simulate_flow (draft : FlowDraftV1) (input : Value) (caps : CapabilityProjection)
    (w : World) : FlowTrialV1 * World :=
  let '(report, w) := validate_flow_spec (draft_spec draft) caps w in
  let '(plan, w) := compile_flow (draft_spec draft) caps w in
  let steps := match plan with
               | Ok plan => imap (simulation_step draft) (plan_nodes plan)
               | Err _ => []
               end in
  let '(id, w) := new_v4 w in
  let '(now, w) := utc_now w in
  ({| trial_schema_version := ENTERPRISE_SCHEMA_VERSION_V1; trial_id := id;
      trial_draft_id := draft_id draft; trial_draft_revision := draft_revision draft;
      trial_status := if valid report then Passed else TrialFailed;
      trial_input := input; steps := steps; report := report; trial_created_at := now |}, w).

(** * Drafts *)

(** [FlowDraftV1::new] *)
Definition draft_new (thread_id : Uuid) (spec : FlowSpecV1) (caps : CapabilityProjection)
    (w : World) : FlowDraftV1 * World :=
  let spec := normalize_flow_spec spec in
  let '(now, w) := utc_now w in
  let '(id, w) := new_v4 w in
  ({| draft_schema_version := ENTERPRISE_SCHEMA_VERSION_V1; draft_id := id;
      draft_thread_id := thread_id; draft_revision := 1; draft_status := Reviewing;
      draft_spec := spec;
      effective_capabilities := intersect (requested_capabilities spec) caps;
      draft_content_hash := flow_content_hash spec; last_validation := None;
      draft_created_at := now; draft_updated_at := now |}, w).

Definition replace_spec (self : FlowDraftV1) (spec : FlowSpecV1) (caps : CapabilityProjection)
    (w : World) : FlowDraftV1 * World :=
  let spec := normalize_flow_spec spec in
  let '(now, w) := utc_now w in
  ({| draft_schema_version := draft_schema_version self; draft_id := draft_id self;
      draft_thread_id := draft_thread_id self;
      draft_revision := u32_saturating_add (draft_revision self) 1; draft_status := Reviewing;
      draft_spec := spec;
      effective_capabilities := intersect (requested_capabilities spec) caps;
      draft_content_hash := flow_content_hash spec; last_validation := None;
      draft_created_at := draft_created_at self; draft_updated_at := now |}, w).

Definition definition_from_draft (draft : FlowDraftV1) (version : Z) (by_ : string) (w : World)
    : FlowDefinitionV1 * World :=
  let spec := draft_spec draft in
  let '(id, w) := new_v4 w in
  let '(now, w) := utc_now w in
  ({| def_schema_version := ENTERPRISE_SCHEMA_VERSION_V1; def_id := id;
      def_flow_id := spec_flow_id spec; def_name := spec_name spec; def_version := version;
      def_owner := spec_owner spec; def_description := spec_description spec;
      def_categories := spec_categories spec; def_source := spec_source spec;
      def_graph := spec_graph spec; def_input_schema := spec_input_schema spec;
      def_output_schema := spec_output_schema spec;
      def_capabilities := effective_capabilities draft; def_budget := spec_budget spec;
      def_risk_class := spec_risk_class spec; def_content_hash := draft_content_hash draft;
      published_at := now; published_by := by_ |}, w).
End flow.
