(* ===== verification/FlowSearch.v ===== *)
(** Correctness of the two graph searches of [flow.rs]: the depth-first cycle
    detection and the breadth-first reachability of the validator. *)
From stdpp Require Import relations.
From S2P Require Import Prelude RustStr Json FlowGraph Flow.

(** * Adjacency maps *)

Lemma push_adjacent_lookup {A} (m : gmap string (list A)) from x id :
  default [] (push_adjacent m from x !! id)
  = default [] (m !! id) ++ (if decide (from = id) then [x] else []).
Proof.
  unfold push_adjacent. rewrite lookup_insert. destruct (decide (from = id)) as [->|]; [done|].
  by rewrite app_nil_r.
Qed.

Lemma fold_push_lookup {A E} (f : E -> string) (g : E -> A) (es : list E) m id :
  default [] (fold_left (fun m e => push_adjacent m (f e) (g e)) es m !! id)
  = default [] (m !! id) ++ (g <$> List.filter (fun e => bool_decide (f e = id)) es).
Proof.
  revert m. induction es as [|e es IH]; intros m; cbn; [by rewrite app_nil_r|].
  rewrite IH, push_adjacent_lookup, <-app_assoc. f_equal.
  destruct (decide (f e = id)) as [H|H].
  - rewrite bool_decide_eq_true_2 by done. done.
  - by rewrite bool_decide_eq_false_2.
Qed.

Lemma size_list_to_set_le (l : list string) :
  (size (list_to_set l : gset string) <= length l)%nat.
Proof.
  induction l as [|x l IH]; cbn; [by rewrite size_empty|].
  rewrite size_union_alt, size_singleton.
  pose proof (subseteq_size (list_to_set (C := gset string) l ∖ {[x]}) (list_to_set l)
    ltac:(set_solver)). lia.
Qed.

(** * Depth-first search *)

Section dfs.
Variable adjacency : gmap string (list (string * bool)).

(** An unbounded edge: one that carries no loop policy. *)
Definition ustep (x y : string) : Prop := (y, false) ∈ default [] (adjacency !! x).

Definition settled (D : gset string) : Prop :=
  forall x, x ∈ D -> (forall y, ustep x y -> y ∈ D) /\ ~ tc ustep x x.

Lemma settled_rtc D x y : settled D -> x ∈ D -> rtc ustep x y -> y ∈ D.
Proof using Type. intros HD Hx. induction 1; [done|]. apply IHrtc. by apply (HD x Hx). Qed.

(** What a call promises: a cycle, or a larger settled set holding [id]. *)
Definition visit_post (id : string) (st : dfs) (r : bool * dfs) : Prop :=
  match r with
  | (true, _) => exists v, rtc ustep id v /\ tc ustep v v
  | (false, st') => visiting st' = visiting st /\ visited st ⊆ visited st'
                    /\ settled (visited st') /\ id ∈ visited st'
  end.

Definition visit_pre (id : string) (st : dfs) : Prop :=
  settled (visited st) /\ forall p, p ∈ visiting st -> tc ustep p id.

Lemma visit_next_spec go x next st r :
  (forall t st r, go t st = Some r -> visit_pre t st -> visit_post t st r) ->
  (forall y, (y, false) ∈ next -> ustep x y) ->
  settled (visited st) -> (forall p, p ∈ visiting st -> rtc ustep p x) ->
  visit_next go next st = Some r ->
  match r with
  | (true, _) => exists v, rtc ustep x v /\ tc ustep v v
  | (false, st') => visiting st' = visiting st /\ visited st ⊆ visited st'
                    /\ settled (visited st') /\ forall y, (y, false) ∈ next -> y ∈ visited st'
  end.
Proof using Type.
  intros Hgo. revert st. induction next as [|[t b] next IH]; intros st Hx Hs Hp; cbn.
  { intros [= <-]. split; [done|]. split; [done|]. split; [done|]. set_solver. }
  destruct b.
  - intros Hr. specialize (IH st ltac:(set_solver) Hs Hp Hr). destruct r as [[] st']; [done|].
    destruct IH as (H1 & H2 & H3 & H4). split_and!; try done. set_solver.
  - destruct (go t st) as [[b st1]|] eqn:Hg; [|done].
    assert (ustep x t) as Hxt by (apply Hx; set_solver).
    assert (visit_pre t st) as Hpre.
    { split; [done|]. intros p Hpp. eapply tc_rtc_l; [by apply Hp|by apply tc_once]. }
    pose proof (Hgo t st _ Hg Hpre) as Hpost. destruct b; cbn in Hpost.
    + intros [= <-]. destruct Hpost as (v & Hv & Hc). exists v. split; [|done].
      by eapply rtc_l.
    + destruct Hpost as (H1 & H2 & H3 & H4). intros Hr.
      assert (forall p, p ∈ visiting st1 -> rtc ustep p x) as Hp1 by (by rewrite H1).
      specialize (IH st1 ltac:(set_solver) H3 Hp1 Hr). destruct r as [[] st']; [done|].
      destruct IH as (G1 & G2 & G3 & G4). split_and!; [congruence|set_solver|done|].
      intros y Hy. apply elem_of_cons in Hy as [Hy|Hy]; [|by apply G4].
      simplify_eq. set_solver.
Qed.

Lemma visit_spec fuel id st r :
  visit fuel adjacency id st = Some r -> visit_pre id st -> visit_post id st r.
Proof using Type.
  revert id st r. induction fuel as [|fuel IH]; intros id st r; cbn; [done|].
  intros Hr [Hs Hp]. destruct (decide (id ∈ visiting st)) as [Hin|Hin].
  { simplify_eq. cbn. exists id. split; [done|by apply Hp]. }
  destruct (decide (id ∈ visited st)) as [Hd|Hd].
  { simplify_eq. cbn. split_and!; try done. set_solver. }
  destruct (visit_next _ _ _) as [[b st2]|] eqn:Hn; [|done].
  eapply (visit_next_spec _ id) in Hn; [|exact IH|done|exact Hs|].
  2: { cbn. intros p [->%elem_of_singleton|Hpp]%elem_of_union; [done|].
       by apply tc_rtc, Hp. }
  destruct b; simplify_eq; cbn; [done|]. destruct Hn as (H1 & H2 & H3 & H4). cbn in *.
  split_and!.
  - rewrite H1. set_solver.
  - set_solver.
  - intros x [->%elem_of_singleton|Hx]%elem_of_union.
    + split; [set_solver|]. intros Hc.
      inversion Hc as [? ? Hstep|? y ? Hstep Hrest]; subst.
      * by apply (H3 id (H4 id Hstep)).
      * apply H4 in Hstep. assert (id ∈ visited st2) as Hxv.
        { eapply settled_rtc; [done|exact Hstep|]. by apply tc_rtc. }
        by apply (H3 id Hxv).
    + destruct (H3 x Hx) as [Hc Ha]. split; [set_solver|done].
  - set_solver.
Qed.

(** The recursion is no deeper than the number of vertices not on its path. *)
Lemma visit_fuel (V : gset string) :
  (forall x y, x ∈ V -> ustep x y -> y ∈ V) ->
  forall fuel id st, id ∈ V -> (size (V ∖ visiting st) < fuel)%nat ->
  exists b st', visit fuel adjacency id st = Some (b, st')
                /\ (b = false -> visiting st' = visiting st).
Proof using Type.
  intros HV. induction fuel as [|fuel IH]; intros id st Hid Hf; [lia|]. cbn.
  destruct (decide (id ∈ visiting st)) as [Hin|Hin]; [eauto|].
  destruct (decide (id ∈ visited st)) as [Hd|Hd].
  { do 2 eexists. split; [done|]. cbn. intros _. set_solver. }
  assert (Hsize : (size (V ∖ ({[id]} ∪ visiting st)) < fuel)%nat).
  { assert (size (V ∖ ({[id]} ∪ visiting st)) < size (V ∖ visiting st))%nat; [|lia].
    apply subset_size. set_solver. }
  assert (Hnext : forall next st1, (forall y, (y, false) ∈ next -> y ∈ V) ->
    visiting st1 = {[id]} ∪ visiting st ->
    exists b st', visit_next (visit fuel adjacency) next st1 = Some (b, st')
                  /\ (b = false -> visiting st' = visiting st1)).
  { induction next as [|[t b] next IHn]; intros st1 Hn Hv; cbn; [eauto|].
    destruct b; [apply IHn; set_solver|].
    destruct (IH t st1) as (b & st2 & -> & Hb); [set_solver|by rewrite Hv|].
    destruct b; [by do 2 eexists|]. rewrite <-(Hb eq_refl). apply IHn; [set_solver|].
    by rewrite (Hb eq_refl). }
  destruct (Hnext (default [] (adjacency !! id))
    {| visiting := {[id]} ∪ visiting st; visited := visited st |})
    as (b & st2 & -> & Hb); [intros y Hy; by apply (HV id y Hid)|done|].
  destruct b; do 2 eexists; (split; [done|]); intros Heq; [done|].
  cbn. rewrite (Hb eq_refl). cbn. set_solver.
Qed.

Lemma any_cycle_spec fuel ids st b :
  settled (visited st) -> visiting st = ∅ -> any_cycle fuel adjacency ids st = Some b ->
  b = true <-> exists id v, id ∈ ids /\ rtc ustep id v /\ tc ustep v v.
Proof using Type.
  revert st. induction ids as [|id ids IH]; intros st Hs Hv; cbn.
  { intros [= <-]. split; [done|]. intros (? & ? & Hin & _). set_solver. }
  destruct (decide (id ∈ visited st)) as [Hd|Hd].
  - intros Hr. rewrite (IH st Hs Hv Hr). split; [set_solver|].
    intros (x & v & [->|Hx]%elem_of_cons & Hxv & Hc); [|eauto].
    exfalso. assert (v ∈ visited st) as Hvd by (by eapply settled_rtc). by apply (Hs v Hvd).
  - destruct (visit fuel adjacency id st) as [[[] st']|] eqn:Hvis; [| |done].
    + intros [= <-]. apply visit_spec in Hvis; [|split; [done|rewrite Hv; set_solver]].
      destruct Hvis as (v & Hv1 & Hv2). split; [|done]. intros _. exists id, v. set_solver.
    + apply visit_spec in Hvis; [|split; [done|rewrite Hv; set_solver]].
      destruct Hvis as (H1 & H2 & H3 & H4). intros Hr.
      rewrite (IH st' H3 ltac:(congruence) Hr). split; [set_solver|].
      intros (x & v & [->|Hx]%elem_of_cons & Hxv & Hc); [|eauto].
      exfalso. assert (v ∈ visited st') as Hvd by (by eapply settled_rtc). by apply (H3 v Hvd).
Qed.

Lemma any_cycle_fuel (V : gset string) fuel ids st :
  (forall x y, x ∈ V -> ustep x y -> y ∈ V) -> (forall id, id ∈ ids -> id ∈ V) ->
  visiting st = ∅ -> (size V < fuel)%nat -> exists b, any_cycle fuel adjacency ids st = Some b.
Proof using Type.
  intros HV Hids Hv Hf. revert st Hv. induction ids as [|id ids IH]; intros st Hv; cbn; [eauto|].
  destruct (decide (id ∈ visited st)); [apply IH; [set_solver|done]|].
  destruct (visit_fuel V HV fuel id st) as (b & st' & -> & Hb); [set_solver| |].
  { rewrite Hv, difference_empty_L. done. }
  destruct b; [eauto|]. apply IH; [set_solver|]. by rewrite (Hb eq_refl).
Qed.
End dfs.

(** * The graph's unbounded edges *)

Section cycles.
Context `{JN : JsonNumber}.

(** An edge without a loop policy. *)
Definition unbounded_edge (graph : GraphDefinitionV1) (x y : string) : Prop :=
  exists e, e ∈ edges graph /\ edge_from e = x /\ edge_to e = y /\ loop_policy e = None.

Lemma cycle_adjacency_ustep graph x y :
  ustep (cycle_adjacency (edges graph)) x y <-> unbounded_edge graph x y.
Proof using Type.
  unfold ustep, cycle_adjacency, unbounded_edge.
  rewrite (fold_push_lookup edge_from
    (fun e => (edge_to e, match loop_policy e with Some _ => true | None => false end))).
  rewrite lookup_empty. cbn. rewrite list_elem_of_fmap. split.
  - intros (e & [= -> Hl] & Hin). apply list_elem_of_In, filter_In in Hin as [Hin Hf].
    apply bool_decide_eq_true in Hf. exists e. split_and!; [by apply list_elem_of_In|done..|].
    by destruct (loop_policy e).
  - intros (e & Hin & Hf & Ht & Hl). exists e. rewrite Hl, Ht. split; [done|].
    apply list_elem_of_In, filter_In. split; [by apply list_elem_of_In|].
    by apply bool_decide_eq_true.
Qed.

Lemma rtc_ext {A} (R S : relation A) x y :
  (forall a b, R a b <-> S a b) -> rtc R x y <-> rtc S x y.
Proof using Type.
  intros H. split; induction 1; try done; eapply rtc_l; try done; by apply H.
Qed.

Lemma tc_ext {A} (R S : relation A) x y :
  (forall a b, R a b <-> S a b) -> tc R x y <-> tc S x y.
Proof using Type.
  intros H. split; (induction 1; [by apply tc_once, H|eapply tc_l; [by apply H|done]]).
Qed.

(** A cycle of unbounded edges that the nodes of the graph lead to. *)
Definition has_unbounded_cycle (graph : GraphDefinitionV1) : Prop :=
  exists n v, n ∈ nodes graph /\ rtc (unbounded_edge graph) (node_id n) v
              /\ tc (unbounded_edge graph) v v.

Lemma contains_unbounded_cycle_spec graph :
  exists b, contains_unbounded_cycle graph = Some b
            /\ (b = true <-> has_unbounded_cycle graph).
Proof using Type.
  unfold contains_unbounded_cycle.
  set (V := list_to_set (C := gset string) (node_id <$> nodes graph)
            ∪ list_to_set (edge_to <$> edges graph)).
  destruct (any_cycle_fuel (cycle_adjacency (edges graph)) V
    (S (length (nodes graph) + length (edges graph))) (node_id <$> nodes graph)
    {| visiting := ∅; visited := ∅ |}) as [b Hb].
  - intros x y _ (e & He & _ & <- & _)%cycle_adjacency_ustep.
    apply elem_of_union_r, elem_of_list_to_set, list_elem_of_fmap. eauto.
  - intros id Hid. by apply elem_of_union_l, elem_of_list_to_set.
  - done.
  - assert (size V <= length (nodes graph) + length (edges graph))%nat; [|lia].
    unfold V. rewrite size_union_alt.
    pose proof (subseteq_size (list_to_set (C := gset string) (edge_to <$> edges graph)
      ∖ list_to_set (node_id <$> nodes graph)) (list_to_set (edge_to <$> edges graph))
      ltac:(set_solver)).
    pose proof (size_list_to_set_le (edge_to <$> edges graph)).
    pose proof (size_list_to_set_le (node_id <$> nodes graph)).
    rewrite !length_fmap in *. lia.
  - exists b. split; [done|]. eapply any_cycle_spec in Hb; [|cbn; intros x Hx; set_solver|done].
    rewrite Hb. unfold has_unbounded_cycle. setoid_rewrite list_elem_of_fmap.
    split.
    + intros (id & v & (n & -> & Hn) & Hr & Hc). exists n, v. split; [done|].
      split; [eapply rtc_ext; [|exact Hr]|eapply tc_ext; [|exact Hc]]; intros;
        symmetry; apply cycle_adjacency_ustep.
    + intros (n & v & Hn & Hr & Hc). exists (node_id n), v. split; [eauto|].
      split; [eapply rtc_ext; [|exact Hr]|eapply tc_ext; [|exact Hc]]; intros;
        apply cycle_adjacency_ustep.
Qed.

(** C35: the depth-first search always finishes, and reports a cycle exactly when
    one without a bounded loop edge is reachable from a node of the graph. *)
Theorem contains_unbounded_cycle_exact graph :
  exists b, contains_unbounded_cycle graph = Some b
            /\ (b = true <-> has_unbounded_cycle graph).
Proof using Type. apply contains_unbounded_cycle_spec. Qed.
End cycles.

(** * Breadth-first search *)

Section bfs.
Variable adjacency : gmap string (list string).

Definition step_in (x y : string) : Prop := y ∈ default [] (adjacency !! x).

(** Everything reached comes from the roots, and its successors are reached or
    queued. *)
Record bfs_inv (roots : gset string) (reached : gset string) (queue : list string) : Prop := {
  bi_roots : forall x, x ∈ roots -> x ∈ reached \/ x ∈ queue;
  bi_sound : forall x, x ∈ reached \/ x ∈ queue -> exists r, r ∈ roots /\ rtc step_in r x;
  bi_closed : forall x y, x ∈ reached -> step_in x y -> y ∈ reached \/ y ∈ queue;
}.

Lemma bfs_spec roots fuel reached queue R :
  bfs_inv roots reached queue -> bfs fuel adjacency reached queue = Some R ->
  forall x, x ∈ R <-> exists r, r ∈ roots /\ rtc step_in r x.
Proof using Type.
  revert reached queue. induction fuel as [|fuel IH]; intros reached queue [Hr Hs Hc];
    destruct queue as [|id queue]; cbn; try done.
  1-2: intros [= <-] x; split; [by intros Hx; apply Hs; left|];
    intros (r & Hrr & Hrtc); apply Hr in Hrr as [Hrr|Hrr]; [|by apply not_elem_of_nil in Hrr];
    induction Hrtc as [|x y z Hxy _ IHr]; [done|]; apply IHr;
    destruct (Hc _ _ Hrr Hxy) as [|Hn]; [done|by apply not_elem_of_nil in Hn].
  destruct (decide (id ∈ reached)) as [Hin|Hin]; apply IH; split.
  - intros x [Hx|[->|Hx]%elem_of_cons]%Hr; auto.
  - intros x Hx. apply Hs. set_solver.
  - intros x y Hx Hxy. destruct (Hc x y Hx Hxy) as [|[->|]%elem_of_cons]; auto.
  - intros x [Hx|[->|Hx]%elem_of_cons]%Hr; set_solver.
  - intros x [[->%elem_of_singleton|Hx]%elem_of_union|[Hx|Hx]%elem_of_app];
      [apply Hs; set_solver|apply Hs; set_solver|apply Hs; set_solver|].
    destruct (Hs id) as (r & Hrr & Hrtc); [set_solver|]. exists r. split; [done|].
    by eapply rtc_r.
  - intros x y [->%elem_of_singleton|Hx]%elem_of_union Hxy.
    + right. apply elem_of_app. by right.
    + destruct (Hc x y Hx Hxy) as [|[->|]%elem_of_cons]; set_solver.
Qed.

Lemma bfs_inv_init roots queue :
  (forall x, x ∈ roots <-> x ∈ queue) -> bfs_inv roots ∅ queue.
Proof using Type.
  intros Hq. split.
  - intros x Hx. right. by apply Hq.
  - intros x [Hx|Hx]; [set_solver|]. exists x. split; [by apply Hq|done].
  - set_solver.
Qed.
End bfs.

Section bfs_fuel.
(** The adjacency lists of a list of edges. *)
Context (es : list GraphEdgeV1) (adjacency : gmap string (list string)).
Hypothesis Hadj : forall x, default [] (adjacency !! x)
  = edge_to <$> List.filter (fun e => bool_decide (edge_from e = x)) es.

(** Edges whose source is not reached yet: they bound what is still queued. *)
Definition pending_edges (reached : gset string) : list GraphEdgeV1 :=
  List.filter (fun e => negb (bool_decide (edge_from e ∈ reached))) es.

Lemma pending_edges_add id reached :
  id ∉ reached ->
  (length (pending_edges ({[id]} ∪ reached)) + length (default [] (adjacency !! id)))%nat
  = length (pending_edges reached).
Proof using Hadj.
  intros Hid. rewrite Hadj, length_fmap. unfold pending_edges. clear Hadj.
  induction es as [|e l IH]; [done|]. cbn.
  destruct (decide (edge_from e = id)) as [He|He].
  - rewrite (bool_decide_eq_true_2 (edge_from e ∈ {[id]} ∪ reached)) by set_solver.
    rewrite (bool_decide_eq_false_2 (edge_from e ∈ reached)) by congruence.
    rewrite (bool_decide_eq_true_2 (edge_from e = id)) by done. cbn. lia.
  - rewrite (bool_decide_eq_false_2 (edge_from e = id)) by done.
    destruct (decide (edge_from e ∈ reached)) as [Hr|Hr].
    + rewrite !bool_decide_eq_true_2 by set_solver. cbn. lia.
    + rewrite !bool_decide_eq_false_2 by set_solver. cbn. lia.
Qed.

Lemma bfs_fuel fuel reached queue :
  (length queue + length (pending_edges reached) <= fuel)%nat ->
  exists R, bfs fuel adjacency reached queue = Some R.
Proof using Hadj.
  revert reached queue. induction fuel as [|fuel IH]; intros reached [|id queue] Hf; cbn;
    try (by eexists); [cbn in Hf; lia|]. cbn in Hf.
  destruct (decide (id ∈ reached)) as [Hin|Hin]; apply IH; [lia|].
  rewrite length_app. pose proof (pending_edges_add id reached Hin). lia.
Qed.
End bfs_fuel.
