(* ===== verification/FlowFacts.v ===== *)
(** What the validator of [flow.rs] promises: a specification is valid exactly when
    it is well formed, and compilation, dry run and publication follow. *)
From stdpp Require Import relations.
From S2P Require Import Prelude RustStr RustStrFacts Json WorkflowState Enterprise WorkflowAutomation FlowGraph FlowActivation Fingerprint Flow FlowSearch.

(** * Issue lists *)

Lemma report_if_nil b issue : report_if b issue = [] <-> b = false.
Proof. destruct b; cbn; naive_solver. Qed.

Lemma fmap_nil {A B} (f : A -> B) l : f <$> l = [] <-> l = [].
Proof. destruct l; cbn; naive_solver. Qed.

Lemma imap_concat_nil {A B} (f : nat -> A -> list B) l :
  concat (imap f l) = [] <-> forall i x, l !! i = Some x -> f i x = [].
Proof.
  revert f. induction l as [|y l IH]; intros f; cbn; [by split; [intros _ ??|]|].
  split.
  - intros [Hy Hr]%app_nil [|i] x; cbn; [by intros [= <-]|]. apply (IH (f ∘ S)). done.
  - intros H. rewrite (H 0%nat y) by done. cbn. apply (IH (f ∘ S)). intros i x Hi.
    by apply (H (S i)).
Qed.

Lemma list_to_set_size_NoDup (l : list string) :
  size (list_to_set l : gset string) = length l <-> NoDup l.
Proof.
  split; [|apply size_list_to_set].
  induction l as [|x l IH]; [constructor|]. cbn.
  destruct (decide (x ∈ l)) as [Hin|Hin].
  - rewrite (subseteq_union_1_L {[x]}) by set_solver. pose proof (size_list_to_set_le l). lia.
  - rewrite size_union, size_singleton by set_solver. intros [=]. constructor; auto.
Qed.

Lemma filter_nonempty {A} (p : A -> bool) l :
  length (List.filter p l) <> O <-> exists x, x ∈ l /\ p x = true.
Proof.
  induction l as [|y l IH]; cbn; [set_solver|]. destruct (p y) eqn:Hy; cbn.
  - split; [|done]. intros _. exists y. set_solver.
  - rewrite IH. split; intros (x & Hx & Hp); exists x; [set_solver|].
    apply elem_of_cons in Hx as [->|]; [congruence|done].
Qed.

Lemma report_if_error b c m n i r :
  Forall (fun issue => severity issue = Error) (report_if b (flow_error c m n i r)).
Proof. destruct b; repeat constructor. Qed.

(** Every issue the validator builds is an error. *)
Ltac solve_errors :=
  repeat match goal with
  | |- Forall _ (_ ++ _) => apply Forall_app; split
  | |- Forall _ (report_if _ _) => apply report_if_error
  | |- Forall _ [] => constructor
  | |- Forall _ [_] => repeat constructor
  | |- Forall _ (_ <$> _) => apply Forall_fmap, Forall_true; intros []; reflexivity
  | |- Forall _ (match _ with _ => _ end) => case_match
  | |- Forall _ (if _ then _ else _) => case_match
  end.

Section facts.
Context `{JN : JsonNumber} `{SWC : !StateWriteCodec} `{AC : !ActivationCodec}
  `{SC : !SpecCodec} `{FS : FileSystem} `{U : Unicode} `{HO : Host}.
Implicit Types (graph : GraphDefinitionV1) (spec : FlowSpecV1) (node : GraphNodeV1).

(** * The node map *)

Lemma fold_node_map_lookup l (m : gmap string GraphNodeV1) id node :
  fold_left (fun m node => <[node_id node := node]> m) l m !! id = Some node ->
  m !! id = Some node \/ (node ∈ l /\ node_id node = id).
Proof using Type.
  revert m. induction l as [|n l IH]; intros m; cbn; [by left|].
  intros [H|[H <-]]%IH; [|right; set_solver].
  rewrite lookup_insert in H. destruct (decide (node_id n = id)); [|by left].
  simplify_eq. right. set_solver.
Qed.

Lemma fold_node_map_dom l (m : gmap string GraphNodeV1) :
  dom (fold_left (fun m node => <[node_id node := node]> m) l m)
  = dom m ∪ list_to_set (node_id <$> l).
Proof using Type.
  revert m. induction l as [|n l IH]; intros m; cbn; [set_solver|].
  rewrite IH, dom_insert_L. set_solver.
Qed.

Lemma node_map_lookup graph id node :
  node_map graph !! id = Some node -> node ∈ nodes graph /\ node_id node = id.
Proof using Type.
  intros [H|H]%fold_node_map_lookup; [|done]. by rewrite lookup_empty in H.
Qed.

Lemma node_map_is_Some graph id :
  is_Some (node_map graph !! id) <-> exists node, node ∈ nodes graph /\ node_id node = id.
Proof using Type.
  rewrite <-elem_of_dom. unfold node_map. rewrite fold_node_map_dom, dom_empty_L.
  rewrite elem_of_union, elem_of_list_to_set, list_elem_of_fmap. set_solver.
Qed.

Lemma node_map_unique graph :
  size (node_map graph) = length (nodes graph) <-> NoDup (node_id <$> nodes graph).
Proof using Type.
  rewrite <-size_dom. unfold node_map. rewrite fold_node_map_dom, dom_empty_L, union_empty_l_L.
  rewrite <-(length_fmap node_id (nodes graph)). apply list_to_set_size_NoDup.
Qed.

Lemma NoDup_fmap_inj {A B} (f : A -> B) l x y :
  NoDup (f <$> l) -> x ∈ l -> y ∈ l -> f x = f y -> x = y.
Proof using Type.
  intros Hnd [i Hi]%list_elem_of_lookup [j Hj]%list_elem_of_lookup Hxy.
  assert (i = j) as ->; [|congruence].
  eapply (NoDup_lookup (f <$> l) i j (f x)); [done|..]; rewrite list_lookup_fmap;
    [by rewrite Hi|by rewrite Hj, Hxy].
Qed.

Lemma node_map_node graph node :
  NoDup (node_id <$> nodes graph) -> node ∈ nodes graph ->
  node_map graph !! node_id node = Some node.
Proof using Type.
  intros Hnd Hin. destruct (node_map graph !! node_id node) as [n|] eqn:Hl.
  - apply node_map_lookup in Hl as [Hn Heq]. f_equal. by eapply NoDup_fmap_inj.
  - apply eq_None_not_Some in Hl. destruct Hl. apply node_map_is_Some. eauto.
Qed.

(** * The graph as a relation *)

Definition edge_step graph (x y : string) : Prop :=
  exists e, e ∈ edges graph /\ edge_from e = x /\ edge_to e = y.

(** Where a run may start: the positive ingress nodes, else the entry. *)
Definition start_node graph (id : string) : Prop :=
  if decide (activation_root_node_ids graph = ∅) then id = entry_node_id graph
  else id ∈ activation_root_node_ids graph.

Lemma bfs_roots_elem graph id : id ∈ bfs_roots graph <-> start_node graph id.
Proof using Type.
  unfold bfs_roots, start_node.
  assert (length (btree_elements (activation_root_node_ids graph)) = O
          <-> activation_root_node_ids graph = ∅) as Hz.
  { rewrite length_zero_iff_nil. split.
    - intros Hn. apply set_eq. intros x. rewrite <-btree_elements_elem, Hn. set_solver.
    - intros ->. reflexivity. }
  destruct (decide (activation_root_node_ids graph = ∅)) as [He|He].
  - rewrite bool_decide_eq_true_2 by tauto. by rewrite list_elem_of_singleton.
  - rewrite bool_decide_eq_false_2 by tauto. apply btree_elements_elem.
Qed.

Definition edges_known graph : Prop :=
  forall e, e ∈ edges graph -> edge_known (node_map graph) e = true.

Lemma flow_adjacency_lookup graph x :
  default [] (flow_adjacency graph !! x)
  = edge_to <$> List.filter (fun e => bool_decide (edge_from e = x))
                  (List.filter (edge_known (node_map graph)) (edges graph)).
Proof using Type.
  unfold flow_adjacency. rewrite (fold_push_lookup edge_from edge_to), lookup_empty. done.
Qed.

Lemma flow_adjacency_step graph x y :
  edges_known graph -> step_in (flow_adjacency graph) x y <-> edge_step graph x y.
Proof using Type.
  intros Hk. unfold step_in, edge_step. rewrite flow_adjacency_lookup, list_elem_of_fmap. split.
  - intros (e & -> & Hin). rewrite list_elem_of_In, !filter_In, bool_decide_eq_true in Hin.
    exists e. rewrite list_elem_of_In. tauto.
  - intros (e & Hin & Hf & <-). exists e. split; [done|].
    rewrite list_elem_of_In, !filter_In, bool_decide_eq_true. split; [|done].
    split; [by apply list_elem_of_In|by apply Hk].
Qed.

Lemma reachable_nodes_spec graph :
  edges_known graph ->
  exists R, reachable_nodes graph = Some R /\
    forall x, x ∈ R <-> exists r, start_node graph r /\ rtc (edge_step graph) r x.
Proof using Type.
  intros Hk. unfold reachable_nodes.
  destruct (bfs_fuel (List.filter (edge_known (node_map graph)) (edges graph))
    (flow_adjacency graph) (flow_adjacency_lookup graph)
    (length (bfs_roots graph) + length (edges graph)) ∅ (bfs_roots graph)) as [R HR].
  { apply Nat.add_le_mono_l. unfold pending_edges.
    etrans; [apply List.filter_length_le|apply List.filter_length_le]. }
  exists R. split; [done|]. intros x.
  rewrite (bfs_spec _ (list_to_set (bfs_roots graph)) _ _ _ _
    (bfs_inv_init _ _ _ (fun y => elem_of_list_to_set y (bfs_roots graph))) HR).
  setoid_rewrite elem_of_list_to_set. setoid_rewrite bfs_roots_elem.
  split; intros (r & Hr & Hs); exists r; (split; [done|]);
    (eapply rtc_ext; [|exact Hs]); intros a b; [symmetry|]; by apply flow_adjacency_step.
Qed.

(** * Well-formed specifications *)

Definition loop_policy_ok (budget : FlowBudgetV1) (policy : GraphLoopPolicyV1) : Prop :=
  max_iterations policy <> 0 /\ max_iterations policy <= max_loop_iterations budget
  /\ max_iterations policy <= MAX_FLOW_LOOP_ITERATIONS
  /\ safe_condition (continue_condition policy) = true.

Record edge_contract (budget : FlowBudgetV1) (e : GraphEdgeV1) (source target : GraphNodeV1)
    : Prop := {
  ec_condition : forall c, condition e = Some c -> safe_condition c = true;
  ec_policy : forall p, loop_policy e = Some p -> loop_policy_ok budget p;
  ec_schema : schemas_compatible (output_schema source) (input_schema target)
                (allowed_fields e) = true;
  ec_classification : classification_rank (source_classification source)
                      <= classification_rank (data_classification e);
}.

(** What a node must reference, by kind. *)
Definition node_contract (caps : CapabilityProjection) node : Prop :=
  match kind node with
  | Tool => exists name, get_str (config node) "reference" = Some name
              /\ allows_tool caps name = true
              /\ (get_str (config node) "sideEffect" = None
                  \/ get_str (config node) "sideEffect" = Some "none"
                  \/ get_str (config node) "sideEffect" = Some "read_only"
                  \/ is_Some (value_get (config node) "recoveryPolicy"))
  | Skill => exists id, get_str (config node) "reference" = Some id
               /\ allows_skill caps id = true
  | Agent => is_Some (get_str (config node) "reference")
             /\ is_Some (get_u64 (config node) "templateVersion")
  | Loop => is_Some (value_get (config node) "feedbackSchema")
  | _ => True
  end.

Record flow_well_formed spec (caps : CapabilityProjection) : Prop := {
  wf_identity : spec_flow_id spec <> "" /\ spec_name spec <> "" /\ spec_owner spec <> "";
  wf_decisions : pending_decisions spec = [];
  wf_node_count : (1 <= length (nodes (spec_graph spec)) <= 128)%nat;
  wf_budget : max_node_executions (spec_budget spec) <> 0
    /\ max_tool_calls (spec_budget spec) <> 0
    /\ max_duration_seconds (spec_budget spec) <> 0
    /\ max_duration_seconds (spec_budget spec) <= MAX_FLOW_DURATION_SECONDS
    /\ max_loop_iterations (spec_budget spec) <> 0
    /\ max_loop_iterations (spec_budget spec) <= MAX_FLOW_LOOP_ITERATIONS;
  wf_ids : NoDup (node_id <$> nodes (spec_graph spec));
  wf_entry : exists n, n ∈ nodes (spec_graph spec) /\ node_id n = entry_node_id (spec_graph spec);
  wf_output : exists n, n ∈ nodes (spec_graph spec) /\ kind n = Output;
  wf_edges : forall e, e ∈ edges (spec_graph spec) ->
    exists source target, source ∈ nodes (spec_graph spec) /\ node_id source = edge_from e
      /\ target ∈ nodes (spec_graph spec) /\ node_id target = edge_to e
      /\ edge_contract (spec_budget spec) e source target;
  wf_subscriptions : subscriptions_ok (spec_graph spec);
  wf_reachable : forall n, n ∈ nodes (spec_graph spec) ->
    exists r, start_node (spec_graph spec) r /\ rtc (edge_step (spec_graph spec)) r (node_id n);
  wf_terminal : forall n e, n ∈ nodes (spec_graph spec) -> kind n = Output ->
    e ∈ edges (spec_graph spec) -> edge_from e <> node_id n;
  wf_nodes : forall n, n ∈ nodes (spec_graph spec) -> node_contract caps n;
  wf_state : Forall (fun n => is_ok (parse_state_writes (config n)) = true)
               (nodes (spec_graph spec))
    /\ contract_ok (concat ((fun n => node_writes (node_id n, config n))
                            <$> nodes (spec_graph spec)));
  wf_cycles : ~ has_unbounded_cycle (spec_graph spec);
  wf_caps : is_subset_of (requested_capabilities spec) caps = true;
  wf_risk : match spec_risk_class spec with
            | High | Critical =>
                (exists n, n ∈ nodes (spec_graph spec) /\ kind n = Validator)
                /\ (exists n, n ∈ nodes (spec_graph spec) /\ kind n = Approval)
            | _ => True
            end;
}.

Lemma header_issues_nil spec :
  header_issues spec = [] <->
  (spec_flow_id spec <> "" /\ spec_name spec <> "" /\ spec_owner spec <> "")
  /\ pending_decisions spec = []
  /\ (1 <= length (nodes (spec_graph spec)) <= 128)%nat
  /\ (max_node_executions (spec_budget spec) <> 0
    /\ max_tool_calls (spec_budget spec) <> 0
    /\ max_duration_seconds (spec_budget spec) <> 0
    /\ max_duration_seconds (spec_budget spec) <= MAX_FLOW_DURATION_SECONDS
    /\ max_loop_iterations (spec_budget spec) <> 0
    /\ max_loop_iterations (spec_budget spec) <= MAX_FLOW_LOOP_ITERATIONS).
Proof using Type.
  unfold header_issues. rewrite !app_nil, !report_if_nil, !orb_false_iff, negb_false_iff.
  rewrite !str_is_empty_false, bool_decide_eq_true, bool_decide_eq_false, !Z.eqb_neq, !Z.ltb_ge.
  rewrite (length_zero_iff_nil (pending_decisions spec)).
  assert ((length (nodes (spec_graph spec)) <> O /\ vec_len (nodes (spec_graph spec)) <= MAX_FLOW_NODES)
    <-> (1 <= length (nodes (spec_graph spec)) <= 128)%nat) as Hn
    by (unfold vec_len, MAX_FLOW_NODES; lia).
  rewrite <-Hn. tauto.
Qed.

Lemma node_set_issues_nil graph :
  node_set_issues graph = [] <->
  NoDup (node_id <$> nodes graph)
  /\ (exists n, n ∈ nodes graph /\ node_id n = entry_node_id graph)
  /\ (exists n, n ∈ nodes graph /\ kind n = Output).
Proof using Type.
  unfold node_set_issues. rewrite !app_nil, !report_if_nil, !negb_false_iff.
  rewrite !bool_decide_eq_true, bool_decide_eq_false, node_map_unique, node_map_is_Some.
  rewrite filter_nonempty. unfold is_output. by setoid_rewrite bool_decide_eq_true.
Qed.

Lemma safe_condition_trim c : safe_condition c = true -> str_is_empty (trim c) = false.
Proof using Type. unfold safe_condition. destruct (str_is_empty (trim c)); cbn; done. Qed.

Lemma loop_policy_invalid_false budget policy :
  loop_policy_invalid budget policy = false <-> loop_policy_ok budget policy.
Proof using Type.
  unfold loop_policy_invalid, loop_policy_ok.
  rewrite !orb_false_iff, Z.eqb_neq, !Z.ltb_ge, negb_false_iff.
  pose proof (safe_condition_trim (continue_condition policy)). tauto.
Qed.

Lemma known_edge_issues_nil budget i e source target :
  known_edge_issues budget i e source target = [] <-> edge_contract budget e source target.
Proof using Type.
  unfold known_edge_issues. rewrite !app_nil, !report_if_nil, negb_false_iff, Z.ltb_ge. split.
  - intros (Hc & Hp & Hs & Hr). split; [|..|done|done].
    + intros c Heq. rewrite Heq in Hc. by apply negb_false_iff.
    + intros p Heq. rewrite Heq in Hp. by apply loop_policy_invalid_false.
  - intros [Hc Hp Hs Hr]. split_and!; try done.
    + destruct (condition e) as [c|]; [|done]. by apply negb_false_iff, Hc.
    + destruct (loop_policy e) as [p|]; [|done]. by apply loop_policy_invalid_false, Hp.
Qed.

Lemma edges_issues_nil budget graph :
  NoDup (node_id <$> nodes graph) ->
  concat (imap (edge_issues budget (node_map graph)) (edges graph)) = [] <->
  forall e, e ∈ edges graph ->
    exists source target, source ∈ nodes graph /\ node_id source = edge_from e
      /\ target ∈ nodes graph /\ node_id target = edge_to e
      /\ edge_contract budget e source target.
Proof using Type.
  intros Hnd. rewrite imap_concat_nil. unfold edge_issues. split.
  - intros H e [i Hi]%list_elem_of_lookup. specialize (H i e Hi).
    destruct (node_map graph !! edge_from e) as [source|] eqn:Hs; [|done].
    destruct (node_map graph !! edge_to e) as [target|] eqn:Ht; [|done].
    apply known_edge_issues_nil in H. apply node_map_lookup in Hs as [??], Ht as [??].
    by exists source, target.
  - intros H i e Hi. apply list_elem_of_lookup_2 in Hi.
    destruct (H e Hi) as (source & target & Hs & <- & Ht & <- & Hc).
    rewrite !node_map_node by done. by apply known_edge_issues_nil.
Qed.

Lemma validate_node_nil caps node : validate_node node caps = [] <-> node_contract caps node.
Proof using Type.
  unfold validate_node, node_contract. destruct (kind node); try done.
  - rewrite report_if_nil, orb_false_iff, !negb_false_iff, !bool_decide_eq_true. done.
  - destruct (get_str (config node) "reference") as [id|]; [|split; [done|by intros (? & ? & _)]].
    rewrite report_if_nil, negb_false_iff. split; [by exists id|by intros (? & [= <-] & ?)].
  - destruct (get_str (config node) "reference") as [name|];
      [|split; [done|by intros (? & ? & _)]].
    destruct (allows_tool caps name) eqn:Ha;
      [|split; [done|intros (? & [= <-] & ? & _); congruence]].
    rewrite report_if_nil, andb_false_iff, !negb_false_iff, orb_true_iff, !String.eqb_eq,
      bool_decide_eq_true.
    split.
    + intros H. exists name. split; [done|]. split; [done|].
      destruct (get_str (config node) "sideEffect") as [se|]; cbn in H; [|by left].
      destruct H as [[->| ->]|H]; tauto.
    + intros (? & [= <-] & _ & H). destruct H as [->|[->|[->|H]]]; cbn; tauto.
  - rewrite report_if_nil, negb_false_iff, bool_decide_eq_true. done.
Qed.

Lemma nodes_issues_nil caps graph R :
  edges_known graph ->
  concat (node_issues caps R (flow_adjacency graph) <$> nodes graph) = [] <->
  (forall n, n ∈ nodes graph -> node_id n ∈ R)
  /\ (forall n e, n ∈ nodes graph -> kind n = Output -> e ∈ edges graph ->
       edge_from e <> node_id n)
  /\ (forall n, n ∈ nodes graph -> node_contract caps n).
Proof using Type.
  intros Hk. rewrite concat_nil. setoid_rewrite list_elem_of_fmap.
  assert (Hnode : forall n, node_issues caps R (flow_adjacency graph) n = [] <->
    node_id n ∈ R /\ (kind n = Output -> forall e, e ∈ edges graph -> edge_from e <> node_id n)
    /\ node_contract caps n).
  { intros n. unfold node_issues, is_output.
    rewrite !app_nil, !report_if_nil, negb_false_iff, bool_decide_eq_true, validate_node_nil.
    assert (Hadj : (forall e, e ∈ edges graph -> edge_from e <> node_id n) <->
      default [] (flow_adjacency graph !! node_id n) = []).
    { split.
      - intros H. apply elem_of_nil_inv. intros y Hy.
        apply (flow_adjacency_step graph (node_id n) y Hk) in Hy as (e & He & Hf & _).
        by apply (H e He).
      - intros H e He Hf.
        assert (step_in (flow_adjacency graph) (node_id n) (edge_to e)) as Hs
          by (apply flow_adjacency_step; [done|by exists e]).
        unfold step_in in Hs. rewrite H in Hs. by apply not_elem_of_nil in Hs. }
    rewrite Hadj, andb_false_iff, bool_decide_eq_false.
    destruct (decide (kind n = Output)); [|tauto].
    destruct (flow_adjacency graph !! node_id n) as [out|]; cbn; [|tauto].
    rewrite negb_false_iff, bool_decide_eq_true, length_zero_iff_nil. tauto. }
  split.
  - intros H. split_and!; intros n; [|intros e|]; intros Hn;
      pose proof (proj1 (Hnode n) (H _ (ex_intro _ n (conj eq_refl Hn)))); naive_solver.
  - intros (H1 & H2 & H3) l (n & -> & Hn). apply Hnode. naive_solver.
Qed.

Lemma state_issues_nil graph :
  state_issues graph = [] <->
  Forall (fun n => is_ok (parse_state_writes (config n)) = true) (nodes graph)
  /\ contract_ok (concat ((fun n => node_writes (node_id n, config n)) <$> nodes graph)).
Proof using Type.
  unfold state_issues. rewrite fmap_nil, validate_graph_state_writes_ok, Forall_fmap.
  by rewrite <-list_fmap_compose.
Qed.

Lemma has_kind_spec k graph : has_kind k graph = true <-> exists n, n ∈ nodes graph /\ kind n = k.
Proof using Type.
  unfold has_kind. rewrite existsb_exists. setoid_rewrite <-list_elem_of_In.
  by setoid_rewrite bool_decide_eq_true.
Qed.

Lemma risk_issues_nil spec :
  risk_issues spec = [] <->
  match spec_risk_class spec with
  | High | Critical =>
      (exists n, n ∈ nodes (spec_graph spec) /\ kind n = Validator)
      /\ (exists n, n ∈ nodes (spec_graph spec) /\ kind n = Approval)
  | _ => True
  end.
Proof using Type.
  unfold risk_issues. destruct (spec_risk_class spec); try done;
    rewrite report_if_nil, orb_false_iff, !negb_false_iff, !has_kind_spec; done.
Qed.

Lemma edges_known_of graph :
  (forall e, e ∈ edges graph ->
    (exists s, s ∈ nodes graph /\ node_id s = edge_from e)
    /\ (exists t, t ∈ nodes graph /\ node_id t = edge_to e)) -> edges_known graph.
Proof using Type.
  intros H e He. unfold edge_known. rewrite andb_true_iff, !bool_decide_eq_true.
  rewrite !node_map_is_Some. by apply H.
Qed.

Lemma flow_spec_issues_nil spec caps :
  flow_spec_issues spec caps = [] <-> flow_well_formed spec caps.
Proof using Type.
  unfold flow_spec_issues. rewrite !app_nil, header_issues_nil, node_set_issues_nil.
  unfold activation_issues. rewrite fmap_nil, validate_graph_activations_ok, state_issues_nil.
  unfold validate_capability_scope. rewrite !report_if_nil, negb_false_iff, risk_issues_nil.
  destruct (contains_unbounded_cycle_spec (spec_graph spec)) as (b & -> & Hb). cbn.
  rewrite <-not_true_iff_false, Hb.
  split.
  - intros ((H1 & H2 & H3 & H4) & (H5 & H6 & H7) & H8 & H9 & H10 & H11 & H12 & H13 & H14).
    rewrite edges_issues_nil in H8 by done.
    assert (edges_known (spec_graph spec)) as Hk.
    { apply edges_known_of. intros e He.
      destruct (H8 e He) as (s & t & ? & ? & ? & ? & _). split; [by exists s|by exists t]. }
    destruct (reachable_nodes_spec (spec_graph spec) Hk) as (R & HR & HRs).
    rewrite HR in H10. cbn in H10. apply nodes_issues_nil in H10 as (G1 & G2 & G3); [|done].
    split; try done. intros n Hn. by apply HRs, G1.
  - intros []. split_and!; try tauto; [by apply edges_issues_nil|].
    assert (edges_known (spec_graph spec)) as Hk.
    { apply edges_known_of. intros e He.
      destruct (wf_edges0 e He) as (s & t & ? & ? & ? & ? & _). split; [by exists s|by exists t]. }
    destruct (reachable_nodes_spec (spec_graph spec) Hk) as (R & -> & HRs). cbn.
    apply nodes_issues_nil; [done|]. split_and!; [|done|done].
    intros n Hn. by apply HRs, wf_reachable0.
Qed.

Lemma issues_are_errors spec caps :
  existsb is_error (flow_spec_issues spec caps) = false <-> flow_spec_issues spec caps = [].
Proof using Type.
  assert (Hall : Forall (fun issue => severity issue = Error) (flow_spec_issues spec caps)).
  { unfold flow_spec_issues, header_issues, node_set_issues, activation_issues, state_issues,
      validate_capability_scope, risk_issues. solve_errors.
    - apply Forall_concat, Forall_lookup. intros i l Hl. rewrite list_lookup_imap in Hl.
      destruct (edges (spec_graph spec) !! i) as [e|]; [|done]. cbn in Hl. simplify_eq.
      unfold edge_issues, known_edge_issues. solve_errors.
    - apply Forall_concat, Forall_fmap, Forall_true. intros n. cbn.
      unfold node_issues, validate_node. solve_errors. }
  split; [|by intros ->]. destruct (flow_spec_issues spec caps) as [|i l]; [done|].
  apply Forall_cons in Hall as [Hi _]. cbn. unfold is_error at 1.
  by rewrite bool_decide_eq_true_2.
Qed.

Lemma validate_flow_spec_valid spec caps w :
  valid (validate_flow_spec spec caps w).1 = true <-> flow_well_formed spec caps.
Proof using Type.
  cbn. rewrite negb_true_iff, issues_are_errors. apply flow_spec_issues_nil.
Qed.

(** C5: the validator accepts a specification exactly when it is well formed: unique
    ids, existing endpoints, every node reachable from a start node, terminal
    outputs, bounded cycles, compatible schemas, no classification downgrade, no
    capability beyond the execution's. *)
Theorem validate_flow_spec_exact spec caps w :
  valid (validate_flow_spec spec caps w).1 = true <-> flow_well_formed spec caps.
Proof using Type. apply validate_flow_spec_valid. Qed.

(** * Compilation, dry run, publication *)

Lemma compile_flow_ok spec caps w :
  is_ok (compile_flow spec caps w).1 = true <-> flow_well_formed spec caps.
Proof using Type.
  rewrite <-(validate_flow_spec_valid spec caps w). unfold compile_flow.
  destruct (validate_flow_spec spec caps w) as [r w']. cbn. by destruct (valid r).
Qed.

(** compilation succeeds exactly for well-formed specifications; the plan then
    has one uniquely named step per node and keeps the edges and the budget. *)
Theorem compile_flow_exact spec caps w :
  (is_ok (compile_flow spec caps w).1 = true <-> flow_well_formed spec caps)
  /\ forall plan, (compile_flow spec caps w).1 = Ok plan ->
       compiled_node_id <$> plan_nodes plan = node_id <$> nodes (spec_graph spec)
       /\ NoDup (compiled_node_id <$> plan_nodes plan)
       /\ plan_entry_node_id plan ∈ compiled_node_id <$> plan_nodes plan
       /\ plan_edges plan = edges (spec_graph spec) /\ plan_budget plan = spec_budget spec.
Proof using Type.
  rewrite <-(validate_flow_spec_valid spec caps w). unfold compile_flow.
  destruct (validate_flow_spec spec caps w) as [r w'] eqn:Hv. cbn.
  assert (Hr : r = (validate_flow_spec spec caps w).1) by (by rewrite Hv).
  destruct (valid r) eqn:Hval; cbn; [|done]. split; [done|]. intros plan [= <-]. cbn.
  rewrite Hr in Hval. apply validate_flow_spec_valid in Hval. destruct Hval.
  rewrite <-list_fmap_compose.
  replace (compiled_node_id ∘ compile_node) with (fun n : GraphNodeV1 => node_id n) by done.
  split_and!; try done. apply list_elem_of_fmap. destruct wf_entry0 as (n & Hn & <-). eauto.
Qed.

(** A dry run executes nothing but visits every node of a valid draft once, in
    order, and fails exactly on the drafts that cannot be compiled. *)
Theorem simulate_flow_covers draft input caps w :
  let trial := (simulate_flow draft input caps w).1 in
  (trial_status trial = Passed <-> flow_well_formed (draft_spec draft) caps)
  /\ step_node_id <$> steps trial
     = (if valid (report trial) then node_id <$> nodes (spec_graph (draft_spec draft)) else []).
Proof using Type.
  cbn zeta. rewrite <-(validate_flow_spec_valid (draft_spec draft) caps w).
  unfold simulate_flow, compile_flow, validate_flow_spec. cbn.
  destruct (negb (existsb is_error (flow_spec_issues (draft_spec draft) caps))); cbn.
  - split; [done|]. rewrite fmap_imap.
    generalize (nodes (spec_graph (draft_spec draft))) as l. intros l.
    apply list_eq. intros i. rewrite list_lookup_imap, list_lookup_fmap.
    rewrite list_lookup_fmap. by destruct (l !! i).
  - split; [done|]. done.
Qed.

(** publishing loses nothing: the definition made from a valid draft reads back
    as a specification that is valid in the same execution, and its frozen
    capabilities stay within the draft's request and the execution's. *)
Theorem published_definition_valid (Hid : identity_stable) draft caps version author w :
  flow_well_formed (draft_spec draft) caps ->
  effective_capabilities draft = intersect (requested_capabilities (draft_spec draft)) caps ->
  let definition := (definition_from_draft draft version author w).1 in
  flow_well_formed (to_spec definition) caps
  /\ is_subset_of (def_capabilities definition) (requested_capabilities (draft_spec draft)) = true
  /\ is_subset_of (def_capabilities definition) caps = true.
Proof using Type.
  intros [] Heff definition.
  destruct (intersect_subset Hid (requested_capabilities (draft_spec draft)) caps) as [H1 H2].
  cbn. rewrite Heff. split; [|by split]. by split.
Qed.

Lemma lower_not_ws a : ws1 (byte_of a) = false -> ws1 (byte_of (to_ascii_lower a)) = false.
Proof using Type. destruct a as [[] [] [] [] [] [] [] []]; done. Qed.

(** The per-character effect of lowercasing and of replacing blanks. *)
Definition slug_char (a : Ascii.ascii) : Ascii.ascii :=
  if Ascii.eqb (to_ascii_lower a) (chr " ") then chr "-" else to_ascii_lower a.

Lemma slug_char_facts a :
  (is_ascii a = true -> is_ascii (slug_char a) = true)
  /\ (ws1 (byte_of a) = false -> ws1 (byte_of (slug_char a)) = false)
  /\ slug_char (slug_char a) = slug_char a.
Proof using Type. destruct a as [[] [] [] [] [] [] [] []]; done. Qed.

Lemma slug_ascii s :
  str_all is_ascii s = true ->
  replace_char (chr " ") "-" (to_lowercase s) = str_map slug_char s
  /\ str_all is_ascii (str_map slug_char s) = true.
Proof using Type.
  intros Ha. unfold to_lowercase. rewrite Ha.
  change "-" with (String (chr "-") ""). rewrite replace_char_map, str_map_map. split; [done|].
  clear -Ha. induction s as [|a s IH]; simpl in *; [done|].
  apply andb_true_iff in Ha as [Ha Hs]. rewrite IH by done.
  by rewrite (proj1 (slug_char_facts a) Ha).
Qed.

(** Normalisation is idempotent when the trimmed flow id is ASCII: normalising a
    stored draft again changes neither its text nor its hash. *)
Theorem normalize_flow_spec_idempotent spec :
  str_all is_ascii (trim (spec_flow_id spec)) = true ->
  normalize_flow_spec (normalize_flow_spec spec) = normalize_flow_spec spec.
Proof using Type.
  intros Ha. unfold normalize_flow_spec. cbn -[replace_char to_lowercase chr].
  rewrite !trim_idemp. f_equal.
  - destruct (slug_ascii _ Ha) as [-> Hb]. rewrite trim_map_fixed; [|by apply slug_char_facts..|done].
    destruct (slug_ascii _ Hb) as [-> _]. rewrite str_map_map. apply str_map_ext.
    intros a. apply slug_char_facts.
  - f_equal. rewrite <-list_fmap_compose. apply list_fmap_ext. intros i n _.
    unfold normalize_node. cbn. by rewrite !trim_idemp.
Qed.
End facts.
