(* ===== verification/WorkflowInterrupt.v ===== *)
(** [workflow_interrupt.rs]: the durable boundary between the workflow runtime and
    a suspended Agent, and the transcript entries it carries. *)
From S2P Require Import Prelude RustStr RustStrFacts Json Fingerprint.

Definition WORKFLOW_INTERRUPT_SCHEMA_VERSION_V1 : Z := 1.

Inductive FlowTranscriptEntryKindV1 :=
| TInput | TToolCall | TToolResult | TOutput | TApproval | TError.

Record FlowTranscriptEntryV1 `{JsonNumber} := {
  entry_id : Uuid;
  entry_kind : FlowTranscriptEntryKindV1;
  entry_title : string;
  content : Value;
  tool_name : option string;
  call_id : option Uuid;
  is_error_entry : bool;
  entry_created_at : DateTime;
}.

Inductive WorkflowInterruptKindV1 :=
| IApproval | IInputRequest | IExternalAction | IEffectReconciliation | IResumeRetry.

#[export] Instance interrupt_kind_eq_dec : EqDecision WorkflowInterruptKindV1.
Proof. solve_decision. Defined.

(** The Agent's continuation and its serde encoding. *)
Class ContinuationCodec `{JsonNumber} := {
  AgentContinuation : Type;
  continuation_to_value : AgentContinuation -> Result string Value;
  continuation_from_value : Value -> Result string AgentContinuation;
}.

(** [model::UserInputResponse] and the Agent's resume signals. *)
Record UserInputAnswer := {
  question_id : string;
  option_id : option string;
  custom_text : option string;
}.

Record UserInputResponse := {
  answers : list UserInputAnswer;
  skipped : bool;
  response_cancelled : bool;
}.

Inductive AgentResumeSignal :=
| AgentApproval (approval_id : option Uuid) (approved : bool)
| AgentUserInput (request_id : Uuid) (response : UserInputResponse)
| AgentExternalAction (observation : string).

Inductive FlowResumeSignalV1 :=
| SigApproval (approval_id : option Uuid) (approved : bool)
| SigUserInput (request_id : Uuid) (response : UserInputResponse)
| SigExternalAction (observation : string).

Definition into_agent_signal (self : FlowResumeSignalV1) : AgentResumeSignal :=
  match self with
  | SigApproval approval_id approved => AgentApproval approval_id approved
  | SigUserInput request_id response => AgentUserInput request_id response
  | SigExternalAction observation => AgentExternalAction observation
  end.

(** [json!] of a resume signal, as serde serializes it. *)
Class SignalCodec `{JsonNumber} := { signal_to_value : FlowResumeSignalV1 -> Value }.

Record AgentContinuationEnvelopeV1 `{JsonNumber} := {
  envelope_schema_version : Z;
  envelope_id : Uuid;
  envelope_content_hash : string;
  envelope_payload : Value;
}.

(** The interrupt an executor raises, and the request frozen at a checkpoint. *)
Record FlowNodeInterruptV1 `{JsonNumber} := {
  ni_id : Uuid;
  ni_revision : Z;
  ni_kind : WorkflowInterruptKindV1;
  ni_title : string;
  ni_description : string;
  ni_payload : Value;
  ni_continuation : AgentContinuationEnvelopeV1;
  ni_tool_calls : Z;
  ni_transcript : list FlowTranscriptEntryV1;
  ni_created_at : DateTime;
}.

Record WorkflowInterruptRequestV1 `{JsonNumber} := {
  interrupt_schema_version : Z;
  interrupt_id : Uuid;
  interrupt_revision : Z;
  interrupt_checkpoint_id : Uuid;
  interrupt_superstep : Z;
  interrupt_node_id : string;
  interrupt_node_run_id : Uuid;
  interrupt_kind : WorkflowInterruptKindV1;
  interrupt_title : string;
  interrupt_description : string;
  interrupt_payload : Value;
  interrupt_continuation : AgentContinuationEnvelopeV1;
  interrupt_tool_calls : Z;
  interrupt_transcript : list FlowTranscriptEntryV1;
  interrupt_created_at : DateTime;
}.

Record FlowResumeCommandV1 := {
  command_schema_version : Z;
  command_id : Uuid;
  command_idempotency_key : string;
  command_interrupt_id : Uuid;
  expected_interrupt_revision : Z;
  command_signal : FlowResumeSignalV1;
  command_note : option string;
  issued_by : string;
  issued_at : DateTime;
}.

Section interrupts.
Context `{JN : JsonNumber} `{JT : !JsonText} `{CC : !ContinuationCodec} `{SG : !SignalCodec}
  `{HO : Host}.

(** [FlowTranscriptEntryV1::new] and [::tool] *)
Definition transcript_entry (kind : FlowTranscriptEntryKindV1) (title : string) (content : Value)
    (w : World) : FlowTranscriptEntryV1 * World :=
  let '(id, w) := new_v4 w in
  let '(now, w) := utc_now w in
  ({| entry_id := id; entry_kind := kind; entry_title := title; content := content;
      tool_name := None; call_id := None; is_error_entry := false; entry_created_at := now |}, w).

Definition transcript_tool (kind : FlowTranscriptEntryKindV1) (name : string) (call : Uuid)
    (content : Value) (is_error : bool) (w : World) : FlowTranscriptEntryV1 * World :=
  let '(id, w) := new_v4 w in
  let '(now, w) := utc_now w in
  ({| entry_id := id; entry_kind := kind; entry_title := name; content := content;
      tool_name := Some name; call_id := Some call; is_error_entry := is_error;
      entry_created_at := now |}, w).

(** [serde_json::to_vec] does not fail on a [Value]. *)
Definition continuation_payload_hash (payload : Value) : string :=
  content_fingerprint (json_text payload).

(** [AgentContinuationEnvelopeV1::encode] *)
Definition encode (continuation : AgentContinuation) (w : World)
    : Result anyhow AgentContinuationEnvelopeV1 * World :=
  match continuation_to_value continuation with
  | Err e => (Err (Msg e), w)
  | Ok payload =>
      let content_hash := continuation_payload_hash payload in
      let '(id, w) := new_v4 w in
      (Ok {| envelope_schema_version := WORKFLOW_INTERRUPT_SCHEMA_VERSION_V1;
             envelope_id := id; envelope_content_hash := content_hash;
             envelope_payload := payload |}, w)
  end.

Definition decode (self : AgentContinuationEnvelopeV1) : Result anyhow AgentContinuation :=
  let? _ := ensure (envelope_schema_version self =? WORKFLOW_INTERRUPT_SCHEMA_VERSION_V1)
              ("unsupported Agent continuation envelope schema version "
               +:+ pretty (envelope_schema_version self)) in
  let? _ := ensure (String.eqb (continuation_payload_hash (envelope_payload self))
                               (envelope_content_hash self))
              "Agent continuation payload hash mismatch" in
  map_err Msg (continuation_from_value (envelope_payload self)).

(** [FlowNodeInterruptV1::new] *)
Definition node_interrupt_new (kind : WorkflowInterruptKindV1) (title description : string)
    (payload : Value) (continuation : AgentContinuation) (tool_calls : Z)
    (transcript : list FlowTranscriptEntryV1) (w : World)
    : Result anyhow FlowNodeInterruptV1 * World :=
  let '(id, w) := new_v4 w in
  match encode continuation w with
  | (Err e, w) => (Err e, w)
  | (Ok envelope, w) =>
      let '(now, w) := utc_now w in
      (Ok {| ni_id := id; ni_revision := 1; ni_kind := kind; ni_title := title;
             ni_description := description; ni_payload := payload; ni_continuation := envelope;
             ni_tool_calls := tool_calls; ni_transcript := transcript; ni_created_at := now |}, w)
  end.

Definition at_checkpoint (checkpoint_id : Uuid) (superstep : Z) (node_id : string)
    (node_run_id : Uuid) (interrupt : FlowNodeInterruptV1) : WorkflowInterruptRequestV1 :=
  {| interrupt_schema_version := WORKFLOW_INTERRUPT_SCHEMA_VERSION_V1;
     interrupt_id := ni_id interrupt; interrupt_revision := ni_revision interrupt;
     interrupt_checkpoint_id := checkpoint_id; interrupt_superstep := superstep;
     interrupt_node_id := node_id; interrupt_node_run_id := node_run_id;
     interrupt_kind := ni_kind interrupt; interrupt_title := ni_title interrupt;
     interrupt_description := ni_description interrupt; interrupt_payload := ni_payload interrupt;
     interrupt_continuation := ni_continuation interrupt;
     interrupt_tool_calls := ni_tool_calls interrupt;
     interrupt_transcript := ni_transcript interrupt;
     interrupt_created_at := ni_created_at interrupt |}.

Definition resume_retry (previous : WorkflowInterruptRequestV1) (command : FlowResumeCommandV1)
    (error : string) (w : World) : WorkflowInterruptRequestV1 * World :=
  let '(id, w) := new_v4 w in
  let '(now, w) := utc_now w in
  ({| interrupt_schema_version := WORKFLOW_INTERRUPT_SCHEMA_VERSION_V1;
      interrupt_id := id; interrupt_revision := 1;
      interrupt_checkpoint_id := interrupt_checkpoint_id previous;
      interrupt_superstep := interrupt_superstep previous;
      interrupt_node_id := interrupt_node_id previous;
      interrupt_node_run_id := interrupt_node_run_id previous;
      interrupt_kind := IResumeRetry;
      interrupt_title := "恢复中断，需要人工重试";
      interrupt_description :=
        "Agent continuation 在恢复期间遇到可中断错误。确认后将再次恢复同一 continuation，不会重新执行节点。";
      interrupt_payload := json_object
        [("error", VString error);
         ("previousResumeCommandId", VString (host_uuid_string (command_id command)));
         ("resumeSignal", signal_to_value (command_signal command))];
      interrupt_continuation := interrupt_continuation previous;
      interrupt_tool_calls := interrupt_tool_calls previous;
      interrupt_transcript := interrupt_transcript previous;
      interrupt_created_at := now |}, w).

(** [FlowResumeCommandV1::new] *)
Definition resume_command_new (task_id : Uuid) (idempotency_key : string)
    (interrupt : WorkflowInterruptRequestV1) (signal : FlowResumeSignalV1) (note : option string)
    (issued_by : string) (w : World) : Result anyhow FlowResumeCommandV1 * World :=
  if str_is_empty (trim idempotency_key)
  then (Err (Msg "resume idempotency key cannot be empty"), w)
  else let '(now, w) := utc_now w in
       (Ok {| command_schema_version := WORKFLOW_INTERRUPT_SCHEMA_VERSION_V1;
              command_id := host_v5 task_id idempotency_key;
              command_idempotency_key := idempotency_key;
              command_interrupt_id := interrupt_id interrupt;
              expected_interrupt_revision := interrupt_revision interrupt;
              command_signal := signal; command_note := trim_nonempty note;
              issued_by := issued_by; issued_at := now |}, w).

Definition validates (self : FlowResumeCommandV1) (interrupt : WorkflowInterruptRequestV1) : bool :=
  bool_decide (command_interrupt_id self = interrupt_id interrupt)
  && (expected_interrupt_revision self =? interrupt_revision interrupt).

(** * Facts *)

Lemma decode_Ok envelope c :
  decode envelope = Ok c <->
  envelope_schema_version envelope = WORKFLOW_INTERRUPT_SCHEMA_VERSION_V1
  /\ continuation_payload_hash (envelope_payload envelope) = envelope_content_hash envelope
  /\ continuation_from_value (envelope_payload envelope) = Ok c.
Proof using Type.
  unfold decode. rewrite result_bind_Ok. setoid_rewrite result_bind_Ok. split.
  - intros (u & H1 & u' & H2 & H3). apply ensure_Ok in H1, H2.
    apply Z.eqb_eq in H1. apply String.eqb_eq in H2.
    destruct (continuation_from_value _); cbn in H3; simplify_eq. done.
  - intros (H1 & H2 & H3). exists tt. split; [by apply ensure_Ok, Z.eqb_eq|].
    exists tt. split; [by apply ensure_Ok, String.eqb_eq|]. by rewrite H3.
Qed.

(** C38: a suspended Agent survives persistence: what is encoded decodes to the same
    continuation, and a payload that differs from the encoded one by a single byte
    of its text is refused. *)
Theorem continuation_round_trip (c : AgentContinuation) payload w :
  continuation_to_value c = Ok payload -> continuation_from_value payload = Ok c ->
  exists envelope w', encode c w = (Ok envelope, w')
    /\ decode envelope = Ok c
    /\ forall tampered prefix a b suffix,
         json_text payload = prefix +:+ String a suffix ->
         json_text tampered = prefix +:+ String b suffix -> a <> b ->
         decode {| envelope_schema_version := envelope_schema_version envelope;
                   envelope_id := envelope_id envelope;
                   envelope_content_hash := envelope_content_hash envelope;
                   envelope_payload := tampered |}
         = Err (Msg "Agent continuation payload hash mismatch").
Proof using Type.
  intros Henc Hdec. unfold encode. rewrite Henc. do 2 eexists. split; [done|].
  split; [by apply decode_Ok|].
  intros tampered pre a b suf Hp Ht Hab. unfold decode, continuation_payload_hash. cbn [envelope_payload
    envelope_content_hash envelope_schema_version]. rewrite Ht, Hp.
  assert (content_fingerprint (pre +:+ String b suf) <> content_fingerprint (pre +:+ String a suf))
    as Hne by (by apply fingerprint_byte_change).
  apply String.eqb_neq in Hne. by rewrite Hne.
Qed.

(** A resume command addresses exactly the interrupt revision it was issued for;
    the retry that follows a failed resume is a new interrupt, so the old command
    cannot resume it. *)
Theorem resume_command_single_use task key interrupt signal note by_ w command w' error w2 :
  resume_command_new task key interrupt signal note by_ w = (Ok command, w') ->
  (forall n, host_v4 n = interrupt_id interrupt -> (n < w2)%N) ->
  validates command interrupt = true
  /\ validates command (resume_retry interrupt command error w2).1 = false.
Proof using Type.
  unfold resume_command_new. destruct (str_is_empty (trim key)); [done|].
  cbn. intros [= <- <-] Hfresh. unfold validates. cbn. split.
  - by rewrite bool_decide_eq_true_2, Z.eqb_refl.
  - rewrite bool_decide_eq_false_2; [done|]. intros Heq. symmetry in Heq.
    apply Hfresh in Heq. lia.
Qed.
End interrupts.
