(* ===== verification/HumanTask.v ===== *)
(** [human_task.rs]: the tasks a workflow hands to people, their construction at
    run, checkpoint and delivery boundaries, and their life until resolution. *)
From S2P Require Import Prelude RustStr RustStrFacts Json WorkflowInterrupt.

Definition HUMAN_TASK_SCHEMA_VERSION_V1 : Z := 1.

Inductive HumanTaskTypeV1 :=
| TaskApproval | TaskInputRequest | TaskOutputReview | TaskRecovery | TaskReconnect
| TaskDataCorrection | TaskReconciliation | TaskManual.

Definition task_type_as_str (self : HumanTaskTypeV1) : string :=
  match self with
  | TaskApproval => "approval"
  | TaskInputRequest => "input_request"
  | TaskOutputReview => "output_review"
  | TaskRecovery => "recovery"
  | TaskReconnect => "reconnect"
  | TaskDataCorrection => "data_correction"
  | TaskReconciliation => "recovery"
  | TaskManual => "manual"
  end.

Inductive HumanTaskStatusV1 := Pending | Completed | TaskCancelled.

#[export] Instance task_status_eq_dec : EqDecision HumanTaskStatusV1.
Proof. solve_decision. Defined.

Definition task_status_as_str (self : HumanTaskStatusV1) : string :=
  match self with
  | Pending => "pending"
  | Completed => "completed"
  | TaskCancelled => "cancelled"
  end.

Inductive HumanTaskSourceKindV1 := FlowRunSource | DeliveryReceiptSource.

Definition source_kind_as_str (self : HumanTaskSourceKindV1) : string :=
  match self with FlowRunSource => "flow_run" | DeliveryReceiptSource => "delivery_receipt" end.

Inductive HumanTaskActionV1 :=
| ActApprove | ActReject | ActRetry | ActResume | ActSubmit | ActReconnect | ActAcknowledge
| ActCancel.

#[export] Instance task_action_eq_dec : EqDecision HumanTaskActionV1.
Proof. solve_decision. Defined.

Record HumanTaskResolutionV1 `{JsonNumber} := {
  resolution_action : HumanTaskActionV1;
  resolution_note : option string;
  resolved_by : string;
  resolution_resolved_at : DateTime;
  resolution_command_id : option Uuid;
  resolution_idempotency_key : option string;
  response : option Value;
}.

Record HumanTaskV1 `{JsonNumber} := {
  task_schema_version : Z;
  task_id : Uuid;
  task_revision : Z;
  task_thread_id : Uuid;
  source_kind : HumanTaskSourceKindV1;
  source_id : Uuid;
  source_node_run_id : option Uuid;
  source_node_id : option string;
  task_type : HumanTaskTypeV1;
  task_status : HumanTaskStatusV1;
  task_title : string;
  task_description : string;
  allowed_actions : list HumanTaskActionV1;
  task_payload : Value;
  action_schema : option Value;
  assigned_to : option string;
  claimed_by : option string;
  claimed_at : option DateTime;
  due_at : option DateTime;
  task_checkpoint_id : option Uuid;
  task_continuation_id : option Uuid;
  resolution : option HumanTaskResolutionV1;
  task_created_at : DateTime;
  task_updated_at : DateTime;
  task_resolved_at : option DateTime;
}.

Definition eta_HumanTaskV1 `{JN : JsonNumber} (r : HumanTaskV1) : HumanTaskV1 :=
  {| task_schema_version := task_schema_version r; task_id := task_id r;
     task_revision := task_revision r; task_thread_id := task_thread_id r;
     source_kind := source_kind r; source_id := source_id r;
     source_node_run_id := source_node_run_id r; source_node_id := source_node_id r;
     task_type := task_type r; task_status := task_status r; task_title := task_title r;
     task_description := task_description r; allowed_actions := allowed_actions r;
     task_payload := task_payload r; action_schema := action_schema r;
     assigned_to := assigned_to r; claimed_by := claimed_by r; claimed_at := claimed_at r;
     due_at := due_at r; task_checkpoint_id := task_checkpoint_id r;
     task_continuation_id := task_continuation_id r; resolution := resolution r;
     task_created_at := task_created_at r; task_updated_at := task_updated_at r;
     task_resolved_at := task_resolved_at r |}.
#[export] Instance set_task_schema_version `{JN : JsonNumber} : Setter task_schema_version := ltac:(derive_setter eta_HumanTaskV1 task_schema_version).
#[export] Instance set_task_id `{JN : JsonNumber} : Setter task_id := ltac:(derive_setter eta_HumanTaskV1 task_id).
#[export] Instance set_task_revision `{JN : JsonNumber} : Setter task_revision := ltac:(derive_setter eta_HumanTaskV1 task_revision).
#[export] Instance set_task_thread_id `{JN : JsonNumber} : Setter task_thread_id := ltac:(derive_setter eta_HumanTaskV1 task_thread_id).
#[export] Instance set_source_kind `{JN : JsonNumber} : Setter source_kind := ltac:(derive_setter eta_HumanTaskV1 source_kind).
#[export] Instance set_source_id `{JN : JsonNumber} : Setter source_id := ltac:(derive_setter eta_HumanTaskV1 source_id).
#[export] Instance set_source_node_run_id `{JN : JsonNumber} : Setter source_node_run_id := ltac:(derive_setter eta_HumanTaskV1 source_node_run_id).
#[export] Instance set_source_node_id `{JN : JsonNumber} : Setter source_node_id := ltac:(derive_setter eta_HumanTaskV1 source_node_id).
#[export] Instance set_task_type `{JN : JsonNumber} : Setter task_type := ltac:(derive_setter eta_HumanTaskV1 task_type).
#[export] Instance set_task_status `{JN : JsonNumber} : Setter task_status := ltac:(derive_setter eta_HumanTaskV1 task_status).
#[export] Instance set_task_title `{JN : JsonNumber} : Setter task_title := ltac:(derive_setter eta_HumanTaskV1 task_title).
#[export] Instance set_task_description `{JN : JsonNumber} : Setter task_description := ltac:(derive_setter eta_HumanTaskV1 task_description).
#[export] Instance set_allowed_actions `{JN : JsonNumber} : Setter allowed_actions := ltac:(derive_setter eta_HumanTaskV1 allowed_actions).
#[export] Instance set_task_payload `{JN : JsonNumber} : Setter task_payload := ltac:(derive_setter eta_HumanTaskV1 task_payload).
#[export] Instance set_action_schema `{JN : JsonNumber} : Setter action_schema := ltac:(derive_setter eta_HumanTaskV1 action_schema).
#[export] Instance set_assigned_to `{JN : JsonNumber} : Setter assigned_to := ltac:(derive_setter eta_HumanTaskV1 assigned_to).
#[export] Instance set_claimed_by `{JN : JsonNumber} : Setter claimed_by := ltac:(derive_setter eta_HumanTaskV1 claimed_by).
#[export] Instance set_claimed_at `{JN : JsonNumber} : Setter claimed_at := ltac:(derive_setter eta_HumanTaskV1 claimed_at).
#[export] Instance set_due_at `{JN : JsonNumber} : Setter due_at := ltac:(derive_setter eta_HumanTaskV1 due_at).
#[export] Instance set_task_checkpoint_id `{JN : JsonNumber} : Setter task_checkpoint_id := ltac:(derive_setter eta_HumanTaskV1 task_checkpoint_id).
#[export] Instance set_task_continuation_id `{JN : JsonNumber} : Setter task_continuation_id := ltac:(derive_setter eta_HumanTaskV1 task_continuation_id).
#[export] Instance set_resolution `{JN : JsonNumber} : Setter resolution := ltac:(derive_setter eta_HumanTaskV1 resolution).
#[export] Instance set_task_created_at `{JN : JsonNumber} : Setter task_created_at := ltac:(derive_setter eta_HumanTaskV1 task_created_at).
#[export] Instance set_task_updated_at `{JN : JsonNumber} : Setter task_updated_at := ltac:(derive_setter eta_HumanTaskV1 task_updated_at).
#[export] Instance set_task_resolved_at `{JN : JsonNumber} : Setter task_resolved_at := ltac:(derive_setter eta_HumanTaskV1 task_resolved_at).

Section tasks.
Context `{JN : JsonNumber} `{HO : Host}.

Definition stable_task_id (flow_run_id : Uuid) (kind boundary_key : string) : Uuid :=
  host_v5 flow_run_id ("human-task:" +:+ kind +:+ ":" +:+ boundary_key).

Definition delivery_task (thread_id receipt_id : Uuid) (type : HumanTaskTypeV1)
    (title description : string) (actions : list HumanTaskActionV1) (assignee : option string)
    (payload : Value) (due_hours : Z) (w : World) : HumanTaskV1 * World :=
  let '(now, w) := utc_now w in
  ({| task_schema_version := HUMAN_TASK_SCHEMA_VERSION_V1;
      task_id := stable_task_id receipt_id (task_type_as_str type) "delivery";
      task_revision := 1; task_thread_id := thread_id; source_kind := DeliveryReceiptSource;
      source_id := receipt_id; source_node_run_id := None; source_node_id := None;
      task_type := type; task_status := Pending; task_title := title;
      task_description := description; allowed_actions := actions; task_payload := payload;
      action_schema := None; assigned_to := assignee; claimed_by := None; claimed_at := None;
      due_at := Some (now + duration_hours due_hours); task_checkpoint_id := None;
      task_continuation_id := None; resolution := None; task_created_at := now;
      task_updated_at := now; task_resolved_at := None |}, w).

Definition delivery_handoff (thread_id receipt_id : Uuid) (title description : string)
    (assignee : option string) (payload : Value) (w : World) : HumanTaskV1 * World :=
  delivery_task thread_id receipt_id TaskManual title description [ActAcknowledge; ActCancel]
    assignee payload 24 w.

Definition delivery_recovery (thread_id receipt_id : Uuid) (description : string)
    (payload : Value) (w : World) : HumanTaskV1 * World :=
  delivery_task thread_id receipt_id TaskRecovery "恢复 Flow 输出投递" description
    [ActRetry; ActCancel] None payload 4 w.

Definition flow_approval (thread_id flow_run_id node_run_id : Uuid) (node_id node_label : string)
    (payload : Value) (w : World) : HumanTaskV1 * World :=
  let '(now, w) := utc_now w in
  ({| task_schema_version := HUMAN_TASK_SCHEMA_VERSION_V1;
      task_id := stable_task_id flow_run_id "approval" (host_uuid_string node_run_id);
      task_revision := 1; task_thread_id := thread_id; source_kind := FlowRunSource;
      source_id := flow_run_id; source_node_run_id := Some node_run_id;
      source_node_id := Some node_id; task_type := TaskApproval; task_status := Pending;
      task_title := "审批：" +:+ node_label;
      task_description := "Flow 已在节点边界暂停，等待人工决定后再继续执行。";
      allowed_actions := [ActApprove; ActReject]; task_payload := payload;
      action_schema := None; assigned_to := None; claimed_by := None; claimed_at := None;
      due_at := Some (now + duration_hours 24); task_checkpoint_id := None;
      task_continuation_id := None; resolution := None; task_created_at := now;
      task_updated_at := now; task_resolved_at := None |}, w).

Definition flow_recovery (thread_id flow_run_id : Uuid) (node_run : option Uuid)
    (node : option string) (boundary_key description : string) (payload : Value) (w : World)
    : HumanTaskV1 * World :=
  let '(now, w) := utc_now w in
  ({| task_schema_version := HUMAN_TASK_SCHEMA_VERSION_V1;
      task_id := stable_task_id flow_run_id "recovery" boundary_key;
      task_revision := 1; task_thread_id := thread_id; source_kind := FlowRunSource;
      source_id := flow_run_id; source_node_run_id := node_run; source_node_id := node;
      task_type := TaskRecovery; task_status := Pending; task_title := "检查并恢复 Flow";
      task_description := description; allowed_actions := [ActRetry; ActCancel];
      task_payload := payload; action_schema := None; assigned_to := None; claimed_by := None;
      claimed_at := None; due_at := Some (now + duration_hours 4); task_checkpoint_id := None;
      task_continuation_id := None; resolution := None; task_created_at := now;
      task_updated_at := now; task_resolved_at := None |}, w).

Definition flow_output_review (thread_id flow_run_id : Uuid) (node_run : option Uuid)
    (node : option string) (checkpoint_id : Uuid) (payload : Value) (w : World)
    : HumanTaskV1 * World :=
  let '(now, w) := utc_now w in
  ({| task_schema_version := HUMAN_TASK_SCHEMA_VERSION_V1;
      task_id := stable_task_id flow_run_id "output-review" (host_uuid_string checkpoint_id);
      task_revision := 1; task_thread_id := thread_id; source_kind := FlowRunSource;
      source_id := flow_run_id; source_node_run_id := node_run; source_node_id := node;
      task_type := TaskOutputReview; task_status := Pending; task_title := "审阅 Flow 输出";
      task_description := "输出已经在一致 Checkpoint 提交。通过后 Run 才会标记为成功。";
      allowed_actions := [ActApprove; ActReject]; task_payload := payload;
      action_schema := Some (json_object [("type", VString "output_review");
                                          ("required", VArray [VString "decision"])]);
      assigned_to := None; claimed_by := None; claimed_at := None;
      due_at := Some (now + duration_hours 24); task_checkpoint_id := Some checkpoint_id;
      task_continuation_id := None; resolution := None; task_created_at := now;
      task_updated_at := now; task_resolved_at := None |}, w).

Definition interrupt_action_schema (interrupt : WorkflowInterruptRequestV1) : Value :=
  match interrupt_kind interrupt with
  | IApproval => json_object [("type", VString "approval"); ("required", VArray [VString "decision"])]
  | IInputRequest =>
      json_object [("type", VString "user_input_response");
                   ("request", default Null (value_get (interrupt_payload interrupt) "request"))]
  | IExternalAction =>
      json_object [("type", VString "external_observation");
                   ("required", VArray [VString "observation"])]
  | IEffectReconciliation =>
      json_object [("type", VString "effect_reconciliation");
                   ("required", VArray [VString "observation"]);
                   ("effectId", default Null (value_get (interrupt_payload interrupt) "effectId"))]
  | IResumeRetry => json_object [("type", VString "resume_retry"); ("required", VArray [VString "retry"])]
  end.

(** The table of [flow_interrupt]: task type, allowed actions, hours until due. *)
Definition interrupt_task_shape (kind : WorkflowInterruptKindV1)
    : HumanTaskTypeV1 * list HumanTaskActionV1 * Z :=
  match kind with
  | IApproval => (TaskApproval, [ActApprove; ActReject], 24)
  | IInputRequest => (TaskInputRequest, [ActSubmit; ActCancel], 24)
  | IExternalAction => (TaskReconnect, [ActResume; ActCancel], 8)
  | IEffectReconciliation => (TaskReconciliation, [ActAcknowledge; ActCancel], 4)
  | IResumeRetry => (TaskRecovery, [ActRetry; ActCancel], 4)
  end.

Definition flow_interrupt (thread_id flow_run_id : Uuid) (interrupt : WorkflowInterruptRequestV1)
    (payload : Value) (w : World) : HumanTaskV1 * World :=
  let '(now, w) := utc_now w in
  let '(type, actions, due_hours) := interrupt_task_shape (interrupt_kind interrupt) in
  ({| task_schema_version := HUMAN_TASK_SCHEMA_VERSION_V1;
      task_id := stable_task_id flow_run_id "interrupt" (host_uuid_string (interrupt_id interrupt));
      task_revision := 1; task_thread_id := thread_id; source_kind := FlowRunSource;
      source_id := flow_run_id; source_node_run_id := Some (interrupt_node_run_id interrupt);
      source_node_id := Some (interrupt_node_id interrupt); task_type := type;
      task_status := Pending; task_title := interrupt_title interrupt;
      task_description := interrupt_description interrupt; allowed_actions := actions;
      task_payload := payload; action_schema := Some (interrupt_action_schema interrupt);
      assigned_to := None; claimed_by := None; claimed_at := None;
      due_at := Some (now + duration_hours due_hours);
      task_checkpoint_id := Some (interrupt_checkpoint_id interrupt);
      task_continuation_id := Some (envelope_id (interrupt_continuation interrupt));
      resolution := None; task_created_at := now; task_updated_at := now;
      task_resolved_at := None |}, w).

(** * Methods on a stored task *)

Notation TaskM := (M (HumanTaskV1 * World)).

Definition ensure_pending : TaskM unit :=
  let* self := m_self in
  m_ensure (bool_decide (task_status self = Pending)) "Human task is no longer pending".

Definition bump_task (self : HumanTaskV1) : HumanTaskV1 :=
  self <| task_revision := u32_saturating_add (task_revision self) 1 |>.

Definition claim (actor : string) : TaskM unit :=
  ensure_pending ;;*
  m_ensure (negb (str_is_empty (trim actor))) "claim actor cannot be empty" ;;*
  let* self := m_self in
  m_ensure (match claimed_by self with Some other => String.eqb other actor | None => true end)
    "Human task is already claimed by another operator" ;;*
  if bool_decide (claimed_by self = Some actor) then m_ret tt
  else let* now := m_world utc_now in
       m_update (fun self => bump_task (self <| claimed_by := Some actor |>
                                             <| claimed_at := Some now |>
                                             <| task_updated_at := now |>)).

Definition assign (assignee : option string) : TaskM unit :=
  ensure_pending ;;*
  let* now := m_world utc_now in
  m_update (fun self => bump_task (self <| assigned_to := trim_nonempty assignee |>
                                        <| task_updated_at := now |>)).

(** The assignments [resolve_with_command] and [cancel] share. *)
Definition record_resolution (status : HumanTaskStatusV1) (r : HumanTaskResolutionV1) (now : DateTime)
    (self : HumanTaskV1) : HumanTaskV1 :=
  bump_task (self <| task_status := status |> <| resolution := Some r |>
                  <| task_resolved_at := Some now |> <| task_updated_at := now |>).

Definition resolve_with_command (action : HumanTaskActionV1) (note : option string) (by_ : string)
    (command_id : option Uuid) (idempotency_key : option string) (response : option Value)
    : TaskM unit :=
  ensure_pending ;;*
  let* self := m_self in
  m_ensure (bool_decide (action ∈ allowed_actions self)) "action is not allowed for this Human task" ;;*
  let* now := m_world utc_now in
  m_update (record_resolution
    (if bool_decide (action = ActCancel) then TaskCancelled else Completed)
    {| resolution_action := action; resolution_note := trim_nonempty note; resolved_by := by_;
       resolution_resolved_at := now; resolution_command_id := command_id;
       resolution_idempotency_key := trim_nonempty idempotency_key; response := response |} now).

Definition resolve (action : HumanTaskActionV1) (note : option string) (by_ : string)
    : TaskM unit :=
  resolve_with_command action note by_ None None None.

Definition cancel_task (note : option string) (by_ : string) : TaskM unit :=
  ensure_pending ;;*
  let* now := m_world utc_now in
  m_update (record_resolution TaskCancelled
    {| resolution_action := ActCancel; resolution_note := trim_nonempty note; resolved_by := by_;
       resolution_resolved_at := now; resolution_command_id := None;
       resolution_idempotency_key := None; response := None |} now).
End tasks.

(** * The life of a task *)

(** One call of a method of the task. *)
Inductive task_op `{JsonNumber} :=
| OpClaim (actor : string)
| OpAssign (assignee : option string)
| OpResolve (action : HumanTaskActionV1) (note : option string) (by_ : string)
    (command : option Uuid) (key : option string) (response : option Value)
| OpCancel (note : option string) (by_ : string).

Section life.
Context `{JN : JsonNumber} `{HO : Host}.
Implicit Types (t : HumanTaskV1) (w : World).

Definition run_op (op : task_op) : M (HumanTaskV1 * World) unit :=
  match op with
  | OpClaim actor => claim actor
  | OpAssign assignee => assign assignee
  | OpResolve action note by_ command key response =>
      resolve_with_command action note by_ command key response
  | OpCancel note by_ => cancel_task note by_
  end.

Definition closes (op : task_op) : bool :=
  match op with OpResolve _ _ _ _ _ _ | OpCancel _ _ => true | _ => false end.

(** The outcomes of a sequence of calls, each by its success. *)
Fixpoint run_ops (ops : list task_op) (s : HumanTaskV1 * World)
    : list (task_op * bool) * (HumanTaskV1 * World) :=
  match ops with
  | [] => ([], s)
  | op :: ops' => let '(r, s1) := run_op op s in
                  let '(log, s2) := run_ops ops' s1 in
                  ((op, is_ok r) :: log, s2)
  end.

(** What holds of a task from its creation on. *)
Record task_ok t : Prop := {
  tk_open : task_status t = Pending <-> resolution t = None;
  tk_time : task_status t = Pending <-> task_resolved_at t = None;
  tk_action : forall r, resolution t = Some r ->
    (resolution_action r = ActCancel <-> task_status t = TaskCancelled)
    /\ (resolution_action r = ActCancel \/ resolution_action r ∈ allowed_actions t)
    /\ task_resolved_at t = Some (resolution_resolved_at r);
  tk_claim : is_Some (claimed_by t) <-> is_Some (claimed_at t);
  tk_claimant : forall a, claimed_by t = Some a -> trim a <> "";
  tk_revision : 1 <= task_revision t <= u32_max;
}.

Lemma ensure_pending_run t w :
  ensure_pending (t, w)
  = (if decide (task_status t = Pending) then Ok tt
     else Err (Msg "Human task is no longer pending"), (t, w)).
Proof using Type.
  unfold ensure_pending, m_bind, m_self, m_ensure, m_lift, ensure.
  destruct (decide (task_status t = Pending)).
  - by rewrite bool_decide_eq_true_2.
  - by rewrite bool_decide_eq_false_2.
Qed.

Lemma m_bind_pending {A} (k : unit -> M (HumanTaskV1 * World) A) t w :
  m_bind ensure_pending k (t, w)
  = if decide (task_status t = Pending) then k tt (t, w)
    else (Err (Msg "Human task is no longer pending"), (t, w)).
Proof using Type.
  unfold m_bind. rewrite ensure_pending_run. by destruct (decide (task_status t = Pending)).
Qed.

Lemma run_op_closed op t w :
  task_status t <> Pending ->
  run_op op (t, w) = (Err (Msg "Human task is no longer pending"), (t, w)).
Proof using Type.
  intros Hs. destruct op; cbn [run_op]; unfold claim, assign, resolve_with_command, cancel_task;
    rewrite m_bind_pending; by rewrite decide_False.
Qed.

(** The four methods on an open task, one equation each. *)
Lemma claim_run actor t w :
  task_status t = Pending ->
  claim actor (t, w) =
    if str_is_empty (trim actor) then (Err (Msg "claim actor cannot be empty"), (t, w))
    else match claimed_by t with
         | Some other =>
             (if String.eqb other actor then Ok tt
              else Err (Msg "Human task is already claimed by another operator"), (t, w))
         | None =>
             (Ok tt, (bump_task (t <| claimed_by := Some actor |>
                                   <| claimed_at := Some (host_now w) |>
                                   <| task_updated_at := host_now w |>), N.succ w))
         end.
Proof using Type.
  intros Hp. unfold claim. rewrite m_bind_pending, decide_True by done.
  unfold m_bind, m_ensure, m_lift, m_self, ensure. cbn.
  destruct (str_is_empty (trim actor)); cbn; [done|].
  destruct (claimed_by t) as [other|] eqn:Hc; cbn.
  - destruct (String.eqb_spec other actor) as [->|Hne]; cbn; [|done].
    by rewrite bool_decide_eq_true_2.
  - by rewrite bool_decide_eq_false_2.
Qed.

Lemma assign_run assignee t w :
  task_status t = Pending ->
  assign assignee (t, w) =
    (Ok tt, (bump_task (t <| assigned_to := trim_nonempty assignee |>
                          <| task_updated_at := host_now w |>), N.succ w)).
Proof using Type.
  intros Hp. unfold assign. by rewrite m_bind_pending, decide_True by done.
Qed.

Lemma resolve_run action note by_ command key resp t w :
  task_status t = Pending ->
  resolve_with_command action note by_ command key resp (t, w) =
    if decide (action ∈ allowed_actions t)
    then (Ok tt, (record_resolution
                    (if bool_decide (action = ActCancel) then TaskCancelled else Completed)
                    {| resolution_action := action; resolution_note := trim_nonempty note;
                       resolved_by := by_; resolution_resolved_at := host_now w;
                       resolution_command_id := command;
                       resolution_idempotency_key := trim_nonempty key; response := resp |}
                    (host_now w) t, N.succ w))
    else (Err (Msg "action is not allowed for this Human task"), (t, w)).
Proof using Type.
  intros Hp. unfold resolve_with_command. rewrite m_bind_pending, decide_True by done.
  unfold m_bind, m_ensure, m_lift, m_self, ensure. cbn.
  destruct (decide (action ∈ allowed_actions t)).
  - by rewrite bool_decide_eq_true_2.
  - by rewrite bool_decide_eq_false_2.
Qed.

Lemma cancel_run note by_ t w :
  task_status t = Pending ->
  cancel_task note by_ (t, w) =
    (Ok tt, (record_resolution TaskCancelled
               {| resolution_action := ActCancel; resolution_note := trim_nonempty note;
                  resolved_by := by_; resolution_resolved_at := host_now w;
                  resolution_command_id := None; resolution_idempotency_key := None;
                  response := None |} (host_now w) t, N.succ w)).
Proof using Type.
  intros Hp. unfold cancel_task. by rewrite m_bind_pending, decide_True by done.
Qed.

Lemma run_op_ok op t w : task_ok t -> task_ok (run_op op (t, w)).2.1.
Proof using Type.
  intros Hok. destruct (decide (task_status t = Pending)) as [Hp|Hp];
    [|by rewrite run_op_closed].
  destruct Hok as [Ho Ht Ha Hc Hcl Hr].
  assert (Hbump : 1 <= u32_saturating_add (task_revision t) 1 <= u32_max)
    by (unfold u32_saturating_add, u32_max in *; lia).
  destruct op as [actor|assignee|action note by_ command key resp|note by_]; cbn [run_op].
  - rewrite claim_run by done. destruct (str_is_empty (trim actor)) eqn:He; [by split|].
    destruct (claimed_by t) as [other|] eqn:Hcb; [by split; cbn; rewrite ?Hcb|].
    split; cbn; try done. intros a [= <-]. by apply str_is_empty_false.
  - rewrite assign_run by done. by split.
  - rewrite resolve_run by done.
    destruct (decide (action ∈ allowed_actions t)) as [Hin|]; [|by split].
    destruct (decide (action = ActCancel)) as [->|Hne];
      [rewrite bool_decide_eq_true_2 by done|rewrite bool_decide_eq_false_2 by done];
      split; cbn; try done; intros r [= <-]; cbn; (split_and!; [by split|by auto|done]).
  - rewrite cancel_run by done. split; cbn; try done. intros r [= <-]. cbn.
    split_and!; [by split|by left|done].
Qed.

Lemma run_ops_app_inv (P : HumanTaskV1 -> Prop) ops t w :
  (forall op t w, P t -> P (run_op op (t, w)).2.1) -> P t -> P (run_ops ops (t, w)).2.1.
Proof using Type.
  intros Hstep. revert t w. induction ops as [|op ops IH]; intros t w Ht; cbn; [done|].
  pose proof (Hstep op t w Ht) as H1.
  destruct (run_op op (t, w)) as [r [t1 w1]]. pose proof (IH t1 w1 H1) as H2.
  by destruct (run_ops ops (t1, w1)) as [log s2].
Qed.

Lemma delivery_task_ok thread receipt type title description actions assignee payload hours w :
  task_ok (delivery_task thread receipt type title description actions assignee payload hours w).1.
Proof using Type. split; cbn; try done; naive_solver. Qed.

Lemma flow_interrupt_ok thread run i payload w : task_ok (flow_interrupt thread run i payload w).1.
Proof using Type.
  unfold flow_interrupt. destruct (interrupt_kind i); cbn;
    split; cbn; try done; naive_solver.
Qed.

(** Every way the program creates a task. *)
Inductive created : HumanTaskV1 -> Prop :=
| created_handoff thread receipt title description assignee payload w :
    created (delivery_handoff thread receipt title description assignee payload w).1
| created_delivery_recovery thread receipt description payload w :
    created (delivery_recovery thread receipt description payload w).1
| created_approval thread run node_run node label payload w :
    created (flow_approval thread run node_run node label payload w).1
| created_recovery thread run node_run node boundary description payload w :
    created (flow_recovery thread run node_run node boundary description payload w).1
| created_review thread run node_run node checkpoint payload w :
    created (flow_output_review thread run node_run node checkpoint payload w).1
| created_interrupt thread run interrupt payload w :
    created (flow_interrupt thread run interrupt payload w).1.

Lemma created_ok t : created t -> task_ok t.
Proof using Type.
  destruct 1; try apply delivery_task_ok; try apply flow_interrupt_ok;
    split; cbn; try done; naive_solver.
Qed.

(** C37: whatever calls a task receives after its creation, it is resolved exactly when
    it is no longer pending, by an action it allows or by cancellation, and a claim
    always names its claimant and its time. *)
Theorem task_life_invariant t ops w :
  created t -> task_ok (run_ops ops (t, w)).2.1.
Proof using Type.
  intros Hc. apply run_ops_app_inv; [|by apply created_ok]. intros; by apply run_op_ok.
Qed.

Lemma run_op_closes op t w :
  closes op = true -> is_ok (run_op op (t, w)).1 = true ->
  task_status (run_op op (t, w)).2.1 <> Pending.
Proof using Type.
  destruct (decide (task_status t = Pending)) as [Hp|Hp]; [|by rewrite run_op_closed].
  destruct op as [| |action note by_ command key resp|note by_]; cbn [run_op closes]; try done; intros _.
  - rewrite resolve_run by done. destruct (decide _); [|done].
    cbn. by destruct (bool_decide (action = ActCancel)).
  - rewrite cancel_run by done. done.
Qed.

Lemma run_ops_closed ops t w :
  task_status t <> Pending ->
  (run_ops ops (t, w)).2 = (t, w) /\ Forall (fun e => e.2 = false) (run_ops ops (t, w)).1.
Proof using Type.
  intros Hs. induction ops as [|op ops IH]; cbn; [by split|].
  rewrite run_op_closed by done. destruct (run_ops ops (t, w)) as [log s2].
  cbn in *. destruct IH as [-> Hall]. by split; [|constructor].
Qed.

(** A task is resolved at most once: in any sequence of calls, nothing succeeds
    after the first successful resolution or cancellation, and the task keeps it. *)
Theorem task_resolved_once ops1 op ops2 t w t1 w1 :
  run_op op (run_ops ops1 (t, w)).2 = (Ok tt, (t1, w1)) -> closes op = true ->
  (run_ops ops2 (t1, w1)).2 = (t1, w1)
  /\ Forall (fun e => e.2 = false) (run_ops ops2 (t1, w1)).1.
Proof using Type.
  destruct (run_ops ops1 (t, w)) as [log [t0 w0]]. cbn. intros Hrun Hcl.
  apply run_ops_closed. pose proof (run_op_closes op t0 w0 Hcl) as H.
  rewrite Hrun in H. by apply H.
Qed.

(** A claim is exclusive: once an operator holds a pending task, the same operator
    may claim it again without effect and any other is refused. *)
Theorem claim_exclusive a b t w t1 w1 :
  claim a (t, w) = (Ok tt, (t1, w1)) ->
  claimed_by t1 = Some a
  /\ (b = a -> claim b (t1, w1) = (Ok tt, (t1, w1)))
  /\ (b <> a -> is_ok (claim b (t1, w1)).1 = false /\ (claim b (t1, w1)).2 = (t1, w1)).
Proof using Type.
  destruct (decide (task_status t = Pending)) as [Hp|Hp];
    [|unfold claim; rewrite m_bind_pending; by rewrite decide_False].
  rewrite claim_run by done. destruct (str_is_empty (trim a)) eqn:Ha; [done|].
  intros H. assert (Hst : task_status t1 = Pending /\ claimed_by t1 = Some a).
  { destruct (claimed_by t) as [other|] eqn:Hc.
    - destruct (String.eqb_spec other a) as [->|]; simplify_eq. done.
    - simplify_eq. done. }
  destruct Hst as [Hp1 Hc1]. split; [done|]. split.
  - intros ->. rewrite claim_run by done. by rewrite Ha, Hc1, String.eqb_refl.
  - intros Hne. rewrite claim_run by done. destruct (str_is_empty (trim b)); [done|].
    rewrite Hc1. by apply not_eq_sym, String.eqb_neq in Hne as ->.
Qed.
End life.
