(* ===== verification/Workflow.v ===== *)
(** [workflow.rs]: freezing a published Flow into a compiled workflow, its immutable
    revisions, and the active Flow that points at one. *)
From S2P Require Import Prelude RustStr RustStrFacts Json Fingerprint Enterprise WorkflowAutomation WorkflowState FlowGraph FlowActivation Flow.

(** * Types of [enterprise.rs] frozen with an Agent *)

Inductive ResourceKind := RFile | RNetwork | RDatabase.

Record ExecutionResourceGrantV1 := {
  binding_id : string;
  grant_kind : ResourceKind;
  resource : string;
  can_read : bool;
  can_write : bool;
  max_data_classification : DataClassification;
}.

Inductive KnowledgeLibraryProviderV1 := Sag | GraphRag.

Record AgentKnowledgeBindingV1 := {
  provider : KnowledgeLibraryProviderV1;
  namespaces : gset string;
}.

(** [AgentModelBindingV1]: provider and model id. *)
Definition AgentModelBindingV1 : Set := (string * string)%type.

Record AgentModelPolicyV1 := {
  allow_all_models : bool;
  allowed_models : gset (string * string);
}.

Record OperationGrantV1 := { grant_operation_id : string }.

Record ConnectionBindingV1 := {
  connection_id : Uuid;
  capability_revision : Z;
  operation_grants : list OperationGrantV1;
}.

Inductive WorkflowOutputReviewPolicyV1 := ExplicitNodesOnly | AlwaysReviewOutput.

#[export] Instance review_policy_eq_dec : EqDecision WorkflowOutputReviewPolicyV1.
Proof. solve_decision. Defined.

Inductive WorkflowCompileError :=
| InvalidFlowDefinition (codes : list string)
| InvalidAgentTemplate (node_id message : string)
| AgentTemplateNotPublished (node_id template_id : string) (template_version : Z)
| AgentTemplateContentHashMismatch (node_id template_id : string) (template_version : Z)
| LegacyMcpAgentTemplate (node_id template_id : string) (template_version : Z)
| InvalidResolvedConnectionBindings (node_id template_id : string) (template_version : Z)
| UnexpectedAgentSpec (node_id : string)
| MissingAgentSpec (node_id : string)
| DuplicateAgentSpec (node_id : string)
| AgentSpecIdentityMismatch (node_id : string)
| OperationAliasConflict (model_tool_name : string)
| InvalidFlowIdentity
| FlowRevisionIdentityMismatch.

Inductive FlowStatusV1 := FlowActive | FlowPaused.

#[export] Instance flow_status_eq_dec : EqDecision FlowStatusV1.
Proof. solve_decision. Defined.

Definition flow_status_as_str (self : FlowStatusV1) : string :=
  match self with FlowActive => "active" | FlowPaused => "paused" end.

Record WorkflowAgentSpecV1 `{JsonNumber} := {
  agent_node_id : string;
  template_id : string;
  template_version : Z;
  template_content_hash : string;
  agent_name : string;
  agent_owner : string;
  instructions : string;
  agent_capabilities : CapabilityProjection;
  resource_grants : list ExecutionResourceGrantV1;
  model_policy : AgentModelPolicyV1;
  state_schema : Value;
  agent_output_schema : Value;
  agent_risk_class : AgentRiskClassV1;
  connection_bindings : list ConnectionBindingV1;
  knowledge_binding : option AgentKnowledgeBindingV1;
  agent_connection_authority : RuntimeConnectionAuthorityV1;
}.

Record CompiledWorkflowV1 `{JsonNumber} := {
  workflow_schema_version : Z;
  workflow_definition_id : Uuid;
  workflow_flow_id : string;
  workflow_flow_version : Z;
  workflow_definition_content_hash : string;
  workflow_graph : GraphDefinitionV1;
  workflow_input_schema : Value;
  workflow_output_schema : Value;
  root_capabilities : CapabilityProjection;
  harness_capabilities : CapabilityProjection;
  harness_connection_authority : RuntimeConnectionAuthorityV1;
  workflow_budget : FlowBudgetV1;
  agent_specs : gmap string WorkflowAgentSpecV1;
  workflow_content_hash : string;
}.

Record FlowRevisionV1 `{JsonNumber} := {
  rev_schema_version : Z;
  rev_id : Uuid;
  compiled_workflow : CompiledWorkflowV1;
  rev_trigger : WorkflowTriggerSpecV1;
  rev_ingress_policy : WorkflowIngressPolicyV1;
  rev_output : WorkflowOutputSpecV1;
  output_review_policy : WorkflowOutputReviewPolicyV1;
  rev_content_hash : string;
  rev_created_at : DateTime;
  rev_created_by : string;
}.

Record ActiveFlowV1 `{JsonNumber} := {
  flow_schema_version : Z;
  flow_uuid : Uuid;
  flow_revision_number : Z;
  active_flow_id : string;
  flow_name : string;
  flow_thread_id : Uuid;
  flow_status : FlowStatusV1;
  active_revision : FlowRevisionV1;
  flow_created_at : DateTime;
  flow_updated_at : DateTime;
  flow_created_by : string;
}.

(** The bytes serde produces for the hashed tuples. *)
Class WorkflowBytes `{JsonNumber} := {
  compiled_bytes : Uuid -> string -> gmap string WorkflowAgentSpecV1 -> CapabilityProjection
    -> RuntimeConnectionAuthorityV1 -> string;
  revision_bytes : Uuid -> CompiledWorkflowV1 -> WorkflowTriggerSpecV1 -> WorkflowIngressPolicyV1
    -> WorkflowOutputSpecV1 -> WorkflowOutputReviewPolicyV1 -> string -> string;
}.

Section workflow.
Context `{JN : JsonNumber} `{SWC : !StateWriteCodec} `{AC : !ActivationCodec}
  `{SC : !SpecCodec} `{WB : !WorkflowBytes} `{FS : FileSystem} `{U : Unicode} `{HO : Host}.

(** [WorkflowAgentSpecV1::operations] *)
Definition agent_operations (self : WorkflowAgentSpecV1) : list ExecutionConnectionOperationV1 :=
  match agent_connection_authority self with
  | Structured operations => operations
  | DenyAll | LegacyMcp => []
  end.

Definition compiled_workflow_hash (definition : FlowDefinitionV1)
    (specs : gmap string WorkflowAgentSpecV1) (capabilities : CapabilityProjection)
    (authority : RuntimeConnectionAuthorityV1) : string :=
  content_fingerprint
    (compiled_bytes (def_id definition) (def_content_hash definition) specs capabilities authority).

(** The map of Agent nodes; a later duplicate id wins. *)
Definition graph_agents (graph : GraphDefinitionV1) : gmap string GraphNodeV1 :=
  fold_left (fun m node => <[node_id node := node]> m)
    (List.filter (fun node => bool_decide (kind node = Agent)) (nodes graph)) ∅.

Definition node_template_id (node : GraphNodeV1) : string :=
  default "" (get_str (config node) "reference").
Definition node_template_version (node : GraphNodeV1) : Z :=
  default 0 (get_u64 (config node) "templateVersion" ≫= u32_try_from).

(** One iteration of the loop that admits Agent specs. *)
Definition admit_agent_spec (agents : gmap string GraphNodeV1)
    (compiled : gmap string WorkflowAgentSpecV1) (spec : WorkflowAgentSpecV1)
    : Result WorkflowCompileError (gmap string WorkflowAgentSpecV1) :=
  match agents !! agent_node_id spec with
  | None => Err (UnexpectedAgentSpec (agent_node_id spec))
  | Some node =>
      if negb (String.eqb (template_id spec) (node_template_id node))
         || negb (template_version spec =? node_template_version node)
      then Err (AgentSpecIdentityMismatch (agent_node_id spec))
      else match compiled !! agent_node_id spec with
           | Some _ => Err (DuplicateAgentSpec (agent_node_id spec))
           | None => Ok (<[agent_node_id spec := spec]> compiled)
           end
  end.

Fixpoint admit_agent_specs (agents : gmap string GraphNodeV1)
    (compiled : gmap string WorkflowAgentSpecV1) (specs : list WorkflowAgentSpecV1)
    : Result WorkflowCompileError (gmap string WorkflowAgentSpecV1) :=
  match specs with
  | [] => Ok compiled
  | spec :: specs' => let? compiled := admit_agent_spec agents compiled spec in
                      admit_agent_specs agents compiled specs'
  end.

(** One iteration of the loop over an Agent's operations. *)
Definition add_operation (by_alias : gmap string ExecutionConnectionOperationV1)
    (operation : ExecutionConnectionOperationV1)
    : Result WorkflowCompileError (gmap string ExecutionConnectionOperationV1) :=
  match by_alias !! model_tool_name operation with
  | Some existing => if decide (existing = operation) then Ok by_alias
                     else Err (OperationAliasConflict (model_tool_name operation))
  | None => Ok (<[model_tool_name operation := operation]> by_alias)
  end.

Fixpoint add_operations (by_alias : gmap string ExecutionConnectionOperationV1)
    (operations : list ExecutionConnectionOperationV1)
    : Result WorkflowCompileError (gmap string ExecutionConnectionOperationV1) :=
  match operations with
  | [] => Ok by_alias
  | operation :: rest => let? by_alias := add_operation by_alias operation in
                         add_operations by_alias rest
  end.

Fixpoint merge_agents (capabilities : CapabilityProjection)
    (by_alias : gmap string ExecutionConnectionOperationV1) (specs : list WorkflowAgentSpecV1)
    : Result WorkflowCompileError
        (CapabilityProjection * gmap string ExecutionConnectionOperationV1) :=
  match specs with
  | [] => Ok (capabilities, by_alias)
  | spec :: specs' =>
      let capabilities := union capabilities (agent_capabilities spec) in
      let? by_alias := add_operations by_alias (agent_operations spec) in
      merge_agents capabilities by_alias specs'
  end.

(** [CompiledWorkflowV1::compile] *)
Definition workflow_compile (definition : FlowDefinitionV1) (specs : list WorkflowAgentSpecV1)
    (w : World) : Result WorkflowCompileError CompiledWorkflowV1 * World :=
  match compile_flow (to_spec definition) (def_capabilities definition) w with
  | (Err report, w) => (Err (InvalidFlowDefinition (code <$> issues report)), w)
  | (Ok _, w) =>
      let agents := graph_agents (def_graph definition) in
      (let? compiled := admit_agent_specs agents ∅ specs in
       let? _ := match List.find (fun id => negb (bool_decide (is_Some (compiled !! id))))
                         (btree_keys agents) with
                 | Some id => Err (MissingAgentSpec id)
                 | None => Ok tt
                 end in
       let? merged := merge_agents (def_capabilities definition) ∅ (btree_values compiled) in
       let authority := Structured (btree_values merged.2) in
       Ok {| workflow_schema_version := ENTERPRISE_SCHEMA_VERSION_V1;
             workflow_definition_id := def_id definition;
             workflow_flow_id := def_flow_id definition;
             workflow_flow_version := def_version definition;
             workflow_definition_content_hash := def_content_hash definition;
             workflow_graph := def_graph definition;
             workflow_input_schema := def_input_schema definition;
             workflow_output_schema := def_output_schema definition;
             root_capabilities := def_capabilities definition;
             harness_capabilities := merged.1;
             harness_connection_authority := authority;
             workflow_budget := def_budget definition;
             agent_specs := compiled;
             workflow_content_hash :=
               compiled_workflow_hash definition compiled merged.1 authority |}, w)
  end.

Definition agent_spec (self : CompiledWorkflowV1) (id : string) : option WorkflowAgentSpecV1 :=
  agent_specs self !! id.

Definition template_dependencies (self : CompiledWorkflowV1) : gset (string * Z * string) :=
  list_to_set ((fun spec => (template_id spec, template_version spec, template_content_hash spec))
               <$> btree_values (agent_specs self)).

(** [FlowRevisionV1::new_with_ingress_policy] and its shorthands *)
Definition revision_new_with_ingress_policy (workflow : CompiledWorkflowV1)
    (trigger : WorkflowTriggerSpecV1) (ingress : WorkflowIngressPolicyV1)
    (output : WorkflowOutputSpecV1) (review : WorkflowOutputReviewPolicyV1) (created_by : string)
    (w : World) : FlowRevisionV1 * World :=
  let '(id, w) := new_v4 w in
  let '(now, w) := utc_now w in
  ({| rev_schema_version := ENTERPRISE_SCHEMA_VERSION_V1; rev_id := id;
      compiled_workflow := workflow; rev_trigger := trigger; rev_ingress_policy := ingress;
      rev_output := output; output_review_policy := review;
      rev_content_hash := content_fingerprint
        (revision_bytes id workflow trigger ingress output review created_by);
      rev_created_at := now; rev_created_by := created_by |}, w).

Definition revision_new_with_options (workflow : CompiledWorkflowV1)
    (trigger : WorkflowTriggerSpecV1) (output : WorkflowOutputSpecV1)
    (review : WorkflowOutputReviewPolicyV1) (created_by : string) (w : World)
    : FlowRevisionV1 * World :=
  revision_new_with_ingress_policy workflow trigger Immediate output review created_by w.

Definition revision_new_with_io (workflow : CompiledWorkflowV1) (trigger : WorkflowTriggerSpecV1)
    (output : WorkflowOutputSpecV1) (created_by : string) (w : World) : FlowRevisionV1 * World :=
  revision_new_with_options workflow trigger output AlwaysReviewOutput created_by w.

Definition revision_new (workflow : CompiledWorkflowV1) (created_by : string) (w : World)
    : FlowRevisionV1 * World :=
  revision_new_with_io workflow Manual Inbox created_by w.

(** [ActiveFlowV1::new_with_ingress_policy] and its shorthands *)
Definition flow_new_with_ingress_policy (name : string) (thread_id : Uuid)
    (workflow : CompiledWorkflowV1) (trigger : WorkflowTriggerSpecV1)
    (ingress : WorkflowIngressPolicyV1) (output : WorkflowOutputSpecV1)
    (review : WorkflowOutputReviewPolicyV1) (created_by : string) (w : World)
    : Result WorkflowCompileError ActiveFlowV1 * World :=
  let name := trim name in
  let created_by := trim created_by in
  if str_is_empty name || str_is_empty created_by then (Err InvalidFlowIdentity, w)
  else let '(now, w) := utc_now w in
       let '(id, w) := new_v4 w in
       let '(revision, w) :=
         revision_new_with_ingress_policy workflow trigger ingress output review created_by w in
       (Ok {| flow_schema_version := ENTERPRISE_SCHEMA_VERSION_V1; flow_uuid := id;
              flow_revision_number := 1; active_flow_id := workflow_flow_id workflow;
              flow_name := name; flow_thread_id := thread_id; flow_status := FlowActive;
              active_revision := revision; flow_created_at := now; flow_updated_at := now;
              flow_created_by := created_by |}, w).

Definition flow_new_with_options (name : string) (thread_id : Uuid) (workflow : CompiledWorkflowV1)
    (trigger : WorkflowTriggerSpecV1) (output : WorkflowOutputSpecV1)
    (review : WorkflowOutputReviewPolicyV1) (created_by : string) (w : World)
    : Result WorkflowCompileError ActiveFlowV1 * World :=
  flow_new_with_ingress_policy name thread_id workflow trigger Immediate output review created_by w.

Definition flow_new_with_io (name : string) (thread_id : Uuid) (workflow : CompiledWorkflowV1)
    (trigger : WorkflowTriggerSpecV1) (output : WorkflowOutputSpecV1) (created_by : string)
    (w : World) : Result WorkflowCompileError ActiveFlowV1 * World :=
  flow_new_with_options name thread_id workflow trigger output AlwaysReviewOutput created_by w.

Definition flow_new (name : string) (thread_id : Uuid) (workflow : CompiledWorkflowV1)
    (created_by : string) (w : World) : Result WorkflowCompileError ActiveFlowV1 * World :=
  flow_new_with_io name thread_id workflow Manual Inbox created_by w.

(** Methods of [ActiveFlowV1] *)
Definition flow_touch (self : ActiveFlowV1) (now : DateTime) : ActiveFlowV1 :=
  {| flow_schema_version := flow_schema_version self; flow_uuid := flow_uuid self;
     flow_revision_number := u32_saturating_add (flow_revision_number self) 1;
     active_flow_id := active_flow_id self; flow_name := flow_name self;
     flow_thread_id := flow_thread_id self; flow_status := flow_status self;
     active_revision := active_revision self; flow_created_at := flow_created_at self;
     flow_updated_at := now; flow_created_by := flow_created_by self |}.

Definition flow_set (name : string) (status : FlowStatusV1) (revision : FlowRevisionV1)
    (self : ActiveFlowV1) : ActiveFlowV1 :=
  {| flow_schema_version := flow_schema_version self; flow_uuid := flow_uuid self;
     flow_revision_number := flow_revision_number self; active_flow_id := active_flow_id self;
     flow_name := name; flow_thread_id := flow_thread_id self; flow_status := status;
     active_revision := revision; flow_created_at := flow_created_at self;
     flow_updated_at := flow_updated_at self; flow_created_by := flow_created_by self |}.

Definition flow_pause : M (ActiveFlowV1 * World) unit :=
  let* now := m_world utc_now in
  m_update (fun self => flow_touch (flow_set (flow_name self) FlowPaused (active_revision self) self) now).

Definition flow_resume : M (ActiveFlowV1 * World) unit :=
  let* now := m_world utc_now in
  m_update (fun self => flow_touch (flow_set (flow_name self) FlowActive (active_revision self) self) now).

Definition apply_revision (name : string) (workflow : CompiledWorkflowV1)
    (trigger : WorkflowTriggerSpecV1) (ingress : WorkflowIngressPolicyV1)
    (output : WorkflowOutputSpecV1) (review : WorkflowOutputReviewPolicyV1) (applied_by : string)
    (s : ActiveFlowV1 * World) : Result WorkflowCompileError unit * (ActiveFlowV1 * World) :=
  let '(self, w) := s in
  if negb (String.eqb (workflow_flow_id workflow) (active_flow_id self))
  then (Err FlowRevisionIdentityMismatch, s)
  else
    let name := trim name in
    let applied_by := trim applied_by in
    if str_is_empty name || str_is_empty applied_by then (Err InvalidFlowIdentity, s)
    else
      let '(revision, w) :=
        revision_new_with_ingress_policy workflow trigger ingress output review applied_by w in
      let '(now, w) := utc_now w in
      (Ok tt, (flow_touch (flow_set name FlowActive revision self) now, w)).
End workflow.
