(* ===== verification/FlowRun.v ===== *)
(** The data of [flow_runtime.rs]: runs, node runs, checkpoints and pending writes,
    how a run is created, and the expression language of its edges. *)
From S2P Require Import Prelude RustStr RustStrFacts Json Enterprise WorkflowState WorkflowAutomation FlowGraph FlowActivation Flow WorkflowInterrupt HumanTask Workflow.

Inductive FlowRunStatusV1 :=
| Queued | Running | PauseRequested | Paused | WaitingApproval | WaitingHuman | Resuming
| Succeeded | Failed | CancelRequested | Cancelled.

#[export] Instance run_status_eq_dec : EqDecision FlowRunStatusV1.
Proof. solve_decision. Defined.

Definition run_status_as_str (self : FlowRunStatusV1) : string :=
  match self with
  | Queued => "queued"
  | Running => "running"
  | PauseRequested => "pause_requested"
  | Paused => "paused"
  | WaitingApproval => "waiting_approval"
  | WaitingHuman => "waiting_approval"
  | Resuming => "running"
  | Succeeded => "succeeded"
  | Failed => "failed"
  | CancelRequested => "cancel_requested"
  | Cancelled => "cancelled"
  end.

Definition is_terminal (self : FlowRunStatusV1) : bool :=
  match self with Succeeded | Failed | Cancelled => true | _ => false end.

Inductive FlowNodeRunStatusV1 :=
| NodeRunning | NodeWaitingApproval | NodeWaitingHuman | NodeResuming | NodeSucceeded
| NodeFailed | NodeCancelled.

#[export] Instance node_run_status_eq_dec : EqDecision FlowNodeRunStatusV1.
Proof. solve_decision. Defined.

Inductive WorkflowCheckpointStatusV1 := CkRunning | CkCommitted | CkFailed | CkCancelled.

#[export] Instance checkpoint_status_eq_dec : EqDecision WorkflowCheckpointStatusV1.
Proof. solve_decision. Defined.

Record FlowNodeRunV1 `{JsonNumber} := {
  node_run_id : Uuid;
  node_run_node_id : string;
  node_run_attempt : Z;
  node_run_status : FlowNodeRunStatusV1;
  node_run_input : Value;
  node_run_output : option Value;
  node_run_error : option string;
  node_run_tool_calls : Z;
  node_run_transcript : list FlowTranscriptEntryV1;
  node_run_started_at : DateTime;
  node_run_completed_at : option DateTime;
}.

Definition eta_FlowNodeRunV1 `{JN : JsonNumber} (r : FlowNodeRunV1) : FlowNodeRunV1 :=
  {| node_run_id := node_run_id r; node_run_node_id := node_run_node_id r;
     node_run_attempt := node_run_attempt r; node_run_status := node_run_status r;
     node_run_input := node_run_input r; node_run_output := node_run_output r;
     node_run_error := node_run_error r; node_run_tool_calls := node_run_tool_calls r;
     node_run_transcript := node_run_transcript r; node_run_started_at := node_run_started_at r;
     node_run_completed_at := node_run_completed_at r |}.
#[export] Instance set_node_run_id `{JN : JsonNumber} : Setter node_run_id := ltac:(derive_setter eta_FlowNodeRunV1 node_run_id).
#[export] Instance set_node_run_node_id `{JN : JsonNumber} : Setter node_run_node_id := ltac:(derive_setter eta_FlowNodeRunV1 node_run_node_id).
#[export] Instance set_node_run_attempt `{JN : JsonNumber} : Setter node_run_attempt := ltac:(derive_setter eta_FlowNodeRunV1 node_run_attempt).
#[export] Instance set_node_run_status `{JN : JsonNumber} : Setter node_run_status := ltac:(derive_setter eta_FlowNodeRunV1 node_run_status).
#[export] Instance set_node_run_input `{JN : JsonNumber} : Setter node_run_input := ltac:(derive_setter eta_FlowNodeRunV1 node_run_input).
#[export] Instance set_node_run_output `{JN : JsonNumber} : Setter node_run_output := ltac:(derive_setter eta_FlowNodeRunV1 node_run_output).
#[export] Instance set_node_run_error `{JN : JsonNumber} : Setter node_run_error := ltac:(derive_setter eta_FlowNodeRunV1 node_run_error).
#[export] Instance set_node_run_tool_calls `{JN : JsonNumber} : Setter node_run_tool_calls := ltac:(derive_setter eta_FlowNodeRunV1 node_run_tool_calls).
#[export] Instance set_node_run_transcript `{JN : JsonNumber} : Setter node_run_transcript := ltac:(derive_setter eta_FlowNodeRunV1 node_run_transcript).
#[export] Instance set_node_run_started_at `{JN : JsonNumber} : Setter node_run_started_at := ltac:(derive_setter eta_FlowNodeRunV1 node_run_started_at).
#[export] Instance set_node_run_completed_at `{JN : JsonNumber} : Setter node_run_completed_at := ltac:(derive_setter eta_FlowNodeRunV1 node_run_completed_at).

Record WorkflowSuperstepNodeV1 `{JsonNumber} := {
  item_node_id : string;
  item_node_run_id : Uuid;
  item_attempt : Z;
  item_input : Value;
}.

Definition eta_WorkflowSuperstepNodeV1 `{JN : JsonNumber} (r : WorkflowSuperstepNodeV1) : WorkflowSuperstepNodeV1 :=
  {| item_node_id := item_node_id r; item_node_run_id := item_node_run_id r;
     item_attempt := item_attempt r; item_input := item_input r |}.
#[export] Instance set_item_node_id `{JN : JsonNumber} : Setter item_node_id := ltac:(derive_setter eta_WorkflowSuperstepNodeV1 item_node_id).
#[export] Instance set_item_node_run_id `{JN : JsonNumber} : Setter item_node_run_id := ltac:(derive_setter eta_WorkflowSuperstepNodeV1 item_node_run_id).
#[export] Instance set_item_attempt `{JN : JsonNumber} : Setter item_attempt := ltac:(derive_setter eta_WorkflowSuperstepNodeV1 item_attempt).
#[export] Instance set_item_input `{JN : JsonNumber} : Setter item_input := ltac:(derive_setter eta_WorkflowSuperstepNodeV1 item_input).

Record FlowNodeExecutionResultV1 `{JsonNumber} := {
  result_output : Value;
  result_tool_calls : Z;
  result_transcript : list FlowTranscriptEntryV1;
}.

Inductive FlowNodeExecutionOutcomeV1 `{JsonNumber} :=
| OutcomeCompleted (result : FlowNodeExecutionResultV1)
| OutcomeInterrupted (interrupt : FlowNodeInterruptV1).

Record WorkflowPendingWriteV1 `{JsonNumber} := {
  write_node_id : string;
  write_node_run_id : Uuid;
  write_result : option FlowNodeExecutionResultV1;
  write_error : option string;
  write_interrupt : option WorkflowInterruptRequestV1;
  write_resume_command : option FlowResumeCommandV1;
  write_completed_at : DateTime;
}.

Definition eta_WorkflowPendingWriteV1 `{JN : JsonNumber} (r : WorkflowPendingWriteV1) : WorkflowPendingWriteV1 :=
  {| write_node_id := write_node_id r; write_node_run_id := write_node_run_id r;
     write_result := write_result r; write_error := write_error r;
     write_interrupt := write_interrupt r; write_resume_command := write_resume_command r;
     write_completed_at := write_completed_at r |}.
#[export] Instance set_write_node_id `{JN : JsonNumber} : Setter write_node_id := ltac:(derive_setter eta_WorkflowPendingWriteV1 write_node_id).
#[export] Instance set_write_node_run_id `{JN : JsonNumber} : Setter write_node_run_id := ltac:(derive_setter eta_WorkflowPendingWriteV1 write_node_run_id).
#[export] Instance set_write_result `{JN : JsonNumber} : Setter write_result := ltac:(derive_setter eta_WorkflowPendingWriteV1 write_result).
#[export] Instance set_write_error `{JN : JsonNumber} : Setter write_error := ltac:(derive_setter eta_WorkflowPendingWriteV1 write_error).
#[export] Instance set_write_interrupt `{JN : JsonNumber} : Setter write_interrupt := ltac:(derive_setter eta_WorkflowPendingWriteV1 write_interrupt).
#[export] Instance set_write_resume_command `{JN : JsonNumber} : Setter write_resume_command := ltac:(derive_setter eta_WorkflowPendingWriteV1 write_resume_command).
#[export] Instance set_write_completed_at `{JN : JsonNumber} : Setter write_completed_at := ltac:(derive_setter eta_WorkflowPendingWriteV1 write_completed_at).

Record WorkflowCheckpointV1 `{JsonNumber} := {
  ck_id : Uuid;
  ck_superstep : Z;
  ck_status : WorkflowCheckpointStatusV1;
  ck_nodes : list WorkflowSuperstepNodeV1;
  ck_pending_writes : list WorkflowPendingWriteV1;
  ck_created_at : DateTime;
  ck_completed_at : option DateTime;
}.

Definition eta_WorkflowCheckpointV1 `{JN : JsonNumber} (r : WorkflowCheckpointV1) : WorkflowCheckpointV1 :=
  {| ck_id := ck_id r; ck_superstep := ck_superstep r; ck_status := ck_status r;
     ck_nodes := ck_nodes r; ck_pending_writes := ck_pending_writes r;
     ck_created_at := ck_created_at r; ck_completed_at := ck_completed_at r |}.
#[export] Instance set_ck_id `{JN : JsonNumber} : Setter ck_id := ltac:(derive_setter eta_WorkflowCheckpointV1 ck_id).
#[export] Instance set_ck_superstep `{JN : JsonNumber} : Setter ck_superstep := ltac:(derive_setter eta_WorkflowCheckpointV1 ck_superstep).
#[export] Instance set_ck_status `{JN : JsonNumber} : Setter ck_status := ltac:(derive_setter eta_WorkflowCheckpointV1 ck_status).
#[export] Instance set_ck_nodes `{JN : JsonNumber} : Setter ck_nodes := ltac:(derive_setter eta_WorkflowCheckpointV1 ck_nodes).
#[export] Instance set_ck_pending_writes `{JN : JsonNumber} : Setter ck_pending_writes := ltac:(derive_setter eta_WorkflowCheckpointV1 ck_pending_writes).
#[export] Instance set_ck_created_at `{JN : JsonNumber} : Setter ck_created_at := ltac:(derive_setter eta_WorkflowCheckpointV1 ck_created_at).
#[export] Instance set_ck_completed_at `{JN : JsonNumber} : Setter ck_completed_at := ltac:(derive_setter eta_WorkflowCheckpointV1 ck_completed_at).

Record WorkflowCheckpointSummaryV1 := {
  sum_id : Uuid;
  sum_superstep : Z;
  sum_status : WorkflowCheckpointStatusV1;
  sum_node_ids : list string;
  sum_pending_write_count : Z;
  sum_created_at : DateTime;
  sum_completed_at : DateTime;
}.

Record FlowRunV1 `{JsonNumber} := {
  run_schema_version : Z;
  run_id : Uuid;
  run_thread_id : Uuid;
  run_flow_id : string;
  run_flow_version : Z;
  run_definition_id : Uuid;
  run_definition_content_hash : string;
  flow_revision_id : option Uuid;
  flow_revision : option FlowRevisionV1;
  test_draft_id : option Uuid;
  test_draft_revision : option Z;
  run_revision : Z;
  run_status : FlowRunStatusV1;
  run_input : Value;
  ingress_trigger : option WorkflowTriggerSpecV1;
  run_output : option Value;
  run_graph : GraphDefinitionV1;
  run_capabilities : CapabilityProjection;
  run_connection_authority : option RuntimeConnectionAuthorityV1;
  run_budget : FlowBudgetV1;
  ready_nodes : list string;
  node_runs : list FlowNodeRunV1;
  node_outputs : gmap string Value;
  run_state : gmap string Value;
  run_superstep : Z;
  active_checkpoint : option WorkflowCheckpointV1;
  checkpoint_history : list WorkflowCheckpointSummaryV1;
  loop_counts : gmap string Z;
  node_executions : Z;
  run_tool_calls : Z;
  output_review_required : bool;
  output_reviewed : bool;
  waiting_node_id : option string;
  active_human_task_id : option Uuid;
  run_error : option string;
  run_created_at : DateTime;
  run_started_at : option DateTime;
  run_completed_at : option DateTime;
  run_updated_at : DateTime;
}.

Definition eta_FlowRunV1 `{JN : JsonNumber} (r : FlowRunV1) : FlowRunV1 :=
  {| run_schema_version := run_schema_version r; run_id := run_id r;
     run_thread_id := run_thread_id r; run_flow_id := run_flow_id r;
     run_flow_version := run_flow_version r; run_definition_id := run_definition_id r;
     run_definition_content_hash := run_definition_content_hash r;
     flow_revision_id := flow_revision_id r; flow_revision := flow_revision r;
     test_draft_id := test_draft_id r; test_draft_revision := test_draft_revision r;
     run_revision := run_revision r; run_status := run_status r; run_input := run_input r;
     ingress_trigger := ingress_trigger r; run_output := run_output r; run_graph := run_graph r;
     run_capabilities := run_capabilities r;
     run_connection_authority := run_connection_authority r; run_budget := run_budget r;
     ready_nodes := ready_nodes r; node_runs := node_runs r; node_outputs := node_outputs r;
     run_state := run_state r; run_superstep := run_superstep r;
     active_checkpoint := active_checkpoint r; checkpoint_history := checkpoint_history r;
     loop_counts := loop_counts r; node_executions := node_executions r;
     run_tool_calls := run_tool_calls r; output_review_required := output_review_required r;
     output_reviewed := output_reviewed r; waiting_node_id := waiting_node_id r;
     active_human_task_id := active_human_task_id r; run_error := run_error r;
     run_created_at := run_created_at r; run_started_at := run_started_at r;
     run_completed_at := run_completed_at r; run_updated_at := run_updated_at r |}.
#[export] Instance set_run_schema_version `{JN : JsonNumber} : Setter run_schema_version := ltac:(derive_setter eta_FlowRunV1 run_schema_version).
#[export] Instance set_run_id `{JN : JsonNumber} : Setter run_id := ltac:(derive_setter eta_FlowRunV1 run_id).
#[export] Instance set_run_thread_id `{JN : JsonNumber} : Setter run_thread_id := ltac:(derive_setter eta_FlowRunV1 run_thread_id).
#[export] Instance set_run_flow_id `{JN : JsonNumber} : Setter run_flow_id := ltac:(derive_setter eta_FlowRunV1 run_flow_id).
#[export] Instance set_run_flow_version `{JN : JsonNumber} : Setter run_flow_version := ltac:(derive_setter eta_FlowRunV1 run_flow_version).
#[export] Instance set_run_definition_id `{JN : JsonNumber} : Setter run_definition_id := ltac:(derive_setter eta_FlowRunV1 run_definition_id).
#[export] Instance set_run_definition_content_hash `{JN : JsonNumber} : Setter run_definition_content_hash := ltac:(derive_setter eta_FlowRunV1 run_definition_content_hash).
#[export] Instance set_flow_revision_id `{JN : JsonNumber} : Setter flow_revision_id := ltac:(derive_setter eta_FlowRunV1 flow_revision_id).
#[export] Instance set_flow_revision `{JN : JsonNumber} : Setter flow_revision := ltac:(derive_setter eta_FlowRunV1 flow_revision).
#[export] Instance set_test_draft_id `{JN : JsonNumber} : Setter test_draft_id := ltac:(derive_setter eta_FlowRunV1 test_draft_id).
#[export] Instance set_test_draft_revision `{JN : JsonNumber} : Setter test_draft_revision := ltac:(derive_setter eta_FlowRunV1 test_draft_revision).
#[export] Instance set_run_revision `{JN : JsonNumber} : Setter run_revision := ltac:(derive_setter eta_FlowRunV1 run_revision).
#[export] Instance set_run_status `{JN : JsonNumber} : Setter run_status := ltac:(derive_setter eta_FlowRunV1 run_status).
#[export] Instance set_run_input `{JN : JsonNumber} : Setter run_input := ltac:(derive_setter eta_FlowRunV1 run_input).
#[export] Instance set_ingress_trigger `{JN : JsonNumber} : Setter ingress_trigger := ltac:(derive_setter eta_FlowRunV1 ingress_trigger).
#[export] Instance set_run_output `{JN : JsonNumber} : Setter run_output := ltac:(derive_setter eta_FlowRunV1 run_output).
#[export] Instance set_run_graph `{JN : JsonNumber} : Setter run_graph := ltac:(derive_setter eta_FlowRunV1 run_graph).
#[export] Instance set_run_capabilities `{JN : JsonNumber} : Setter run_capabilities := ltac:(derive_setter eta_FlowRunV1 run_capabilities).
#[export] Instance set_run_connection_authority `{JN : JsonNumber} : Setter run_connection_authority := ltac:(derive_setter eta_FlowRunV1 run_connection_authority).
#[export] Instance set_run_budget `{JN : JsonNumber} : Setter run_budget := ltac:(derive_setter eta_FlowRunV1 run_budget).
#[export] Instance set_ready_nodes `{JN : JsonNumber} : Setter ready_nodes := ltac:(derive_setter eta_FlowRunV1 ready_nodes).
#[export] Instance set_node_runs `{JN : JsonNumber} : Setter node_runs := ltac:(derive_setter eta_FlowRunV1 node_runs).
#[export] Instance set_node_outputs `{JN : JsonNumber} : Setter node_outputs := ltac:(derive_setter eta_FlowRunV1 node_outputs).
#[export] Instance set_run_state `{JN : JsonNumber} : Setter run_state := ltac:(derive_setter eta_FlowRunV1 run_state).
#[export] Instance set_run_superstep `{JN : JsonNumber} : Setter run_superstep := ltac:(derive_setter eta_FlowRunV1 run_superstep).
#[export] Instance set_active_checkpoint `{JN : JsonNumber} : Setter active_checkpoint := ltac:(derive_setter eta_FlowRunV1 active_checkpoint).
#[export] Instance set_checkpoint_history `{JN : JsonNumber} : Setter checkpoint_history := ltac:(derive_setter eta_FlowRunV1 checkpoint_history).
#[export] Instance set_loop_counts `{JN : JsonNumber} : Setter loop_counts := ltac:(derive_setter eta_FlowRunV1 loop_counts).
#[export] Instance set_node_executions `{JN : JsonNumber} : Setter node_executions := ltac:(derive_setter eta_FlowRunV1 node_executions).
#[export] Instance set_run_tool_calls `{JN : JsonNumber} : Setter run_tool_calls := ltac:(derive_setter eta_FlowRunV1 run_tool_calls).
#[export] Instance set_output_review_required `{JN : JsonNumber} : Setter output_review_required := ltac:(derive_setter eta_FlowRunV1 output_review_required).
#[export] Instance set_output_reviewed `{JN : JsonNumber} : Setter output_reviewed := ltac:(derive_setter eta_FlowRunV1 output_reviewed).
#[export] Instance set_waiting_node_id `{JN : JsonNumber} : Setter waiting_node_id := ltac:(derive_setter eta_FlowRunV1 waiting_node_id).
#[export] Instance set_active_human_task_id `{JN : JsonNumber} : Setter active_human_task_id := ltac:(derive_setter eta_FlowRunV1 active_human_task_id).
#[export] Instance set_run_error `{JN : JsonNumber} : Setter run_error := ltac:(derive_setter eta_FlowRunV1 run_error).
#[export] Instance set_run_created_at `{JN : JsonNumber} : Setter run_created_at := ltac:(derive_setter eta_FlowRunV1 run_created_at).
#[export] Instance set_run_started_at `{JN : JsonNumber} : Setter run_started_at := ltac:(derive_setter eta_FlowRunV1 run_started_at).
#[export] Instance set_run_completed_at `{JN : JsonNumber} : Setter run_completed_at := ltac:(derive_setter eta_FlowRunV1 run_completed_at).
#[export] Instance set_run_updated_at `{JN : JsonNumber} : Setter run_updated_at := ltac:(derive_setter eta_FlowRunV1 run_updated_at).

(** * Conditions on edges and nodes *)

Section conditions.
Context `{JN : JsonNumber} `{JT : !JsonText}.

Definition value_truthy (value : Value) : bool :=
  match value with
  | Null => false
  | VBool b => b
  | VNumber n => number_nonzero n
  | VString s => negb (str_is_empty s)
  | VArray l => negb (bool_decide (length l = O))
  | VObject m => negb (bool_decide (m = ∅))
  end.

(** [value_at_path] of this module: it also drops an [output.] prefix. *)
Definition condition_value_at_path (value : Value) (path : string) : option Value :=
  let path := trim_start_matches "output." (trim_start_matches "$." (trim path)) in
  if str_is_empty path || String.eqb path "$" || String.eqb path "output" then Some value
  else follow_path value (split_char (chr ".") path).

Definition is_quote (a : Ascii.ascii) : bool :=
  Ascii.eqb a (chr "'") || Ascii.eqb a (Ascii.ascii_of_N 34).

Definition parse_condition_literal (value : string) : Value :=
  match json_parse value with
  | Some v => v
  | None => VString (trim_matches is_quote value)
  end.

Definition evaluate_condition (expression : string) (value : Value) : bool :=
  let expression := trim expression in
  if eq_ignore_ascii_case expression "true" then true
  else if eq_ignore_ascii_case expression "false" then false
  else match strip_prefix "!" expression with
       | Some path => negb (value_truthy (default Null (condition_value_at_path value (trim path))))
       | None =>
           match split_once "==" expression with
           | Some (l, r) => value_eqb (default Null (condition_value_at_path value (trim l)))
                                      (parse_condition_literal (trim r))
           | None =>
               match split_once "!=" expression with
               | Some (l, r) => negb (value_eqb (default Null (condition_value_at_path value (trim l)))
                                                (parse_condition_literal (trim r)))
               | None => match condition_value_at_path value expression with
                         | Some v => value_truthy v
                         | None => false
                         end
               end
           end
       end.
End conditions.
