(* ===== verification/FlowEngine.v ===== *)
(** The operations of [flow_runtime.rs] on one run held in memory: creation,
    routing, loop budgets, readiness, node inputs, budgets, approval and resume. *)
From S2P Require Import Prelude RustStr RustStrFacts Json Enterprise WorkflowState WorkflowAutomation FlowGraph FlowActivation Flow WorkflowInterrupt HumanTask Workflow FlowRun.

Notation RunM := (M (FlowRunV1 * World)).

Section engine.
Context `{JN : JsonNumber} `{JT : !JsonText} `{SWC : !StateWriteCodec} `{AC : !ActivationCodec}
  `{SC : !SpecCodec} `{WB : !WorkflowBytes} `{SG : !SignalCodec} `{FS : FileSystem} `{U : Unicode}
  `{HO : Host}.

(** * Creation *)

(** The fields every constructor initialises alike. *)
Definition fresh_run (id thread_id : Uuid) (graph : GraphDefinitionV1) (input : Value)
    (now : DateTime) : FlowRunV1 :=
  {| run_schema_version := ENTERPRISE_SCHEMA_VERSION_V1; run_id := id;
     run_thread_id := thread_id; run_flow_id := ""; run_flow_version := 0;
     run_definition_id := id; run_definition_content_hash := ""; flow_revision_id := None;
     flow_revision := None; test_draft_id := None; test_draft_revision := None;
     run_revision := 1; run_status := Queued; run_input := input; ingress_trigger := None;
     run_output := None; run_graph := graph; run_capabilities := deny_all;
     run_connection_authority := None; run_budget := flow_budget_default; ready_nodes := [];
     node_runs := []; node_outputs := ∅; run_state := ∅; run_superstep := 0;
     active_checkpoint := None; checkpoint_history := []; loop_counts := ∅;
     node_executions := 0; run_tool_calls := 0; output_review_required := false;
     output_reviewed := false; waiting_node_id := None; active_human_task_id := None;
     run_error := None; run_created_at := now; run_started_at := None;
     run_completed_at := None; run_updated_at := now |}.

(** [FlowRunV1::new_with_connection_authority] *)
Definition run_new_with_connection_authority (thread_id : Uuid) (definition : FlowDefinitionV1)
    (input : Value) (available : CapabilityProjection) (authority : RuntimeConnectionAuthorityV1)
    (w : World) : Result anyhow FlowRunV1 * World :=
  let effective := intersect (def_capabilities definition) available in
  if negb (is_subset_of (def_capabilities definition) available)
  then (Err (Msg "the current ExecutionContext is narrower than the published Flow capability snapshot"), w)
  else match compile_flow (to_spec definition) effective w with
       | (Err report, w) =>
           (Err (Msg ("published Flow no longer compiles in this ExecutionContext: "
                      +:+ pretty (error_count report) +:+ " validation error(s)")), w)
       | (Ok _, w) =>
           let '(now, w) := utc_now w in
           let '(id, w) := new_v4 w in
           (Ok (fresh_run id thread_id (def_graph definition) input now
                  <| run_flow_id := def_flow_id definition |>
                  <| run_flow_version := def_version definition |>
                  <| run_definition_id := def_id definition |>
                  <| run_definition_content_hash := def_content_hash definition |>
                  <| run_connection_authority := Some (attenuate authority effective) |>
                  <| run_capabilities := effective |>
                  <| run_budget := def_budget definition |>
                  <| ready_nodes := initial_ready_nodes (def_graph definition) None |>), w)
       end.

Definition run_new (thread_id : Uuid) (definition : FlowDefinitionV1) (input : Value)
    (available : CapabilityProjection) (w : World) : Result anyhow FlowRunV1 * World :=
  run_new_with_connection_authority thread_id definition input available
    (inferred_from_projection available) w.

(** [FlowRunV1::new_from_revision] *)
Definition run_new_from_revision (thread_id : Uuid) (revision : FlowRevisionV1) (input : Value)
    (trigger : WorkflowTriggerSpecV1) (w : World) : Result anyhow FlowRunV1 * World :=
  let workflow := compiled_workflow revision in
  if negb ((workflow_schema_version workflow =? ENTERPRISE_SCHEMA_VERSION_V1)
           && (rev_schema_version revision =? ENTERPRISE_SCHEMA_VERSION_V1))
  then (Err (Msg "Flow revision uses an unsupported schema version"), w)
  else
    let '(now, w) := utc_now w in
    let '(id, w) := new_v4 w in
    (Ok (fresh_run id thread_id (workflow_graph workflow) input now
           <| run_flow_id := workflow_flow_id workflow |>
           <| run_flow_version := workflow_flow_version workflow |>
           <| run_definition_id := workflow_definition_id workflow |>
           <| run_definition_content_hash := workflow_definition_content_hash workflow |>
           <| flow_revision_id := Some (rev_id revision) |>
           <| flow_revision := Some revision |>
           <| ingress_trigger := Some trigger |>
           <| run_connection_authority := Some DenyAll |>
           <| run_capabilities := root_capabilities workflow |>
           <| run_budget := workflow_budget workflow |>
           <| ready_nodes := initial_ready_nodes (workflow_graph workflow) (Some trigger) |>
           <| output_review_required :=
                bool_decide (output_review_policy revision = AlwaysReviewOutput) |>), w).

Definition run_new_from_flow_with_trigger (flow : ActiveFlowV1) (input : Value)
    (trigger : WorkflowTriggerSpecV1) (w : World) : Result anyhow FlowRunV1 * World :=
  if negb (bool_decide (flow_status flow = FlowActive)) then (Err (Msg "Flow is paused"), w)
  else run_new_from_revision (flow_thread_id flow) (active_revision flow) input trigger w.

Definition run_new_from_flow (flow : ActiveFlowV1) (input : Value) (w : World)
    : Result anyhow FlowRunV1 * World :=
  run_new_from_flow_with_trigger flow input (rev_trigger (active_revision flow)) w.

(** [FlowRunV1::new_for_test_run]; the constant name and author make
    [ActiveFlowV1::new_with_ingress_policy] succeed. *)
Definition run_new_for_test_run (thread_id draft_id : Uuid) (draft_revision : Z)
    (workflow : CompiledWorkflowV1) (input : Value) (w : World)
    : Result anyhow FlowRunV1 * World :=
  let trigger := default_graph_trigger (workflow_graph workflow) in
  match flow_new_with_ingress_policy "Workflow test run" thread_id workflow trigger Immediate
          Inbox ExplicitNodesOnly "workflow-test-runner" w with
  | (Err _, w) => (Err (Msg "Flow name and createdBy are required"), w)
  | (Ok flow, w) =>
      match run_new_from_flow flow input w with
      | (Err e, w) => (Err e, w)
      | (Ok run, w) =>
          (Ok (run <| flow_revision_id := None |>
                   <| test_draft_id := Some draft_id |>
                   <| test_draft_revision := Some draft_revision |>
                   <| run_definition_id := draft_id |>
                   <| output_review_required := false |>), w)
      end
  end.

(** * Authority of a run and of its nodes *)

Definition effective_connection_authority (self : FlowRunV1) : RuntimeConnectionAuthorityV1 :=
  match run_connection_authority self with
  | Some authority => authority
  | None => inferred_from_projection (run_capabilities self)
  end.

Definition run_harness_capabilities (self : FlowRunV1) : CapabilityProjection :=
  match flow_revision self with
  | Some snapshot => harness_capabilities (compiled_workflow snapshot)
  | None => run_capabilities self
  end.

Definition run_harness_connection_authority (self : FlowRunV1) : RuntimeConnectionAuthorityV1 :=
  match flow_revision self with
  | Some snapshot => harness_connection_authority (compiled_workflow snapshot)
  | None => effective_connection_authority self
  end.

Definition workflow_agent_spec (self : FlowRunV1) (id : string) : option WorkflowAgentSpecV1 :=
  snapshot ← flow_revision self; agent_spec (compiled_workflow snapshot) id.

Definition workflow_agent_specs (self : FlowRunV1) : list WorkflowAgentSpecV1 :=
  match flow_revision self with
  | Some snapshot => btree_values (agent_specs (compiled_workflow snapshot))
  | None => []
  end.

Definition effective_capabilities_for_node (self : FlowRunV1) (id : string) : CapabilityProjection :=
  match workflow_agent_spec self id with
  | Some spec => agent_capabilities spec
  | None => run_capabilities self
  end.

Definition effective_connection_authority_for_node (self : FlowRunV1) (id : string)
    : RuntimeConnectionAuthorityV1 :=
  match workflow_agent_spec self id with
  | Some spec => agent_connection_authority spec
  | None => effective_connection_authority self
  end.

(** * Small steps on a run *)

Definition touch : RunM unit :=
  let* now := m_world utc_now in
  m_update (fun run => run <| run_revision := u32_saturating_add (run_revision run) 1 |>
                           <| run_updated_at := now |>).

Definition fail (error : string) : RunM unit :=
  m_update (fun run => run <| run_status := Failed |> <| run_error := Some error |>) ;;*
  let* now := m_world utc_now in
  m_update (fun run => run <| run_completed_at := Some now |>) ;;*
  touch.

(** The predicate of [active_node_run_mut]. *)
Definition is_active_node_run (id : string) (node_run : FlowNodeRunV1) : bool :=
  String.eqb (node_run_node_id node_run) id
  && match node_run_completed_at node_run with None => true | Some _ => false end.

Definition pending_resume_command_id (self : FlowRunV1) : option Uuid :=
  checkpoint ← active_checkpoint self;
  find_map (fun write => interrupt ← write_interrupt write;
                         command ← write_resume_command write;
                         if validates command interrupt then Some (command_id command) else None)
           (ck_pending_writes checkpoint).

(** [count().saturating_add(1) as u32] *)
Definition next_attempt (self : FlowRunV1) (id : string) : Z :=
  as_u32 (Z.min (vec_len (List.filter (fun r => String.eqb (node_run_node_id r) id) (node_runs self)) + 1)
                usize_max).

Definition enqueue_unique (queue : list string) (id : string) : list string :=
  if existsb (fun queued => String.eqb queued id) queue then queue else queue ++ [id].

Fixpoint remove_first (queue : list string) (id : string) : list string :=
  match queue with
  | [] => []
  | queued :: rest => if String.eqb queued id then rest else queued :: remove_first rest id
  end.

Definition terminal_output (run : FlowRunV1) : option Value :=
  match find_map node_run_output (reverse (node_runs run)) with
  | Some output => Some output
  | None => Some (run_input run)
  end.

Definition error_route (graph : GraphDefinitionV1) (id : string) : option string :=
  edge ← List.find (fun edge => String.eqb (edge_from edge) id
                                && match on_error edge with Some _ => true | None => false end)
           (edges graph);
  on_error edge.

Definition project_edge_value (value : Value) (edge : GraphEdgeV1) : Value :=
  if bool_decide (allowed_fields edge = ∅) then value
  else match as_object value with
       | None => value
       | Some object => VObject (filter (fun '(key, _) => key ∈ allowed_fields edge) object)
       end.

(** The values an id's incoming edges carry, in edge order. *)
Definition incoming_values (run : FlowRunV1) (id : string) : list (string * Value) :=
  omap (fun edge => if String.eqb (edge_to edge) id
                    then (fun value => (edge_from edge, project_edge_value value edge))
                         <$> (node_outputs run !! edge_from edge)
                    else None)
       (edges (run_graph run)).

Definition node_input (run : FlowRunV1) (id : string) : Value :=
  match incoming_values run id with
  | [] => run_input run
  | [(_, value)] => value
  | incoming => json_object incoming
  end.

Definition join_ready (run : FlowRunV1) (id : string) : bool :=
  forallb (fun edge => bool_decide (is_Some (node_outputs run !! edge_from edge)))
    (List.filter (fun edge => String.eqb (edge_to edge) id
                              && match loop_policy edge with None => true | Some _ => false end)
                 (edges (run_graph run))).

(** The closure of [ready_superstep_nodes]. *)
Definition superstep_ready (run : FlowRunV1) (id : string) : bool :=
  let trigger := match ingress_trigger run with
                 | Some trigger => Some trigger
                 | None => rev_trigger <$> flow_revision run
                 end in
  match find_node (run_graph run) id with
  | None => false
  | Some node =>
      match node_activation_ready node trigger (btree_keys (node_outputs run)) with
      | Ok (Some ready) => ready
      | _ => negb (bool_decide (kind node = Join)) || join_ready run id
      end
  end.

Definition ready_superstep_nodes (run : FlowRunV1) : list string :=
  List.filter (superstep_ready run) (ready_nodes run).

Definition node_is_parallel_safe (node : GraphNodeV1) : bool :=
  match kind node with
  | Condition | Validator | Join | Loop | Output => true
  | _ => bool_decide (get_bool (config node) "parallelSafe" = Some true)
  end.

(** * Routing *)

Definition consume_loop_budget (edge_index : nat) (policy : GraphLoopPolicyV1) : RunM bool :=
  let key := pretty edge_index in
  let* run := m_self in
  let count := default 0 (loop_counts run !! key) in
  m_update (fun run => run <| loop_counts := <[key := count]> (loop_counts run) |>) ;;*
  let maximum := Z.min (max_iterations policy) (max_loop_iterations (run_budget run)) in
  if count <? maximum
  then m_update (fun run => run <| loop_counts :=
                                     <[key := u32_saturating_add count 1]> (loop_counts run) |>) ;;*
       m_ret true
  else match on_exhausted policy with
       | Fail => m_fail (Msg ("Flow loop budget exhausted after " +:+ pretty maximum
                              +:+ " iteration(s)"))
       | RequireHuman =>
           m_update (fun run => run <| run_status := Paused |>
             <| run_error := Some ("loop budget exhausted after " +:+ pretty maximum
                                   +:+ " iteration(s); human decision required") |>) ;;*
           m_ret false
       | ReturnPartial =>
           m_update (fun run => run <| run_status := Succeeded |>
                                    <| run_output := terminal_output run |>) ;;*
           let* now := m_world utc_now in
           m_update (fun run => run <| run_completed_at := Some now |>) ;;*
           m_ret false
       end.

(** The body of the loop of [route_after_node]. *)
Definition route_edge (output : Value) (indexed : nat * GraphEdgeV1) : RunM unit :=
  let '(index, edge) := indexed in
  let enqueue := m_update (fun run =>
                   run <| ready_nodes := enqueue_unique (ready_nodes run) (edge_to edge) |>) in
  if negb (match condition edge with Some c => evaluate_condition c output | None => true end)
  then m_ret tt
  else match loop_policy edge with
       | None => enqueue
       | Some policy =>
           if negb (evaluate_condition (continue_condition policy) output) then m_ret tt
           else let* granted := consume_loop_budget index policy in
                if negb granted then m_ret tt else enqueue
       end.

Definition outgoing_edges (graph : GraphDefinitionV1) (id : string) : list (nat * GraphEdgeV1) :=
  List.filter (fun '(_, edge) => String.eqb (edge_from edge) id) (imap pair (edges graph)).

Definition route_after_node (id : string) (output : Value) : RunM unit :=
  let* run := m_self in
  m_for (outgoing_edges (run_graph run) id) (route_edge output).

(** * Deterministic nodes *)

(** [{:?}] of a node kind. *)
Definition node_kind_debug (k : GraphNodeKindV1) : string :=
  match k with
  | Agent => "Agent" | Skill => "Skill" | Tool => "Tool" | Condition => "Condition"
  | Validator => "Validator" | Approval => "Approval" | Join => "Join" | Loop => "Loop"
  | Output => "Output"
  end.

Definition execute_runtime_node (node : GraphNodeV1) (input : Value)
    : Result anyhow FlowNodeExecutionResultV1 :=
  let expression_passed :=
    match get_str (config node) "expression" with
    | Some expression => evaluate_condition expression input
    | None => true
    end in
  let done output := Ok {| result_output := output; result_tool_calls := 0;
                           result_transcript := [] |} in
  match kind node with
  | Validator =>
      let required := default [] (get_array (config node) "requiredFields") in
      let missing := List.filter (fun field =>
          match condition_value_at_path input field with None => true | Some _ => false end)
        (omap as_str required) in
      done (json_object
        [("passed", VBool (bool_decide (length missing = O) && expression_passed));
         ("missingFields", VArray (VString <$> missing)); ("value", input)])
  | Condition => done (json_object [("matched", VBool expression_passed); ("value", input)])
  | Join | Loop | Output => done input
  | k => Err (Msg ("node kind " +:+ node_kind_debug k +:+ " is not a deterministic runtime node"))
  end.

Definition enforce_run_budget (run : FlowRunV1) (w : World) : Result anyhow unit * World :=
  if negb (node_executions run <? max_node_executions (run_budget run))
  then (Err (Msg ("Flow node execution budget exhausted ("
                  +:+ pretty (max_node_executions (run_budget run)) +:+ ")")), w)
  else if negb (run_tool_calls run <=? max_tool_calls (run_budget run))
  then (Err (Msg ("Flow tool-call budget exhausted ("
                  +:+ pretty (max_tool_calls (run_budget run)) +:+ ")")), w)
  else
    let '(now, w) := utc_now w in
    let elapsed := Z.max 0 (now - default (run_created_at run) (run_started_at run)) in
    (ensure (num_seconds elapsed <=? max_duration_seconds (run_budget run))
       ("Flow duration budget exhausted (" +:+ pretty (max_duration_seconds (run_budget run))
        +:+ " seconds)"), w).
End engine.
