(* ===== verification/FlowResume.v ===== *)
(** Approval, interruption, recovery and cancellation of a run in
    [flow_runtime.rs]: what people and operators do to a suspended run. *)
From S2P Require Import Prelude RustStr RustStrFacts Json Enterprise WorkflowState WorkflowAutomation FlowGraph FlowActivation Flow WorkflowInterrupt HumanTask Workflow FlowRun FlowEngine.

(** serde's decoder of a user's answers. *)
Class ResponseCodec `{JsonNumber} := {
  decode_user_input_response : Value -> Result string UserInputResponse;
}.

Section resume.
Context `{JN : JsonNumber} `{JT : !JsonText} `{SWC : !StateWriteCodec} `{AC : !ActivationCodec}
  `{SC : !SpecCodec} `{WB : !WorkflowBytes} `{SG : !SignalCodec} `{RC : !ResponseCodec}
  `{FS : FileSystem} `{U : Unicode} `{HO : Host}.

Definition approval_output (input : Value) (approved : bool) (note : option string) : Value :=
  let output := match input with VObject object => object | value => {["value" := value]} end in
  VObject (<["note" := VString (default "" note)]> (<["approved" := VBool approved]> output)).

(** Updates the node run found from the end, as [active_node_run_mut] does. *)
Definition update_active_node_run (id : string) (f : FlowNodeRunV1 -> FlowNodeRunV1)
    (run : FlowRunV1) : FlowRunV1 :=
  run <| node_runs := default (node_runs run)
                        (update_last (is_active_node_run id) f (node_runs run)) |>.

Definition resolve_flow_approval (approved : bool) (note : option string) : RunM unit :=
  let* run := m_self in
  m_ensure (bool_decide (run_status run = WaitingApproval)) "Flow run is not waiting for approval" ;;*
  let* id := m_lift (opt_context (waiting_node_id run)
                       "Flow run is missing its waiting approval node") in
  let decision := json_object [("approved", VBool approved); ("note", VString (default "" note))] in
  let* active := m_lift (opt_context (find_last (is_active_node_run id) (node_runs run))
                           "Flow approval node run is missing") in
  let output := approval_output (node_run_input active) approved note in
  let* entry := m_world (transcript_entry TApproval
                  (if approved then "Approval granted" else "Approval rejected") decision) in
  let* now := m_world utc_now in
  m_update (update_active_node_run id (fun node_run =>
    node_run <| node_run_status := if approved then NodeSucceeded else NodeCancelled |>
             <| node_run_output := Some output |>
             <| node_run_transcript := node_run_transcript node_run ++ [entry] |>
             <| node_run_completed_at := Some now |>)) ;;*
  m_update (fun run => run <| waiting_node_id := None |> <| active_human_task_id := None |>) ;;*
  (if approved
   then m_update (fun run => run <| node_outputs := <[id := output]> (node_outputs run) |>
                                 <| run_status := Running |> <| run_error := None |>) ;;*
        route_after_node id output
   else m_update (fun run => run <| run_status := Cancelled |>
                                 <| run_error := Some (default "approval denied" note) |>) ;;*
        let* now := m_world utc_now in
        m_update (fun run => run <| run_completed_at := Some now |>)) ;;*
  touch.

(** * Resuming an interrupted Agent *)

(** The write whose interrupt carries the task's continuation. *)
Definition has_continuation (continuation : Uuid) (write : WorkflowPendingWriteV1) : bool :=
  match write_interrupt write with
  | Some i => bool_decide (envelope_id (interrupt_continuation i) = continuation)
  | None => false
  end.

(** The signal a task's action stands for, by the interrupt's kind. *)
Definition resume_signal (write : WorkflowPendingWriteV1) (interrupt : WorkflowInterruptRequestV1)
    (action : HumanTaskActionV1) (response : option Value) (note : option string)
    : Result anyhow FlowResumeSignalV1 :=
  match interrupt_kind interrupt with
  | IApproval =>
      let? _ := ensure (match action with ActApprove | ActReject => true | _ => false end)
                  "approval interrupt only accepts approve or reject" in
      Ok (SigApproval (get_str (interrupt_payload interrupt) "approvalId" ≫= host_uuid_parse)
                      (bool_decide (action = ActApprove)))
  | IInputRequest =>
      let? _ := ensure (bool_decide (action = ActSubmit)) "input interrupt only accepts submit" in
      let? response := opt_context response "input interrupt requires a structured response" in
      let? response := map_err Msg (decode_user_input_response response) in
      let? request_id :=
        opt_context (request ← value_get (interrupt_payload interrupt) "request";
                     id ← get_str request "requestId"; host_uuid_parse id)
          "input interrupt is missing requestId" in
      Ok (SigUserInput request_id response)
  | IExternalAction | IEffectReconciliation =>
      let? _ := ensure (match action with ActResume | ActReconnect | ActAcknowledge => true
                                        | _ => false end)
                  "external interrupt requires resume, reconnect, or acknowledge" in
      let observation := match response ≫= (fun value => get_str value "observation") with
                         | Some observation => Some observation
                         | None => note
                         end in
      let? observation := opt_context (trim_nonempty observation)
                            "external action requires an observation" in
      Ok (SigExternalAction observation)
  | IResumeRetry =>
      let? _ := ensure (bool_decide (action = ActRetry)) "resume retry interrupt only accepts retry" in
      let? command := opt_context (write_resume_command write)
                        "resume retry interrupt is missing its previous command" in
      Ok (command_signal command)
  end.

Definition prepare_flow_interrupt_resume (task : HumanTaskV1) (action : HumanTaskActionV1)
    (response : option Value) (note : option string) (actor idempotency_key : string)
    : RunM FlowResumeCommandV1 :=
  let* run := m_self in
  m_ensure (bool_decide (run_status run = WaitingHuman))
    "Flow run is not waiting on an Agent continuation" ;;*
  m_ensure (bool_decide (active_human_task_id run = Some (task_id task)))
    "Flow run is no longer waiting on this Human task" ;;*
  let* continuation := m_lift (opt_context (task_continuation_id task)
                                 "Human task is missing its Agent continuation identity") in
  let* checkpoint := m_lift (opt_context (active_checkpoint run)
                               "waiting Flow run is missing its checkpoint") in
  let* write := m_lift (opt_context
                  (List.find (has_continuation continuation) (ck_pending_writes checkpoint))
                  "Human task continuation is no longer present in the checkpoint") in
  let* interrupt := m_lift (opt_context (write_interrupt write)
                              "checkpoint write is missing its interrupt") in
  let* signal := m_lift (resume_signal write interrupt action response note) in
  let* made := m_world (resume_command_new (task_id task) idempotency_key interrupt signal note actor) in
  let* command := m_lift made in
  m_update (fun run => run <| active_checkpoint := Some
    (checkpoint <| ck_pending_writes :=
       update_first_or (has_continuation continuation)
         (fun write => write <| write_resume_command := Some command |>)
         (ck_pending_writes checkpoint) |>) |>) ;;*
  m_update (fun run => run <| node_runs :=
    update_first_or (fun node => bool_decide (node_run_id node = interrupt_node_run_id interrupt))
      (fun node => node <| node_run_status := NodeResuming |>) (node_runs run) |>) ;;*
  m_update (fun run => run <| run_status := Resuming |> <| waiting_node_id := None |>
                           <| active_human_task_id := None |> <| run_error := None |>) ;;*
  touch ;;*
  m_ret command.

(** * Recovering a run whose process stopped *)

(** The node run a superstep records for an item before executing it. *)
Definition superstep_node_run (id : Uuid) (node : string) (attempt : Z) (input : Value)
    : RunM FlowNodeRunV1 :=
  let* entry := m_world (transcript_entry TInput "Node input" input) in
  let* now := m_world utc_now in
  m_ret {| node_run_id := id; node_run_node_id := node; node_run_attempt := attempt;
           node_run_status := NodeRunning; node_run_input := input; node_run_output := None;
           node_run_error := None; node_run_tool_calls := 0; node_run_transcript := [entry];
           node_run_started_at := now; node_run_completed_at := None |}.

(** One iteration over the items of the checkpoint. *)
Definition retry_item (completed : gset string) (item : WorkflowSuperstepNodeV1)
    : RunM WorkflowSuperstepNodeV1 :=
  if decide (item_node_id item ∈ completed) then m_ret item
  else
    let* run := m_self in
    (if existsb (fun n => bool_decide (node_run_id n = item_node_run_id item)) (node_runs run)
     then let* now := m_world utc_now in
          m_update (fun run => run <| node_runs :=
            update_first_or (fun n => bool_decide (node_run_id n = item_node_run_id item))
              (fun n => n <| node_run_status := NodeCancelled |>
                          <| node_run_error := Some "process stopped during superstep execution; operator explicitly requested a fresh attempt" |>
                          <| node_run_completed_at := Some now |>) (node_runs run) |>)
     else m_ret tt) ;;*
    let* id := m_world new_v4 in
    let item := item <| item_node_run_id := id |>
                     <| item_attempt := u32_saturating_add (item_attempt item) 1 |> in
    let* node_run := superstep_node_run id (item_node_id item) (item_attempt item) (item_input item) in
    m_update (fun run => run <| node_runs := node_runs run ++ [node_run] |>
                             <| node_executions := u32_saturating_add (node_executions run) 1 |>) ;;*
    m_ret item.

Fixpoint retry_items (completed : gset string) (items : list WorkflowSuperstepNodeV1)
    : RunM (list WorkflowSuperstepNodeV1) :=
  match items with
  | [] => m_ret []
  | item :: rest => let* item := retry_item completed item in
                    let* rest := retry_items completed rest in
                    m_ret (item :: rest)
  end.

Definition completed_nodes (checkpoint : WorkflowCheckpointV1) : gset string :=
  list_to_set (write_node_id <$> List.filter (fun write =>
    match write_result write with Some _ => true | None => false end)
    (ck_pending_writes checkpoint)).

(** The branch of [prepare_flow_resume] with an active checkpoint, taken out of the
    run before the checks. *)
Definition retry_checkpoint (checkpoint : WorkflowCheckpointV1) (retry : bool) : RunM unit :=
  m_update (fun run => run <| active_checkpoint := None |>) ;;*
  m_ensure retry ("superstep " +:+ pretty (ck_superstep checkpoint)
    +:+ " was interrupted; inspect external state, then explicitly set retryInterruptedNode or cancel the Run") ;;*
  let completed := completed_nodes checkpoint in
  let retry_count := as_u32 (vec_len (List.filter (fun item =>
    negb (bool_decide (item_node_id item ∈ completed))) (ck_nodes checkpoint))) in
  let* run := m_self in
  m_ensure (u32_saturating_add (node_executions run) retry_count
            <=? max_node_executions (run_budget run))
    ("Flow node execution budget exhausted (" +:+ pretty (max_node_executions (run_budget run))
     +:+ ")") ;;*
  let* items := retry_items completed (ck_nodes checkpoint) in
  m_update (fun run => run
    <| active_checkpoint := Some
         (checkpoint <| ck_pending_writes := List.filter (fun write =>
                          bool_decide (write_node_id write ∈ completed))
                          (ck_pending_writes checkpoint) |>
                     <| ck_nodes := items |>) |>
    <| active_human_task_id := None |>).

(** The branch without a checkpoint, for the last node run still marked running. *)
Definition retry_running_node (node_run : FlowNodeRunV1) (retry : bool) : RunM unit :=
  m_ensure retry ("the previous process stopped during node " +:+ node_run_node_id node_run
    +:+ "; inspect external state, then explicitly set retryInterruptedNode or cancel the Run") ;;*
  let id := node_run_node_id node_run in
  let* now := m_world utc_now in
  m_update (fun run => run
    <| node_runs := default (node_runs run) (update_last
         (fun n => bool_decide (node_run_status n = NodeRunning))
         (fun n => n <| node_run_status := NodeCancelled |>
                     <| node_run_error := Some "process stopped during execution; operator explicitly requested a fresh attempt" |>
                     <| node_run_completed_at := Some now |>) (node_runs run)) |>
    <| ready_nodes := id :: remove_first (ready_nodes run) id |>
    <| active_human_task_id := None |>).

Definition prepare_flow_resume (retry_interrupted_node : bool) : RunM unit :=
  let* run := m_self in
  match active_checkpoint run with
  | Some checkpoint => retry_checkpoint checkpoint retry_interrupted_node
  | None =>
      match find_last (fun n => bool_decide (node_run_status n = NodeRunning)) (node_runs run) with
      | None => m_ret tt
      | Some node_run => retry_running_node node_run retry_interrupted_node
      end
  end.

(** * Cancellation *)

Definition checkpoint_summary (checkpoint : WorkflowCheckpointV1)
    (status : WorkflowCheckpointStatusV1) (completed_at : DateTime)
    : WorkflowCheckpointSummaryV1 :=
  {| sum_id := ck_id checkpoint; sum_superstep := ck_superstep checkpoint; sum_status := status;
     sum_node_ids := item_node_id <$> ck_nodes checkpoint;
     sum_pending_write_count := u32_of_usize_sat (vec_len (ck_pending_writes checkpoint));
     sum_created_at := ck_created_at checkpoint; sum_completed_at := completed_at |}.

(** The loop body of [cancel_active_checkpoint]. *)
Definition cancel_item (completed_at : DateTime) (runs : list FlowNodeRunV1)
    (item : WorkflowSuperstepNodeV1) : list FlowNodeRunV1 :=
  update_first_or
    (fun n => bool_decide (node_run_id n = item_node_run_id item)
              && match node_run_completed_at n with None => true | Some _ => false end)
    (fun n => n <| node_run_status := NodeCancelled |>
                <| node_run_error := Some "Flow run cancelled before superstep commit" |>
                <| node_run_completed_at := Some completed_at |>) runs.

Definition cancel_active_checkpoint : RunM unit :=
  let* run := m_self in
  match active_checkpoint run with
  | None => m_ret tt
  | Some checkpoint =>
      let* completed_at := m_world utc_now in
      m_update (fun run => run
        <| active_checkpoint := None |>
        <| node_runs := fold_left (cancel_item completed_at) (ck_nodes checkpoint) (node_runs run) |>
        <| checkpoint_history := checkpoint_history run
                                 ++ [checkpoint_summary checkpoint CkCancelled completed_at] |>)
  end.

Definition extend_transcript_unique (target additions : list FlowTranscriptEntryV1)
    : list FlowTranscriptEntryV1 :=
  let existing : gset Uuid := list_to_set (entry_id <$> target) in
  target ++ List.filter (fun entry => negb (bool_decide (entry_id entry ∈ existing))) additions.
End resume.
