(* ===== verification/FlowStore.v ===== *)
(** The part of the SQLite [SessionStore] the workflow runtime relies on
    ([store.rs] and [store/flow_runtime_repository.rs]): runs and Human tasks kept
    as documents guarded by a revision column, and their joint transactions. *)
From S2P Require Import Prelude RustStr RustStrFacts Json Enterprise WorkflowState WorkflowAutomation FlowGraph FlowActivation Flow WorkflowInterrupt HumanTask Workflow FlowRun FlowEngine.

(** The tables [flow_runs] and [human_tasks], and the effect journal as the JSON
    of its receipts.  The columns next to [document_json] repeat fields of the
    document, which every statement writes together with it. *)
Record FlowStore `{JsonNumber} := {
  store_runs : gmap Uuid FlowRunV1;
  store_tasks : gmap Uuid HumanTaskV1;
  store_effects : gmap Uuid Value;
}.

Definition eta_FlowStore `{JN : JsonNumber} (r : FlowStore) : FlowStore :=
  {| store_runs := store_runs r; store_tasks := store_tasks r; store_effects := store_effects r |}.
#[export] Instance set_store_runs `{JN : JsonNumber} : Setter store_runs := ltac:(derive_setter eta_FlowStore store_runs).
#[export] Instance set_store_tasks `{JN : JsonNumber} : Setter store_tasks := ltac:(derive_setter eta_FlowStore store_tasks).
#[export] Instance set_store_effects `{JN : JsonNumber} : Setter store_effects := ltac:(derive_setter eta_FlowStore store_effects).

(** What other requests, other runs' drivers and the operator do to the store
    before the n-th access.  Nothing is assumed of it here. *)
Class Environment `{JsonNumber} := { interfere : N -> FlowStore -> FlowStore }.

Notation StoreM := (M (FlowStore * World)).

Section store.
Context `{JN : JsonNumber} `{EN : !Environment} `{HO : Host}.

(** * Statements on an open connection *)

Definition update_flow_run_conn (run : FlowRunV1) (expected_revision : Z) (conn : FlowStore)
    : Result anyhow FlowStore :=
  match store_runs conn !! run_id run with
  | Some current =>
      if run_revision current =? expected_revision
      then Ok (conn <| store_runs := <[run_id run := run]> (store_runs conn) |>)
      else Err (RunRevisionConflict (run_revision current))
  | None => Err (RunNotFound (run_id run))
  end.

(** The partial unique index [idx_human_tasks_active_source_boundary]; SQLite
    counts a NULL node run as distinct from every other. *)
Definition same_boundary (l r : HumanTaskV1) : bool :=
  bool_decide (task_status l = Pending) && bool_decide (task_status r = Pending)
  && String.eqb (source_kind_as_str (source_kind l)) (source_kind_as_str (source_kind r))
  && bool_decide (source_id l = source_id r)
  && match source_node_run_id l, source_node_run_id r with
     | Some a, Some b => bool_decide (a = b)
     | _, _ => false
     end
  && String.eqb (task_type_as_str (task_type l)) (task_type_as_str (task_type r)).

Definition insert_human_task_conn (task : HumanTaskV1) (conn : FlowStore)
    : Result anyhow FlowStore :=
  if bool_decide (is_Some (store_tasks conn !! task_id task))
  then Err (UniqueViolation "human_tasks.id")
  else if existsb (same_boundary task) (map_to_list (store_tasks conn)).*2
  then Err (UniqueViolation "human_tasks.source_kind, human_tasks.source_id, human_tasks.source_node_run_id, human_tasks.task_type")
  else Ok (conn <| store_tasks := <[task_id task := task]> (store_tasks conn) |>).

Definition update_human_task_conn (task : HumanTaskV1) (expected_revision : Z) (conn : FlowStore)
    : Result anyhow FlowStore :=
  match store_tasks conn !! task_id task with
  | Some current =>
      if task_revision current =? expected_revision
      then Ok (conn <| store_tasks := <[task_id task := task]> (store_tasks conn) |>)
      else Err (HumanTaskRevisionConflict (task_revision current))
  | None => Err (HumanTaskNotFound (task_id task))
  end.

(** The statements of [update_flow_run_and_human_task]; an error drops the
    transaction, which rolls it back. *)
Definition update_run_and_task_conn (run : FlowRunV1) (expected_run_revision : Z)
    (task : HumanTaskV1) (expected_task_revision : option Z) (conn : FlowStore)
    : Result anyhow FlowStore :=
  let? conn := update_flow_run_conn run expected_run_revision conn in
  match expected_task_revision with
  | Some expected_revision => update_human_task_conn task expected_revision conn
  | None => insert_human_task_conn task conn
  end.

(** * The store's methods *)

Definition m_interfere : StoreM unit := fun '(st, w) => (Ok tt, (interfere w st, N.succ w)).

Definition m_read {A} (f : FlowStore -> A) : StoreM A :=
  m_interfere ;;* let* st := m_self in m_ret (f st).

Definition m_transaction (f : FlowStore -> Result anyhow FlowStore) : StoreM unit :=
  m_interfere ;;*
  let* st := m_self in
  let* st := m_lift (f st) in
  m_set st.

Definition get_flow_run (id : Uuid) : StoreM (option FlowRunV1) :=
  m_read (fun st => store_runs st !! id).

Definition insert_flow_run (run : FlowRunV1) : StoreM FlowRunV1 :=
  m_transaction (fun st =>
    if bool_decide (is_Some (store_runs st !! run_id run))
    then Err (UniqueViolation "flow_runs.id")
    else Ok (st <| store_runs := <[run_id run := run]> (store_runs st) |>)) ;;*
  m_ret run.

Definition update_flow_run (run : FlowRunV1) (expected_revision : Z) : StoreM FlowRunV1 :=
  m_transaction (update_flow_run_conn run expected_revision) ;;* m_ret run.

Definition insert_human_task (task : HumanTaskV1) : StoreM HumanTaskV1 :=
  m_transaction (insert_human_task_conn task) ;;* m_ret task.

Definition get_human_task (id : Uuid) : StoreM (option HumanTaskV1) :=
  m_read (fun st => store_tasks st !! id).

(** [WHERE source_kind = 'flow_run' AND source_id = ?1 AND status = 'pending'
    ORDER BY created_at ASC LIMIT 1]; the column holds RFC 3339 text. *)
Definition pending_task_of (flow_run_id : Uuid) (st : FlowStore) : option HumanTaskV1 :=
  head (sort_by_key (fun task => host_rfc3339 (task_created_at task))
    (List.filter (fun task => String.eqb (source_kind_as_str (source_kind task)) "flow_run"
                              && bool_decide (source_id task = flow_run_id)
                              && bool_decide (task_status task = Pending))
       (map_to_list (store_tasks st)).*2)).

Definition get_pending_human_task_for_flow_run (flow_run_id : Uuid) : StoreM (option HumanTaskV1) :=
  m_read (pending_task_of flow_run_id).

Definition get_effect (effect_id : Uuid) : StoreM (option Value) :=
  m_read (fun st => store_effects st !! effect_id).

Definition update_human_task (task : HumanTaskV1) (expected_revision : Z) : StoreM HumanTaskV1 :=
  m_transaction (update_human_task_conn task expected_revision) ;;* m_ret task.

Definition update_flow_run_and_human_task (run : FlowRunV1) (expected_run_revision : Z)
    (task : HumanTaskV1) (expected_task_revision : option Z) : StoreM (FlowRunV1 * HumanTaskV1) :=
  m_transaction (update_run_and_task_conn run expected_run_revision task expected_task_revision) ;;*
  m_ret (run, task).

(** * Working on a run outside the store *)

(** [m] applied to a local copy of a run: its changes reach the store only through
    an update. *)
Definition on_run {A} (run : FlowRunV1) (m : RunM A) : StoreM (A * FlowRunV1) :=
  fun '(st, w) => match m (run, w) with
                  | (Ok a, (run', w')) => (Ok (a, run'), (st, w'))
                  | (Err e, (_, w')) => (Err e, (st, w'))
                  end.

Definition on_task {A} (task : HumanTaskV1) (m : M (HumanTaskV1 * World) A)
    : StoreM (A * HumanTaskV1) :=
  fun '(st, w) => match m (task, w) with
                  | (Ok a, (task', w')) => (Ok (a, task'), (st, w'))
                  | (Err e, (_, w')) => (Err e, (st, w'))
                  end.

(** The [match] on [downcast_ref] of the persist loops: a revision conflict falls
    through to the next attempt. *)
Definition on_conflict {A} (m : StoreM A) (retry : StoreM A) : StoreM A :=
  fun s => match m s with
           | (Err (RunRevisionConflict _), s') => retry s'
           | r => r
           end.

(** * Facts *)

Lemma update_flow_run_conn_Ok run expected conn conn' :
  update_flow_run_conn run expected conn = Ok conn' <->
  exists current, store_runs conn !! run_id run = Some current
    /\ run_revision current = expected
    /\ conn' = conn <| store_runs := <[run_id run := run]> (store_runs conn) |>.
Proof using Type.
  unfold update_flow_run_conn. destruct (store_runs conn !! run_id run) as [current|]; [|naive_solver].
  destruct (Z.eqb_spec (run_revision current) expected); naive_solver.
Qed.

Lemma m_transaction_run f st w :
  m_transaction f (st, w) =
    match f (interfere w st) with
    | Ok st' => (Ok tt, (st', N.succ w))
    | Err e => (Err e, (interfere w st, N.succ w))
    end.
Proof using Type. cbn. by destruct (f (interfere w st)). Qed.

Lemma update_flow_run_run run expected st w :
  update_flow_run run expected (st, w) =
    match update_flow_run_conn run expected (interfere w st) with
    | Ok st' => (Ok run, (st', N.succ w))
    | Err e => (Err e, (interfere w st, N.succ w))
    end.
Proof using Type.
  unfold update_flow_run, m_bind. rewrite m_transaction_run.
  by destruct (update_flow_run_conn _ _ _).
Qed.

Lemma get_flow_run_run id st w :
  get_flow_run id (st, w) = (Ok (store_runs (interfere w st) !! id), (interfere w st, N.succ w)).
Proof using Type. done. Qed.

(** C9: the joint transaction is atomic: it succeeds exactly when the stored run has
    the expected revision and the task statement succeeds on its own, and then both
    documents are written and nothing else changes; when it fails no table changes. *)
Theorem run_and_task_transaction_atomic run expected task texpected st w :
  let st0 := interfere w st in
  match update_flow_run_and_human_task run expected task texpected (st, w) with
  | (Ok _, (st', _)) =>
      (run_revision <$> store_runs st0 !! run_id run) = Some expected
      /\ store_runs st' = <[run_id run := run]> (store_runs st0)
      /\ store_tasks st' = <[task_id task := task]> (store_tasks st0)
      /\ store_effects st' = store_effects st0
      /\ match texpected with
         | Some revision => (task_revision <$> store_tasks st0 !! task_id task) = Some revision
         | None => store_tasks st0 !! task_id task = None
                   /\ forall id other, store_tasks st0 !! id = Some other ->
                                       same_boundary task other = false
         end
  | (Err e, (st', _)) => st' = st0
      /\ ((run_revision <$> store_runs st0 !! run_id run) = Some expected ->
          match texpected with
          | Some revision => (task_revision <$> store_tasks st0 !! task_id task) <> Some revision
          | None => is_Some (store_tasks st0 !! task_id task)
                    \/ exists id other, store_tasks st0 !! id = Some other
                                        /\ same_boundary task other = true
          end)
  end.
Proof using Type.
  cbn zeta. unfold update_flow_run_and_human_task, m_bind. rewrite m_transaction_run.
  set (st0 := interfere w st). unfold update_run_and_task_conn, update_flow_run_conn.
  destruct (store_runs st0 !! run_id run) as [current|]; cbn; [|naive_solver].
  destruct (Z.eqb_spec (run_revision current) expected) as [<-|Hne]; cbn; [|naive_solver].
  destruct texpected as [revision|].
  - unfold update_human_task_conn. cbn.
    destruct (store_tasks st0 !! task_id task) as [t|]; cbn; [|naive_solver].
    destruct (Z.eqb_spec (task_revision t) revision); cbn; naive_solver.
  - unfold insert_human_task_conn. cbn.
    destruct (store_tasks st0 !! task_id task) as [t|]; cbn; [naive_solver|].
    destruct (existsb _ _) eqn:Hex; cbn.
    + split; [done|]. intros _. right. apply existsb_exists in Hex as (other & Hin & Hb).
      apply list_elem_of_In, list_elem_of_fmap in Hin as ([id o] & -> & Hin).
      apply elem_of_map_to_list in Hin. eauto.
    + repeat split. intros id other Ho. destruct (same_boundary task other) eqn:Hb; [|done].
      rewrite <-Hex. symmetry. apply existsb_exists. exists other. split; [|done].
      apply list_elem_of_In, list_elem_of_fmap. exists (id, other). by rewrite elem_of_map_to_list.
Qed.
End store.
