(* ===== verification/FlowDriver.v ===== *)
(** The driver of [flow_runtime.rs]: supersteps, node execution through the Agent
    harness, pending writes, checkpoint commit, pauses, and the loop of
    [drive_flow_run]. *)
From S2P Require Import Prelude RustStr RustStrFacts Json Enterprise WorkflowState WorkflowAutomation FlowGraph FlowActivation Flow WorkflowInterrupt HumanTask Workflow FlowRun FlowEngine FlowResume FlowStore.

(** * The tool context of a run *)

(** [mcp::McpToolDescriptor], with the fields the runtime reads. *)
Record McpToolDescriptor := {
  public_name : string;
  mcp_tool_server_id : Uuid;
}.

(** The part of [ToolInvocationContext] the runtime reads and restricts.  A route
    is the operation it was authorised for; its gate belongs to the Connection
    subsystem. *)
Record ToolInvocationContext := {
  has_state : bool;
  has_flow_harness : bool;
  mcp_tools : list McpToolDescriptor;
  connection_operations : gmap string ExecutionConnectionOperationV1;
  capability_projection : CapabilityProjection;
}.

Definition eta_ToolInvocationContext (r : ToolInvocationContext) : ToolInvocationContext :=
  {| has_state := has_state r; has_flow_harness := has_flow_harness r; mcp_tools := mcp_tools r;
     connection_operations := connection_operations r;
     capability_projection := capability_projection r |}.
#[export] Instance set_mcp_tools : Setter mcp_tools := ltac:(derive_setter eta_ToolInvocationContext mcp_tools).
#[export] Instance set_connection_operations : Setter connection_operations := ltac:(derive_setter eta_ToolInvocationContext connection_operations).
#[export] Instance set_capability_projection : Setter capability_projection := ltac:(derive_setter eta_ToolInvocationContext capability_projection).

Record FlowNodeExecutionRequestV1 `{JsonNumber} := {
  req_flow_run_id : Uuid;
  req_node_run_id : Uuid;
  req_node : GraphNodeV1;
  req_flow_input : Value;
  req_input : Value;
  req_capabilities : CapabilityProjection;
  req_agent_spec : option WorkflowAgentSpecV1;
  req_remaining_tool_calls : Z;
  req_context : ToolInvocationContext;
}.

Record FlowNodeResumeRequestV1 `{JsonNumber} := {
  res_flow_run_id : Uuid;
  res_node_run_id : Uuid;
  res_node : GraphNodeV1;
  res_flow_input : Value;
  res_input : Value;
  res_capabilities : CapabilityProjection;
  res_agent_spec : option WorkflowAgentSpecV1;
  res_remaining_tool_calls : Z;
  res_interrupt : WorkflowInterruptRequestV1;
  res_command : FlowResumeCommandV1;
  res_context : ToolInvocationContext;
}.

(** The trait [FlowNodeHarness]: the Agent behind Agent, Skill and Tool nodes. *)
Class FlowNodeHarness `{JsonNumber} := {
  execute_flow_node : FlowNodeExecutionRequestV1 -> World
    -> Result anyhow FlowNodeExecutionOutcomeV1 * World;
  resume_flow_node : FlowNodeResumeRequestV1 -> World
    -> Result anyhow FlowNodeExecutionOutcomeV1 * World;
}.

(** The order in which [buffer_unordered] yields the writes of one superstep: the
    executor completes every future exactly once. *)
Class Executor `{JsonNumber} := {
  completion_order : N -> list WorkflowPendingWriteV1 -> list WorkflowPendingWriteV1;
  completion_order_perm : forall n writes, completion_order n writes ≡ₚ writes;
}.

Definition MAX_SUPERSTEP_CONCURRENCY : Z := 8.
Definition MAX_CHECKPOINT_HISTORY : Z := 100.

(** * Restricting the context of a node *)

(** [operations.iter().map(..).collect::<BTreeMap<_, _>>()]: the last operation
    of a name stays. *)
Definition expected_routes (operations : list ExecutionConnectionOperationV1)
    : gmap string ExecutionConnectionOperationV1 :=
  fold_left (fun expected operation => <[model_tool_name operation := operation]> expected)
            operations ∅.

Definition check_route (context : ToolInvocationContext)
    (entry : string * ExecutionConnectionOperationV1) : Result anyhow unit :=
  let '(name, operation) := entry in
  let? route := opt_context (connection_operations context !! name)
                  ("Workflow Agent node Connection route " +:+ name +:+ " is unavailable") in
  ensure (bool_decide (route = operation))
    ("Flow Agent node Connection route " +:+ name +:+ " differs from its frozen Revision").

Definition restrict_flow_node_connection_context (authority : RuntimeConnectionAuthorityV1)
    (context : ToolInvocationContext) : Result anyhow ToolInvocationContext :=
  match authority with
  | DenyAll => Ok (context <| mcp_tools := [] |> <| connection_operations := ∅ |>)
  | LegacyMcp => Ok context
  | Structured operations =>
      let expected := expected_routes operations in
      let? _ := r_for (btree_entries expected) (check_route context) in
      Ok (context
        <| mcp_tools := List.filter (fun descriptor =>
             bool_decide (is_Some (expected !! public_name descriptor))) (mcp_tools context) |>
        <| connection_operations :=
             filter (fun '(name, route) => expected !! name = Some route)
                    (connection_operations context) |>)
  end.

Section driver.
Context `{JN : JsonNumber} `{JT : !JsonText} `{SWC : !StateWriteCodec} `{AC : !ActivationCodec}
  `{SC : !SpecCodec} `{WB : !WorkflowBytes} `{SG : !SignalCodec} `{RC : !ResponseCodec}
  `{FS : FileSystem} `{U : Unicode} `{HO : Host}
  `{EN : !Environment} `{HA : !FlowNodeHarness} `{EX : !Executor}.

(** * Beginning a superstep *)

(** The loop body of [begin_superstep]. *)
Definition begin_superstep_item (id : string) : RunM WorkflowSuperstepNodeV1 :=
  let* run := m_self in
  let input := node_input run id in
  let* node_run_id := m_world new_v4 in
  let attempt := next_attempt run id in
  let* node_run := superstep_node_run node_run_id id attempt input in
  m_update (fun run => run <| node_runs := node_runs run ++ [node_run] |>
                           <| ready_nodes := remove_first (ready_nodes run) id |>) ;;*
  m_ret {| item_node_id := id; item_node_run_id := node_run_id; item_attempt := attempt;
           item_input := input |}.

Fixpoint begin_superstep_items (ids : list string) : RunM (list WorkflowSuperstepNodeV1) :=
  match ids with
  | [] => m_ret []
  | id :: ids' => let* item := begin_superstep_item id in
                  let* items := begin_superstep_items ids' in
                  m_ret (item :: items)
  end.

(** [self.started_at.get_or_insert_with(Utc::now)] *)
Definition mark_started : RunM unit :=
  let* run := m_self in
  match run_started_at run with
  | Some _ => m_ret tt
  | None => let* now := m_world utc_now in m_update (fun run => run <| run_started_at := Some now |>)
  end.

(** [begin_superstep] up to the store access. *)
Definition begin_superstep_run (ids : list string) : RunM unit :=
  m_ensure (negb (bool_decide (ids = []))) "cannot begin an empty superstep" ;;*
  let* run := m_self in
  m_ensure (u32_saturating_add (node_executions run) (as_u32 (vec_len ids))
            <=? max_node_executions (run_budget run))
    ("Flow node execution budget exhausted (" +:+ pretty (max_node_executions (run_budget run))
     +:+ ")") ;;*
  let* items := begin_superstep_items ids in
  m_update (fun run => run
    <| node_executions := u32_saturating_add (node_executions run)
                            (u32_of_usize_sat (vec_len items)) |>
    <| run_status := Running |>) ;;*
  mark_started ;;*
  let* checkpoint_id := m_world new_v4 in
  let* created_at := m_world utc_now in
  m_update (fun run => run <| active_checkpoint := Some
    {| ck_id := checkpoint_id; ck_superstep := u32_saturating_add (run_superstep run) 1;
       ck_status := CkRunning; ck_nodes := items; ck_pending_writes := [];
       ck_created_at := created_at; ck_completed_at := None |} |>) ;;*
  touch.

Definition begin_superstep (run : FlowRunV1) (ids : list string) : StoreM unit :=
  let* (_, run') := on_run run (begin_superstep_run ids) in
  update_flow_run run' (run_revision run) ;;*
  m_ret tt.

(** * Executing the nodes of a checkpoint *)

Definition remaining_tool_calls (run : FlowRunV1) : Z :=
  u32_saturating_sub (max_tool_calls (run_budget run)) (run_tool_calls run).

(** The context an Agent, Skill or Tool node receives. *)
Definition node_context (run : FlowRunV1) (id : string) (context : ToolInvocationContext)
    : Result anyhow ToolInvocationContext :=
  let? restricted := restrict_flow_node_connection_context
                       (effective_connection_authority_for_node run id) context in
  Ok (restricted <| capability_projection := effective_capabilities_for_node run id |>).

(** The [async] block of [execute_checkpoint_node]. *)
Definition run_checkpoint_node (run : FlowRunV1) (item : WorkflowSuperstepNodeV1)
    (context : ToolInvocationContext) (w : World)
    : Result anyhow FlowNodeExecutionOutcomeV1 * World :=
  match find_node (run_graph run) (item_node_id item) with
  | None => (Err (Msg ("Flow node disappeared from checkpoint: " +:+ item_node_id item)), w)
  | Some node =>
      match kind node with
      | Condition | Validator | Join | Loop | Output =>
          (result_map OutcomeCompleted (execute_runtime_node node (item_input item)), w)
      | Agent | Skill | Tool =>
          match node_context run (item_node_id item) context with
          | Err e => (Err e, w)
          | Ok context =>
              execute_flow_node
                {| req_flow_run_id := run_id run; req_node_run_id := item_node_run_id item;
                   req_node := node; req_flow_input := run_input run;
                   req_input := item_input item;
                   req_capabilities := effective_capabilities_for_node run (item_node_id item);
                   req_agent_spec := workflow_agent_spec run (item_node_id item);
                   req_remaining_tool_calls := remaining_tool_calls run;
                   req_context := context |} w
          end
      | Approval => (Err (Msg "approval nodes cannot execute inside a superstep"), w)
      end
  end.

(** [None] is the panic of [expect]. *)
Definition execute_checkpoint_node (run : FlowRunV1) (context : ToolInvocationContext)
    (item : WorkflowSuperstepNodeV1) (w : World) : option WorkflowPendingWriteV1 * World :=
  let write result error interrupt w :=
    let '(now, w) := utc_now w in
    (Some {| write_node_id := item_node_id item; write_node_run_id := item_node_run_id item;
             write_result := result; write_error := error; write_interrupt := interrupt;
             write_resume_command := None; write_completed_at := now |}, w) in
  match run_checkpoint_node run item context w with
  | (Ok (OutcomeCompleted result), w) => write (Some result) None None w
  | (Ok (OutcomeInterrupted interrupt), w) =>
      match active_checkpoint run with
      | None => (None, w)
      | Some checkpoint =>
          write None None (Some (at_checkpoint (ck_id checkpoint) (ck_superstep checkpoint)
                                   (item_node_id item) (item_node_run_id item) interrupt)) w
      end
  | (Err e, w) => write None (Some (error_string e)) None w
  end.

Definition m_execute (run : FlowRunV1) (context : ToolInvocationContext)
    (item : WorkflowSuperstepNodeV1) : StoreM WorkflowPendingWriteV1 :=
  let* write := m_world (execute_checkpoint_node run context item) in
  match write with
  | Some write => m_ret write
  | None => m_fail (Panic "checkpoint node execution requires an active checkpoint")
  end.

(** The [async] block of [execute_resume_checkpoint_node]. *)
Definition run_resume_node (run : FlowRunV1) (previous : WorkflowPendingWriteV1)
    (interrupt : WorkflowInterruptRequestV1) (command : FlowResumeCommandV1)
    (context : ToolInvocationContext) (w : World)
    : Result anyhow FlowNodeExecutionOutcomeV1 * World :=
  let id := write_node_id previous in
  let prepared :=
    let? _ := ensure (validates command interrupt)
                "ResumeCommand does not match the active interrupt revision" in
    let? node := opt_context (find_node (run_graph run) id)
                   "resuming Flow node disappeared from the graph" in
    let? _ := ensure (match kind node with Agent | Skill => true | _ => false end)
                "only Agent and Skill nodes have resumable continuations" in
    let? context := node_context run id context in
    Ok (node, context) in
  match prepared with
  | Err e => (Err e, w)
  | Ok (node, context) =>
      let input :=
        default Null (checkpoint ← active_checkpoint run;
                      item ← List.find (fun item => bool_decide
                               (item_node_run_id item = write_node_run_id previous))
                               (ck_nodes checkpoint);
                      Some (item_input item)) in
      resume_flow_node
        {| res_flow_run_id := run_id run; res_node_run_id := write_node_run_id previous;
           res_node := node; res_flow_input := run_input run; res_input := input;
           res_capabilities := effective_capabilities_for_node run id;
           res_agent_spec := workflow_agent_spec run id;
           res_remaining_tool_calls := remaining_tool_calls run;
           res_interrupt := interrupt; res_command := command; res_context := context |} w
  end.

Definition execute_resume_checkpoint_node (run : FlowRunV1) (previous : WorkflowPendingWriteV1)
    (interrupt : WorkflowInterruptRequestV1) (command : FlowResumeCommandV1)
    (context : ToolInvocationContext) (w : World) : WorkflowPendingWriteV1 * World :=
  let write result interrupt w :=
    let '(now, w) := utc_now w in
    (previous <| write_result := result |> <| write_error := None |>
              <| write_interrupt := interrupt |> <| write_resume_command := Some command |>
              <| write_completed_at := now |>, w) in
  match run_resume_node run previous interrupt command context w with
  | (Ok (OutcomeCompleted result), w) => write (Some result) None w
  | (Ok (OutcomeInterrupted next), w) =>
      write None (Some (at_checkpoint (interrupt_checkpoint_id interrupt)
                          (interrupt_superstep interrupt) (write_node_id previous)
                          (write_node_run_id previous) next)) w
  | (Err e, w) =>
      let '(retry, w) := resume_retry interrupt command (error_string e) w in
      write None (Some retry) w
  end.
End driver.
