(* ===== verification/FlowCommit.v ===== *)
(** The checkpoint protocol of [flow_runtime.rs]: recording the writes of a
    superstep under optimistic concurrency, committing them, and the pauses that
    hand a run to a person. *)
From S2P Require Import Prelude RustStr RustStrFacts Json Enterprise WorkflowState WorkflowAutomation FlowGraph FlowActivation Flow WorkflowInterrupt HumanTask Workflow FlowRun FlowEngine FlowResume FlowStore FlowDriver.

(** What the first pass over the pending writes of a commit collects. *)
Record CommitProgress `{JsonNumber} := {
  succeeded : list (GraphNodeV1 * Value);
  routed_errors : list string;
  unhandled_error : option string;
}.

Section commit.
Context `{JN : JsonNumber} `{JT : !JsonText} `{SWC : !StateWriteCodec} `{AC : !ActivationCodec}
  `{SC : !SpecCodec} `{WB : !WorkflowBytes} `{SG : !SignalCodec} `{RC : !ResponseCodec}
  `{FS : FileSystem} `{U : Unicode} `{HO : Host}
  `{EN : !Environment} `{HA : !FlowNodeHarness} `{EX : !Executor}.

(** The active checkpoint, if it is still the one being worked on. *)
Definition matching_checkpoint (run : FlowRunV1) (checkpoint_id : Uuid)
    : option WorkflowCheckpointV1 :=
  checkpoint ← active_checkpoint run;
  if bool_decide (ck_id checkpoint = checkpoint_id) then Some checkpoint else None.

(** * Pending writes *)

Definition sort_writes (writes : list WorkflowPendingWriteV1) : list WorkflowPendingWriteV1 :=
  sort_by_key write_node_id writes.

(** The change of one attempt of [persist_pending_write]: [None] when the node's
    write is already recorded. *)
Definition add_pending_write (run : FlowRunV1) (checkpoint_id : Uuid)
    (write : WorkflowPendingWriteV1) : Result anyhow (option FlowRunV1) :=
  let? checkpoint := opt_context (matching_checkpoint run checkpoint_id)
                       "Flow checkpoint changed while a node was executing" in
  Ok (if existsb (fun existing => String.eqb (write_node_id existing) (write_node_id write))
                 (ck_pending_writes checkpoint)
      then None
      else Some (run <| active_checkpoint := Some (checkpoint <| ck_pending_writes :=
                   sort_writes (ck_pending_writes checkpoint ++ [write]) |>) |>)).

(** The loop both persist functions run: read, change a copy, touch it, write it
    back if the revision is still the one read, and start over on a conflict. *)
Fixpoint cas_loop (attempts : nat) (gone exhausted : string)
    (change : FlowRunV1 -> Result anyhow (option FlowRunV1)) (id : Uuid) : StoreM unit :=
  match attempts with
  | O => m_fail (Msg exhausted)
  | S attempts' =>
      let* found := get_flow_run id in
      let* run := m_lift (opt_context found gone) in
      let* changed := m_lift (change run) in
      match changed with
      | None => m_ret tt
      | Some run' =>
          let* (_, run') := on_run run' touch in
          on_conflict (update_flow_run run' (run_revision run) ;;* m_ret tt)
                      (cas_loop attempts' gone exhausted change id)
      end
  end.

Definition PERSIST_ATTEMPTS : nat := 8.

Definition persist_pending_write (id checkpoint_id : Uuid) (write : WorkflowPendingWriteV1)
    : StoreM unit :=
  cas_loop PERSIST_ATTEMPTS "Flow run disappeared while recording a pending write"
    "Flow checkpoint could not persist a pending write after concurrent updates"
    (fun run => add_pending_write run checkpoint_id write) id.

(** The change of one attempt of [replace_pending_write]. *)
Definition swap_pending_write (run : FlowRunV1) (checkpoint_id : Uuid)
    (replacement : WorkflowPendingWriteV1) : Result anyhow FlowRunV1 :=
  let same_node write := bool_decide (write_node_run_id write = write_node_run_id replacement) in
  let? checkpoint := opt_context (matching_checkpoint run checkpoint_id)
                       "Flow checkpoint changed while a node continuation was resuming" in
  let? current := opt_context (List.find same_node (ck_pending_writes checkpoint))
                    "resumed Flow node pending write disappeared" in
  let? _ := ensure (bool_decide (command_id <$> write_resume_command current
                                 = command_id <$> write_resume_command replacement))
              "resumed Flow node command changed while it was executing" in
  Ok (run <| active_checkpoint := Some (checkpoint <| ck_pending_writes :=
               update_first_or same_node (fun _ => replacement) (ck_pending_writes checkpoint) |>) |>
          <| run_status := Running |> <| active_human_task_id := None |>).

Definition replace_pending_write (id checkpoint_id : Uuid) (replacement : WorkflowPendingWriteV1)
    : StoreM unit :=
  cas_loop PERSIST_ATTEMPTS "Flow run disappeared while recording a resumed write"
    "Flow continuation result could not be persisted after concurrent updates"
    (fun run => result_map Some (swap_pending_write run checkpoint_id replacement)) id.

(** * Pauses *)

Definition interrupt_kind_json (k : WorkflowInterruptKindV1) : string :=
  match k with
  | IApproval => "approval"
  | IInputRequest => "input_request"
  | IExternalAction => "external_action"
  | IEffectReconciliation => "effect_reconciliation"
  | IResumeRetry => "resume_retry"
  end.

Definition json_uuid (id : Uuid) : Value := VString (host_uuid_string id).

Definition has_run_id (id : Uuid) (node_run : FlowNodeRunV1) : bool :=
  bool_decide (node_run_id node_run = id).

(** Up to the payload. *)
Definition mark_interrupted (interrupt : WorkflowInterruptRequestV1) : RunM unit :=
  let* run := m_self in
  let id := interrupt_node_run_id interrupt in
  let* _ := m_lift (opt_context (List.find (has_run_id id) (node_runs run))
                      "interrupted Flow node run disappeared") in
  let* entry := m_world (transcript_entry
    (match interrupt_kind interrupt with IApproval => TApproval | _ => TInput end)
    "Waiting for human input"
    (json_object [("interruptId", json_uuid (interrupt_id interrupt));
                  ("kind", VString (interrupt_kind_json (interrupt_kind interrupt)));
                  ("checkpointId", json_uuid (interrupt_checkpoint_id interrupt));
                  ("continuationId", json_uuid (envelope_id (interrupt_continuation interrupt)))])) in
  m_update (fun run => run <| node_runs := update_first_or (has_run_id id) (fun node_run =>
    node_run <| node_run_status := NodeWaitingHuman |>
             <| node_run_transcript :=
                  extend_transcript_unique (node_run_transcript node_run)
                                           (interrupt_transcript interrupt) ++ [entry] |>)
    (node_runs run) |>).

Definition interrupt_task_payload (run : FlowRunV1) (interrupt : WorkflowInterruptRequestV1)
    : gmap string Value :=
  fold_left (fun payload '(key, value) => <[key := value]> payload)
    [("flowId", VString (run_flow_id run)); ("flowVersion", json_u64 (run_flow_version run));
     ("interruptId", json_uuid (interrupt_id interrupt));
     ("interruptRevision", json_u64 (interrupt_revision interrupt));
     ("checkpointId", json_uuid (interrupt_checkpoint_id interrupt));
     ("superstep", json_u64 (interrupt_superstep interrupt));
     ("nodeId", VString (interrupt_node_id interrupt));
     ("continuationId", json_uuid (envelope_id (interrupt_continuation interrupt)))]
    (match interrupt_payload interrupt with VObject payload => payload
                                          | value => {["value" := value]} end).

Definition attach_receipt (payload : gmap string Value) : StoreM (gmap string Value) :=
  match (payload !! "effectId" ≫= as_str) ≫= host_uuid_parse with
  | None => m_ret payload
  | Some effect_id =>
      let* receipt := get_effect effect_id in
      m_ret (match receipt with
             | Some receipt => <["activityReceipt" := receipt]> payload
             | None => payload
             end)
  end.

Definition pause_for_interrupt (run : FlowRunV1) (expected_revision : Z)
    (checkpoint : WorkflowCheckpointV1) (interrupt : WorkflowInterruptRequestV1) : StoreM unit :=
  let* (_, run) := on_run run (mark_interrupted interrupt) in
  let* payload := attach_receipt (interrupt_task_payload run interrupt) in
  let* task := m_world (flow_interrupt (run_thread_id run) (run_id run) interrupt (VObject payload)) in
  let* (_, run) := on_run run (
    m_update (fun run => run <| run_status := WaitingHuman |>
                             <| waiting_node_id := Some (interrupt_node_id interrupt) |>
                             <| active_human_task_id := Some (task_id task) |>
                             <| active_checkpoint := Some checkpoint |>) ;;*
    touch) in
  update_flow_run_and_human_task run expected_revision task None ;;*
  m_ret tt.

(** [pause_for_approval] up to the store access. *)
Definition pause_for_approval_run (node : GraphNodeV1) : RunM HumanTaskV1 :=
  let id := node_id node in
  let* run := m_self in
  let input := node_input run id in
  m_update (fun run => run <| ready_nodes := remove_first (ready_nodes run) id |>) ;;*
  let* node_run_id := m_world new_v4 in
  let attempt := next_attempt run id in
  let* input_entry := m_world (transcript_entry TInput "Node input" input) in
  let* approval_entry := m_world (transcript_entry TApproval "Waiting for human approval"
                                    (json_object [("status", VString "pending")])) in
  let* now := m_world utc_now in
  m_update (fun run => run
    <| node_runs := node_runs run ++
         [{| node_run_id := node_run_id; node_run_node_id := id; node_run_attempt := attempt;
             node_run_status := NodeWaitingApproval; node_run_input := input;
             node_run_output := None; node_run_error := None; node_run_tool_calls := 0;
             node_run_transcript := [input_entry; approval_entry];
             node_run_started_at := now; node_run_completed_at := None |}] |>
    <| node_executions := u32_saturating_add (node_executions run) 1 |>) ;;*
  mark_started ;;*
  m_update (fun run => run <| waiting_node_id := Some id |> <| run_status := WaitingApproval |>) ;;*
  let* task := m_world (flow_approval (run_thread_id run) (run_id run) node_run_id id (label node)
    (json_object [("flowId", VString (run_flow_id run)); ("flowVersion", json_u64 (run_flow_version run));
                  ("nodeId", VString id); ("nodeLabel", VString (label node)); ("input", input)])) in
  m_update (fun run => run <| active_human_task_id := Some (task_id task) |>) ;;*
  touch ;;*
  m_ret task.

Definition pause_for_approval (run : FlowRunV1) (node : GraphNodeV1) : StoreM unit :=
  let* (task, run') := on_run run (pause_for_approval_run node) in
  update_flow_run_and_human_task run' (run_revision run) task None ;;*
  m_ret tt.

(** * Commit *)

(** The loop body of the first pass over the pending writes. *)
Definition record_write (progress : CommitProgress) (write : WorkflowPendingWriteV1)
    : RunM CommitProgress :=
  let* run := m_self in
  let* node := m_lift (opt_context (find_node (run_graph run) (write_node_id write))
                         "Flow checkpoint references a missing graph node") in
  let* _ := m_lift (opt_context (List.find (has_run_id (write_node_run_id write)) (node_runs run))
                      "Flow checkpoint node run disappeared") in
  let update_node_run f := m_update (fun run => run <| node_runs :=
    update_first_or (has_run_id (write_node_run_id write))
      (fun node_run => f (node_run <| node_run_completed_at := Some (write_completed_at write) |>))
      (node_runs run) |>) in
  match write_result write with
  | Some result =>
      let* entry := m_world (transcript_entry TOutput "Node output" (result_output result)) in
      update_node_run (fun node_run =>
        node_run <| node_run_status := NodeSucceeded |>
                 <| node_run_output := Some (result_output result) |>
                 <| node_run_tool_calls := result_tool_calls result |>
                 <| node_run_transcript :=
                      extend_transcript_unique (node_run_transcript node_run)
                                               (result_transcript result) ++ [entry] |>) ;;*
      m_update (fun run => run <| run_tool_calls :=
                  u32_saturating_add (run_tool_calls run) (result_tool_calls result) |>) ;;*
      m_ret {| succeeded := succeeded progress ++ [(node, result_output result)];
               routed_errors := routed_errors progress;
               unhandled_error := unhandled_error progress |}
  | None =>
      let error := default "node execution failed" (write_error write) in
      let* entry := m_world (transcript_entry TError "Node failed"
                               (json_object [("message", VString error)])) in
      update_node_run (fun node_run =>
        node_run <| node_run_status := NodeFailed |> <| node_run_error := Some error |>
                 <| node_run_transcript := node_run_transcript node_run ++ [entry] |>) ;;*
      m_ret (match error_route (run_graph run) (write_node_id write) with
             | Some target =>
                 {| succeeded := succeeded progress;
                    routed_errors := routed_errors progress ++ [target];
                    unhandled_error := unhandled_error progress |}
             | None =>
                 {| succeeded := succeeded progress; routed_errors := routed_errors progress;
                    unhandled_error := match unhandled_error progress with
                                       | Some e => Some e
                                       | None => Some ("node " +:+ write_node_id write
                                                       +:+ " failed: " +:+ error)
                                       end |}
             end)
  end.

Fixpoint record_writes (progress : CommitProgress) (writes : list WorkflowPendingWriteV1)
    : RunM CommitProgress :=
  match writes with
  | [] => m_ret progress
  | write :: writes' => let* progress := record_write progress write in
                        record_writes progress writes'
  end.

(** The tool-call budget is checked after the first pass. *)
Definition check_tool_budget (run : FlowRunV1) (progress : CommitProgress) : option string :=
  match unhandled_error progress with
  | Some e => Some e
  | None => if max_tool_calls (run_budget run) <? run_tool_calls run
            then Some ("Flow tool-call budget exhausted ("
                       +:+ pretty (max_tool_calls (run_budget run)) +:+ ")")
            else None
  end.

Definition on_run_state {A} (m : M (gmap string Value) A) : RunM A :=
  fun '(run, w) => let '(r, state) := m (run_state run) in (r, (run <| run_state := state |>, w)).

Definition publish_output (entry : GraphNodeV1 * Value) : RunM unit :=
  let '(node, output) := entry in
  m_update (fun run => run <| node_outputs := <[node_id node := output]> (node_outputs run) |>) ;;*
  let* writes := m_lift (map_err Msg (parse_state_writes (config node))) in
  on_run_state (apply_state_writes writes output).

Definition is_output_node (node : GraphNodeV1) : bool := bool_decide (kind node = Output).

Definition route_output (entry : GraphNodeV1 * Value) : RunM unit :=
  let '(node, output) := entry in
  if is_output_node node then m_ret tt else route_after_node (node_id node) output.

(** The block run when no node failed without a route. *)
Definition publish_outputs (progress : CommitProgress) : RunM unit :=
  m_for (succeeded progress) publish_output ;;*
  m_for (succeeded progress) route_output ;;*
  m_update (fun run => run <| ready_nodes :=
    fold_left enqueue_unique (routed_errors progress) (ready_nodes run) |>).

(** [output_values] at the end of the second pass. *)
Definition output_values (progress : CommitProgress) : list (string * Value) :=
  omap (fun '(node, output) => if is_output_node node then Some (node_id node, output) else None)
       (succeeded progress).

Definition trim_history (history : list WorkflowCheckpointSummaryV1)
    : list WorkflowCheckpointSummaryV1 :=
  drop (length history - Z.to_nat MAX_CHECKPOINT_HISTORY) history.

Definition finished_output (values : list (string * Value)) : option Value :=
  match values with
  | [(_, output)] => Some output
  | values => Some (json_object values)
  end.

(** The branch of the commit whose superstep produced outputs: the review task, or
    success. *)
Definition finish_with_outputs (checkpoint : WorkflowCheckpointV1) (completed_at : DateTime)
    (values : list (string * Value)) : RunM (option HumanTaskV1) :=
  m_update (fun run => run <| run_output := finished_output values |>) ;;*
  let* run := m_self in
  if output_review_required run && negb (output_reviewed run)
  then
    let review_node_id := fst <$> head values in
    let node_run := id ← review_node_id;
                    find_last (fun n => String.eqb (node_run_node_id n) id) (node_runs run) in
    let* task := m_world (flow_output_review (run_thread_id run) (run_id run)
      (node_run_id <$> node_run) review_node_id (ck_id checkpoint)
      (json_object [("flowId", VString (run_flow_id run));
                    ("flowVersion", json_u64 (run_flow_version run));
                    ("checkpointId", json_uuid (ck_id checkpoint));
                    ("output", json_option id (run_output run))])) in
    m_update (fun run => run <| run_status := WaitingHuman |>
                             <| active_human_task_id := Some (task_id task) |>) ;;*
    touch ;;*
    m_ret (Some task)
  else
    m_update (fun run => run <| run_status := Succeeded |>
                             <| run_completed_at := Some completed_at |>) ;;*
    touch ;;*
    m_ret None.

(** [commit_active_checkpoint] once the writes are complete and uninterrupted, on
    the run without its checkpoint; the task to insert when the output is up for
    review. *)
Definition commit_checkpoint (checkpoint : WorkflowCheckpointV1) : RunM (option HumanTaskV1) :=
  let* progress := record_writes {| succeeded := []; routed_errors := []; unhandled_error := None |}
                     (ck_pending_writes checkpoint) in
  let* run := m_self in
  let failure := check_tool_budget run progress in
  (match failure with None => publish_outputs progress | Some _ => m_ret tt end) ;;*
  let values := match failure with None => output_values progress | Some _ => [] end in
  let* completed_at := m_world utc_now in
  let status := match failure with Some _ => CkFailed | None => CkCommitted end in
  m_update (fun run => run <| run_superstep := ck_superstep checkpoint |>
    <| checkpoint_history := trim_history (checkpoint_history run
         ++ [checkpoint_summary checkpoint status completed_at]) |>) ;;*
  match failure with
  | Some error =>
      m_update (fun run => run <| run_status := Failed |> <| run_error := Some error |>
                               <| run_completed_at := Some completed_at |>) ;;*
      touch ;;* m_ret None
  | None =>
      match values with
      | [] => m_update (fun run => run <| run_status :=
                match run_status run with PauseRequested => Paused | _ => Running end |>) ;;*
              touch ;;* m_ret None
      | _ => finish_with_outputs checkpoint completed_at values
      end
  end.

(** The four lines that cancel a run at a checkpoint boundary. *)
Definition cancel_run : RunM unit :=
  cancel_active_checkpoint ;;*
  m_update (fun run => run <| run_status := Cancelled |>) ;;*
  let* now := m_world utc_now in
  m_update (fun run => run <| run_completed_at := Some now |>) ;;*
  touch.

Definition commit_active_checkpoint (id checkpoint_id : Uuid) : StoreM unit :=
  let* found := get_flow_run id in
  let* run := m_lift (opt_context found "Flow run disappeared before checkpoint commit") in
  let expected := run_revision run in
  let* checkpoint := m_lift (opt_context (matching_checkpoint run checkpoint_id)
                               "Flow checkpoint changed before commit") in
  if bool_decide (run_status run = CancelRequested)
  then let* (_, run') := on_run run cancel_run in
       update_flow_run run' expected ;;* m_ret tt
  else
    m_ensure (vec_len (ck_pending_writes checkpoint) =? vec_len (ck_nodes checkpoint))
      "Flow checkpoint has incomplete pending writes" ;;*
    let checkpoint := checkpoint <| ck_pending_writes := sort_writes (ck_pending_writes checkpoint) |> in
    let run := run <| active_checkpoint := None |> in
    match find_map write_interrupt (ck_pending_writes checkpoint) with
    | Some interrupt => pause_for_interrupt run expected checkpoint interrupt
    | None =>
        let* (task, run') := on_run run (commit_checkpoint checkpoint) in
        match task with
        | Some task => update_flow_run_and_human_task run' expected task None ;;* m_ret tt
        | None => update_flow_run run' expected ;;* m_ret tt
        end
    end.
End commit.
