(* ===== verification/FlowLoop.v ===== *)
(** The loop of [drive_flow_run], the task [spawn_flow_run] starts, and the pause,
    resume and cancel requests of [flow_tools.rs] that race with it. *)
From S2P Require Import Prelude RustStr RustStrFacts Json Enterprise WorkflowState WorkflowAutomation FlowGraph FlowActivation Flow WorkflowInterrupt HumanTask Workflow FlowRun FlowEngine FlowResume FlowStore FlowDriver FlowCommit.

Section drive.
Context `{JN : JsonNumber} `{JT : !JsonText} `{SWC : !StateWriteCodec} `{AC : !ActivationCodec}
  `{SC : !SpecCodec} `{WB : !WorkflowBytes} `{SG : !SignalCodec} `{RC : !ResponseCodec}
  `{FS : FileSystem} `{U : Unicode} `{HO : Host}
  `{EN : !Environment} `{HA : !FlowNodeHarness} `{EX : !Executor}.

(** * One pass over an active checkpoint *)

Definition resumable_write (checkpoint : WorkflowCheckpointV1)
    : option (WorkflowPendingWriteV1 * WorkflowInterruptRequestV1 * FlowResumeCommandV1) :=
  find_map (fun write =>
    interrupt ← write_interrupt write;
    command ← write_resume_command write;
    if validates command interrupt then Some (write, interrupt, command) else None)
    (ck_pending_writes checkpoint).

Definition resume_checkpoint (context : ToolInvocationContext) (run : FlowRunV1)
    (checkpoint : WorkflowCheckpointV1) : StoreM unit :=
  let* (write, interrupt, command) := m_lift (opt_context (resumable_write checkpoint)
        "Flow run is resuming without a matching persisted ResumeCommand") in
  let* replacement := m_world (execute_resume_checkpoint_node run write interrupt command context) in
  replace_pending_write (run_id run) (ck_id checkpoint) replacement.

Definition pending_items (checkpoint : WorkflowCheckpointV1) : list WorkflowSuperstepNodeV1 :=
  let completed : gset string := list_to_set (write_node_id <$> ck_pending_writes checkpoint) in
  List.filter (fun item => negb (bool_decide (item_node_id item ∈ completed))) (ck_nodes checkpoint).

(** The split into [parallel] and [serial]. *)
Fixpoint split_items (run : FlowRunV1) (items : list WorkflowSuperstepNodeV1)
    : Result anyhow (list WorkflowSuperstepNodeV1 * list WorkflowSuperstepNodeV1) :=
  match items with
  | [] => Ok ([], [])
  | item :: items' =>
      let? node := opt_context (find_node (run_graph run) (item_node_id item))
                     "Flow checkpoint references a missing node" in
      let? (parallel, serial) := split_items run items' in
      Ok (if node_is_parallel_safe node then (item :: parallel, serial) else (parallel, item :: serial))
  end.

Fixpoint execute_items (run : FlowRunV1) (context : ToolInvocationContext)
    (items : list WorkflowSuperstepNodeV1) : StoreM (list WorkflowPendingWriteV1) :=
  match items with
  | [] => m_ret []
  | item :: items' => let* write := m_execute run context item in
                      let* writes := execute_items run context items' in
                      m_ret (write :: writes)
  end.

Definition complete_checkpoint (context : ToolInvocationContext) (run : FlowRunV1)
    (checkpoint : WorkflowCheckpointV1) : StoreM unit :=
  let* (parallel, serial) := m_lift (split_items run (pending_items checkpoint)) in
  let* results := execute_items run context parallel in
  let* results := m_world (fun w => (completion_order w results, N.succ w)) in
  m_for results (persist_pending_write (run_id run) (ck_id checkpoint)) ;;*
  m_for serial (fun item =>
    let* write := m_execute run context item in
    persist_pending_write (run_id run) (ck_id checkpoint) write) ;;*
  commit_active_checkpoint (run_id run) (ck_id checkpoint).

(** * Between supersteps *)

(** Nothing is ready: the run is finished or deadlocked. *)
Definition settle_run : RunM unit :=
  let* run := m_self in
  (if bool_decide (ready_nodes run = [])
   then m_update (fun run => run <| run_status := Succeeded |> <| run_output := terminal_output run |>)
   else m_update (fun run => run <| run_status := Failed |>
          <| run_error := Some ("Flow graph is deadlocked; waiting nodes: "
                                +:+ String.concat ", " (ready_nodes run)) |>)) ;;*
  let* now := m_world utc_now in
  m_update (fun run => run <| run_completed_at := Some now |>) ;;*
  touch.

Definition approval_node (run : FlowRunV1) (ready : list string) : option GraphNodeV1 :=
  find_map (fun id => List.find (fun node => String.eqb (node_id node) id
                                             && bool_decide (kind node = Approval))
                        (nodes (run_graph run))) ready.

Definition update_and_stop (run : FlowRunV1) (m : RunM unit) : StoreM bool :=
  let* (_, run') := on_run run m in
  update_flow_run run' (run_revision run) ;;*
  m_ret false.

(** The statuses on which the driver returns without touching the run. *)
Definition run_is_parked (run : FlowRunV1) : bool :=
  is_terminal (run_status run)
  || match run_status run with WaitingApproval | WaitingHuman => true | _ => false end.

(** The iteration's work on a run that is neither parked nor asked to stop: an
    active checkpoint, or the next superstep; [true] continues the loop. *)
Definition drive_work (context : ToolInvocationContext) (run : FlowRunV1) : StoreM bool :=
  let* within := m_world (enforce_run_budget run) in
  m_lift within ;;*
  match active_checkpoint run with
  | Some checkpoint =>
      (if bool_decide (run_status run = Resuming)
       then resume_checkpoint context run checkpoint
       else complete_checkpoint context run checkpoint) ;;*
      m_ret true
  | None =>
      match ready_superstep_nodes run with
      | [] => update_and_stop run settle_run
      | ready =>
          match approval_node run ready with
          | Some node => pause_for_approval run node ;;* m_ret false
          | None => begin_superstep run ready ;;* m_ret true
          end
      end
  end.

(** One iteration of the loop. *)
Definition drive_step (context : ToolInvocationContext) (id : Uuid) : StoreM bool :=
  let* found := get_flow_run id in
  let* run := m_lift (opt_context found ("Flow run not found: " +:+ host_uuid_string id)) in
  if run_is_parked run then m_ret false
  else match run_status run, active_checkpoint run with
  | CancelRequested, _ => update_and_stop run cancel_run
  | PauseRequested, None =>
      update_and_stop run (m_update (fun run => run <| run_status := Paused |>) ;;* touch)
  | Paused, _ => m_ret false
  | _, _ => drive_work context run
  end.

(** [drive_flow_run] with a bound on the number of iterations; [None] when the
    bound is hit, which the driver itself does not have. *)
Fixpoint drive_loop (fuel : nat) (context : ToolInvocationContext) (id : Uuid)
    : StoreM (option unit) :=
  match fuel with
  | O => m_ret None
  | S fuel => let* continue := drive_step context id in
              if continue then drive_loop fuel context id else m_ret (Some tt)
  end.

Definition drive_flow_run (fuel : nat) (context : ToolInvocationContext) (id : Uuid)
    : StoreM (option unit) :=
  m_ensure (has_state context) "Flow Runtime requires a persistent SessionStore" ;;*
  m_ensure (has_flow_harness context) "Flow Runtime requires the Agent Harness" ;;*
  drive_loop fuel context id.

(** The task of [spawn_flow_run]: an error of the driver fails the run if it can;
    a panic unwinds past it. *)
Definition flow_run_task (fuel : nat) (context : ToolInvocationContext) (id : Uuid)
    : FlowStore * World -> FlowStore * World := fun s =>
  match drive_flow_run fuel context id s with
  | (Ok _, s) => s
  | (Err (Panic _), s) => s
  | (Err error, s) =>
      match get_flow_run id s with
      | (Ok (Some run), s) =>
          if is_terminal (run_status run) then s
          else snd ((let* (_, run') := on_run run (fail (error_string error)) in
                     update_flow_run run' (run_revision run)) s)
      | (_, s) => s
      end
  end.

(** The synchronous part of [spawn_flow_run]. *)
Definition spawn_check (context : ToolInvocationContext) : Result anyhow unit :=
  let? _ := ensure (has_state context) "Flow Runtime requires a persistent SessionStore" in
  ensure (has_flow_harness context) "Flow Runtime requires the Agent Harness".

(** * Control requests *)

(** The opening of the control actions of [FlowTool::execute], after
    [require_flow_thread] produced the caller's thread. *)
Definition controlled_run (thread_id id : Uuid) : StoreM FlowRunV1 :=
  let* found := get_flow_run id in
  let* run := m_lift (opt_context found "Flow run not found") in
  m_ensure (bool_decide (run_thread_id run = thread_id)) "Flow run belongs to another session" ;;*
  m_ret run.

Definition flow_tool_pause (thread_id id : Uuid) : StoreM FlowRunV1 :=
  let* run := controlled_run thread_id id in
  m_ensure (match run_status run with Queued | Running => true | _ => false end)
    "only a queued or running Flow can be paused" ;;*
  let* (_, run') := on_run run (
    m_update (fun run => run <| run_status := PauseRequested |>) ;;* touch) in
  update_flow_run run' (run_revision run).

(** Up to [spawn_flow_run], which the caller starts when the run is not terminal. *)
Definition flow_tool_resume (thread_id id : Uuid) (retry_interrupted_node : bool)
    : StoreM FlowRunV1 :=
  let* run := controlled_run thread_id id in
  match run_status run with
  | Paused =>
      let* task := get_pending_human_task_for_flow_run (run_id run) in
      m_ensure (match task with None => true | Some _ => false end)
        "Flow recovery requires a person to resolve the Human task" ;;*
      let* (_, run') := on_run run (
        prepare_flow_resume retry_interrupted_node ;;*
        m_update (fun run => run <| run_status := Running |> <| run_error := None |>) ;;*
        touch) in
      update_flow_run run' (run_revision run)
  | WaitingApproval =>
      m_fail (Msg "Flow approval requires a person to resolve the Human task")
  | _ => m_fail (Msg "Flow run is not paused or waiting for approval")
  end.

(** The status change of the cancel action. *)
Definition request_cancel : RunM unit :=
  let* run := m_self in
  (match run_status run with
   | Paused | WaitingApproval =>
       m_update (fun run => run <| run_status := Cancelled |>) ;;*
       let* now := m_world utc_now in
       m_update (fun run => run <| run_completed_at := Some now |>)
   | _ => m_update (fun run => run <| run_status := CancelRequested |>)
   end) ;;*
  m_update (fun run => run <| active_human_task_id := None |>) ;;*
  touch.

Definition flow_tool_cancel (thread_id id : Uuid) : StoreM FlowRunV1 :=
  let* run := controlled_run thread_id id in
  m_ensure (negb (is_terminal (run_status run))) "Flow run is already terminal" ;;*
  let* (_, run') := on_run run request_cancel in
  let* task := get_pending_human_task_for_flow_run (run_id run') in
  match task with
  | Some task =>
      let* (_, task') := on_task task (cancel_task (Some "Flow run cancelled") "flow_control") in
      let* (run', _) := update_flow_run_and_human_task run' (run_revision run) task'
                          (Some (task_revision task)) in
      m_ret run'
  | None => update_flow_run run' (run_revision run)
  end.
End drive.
