(* ===== verification/FlowProgress.v ===== *)
(** Progress of the driver: every iteration of [drive_flow_run] uses up a bounded
    resource of the stored run, whatever other requests do in the meantime, so the
    loop ends, and it ends with the run settled in the store. *)
From S2P Require Import Prelude RustStr RustStrFacts Json Enterprise WorkflowState WorkflowAutomation FlowGraph FlowActivation Flow WorkflowInterrupt HumanTask Workflow FlowRun FlowEngine FlowResume FlowStore FlowDriver FlowCommit FlowLoop.

Section frames.
Context `{JN : JsonNumber} `{JT : !JsonText} `{SWC : !StateWriteCodec} `{AC : !ActivationCodec}
  `{SC : !SpecCodec} `{WB : !WorkflowBytes} `{SG : !SignalCodec} `{RC : !ResponseCodec}
  `{FS : FileSystem} `{U : Unicode} `{HO : Host}
  `{EN : !Environment} `{HA : !FlowNodeHarness} `{EX : !Executor}.

(** * Frames of the methods on a run *)

(** The fields no method of the driver changes, and those only some change. *)
Definition identity_of (run : FlowRunV1) := (run_id run, run_budget run).
Definition work_of (run : FlowRunV1) := (run_id run, run_budget run, node_executions run).
Definition frame_of (run : FlowRunV1) := (work_of run, active_checkpoint run).

Lemma keeps_touch {X} (g : FlowRunV1 -> X) :
  (forall r n t, g (r <| run_revision := n |> <| run_updated_at := t |>) = g r) -> keeps g touch.
Proof using Type.
  intros Hg. unfold touch. apply keeps_bind; [apply keeps_world|]. intros t.
  apply keeps_update. intros r. apply Hg.
Qed.

Lemma touch_frame : keeps frame_of touch.
Proof using Type. by apply keeps_touch. Qed.
#[local] Hint Resolve touch_frame : keeps.

Lemma consume_loop_budget_frame index policy : keeps frame_of (consume_loop_budget index policy).
Proof using Type. unfold consume_loop_budget. solve_keeps. Qed.
#[local] Hint Resolve consume_loop_budget_frame : keeps.

Lemma route_after_node_frame id output : keeps frame_of (route_after_node id output).
Proof using Type.
  unfold route_after_node. solve_keeps. unfold route_edge. destruct x as [index edge]. solve_keeps.
Qed.
#[local] Hint Resolve route_after_node_frame : keeps.

Lemma on_run_state_frame {A} (m : M (gmap string Value) A) : keeps frame_of (on_run_state m).
Proof using Type. intros run w. unfold on_run_state. by destruct (m (run_state run)). Qed.
#[local] Hint Resolve on_run_state_frame : keeps.

Lemma record_writes_frame progress writes : keeps frame_of (record_writes progress writes).
Proof using Type.
  revert progress. induction writes as [|write writes IH]; intros progress; cbn; solve_keeps.
  unfold record_write. solve_keeps.
Qed.
#[local] Hint Resolve record_writes_frame : keeps.

Lemma commit_checkpoint_frame checkpoint : keeps frame_of (commit_checkpoint checkpoint).
Proof using Type.
  unfold commit_checkpoint, publish_outputs, finish_with_outputs. solve_keeps.
  - unfold publish_output. destruct x as [node output]. solve_keeps.
  - unfold route_output. destruct x as [node output]. solve_keeps.
Qed.

Lemma mark_interrupted_frame interrupt : keeps frame_of (mark_interrupted interrupt).
Proof using Type. unfold mark_interrupted. solve_keeps. Qed.

Lemma begin_superstep_items_work ids : keeps work_of (begin_superstep_items ids).
Proof using Type.
  induction ids as [|id ids IH]; cbn; solve_keeps.
  unfold begin_superstep_item, superstep_node_run. solve_keeps.
Qed.

Lemma mark_started_work : keeps (fun r => (work_of r, run_status r)) mark_started.
Proof using Type. unfold mark_started. solve_keeps. Qed.

Lemma cancel_active_checkpoint_work : keeps work_of cancel_active_checkpoint.
Proof using Type. unfold cancel_active_checkpoint. solve_keeps. Qed.

(** * What one iteration uses up *)

(** Work still allowed by the node budget, refined by how far the current
    superstep is from its commit. *)
Definition superstep_rank (run : FlowRunV1) : nat :=
  match active_checkpoint run with
  | None => 0
  | Some _ => if bool_decide (run_status run = Resuming) then 3
              else if run_is_parked run then 1 else 2
  end.

Definition run_fuel (run : FlowRunV1) : nat :=
  4 * Z.to_nat (max_node_executions (run_budget run) - node_executions run) + superstep_rank run.

Definition stored_fuel (id : Uuid) (st : FlowStore) : nat :=
  match store_runs st !! id with Some run => run_fuel run | None => 0 end.

(** A stored run is filed under its own id, and its budget is a [u32]. *)
Definition document_ok (id : Uuid) (st : FlowStore) : Prop :=
  forall run, store_runs st !! id = Some run ->
    run_id run = id /\ max_node_executions (run_budget run) <= u32_max.

(** What the other clients of the store must respect: they keep the run's document
    well-formed and do not hand the run new work (they may pause, cancel or fail it,
    and do anything to other runs and to tasks). *)
Record calm_environment (id : Uuid) : Prop := {
  calm_documents : forall n st, document_ok id st -> document_ok id (interfere n st);
  calm_fuel : forall n st, (stored_fuel id (interfere n st) <= stored_fuel id st)%nat;
}.

Definition settled (run : FlowRunV1) : Prop :=
  run_is_parked run = true \/ run_status run = Paused.

Section calm.
Context (id : Uuid) (Hcalm : calm_environment id).

(** The store holds a well-formed run with at most [n] units of fuel. *)
Definition within (n : nat) (st : FlowStore) : Prop :=
  document_ok id st /\ (stored_fuel id st <= n)%nat.

(** [m] keeps the run within [n], on success and on failure. *)
Definition burns {A} (n : nat) (m : StoreM A) : Prop := preserves (fun s => within n (fst s)) m.

Lemma within_interfere n k st : within n st -> within n (interfere k st).
Proof using Hcalm.
  intros [Hdoc Hn]. split; [by apply (calm_documents _ Hcalm)|].
  pose proof (calm_fuel _ Hcalm k st). lia.
Qed.

Lemma within_le n n' st : (n <= n')%nat -> within n st -> within n' st.
Proof using Type. intros Hle [Hdoc Hn]. split; [done|lia]. Qed.

Lemma within_stored n st run :
  store_runs st !! id = Some run -> run_id run = id ->
  max_node_executions (run_budget run) <= u32_max -> (run_fuel run <= n)%nat -> within n st.
Proof using Type.
  intros Hrun Hid Hmax Hn. split; [|unfold stored_fuel; by rewrite Hrun].
  intros r Hr. rewrite Hrun in Hr. by injection Hr as <-.
Qed.

Lemma get_flow_run_Ok n found st w st' w' :
  within n st -> get_flow_run id (st, w) = (Ok found, (st', w')) ->
  found = store_runs st' !! id /\ within n st'
  /\ forall run, found = Some run ->
       run_id run = id /\ max_node_executions (run_budget run) <= u32_max
       /\ stored_fuel id st' = run_fuel run.
Proof using Hcalm.
  rewrite get_flow_run_run. intros Hw [= <- <- <-]. apply (within_interfere n w) in Hw.
  split; [done|]. split; [done|]. intros run Hrun. destruct Hw as [Hdoc _].
  destruct (Hdoc run Hrun) as [Hid Hmax]. unfold stored_fuel. by rewrite Hrun.
Qed.

(** A run written back determines the fuel; a failed write leaves the store to the
    others. *)
Lemma update_flow_run_within n n' run expected st w :
  within n st -> run_id run = id -> max_node_executions (run_budget run) <= u32_max ->
  (run_fuel run <= n')%nat ->
  match update_flow_run run expected (st, w) with
  | (Ok _, (st', _)) => store_runs st' !! id = Some run /\ within n' st'
  | (Err _, (st', _)) => within n st'
  end.
Proof using Hcalm.
  intros Hw Hid Hmax Hn. rewrite update_flow_run_run.
  destruct (update_flow_run_conn _ _ _) as [st'|e] eqn:Hu; [|by apply within_interfere].
  apply update_flow_run_conn_Ok in Hu as (current & _ & _ & ->).
  assert (store_runs (interfere w st <| store_runs := <[run_id run := run]> (store_runs (interfere w st)) |>)
            !! id = Some run) by (cbn; by rewrite Hid, lookup_insert_eq).
  split; [done|]. by eapply within_stored.
Qed.

Lemma update_run_and_task_Ok run expected task texpected st w r st' w' :
  run_id run = id ->
  update_flow_run_and_human_task run expected task texpected (st, w) = (Ok r, (st', w')) ->
  store_runs st' !! id = Some run.
Proof using Type.
  intros Hid. unfold update_flow_run_and_human_task, m_bind. rewrite m_transaction_run.
  unfold update_run_and_task_conn.
  destruct (update_flow_run_conn _ _ _) as [st1|] eqn:Hu; cbn; [|done].
  apply update_flow_run_conn_Ok in Hu as (current & _ & _ & ->).
  destruct texpected as [n|]; [unfold update_human_task_conn|unfold insert_human_task_conn]; cbn.
  - destruct (store_tasks _ !! _) as [t|]; [|done]. destruct (_ =? _); [|done].
    intros [= _ <- _]. cbn. by rewrite Hid, lookup_insert_eq.
  - destruct (bool_decide _); [done|]. destruct (existsb _ _); [done|].
    intros [= _ <- _]. cbn. by rewrite Hid, lookup_insert_eq.
Qed.

Lemma on_run_Ok {A} run (m : RunM A) st w a run' st' w' :
  on_run run m (st, w) = (Ok (a, run'), (st', w')) ->
  st' = st /\ m (run, w) = (Ok a, (run', w')).
Proof using Type.
  unfold on_run. destruct (m (run, w)) as [[b|e] [run1 w1]]; [|done]. by intros [= <- <- <- <-].
Qed.

(** ** Beginning a superstep *)

Lemma begin_superstep_items_length ids run w items s :
  begin_superstep_items ids (run, w) = (Ok items, s) -> length items = length ids.
Proof using Type.
  revert run w items s. induction ids as [|i ids IH]; intros run w items s; cbn [begin_superstep_items].
  - by intros [= <- _].
  - intros (item & [run1 w1] & Hi & (items' & s2 & Hr & [= <- _])%m_bind_Ok)%m_bind_Ok.
    cbn. f_equal. by eapply IH.
Qed.

Lemma begin_superstep_run_Ok ids run w u run' w' :
  begin_superstep_run ids (run, w) = (Ok u, (run', w')) ->
  run_id run' = run_id run /\ run_budget run' = run_budget run /\ ids <> []
  /\ run_status run' = Running /\ is_Some (active_checkpoint run')
  /\ node_executions run' = u32_saturating_add (node_executions run)
                                                (u32_of_usize_sat (vec_len ids)).
Proof using Type.
  unfold begin_superstep_run, m_ensure, m_lift, m_self, m_update, m_world, ensure.
  intros H. apply m_bind_Ok in H as (? & ? & [= Hids <-] & H).
  apply m_bind_Ok in H as (? & ? & [= <- <-] & H).
  apply m_bind_Ok in H as (? & ? & [= Hb <-] & H).
  apply m_bind_Ok in H as (items & [run1 w1] & Hitems & H).
  apply m_bind_Ok in H as (? & ? & [= <- <-] & H).
  apply m_bind_Ok in H as (? & [run2 w2] & Hstart & H).
  apply m_bind_Ok in H as (ckid & ? & [= <- <-] & H).
  apply m_bind_Ok in H as (now & ? & [= <- <-] & H).
  apply m_bind_Ok in H as (? & ? & [= <- <-] & H).
  assert (ids <> []) as Hne by (intros ->; done).
  pose proof (begin_superstep_items_length _ _ _ _ _ Hitems) as Hlen.
  pose proof (keeps_run _ _ _ _ _ _ _ (begin_superstep_items_work ids) Hitems) as [= Hid1 Hb1 He1].
  pose proof (keeps_run _ _ _ _ _ _ _ mark_started_work Hstart) as [= Hid2 Hb2 He2 Hs2].
  pose proof (keeps_run _ _ _ _ _ _ _ (keeps_touch (fun r => (frame_of r, run_status r))
                (fun _ _ _ => eq_refl)) H) as [= Hid3 Hb3 He3 Ha3 Hs3].
  cbn in *. unfold vec_len in *. rewrite Hlen in *.
  rewrite Hs3, Ha3, Hid3, Hb3, He3, Hs2, He2, Hid2, Hb2, Hid1, Hb1, He1. eauto 10.
Qed.

Lemma begin_superstep_burns n run ids st w u st' w' :
  within n st -> run_id run = id -> max_node_executions (run_budget run) <= u32_max ->
  node_executions run < max_node_executions (run_budget run) ->
  begin_superstep run ids (st, w) = (Ok u, (st', w')) ->
  document_ok id st' /\ (stored_fuel id st' < run_fuel run)%nat.
Proof using Hcalm.
  intros Hst Hid Hmax Hlt. unfold begin_superstep.
  intros ([? run'] & [st1 w1] & (-> & Hrun)%on_run_Ok & H)%m_bind_Ok.
  apply begin_superstep_run_Ok in Hrun as (Hid' & Hb & Hne & Hs & [ck Hck] & He).
  apply m_bind_Ok in H as (? & [st2 w2] & Hu & [= <- <- <-]).
  pose proof (update_flow_run_within n (run_fuel run') run' (run_revision run) st w1 Hst) as Hf.
  rewrite Hu in Hf. destruct Hf as [Hrun' [Hdoc Hle]]; [congruence|by rewrite Hb|done|].
  split; [done|]. eapply Nat.le_lt_trans; [exact Hle|].
  assert (superstep_rank run' = 2%nat) as Hrank
    by (unfold superstep_rank, run_is_parked; by rewrite Hck, Hs).
  unfold run_fuel. rewrite Hrank, Hb, He.
  assert (1 <= vec_len ids) as Hv by (destruct ids; unfold vec_len; cbn [length]; [done|lia]).
  assert (node_executions run + 1 <= u32_saturating_add (node_executions run) (u32_of_usize_sat (vec_len ids))).
  { unfold u32_saturating_add, u32_of_usize_sat. destruct (Z.leb_spec (vec_len ids) u32_max); unfold u32_max in *; lia. }
  lia.
Qed.

(** ** Recording writes *)

Lemma add_pending_write_fuel run ck write run' :
  add_pending_write run ck write = Ok (Some run') ->
  run_id run' = run_id run /\ run_budget run' = run_budget run /\ run_fuel run' = run_fuel run.
Proof using Type.
  unfold add_pending_write, matching_checkpoint. intros (c & Hc & H)%result_bind_Ok.
  destruct (existsb _ _); simplify_eq/=. split; [done|]. split; [done|].
  apply opt_context_Ok in Hc. unfold run_fuel, superstep_rank, run_is_parked. cbn.
  by destruct (active_checkpoint run).
Qed.

Lemma touch_fuel run w r run' w' :
  touch (run, w) = (r, (run', w')) ->
  run_id run' = run_id run /\ run_budget run' = run_budget run /\ run_fuel run' = run_fuel run.
Proof using Type. by intros [= <- <- <-]. Qed.

Lemma cas_loop_burns attempts gone exhausted change n n' :
  (forall run run', change run = Ok (Some run') ->
     run_id run' = run_id run /\ run_budget run' = run_budget run
     /\ (run_fuel run <= n -> run_fuel run' <= n')%nat) ->
  forall st w, within n st ->
  match cas_loop attempts gone exhausted change id (st, w) with
  | (Ok _, (st', _)) => within n' st' \/ within n st' /\ exists run, change run = Ok None
  | (Err _, (st', _)) => within n st'
  end.
Proof using Hcalm.
  intros Hchange. induction attempts as [|attempts IH]; intros st w Hn; [exact Hn|].
  cbn [cas_loop]. unfold m_bind at 1.
  destruct (get_flow_run id (st, w)) as [[found|e] [st1 w1]] eqn:Hg; [|by inversion Hg].
  eapply get_flow_run_Ok in Hg as (_ & Hn1 & Hrun); [|exact Hn].
  unfold m_bind at 1, m_lift. destruct found as [run|]; cbn [opt_context fst snd]; [|done].
  destruct (Hrun run eq_refl) as (Hid & Hmax & Hf). unfold m_bind at 1.
  destruct (change run) as [[run1|]|e] eqn:Ha; cbn [fst snd m_ret]; [|right; eauto|done].
  apply Hchange in Ha as (Hid1 & Hb1 & Hf1). unfold m_bind at 1, on_run.
  destruct (touch (run1, w1)) as [[u|e] [run2 w2]] eqn:Ht; [|by inversion Ht].
  apply touch_fuel in Ht as (Hid2 & Hb2 & Hf2). unfold on_conflict, m_bind.
  pose proof (update_flow_run_within n n' run2 (run_revision run) st1 w2 Hn1
    ltac:(congruence) ltac:(by rewrite Hb2, Hb1) ltac:(destruct Hn1 as [_ Hn1]; lia)) as Hu.
  destruct (update_flow_run run2 (run_revision run) (st1, w2)) as [[r|[]] [st3 w3]]; cbn; try done.
  - left. by destruct Hu.
  - by apply IH.
Qed.

Lemma persist_burns n ck write : burns n (persist_pending_write id ck write).
Proof using Hcalm.
  intros [st w] Hn. pose proof (cas_loop_burns PERSIST_ATTEMPTS
    "Flow run disappeared while recording a pending write"
    "Flow checkpoint could not persist a pending write after concurrent updates"
    (fun run => add_pending_write run ck write) n n) as H.
  specialize (H ltac:(intros run run' (? & ? & ->)%add_pending_write_fuel; eauto) st w Hn).
  unfold persist_pending_write. by destruct (cas_loop _ _ _ _ _ _) as [[u|e] [st' w']]; [destruct H as [?|[? _]]|].
Qed.

Lemma replace_burns k ck replacement st w u st' w' :
  within (4 * k + 3) st ->
  replace_pending_write id ck replacement (st, w) = (Ok u, (st', w')) ->
  within (4 * k + 2) st'.
Proof using Hcalm.
  intros Hn Hr. pose proof (cas_loop_burns PERSIST_ATTEMPTS
    "Flow run disappeared while recording a resumed write"
    "Flow continuation result could not be persisted after concurrent updates"
    (fun run => result_map Some (swap_pending_write run ck replacement)) (4 * k + 3) (4 * k + 2)) as H.
  unfold replace_pending_write in Hr. specialize (fun G => H G st w Hn). rewrite Hr in H.
  destruct H as [H|[_ [run H]]]; [|done|by destruct (swap_pending_write _ _ _)].
  clear. intros run run' H. unfold swap_pending_write, matching_checkpoint in H.
  destruct (active_checkpoint run) as [c|] eqn:Hc; cbn in H; [|done].
  destruct (bool_decide _); cbn in H; [|done].
  destruct (List.find _ _); cbn in H; [|done]. destruct (ensure _ _); cbn in H; [|done].
  simplify_eq. split; [done|]. split; [done|].
  assert (1 <= superstep_rank run)%nat by (unfold superstep_rank; rewrite Hc; repeat case_match; lia).
  unfold run_fuel. generalize dependent (superstep_rank run). intros rank Hrank.
  cbn -[Z.sub Z.to_nat Nat.mul]. rewrite bool_decide_eq_false_2 by done. lia.
Qed.

(** ** Commit *)

Lemma pause_for_interrupt_burns run expected checkpoint interrupt st w u st' w' :
  run_id run = id -> max_node_executions (run_budget run) <= u32_max ->
  pause_for_interrupt run expected checkpoint interrupt (st, w) = (Ok u, (st', w')) ->
  within (4 * Z.to_nat (max_node_executions (run_budget run) - node_executions run) + 1) st'.
Proof using Type.
  intros Hid Hmax. unfold pause_for_interrupt.
  intros ([u1 run1] & [st1 w1] & (-> & Hrun1)%on_run_Ok & H)%m_bind_Ok.
  pose proof (keeps_run _ _ _ _ _ _ _ (mark_interrupted_frame interrupt) Hrun1) as [= Hid1 Hb1 He1 _].
  apply m_bind_Ok in H as (payload & [st2 w2] & _ & H).
  apply m_bind_Ok in H as (task & [st3 w3] & _ & H).
  apply m_bind_Ok in H as ([u2 run2] & [st4 w4] & (-> & Hrun2)%on_run_Ok & H).
  apply m_bind_Ok in H as (r & [st5 w5] & Hu & [= <- <- <-]).
  cbn in Hrun2. injection Hrun2 as <- <- <-.
  apply update_run_and_task_Ok in Hu; [|cbn; congruence].
  eapply within_stored; [exact Hu|cbn; congruence|cbn; by rewrite Hb1|].
  unfold run_fuel, superstep_rank, run_is_parked. cbn -[Z.sub Z.to_nat Nat.mul].
  rewrite bool_decide_eq_false_2, Hb1, He1 by done. lia.
Qed.

Lemma cancel_run_Ok run w u run' w' :
  cancel_run (run, w) = (Ok u, (run', w')) ->
  run_id run' = run_id run /\ run_status run' = Cancelled /\ active_checkpoint run' = None
  /\ run_budget run' = run_budget run /\ node_executions run' = node_executions run.
Proof using Type.
  unfold cancel_run. intros (u1 & [run1 w1] & H1 & H)%m_bind_Ok.
  pose proof (keeps_run _ _ _ _ _ _ _ cancel_active_checkpoint_work H1) as [= Hid1 Hb1 He1].
  cbn in H. injection H as <- <- <-. cbn. rewrite Hid1, Hb1, He1. repeat split.
  revert H1. unfold cancel_active_checkpoint, m_bind, m_self.
  destruct (active_checkpoint run) eqn:Hc; cbn; by intros [= _ <- _].
Qed.

Lemma commit_burns k ck st w u st' w' :
  within (4 * k + 2) st ->
  commit_active_checkpoint id ck (st, w) = (Ok u, (st', w')) -> within (4 * k + 1) st'.
Proof using Hcalm.
  intros Hn. unfold commit_active_checkpoint, m_lift.
  intros (found & [st1 w1] & Hg & H)%m_bind_Ok.
  apply (get_flow_run_Ok _ _ _ _ _ _ Hn) in Hg as (_ & Hn1 & Hrun).
  apply m_bind_Ok in H as (run & ? & [= Hf <-] & H). destruct found as [r|]; [|done].
  injection Hf as ->. destruct (Hrun run eq_refl) as (Hid & Hmax & Hfuel). clear Hrun.
  apply m_bind_Ok in H as (checkpoint & ? & [= Hm <-] & H).
  assert (4 * Z.to_nat (max_node_executions (run_budget run) - node_executions run) <= 4 * k)%nat as Hk.
  { assert (1 <= superstep_rank run)%nat; [|destruct Hn1; unfold run_fuel in Hfuel; lia].
    unfold matching_checkpoint in Hm. unfold superstep_rank.
    destruct (active_checkpoint run); [|done]. repeat case_match; lia. }
  clear Hm. assert (forall r, work_of r = work_of run -> active_checkpoint r = None ->
    (run_fuel r <= 4 * k)%nat) as Hdone.
  { intros r [= _ Hb He] Ha. unfold run_fuel, superstep_rank. rewrite Hb, He, Ha. lia. }
  destruct (bool_decide (run_status run = CancelRequested)).
  - apply m_bind_Ok in H as ([u1 run1] & [st2 w2] & (-> & Hc)%on_run_Ok & H).
    apply cancel_run_Ok in Hc as (Hid1 & _ & Ha1 & Hb1 & He1).
    apply m_bind_Ok in H as (? & [st3 w3] & Hu & [= _ <- _]).
    assert (run_fuel run1 <= 4 * k)%nat by (apply Hdone; [unfold work_of; congruence|done]).
    pose proof (update_flow_run_within _ (4 * k + 1) run1 (run_revision run) st1 w2 Hn1
      ltac:(congruence) ltac:(by rewrite Hb1) ltac:(lia)) as Hf1.
    rewrite Hu in Hf1. by destruct Hf1.
  - apply m_bind_Ok in H as (? & ? & [= _ <-] & H).
    destruct (find_map _ _) as [interrupt|].
    + apply pause_for_interrupt_burns in H; [|done..]. eapply within_le; [|exact H].
      cbn -[Z.sub Z.to_nat Nat.mul]. lia.
    + apply m_bind_Ok in H as ([task run1] & [st2 w2] & (-> & Hc)%on_run_Ok & H).
      pose proof (keeps_run _ _ _ _ _ _ _ (commit_checkpoint_frame _) Hc) as [= Hid1 Hb1 He1 Ha1].
      cbn in Hid1, Hb1, He1, Ha1.
      assert (run_fuel run1 <= 4 * k)%nat by (apply Hdone; [unfold work_of; congruence|done]).
      destruct task as [task|]; apply m_bind_Ok in H as (? & [st3 w3] & Hu & [= _ <- _]).
      * apply update_run_and_task_Ok in Hu; [|congruence].
        eapply within_stored; [exact Hu|congruence|by rewrite Hb1|lia].
      * pose proof (update_flow_run_within _ (4 * k + 1) run1 (run_revision run) st1 w2 Hn1
          ltac:(congruence) ltac:(by rewrite Hb1) ltac:(lia)) as Hf1.
        rewrite Hu in Hf1. by destruct Hf1.
Qed.

(** ** One iteration *)

Lemma m_execute_store run context item s r s' :
  m_execute run context item s = (r, s') -> fst s' = fst s.
Proof using Type.
  destruct s as [st w]. unfold m_execute, m_bind, m_world.
  destruct (execute_checkpoint_node run context item w) as [[write|] w1]; by intros [= _ <-].
Qed.

Lemma execute_items_store run context items s r s' :
  execute_items run context items s = (r, s') -> fst s' = fst s.
Proof using Type.
  revert s r s'. induction items as [|item items IH]; intros s r s'; cbn [execute_items].
  - by intros [= _ <-].
  - unfold m_bind. destruct (m_execute run context item s) as [[write|e] s1] eqn:He.
    + apply m_execute_store in He. destruct (execute_items run context items s1) as [[ws|e] s2] eqn:Hi;
        intros [= _ <-]; by rewrite (IH _ _ _ Hi).
    + intros [= _ <-]. by apply m_execute_store in He.
Qed.

Lemma burns_bind {A B} n (m : StoreM A) (k : A -> StoreM B) :
  burns n m -> (forall a, burns n (k a)) -> burns n (m_bind m k).
Proof using Type. apply preserves_bind. Qed.

Lemma complete_checkpoint_burns k context run checkpoint st w u st' w' :
  run_id run = id -> within (4 * k + 2) st ->
  complete_checkpoint context run checkpoint (st, w) = (Ok u, (st', w')) ->
  within (4 * k + 1) st'.
Proof using Hcalm.
  intros Hid Hn. unfold complete_checkpoint. rewrite Hid.
  intros ([parallel serial] & s1 & [= _ <-] & H)%m_bind_Ok.
  apply m_bind_Ok in H as (results & s2 & Hx & H). apply execute_items_store in Hx.
  apply m_bind_Ok in H as (results' & [st3 w3] & Ho & H). destruct s2 as [st2 w2].
  cbn in Hx, Ho. injection Ho as _ <- <-. subst st2.
  apply m_bind_Ok in H as (u1 & [st4 w4] & Hp & H).
  assert (forall ck ws, burns (4 * k + 2) (m_for ws (persist_pending_write id ck))) as Hpersist
    by (intros ck ws; apply preserves_for; intros write _; apply persist_burns).
  pose proof (Hpersist (ck_id checkpoint) results' (st, N.succ w2 : World) Hn) as H4.
  rewrite Hp in H4. cbn in H4.
  apply m_bind_Ok in H as (u2 & [st5 w5] & Hs & H).
  assert (burns (4 * k + 2) (m_for serial (fun item =>
    let* write := m_execute run context item in persist_pending_write id (ck_id checkpoint) write)))
    as Hserial.
  { apply preserves_for. intros item _. apply burns_bind; [|intros; apply persist_burns].
    intros s Hs'. destruct (m_execute run context item s) as [r s'] eqn:He.
    apply m_execute_store in He. cbn. by rewrite He. }
  specialize (Hserial (st4, w4) H4). rewrite Hs in Hserial. cbn in Hserial.
  by eapply commit_burns.
Qed.

Lemma update_and_stop_settled n run m st w b st' w' :
  within n st -> run_id run = id ->
  (forall w u run' w', m (run, w) = (Ok u, (run', w')) ->
     run_id run' = run_id run /\ settled run') ->
  update_and_stop run m (st, w) = (Ok b, (st', w')) ->
  b = false /\ exists run', store_runs st' !! id = Some run' /\ settled run'.
Proof using Hcalm.
  intros Hst Hid Hm. unfold update_and_stop.
  intros ([u run1] & [st1 w1] & (-> & Hr)%on_run_Ok & H)%m_bind_Ok.
  apply Hm in Hr as [Hid1 Hset].
  apply m_bind_Ok in H as (r & [st2 w2] & Hu & [= <- <- <-]).
  rewrite update_flow_run_run in Hu. destruct (update_flow_run_conn _ _ _) as [st3|] eqn:Hc; [|done].
  injection Hu as _ <- _. apply update_flow_run_conn_Ok in Hc as (current & _ & _ & ->).
  split; [done|]. exists run1. split; [|done]. cbn. by rewrite Hid1, Hid, lookup_insert_eq.
Qed.

Lemma settle_run_Ok run w u run' w' :
  settle_run (run, w) = (Ok u, (run', w')) -> run_id run' = run_id run /\ settled run'.
Proof using Type.
  unfold settle_run, settled, run_is_parked, m_bind, m_self.
  destruct (bool_decide (ready_nodes run = [])); cbn; intros [= _ <- _]; cbn; eauto.
Qed.

Lemma pause_for_approval_settled run node st w u st' w' :
  run_id run = id -> pause_for_approval run node (st, w) = (Ok u, (st', w')) ->
  exists run', store_runs st' !! id = Some run' /\ settled run'.
Proof using Type.
  intros Hid. unfold pause_for_approval.
  intros ([task run1] & [st1 w1] & (-> & Hr)%on_run_Ok & H)%m_bind_Ok.
  apply m_bind_Ok in H as (r & [st2 w2] & Hu & [= _ <- _]).
  assert (run_id run1 = run_id run /\ settled run1) as [Hid1 Hset].
  { revert Hr. unfold pause_for_approval_run, mark_started, m_bind, m_self, m_world, m_update, settled.
    cbn. destruct (run_started_at run); cbn; intros [= _ <- _]; cbn; eauto. }
  apply update_run_and_task_Ok in Hu; [eauto|congruence].
Qed.

Lemma within_budget run w u w' :
  enforce_run_budget run w = (Ok u, w') -> node_executions run < max_node_executions (run_budget run).
Proof using Type.
  unfold enforce_run_budget. destruct (Z.ltb_spec (node_executions run)
    (max_node_executions (run_budget run))); [done|]. by cbn.
Qed.

Lemma checkpoint_work_burns context run checkpoint st w u st' w' :
  document_ok id st -> run_id run = id -> run_is_parked run = false ->
  stored_fuel id st = run_fuel run -> active_checkpoint run = Some checkpoint ->
  (if bool_decide (run_status run = Resuming)
   then resume_checkpoint context run checkpoint
   else complete_checkpoint context run checkpoint) (st, w) = (Ok u, (st', w')) ->
  document_ok id st' /\ (stored_fuel id st' < stored_fuel id st)%nat.
Proof using Hcalm.
  intros Hdoc Hid Hpark Hfuel Hc. unfold run_fuel in Hfuel.
  destruct (bool_decide_reflect (run_status run = Resuming)) as [Hres|Hres]; intros H.
  - assert (superstep_rank run = 3%nat) as Hrank
      by (unfold superstep_rank; by rewrite Hc, bool_decide_eq_true_2).
    unfold resume_checkpoint in H.
    apply m_bind_Ok in H as ([[write interrupt] command] & ? & [= _ <-] & H).
    apply m_bind_Ok in H as (replacement & [st5 w5] & Hx & H). unfold m_world in Hx.
    destruct (execute_resume_checkpoint_node run write interrupt command context w) as [p q].
    injection Hx as -> <- <-. rewrite Hid in H.
    eapply replace_burns in H as [Hdoc' H]; [|split; [done|rewrite Hfuel, Hrank; reflexivity]].
    split; [done|lia].
  - assert (superstep_rank run = 2%nat) as Hrank
      by (unfold superstep_rank; by rewrite Hc, Hpark, bool_decide_eq_false_2).
    eapply complete_checkpoint_burns in H as [Hdoc' H];
      [|done|split; [done|rewrite Hfuel, Hrank; reflexivity]].
    split; [done|lia].
Qed.

(** What an iteration guarantees. *)
Definition step_outcome (bound : nat) (st' : FlowStore) (continue : bool) : Prop :=
  if continue then document_ok id st' /\ (stored_fuel id st' < bound)%nat
  else exists run, store_runs st' !! id = Some run /\ settled run.

Lemma drive_work_burns context run st w b st' w' :
  document_ok id st -> run_id run = id -> max_node_executions (run_budget run) <= u32_max ->
  run_is_parked run = false -> stored_fuel id st = run_fuel run ->
  drive_work context run (st, w) = (Ok b, (st', w')) -> step_outcome (stored_fuel id st) st' b.
Proof using Hcalm.
  intros Hdoc Hid Hmax Hpark Hfuel. unfold drive_work, m_world.
  assert (within (stored_fuel id st) st) as Hin by done.
  intros (allowed & [st2 w2] & Hw & H)%m_bind_Ok.
  destruct (enforce_run_budget run w) as [r w3] eqn:Hen. injection Hw as -> <- <-.
  apply m_bind_Ok in H as (? & ? & [= -> <-] & H). apply within_budget in Hen.
  destruct (active_checkpoint run) as [checkpoint|] eqn:Hc.
  - apply m_bind_Ok in H as (? & [st4 w4] & H & [= <- <- <-]). by eapply checkpoint_work_burns.
  - destruct (ready_superstep_nodes run) as [|i ready].
    + by eapply update_and_stop_settled in H as [-> Hex]; [|done|done|apply settle_run_Ok].
    + cbv zeta in H. destruct (approval_node run (i :: ready)) as [node|];
        apply m_bind_Ok in H as (? & [st4 w4] & H & [= <- <- <-]).
      * by eapply pause_for_approval_settled.
      * eapply begin_superstep_burns in H; [|done..]. unfold step_outcome. by rewrite Hfuel.
Qed.

Lemma drive_step_burns n context st w b st' w' :
  within n st -> drive_step context id (st, w) = (Ok b, (st', w')) -> step_outcome n st' b.
Proof using Hcalm.
  intros Hn. unfold drive_step. intros (found & [st1 w1] & Hg & H)%m_bind_Ok.
  apply (get_flow_run_Ok _ _ _ _ _ _ Hn) in Hg as (Hst1 & Hn1 & Hrun).
  apply m_bind_Ok in H as (run & ? & [= Hf <-] & H). destruct found as [r|]; [|done].
  injection Hf as ->. destruct (Hrun run eq_refl) as (Hid & Hmax & Hfuel). clear Hrun.
  destruct (run_is_parked run) eqn:Hpark; [injection H as <- <- <-; by exists run; split; [|left]|].
  assert (drive_work context run (st1, w1) = (Ok b, (st', w')) -> step_outcome n st' b) as Hwork.
  { intros Hw. destruct Hn1 as [Hdoc Hle]. apply drive_work_burns in Hw; [|done..].
    destruct b; unfold step_outcome in *; [|done]. destruct Hw. split; [done|lia]. }
  destruct (run_status run) eqn:Hs; try exact (Hwork H).
  - destruct (active_checkpoint run); [exact (Hwork H)|].
    eapply update_and_stop_settled in H as [-> Hex]; [done|done|done|].
    intros w2 u run' w2' [= _ <- _]. split; [done|]. by right.
  - injection H as <- <- <-. exists run. split; [done|]. by right.
  - eapply update_and_stop_settled in H as [-> Hex]; [done|done|done|].
    intros w2 u run' w2' Hc. apply cancel_run_Ok in Hc as (? & Hs' & _). split; [done|].
    left. unfold run_is_parked. by rewrite Hs'.
Qed.

End calm.
End frames.
