(* ===== verification/FlowConcurrency.v ===== *)
(** Concurrency in the workflow runtime: the optimistic persist loop is an atomic
    step among the steps of other clients, and the order in which the nodes of a
    superstep finish leaves no trace. *)
From S2P Require Import Prelude RustStr RustStrFacts Json Enterprise WorkflowState WorkflowAutomation FlowGraph FlowActivation Flow WorkflowInterrupt HumanTask Workflow FlowRun FlowEngine FlowResume FlowStore FlowDriver FlowCommit FlowLoop FlowProgress.

Section atomic.
Context `{JN : JsonNumber} `{EN : !Environment} `{HO : Host}.

(** Zero or more steps of the other clients. *)
Definition env_steps : FlowStore -> FlowStore -> Prop := rtc (fun a b => exists n, b = interfere n a).

(** Every client of the store replaces a run only together with its revision, so a
    revision seen twice is the same document. *)
Definition revisions_identify : Prop := forall n st id run run',
  store_runs st !! id = Some run -> store_runs (interfere n st) !! id = Some run' ->
  run_revision run' = run_revision run -> run' = run.

(** The stored document [id] is a run with that id; every client keeps it so. *)
Definition keyed (id : Uuid) (st : FlowStore) : Prop :=
  forall run, store_runs st !! id = Some run -> run_id run = id.
Definition keeps_keyed (id : Uuid) : Prop := forall n st, keyed id st -> keyed id (interfere n st).

(** The run [change] produced, as [touch] leaves it at time [t]. *)
Definition touched (run : FlowRunV1) (t : DateTime) : FlowRunV1 :=
  run <| run_revision := u32_saturating_add (run_revision run) 1 |> <| run_updated_at := t |>.

Lemma cas_loop_atomic attempts gone exhausted change id st w u st' w' :
  revisions_identify ->
  (forall run run', change run = Ok (Some run') -> run_id run' = run_id run) ->
  keeps_keyed id -> keyed id st ->
  cas_loop attempts gone exhausted change id (st, w) = (Ok u, (st', w')) ->
  exists st0 run, env_steps st st0 /\ store_runs st0 !! id = Some run
    /\ (change run = Ok None /\ st' = st0
        \/ exists run1 t, change run = Ok (Some run1)
             /\ st' = st0 <| store_runs := <[id := touched run1 t]> (store_runs st0) |>).
Proof using Type.
  intros Hrev Hchange Henv. revert st w.
  induction attempts as [|attempts IH]; intros st w Hkey; cbn [cas_loop]; [done|].
  unfold m_bind at 1. rewrite get_flow_run_run. unfold m_bind at 1, m_lift.
  set (st1 := interfere w st). assert (env_steps st st1) as Hst1 by (apply rtc_once; by exists w).
  apply (Henv w) in Hkey. fold st1 in Hkey.
  destruct (store_runs st1 !! id) as [run|] eqn:Hrun; cbn [opt_context]; [|done].
  unfold m_bind at 1. destruct (change run) as [[run1|]|e] eqn:Hc; [|intros [= _ <- _]; by exists st1, run; auto|done].
  unfold m_bind at 1, on_run, touch. cbn [m_bind m_world m_update utc_now].
  set (run2 := touched run1 (host_now (N.succ w))).
  change (run1 <| run_revision := u32_saturating_add (run_revision run1) 1 |>
               <| run_updated_at := host_now (N.succ w) |>) with run2.
  unfold on_conflict, m_bind. rewrite update_flow_run_run.
  set (w2 := N.succ (N.succ w)). set (st2 := interfere w2 st1).
  assert (env_steps st st2) as Hst2 by (eapply rtc_r; [exact Hst1|by exists w2]).
  destruct (update_flow_run_conn run2 (run_revision run) st2) as [st3|e] eqn:Hu.
  - intros [= _ <- _]. apply update_flow_run_conn_Ok in Hu as (current & Hcur & Hr & ->).
    assert (run_id run2 = id) as Hid.
    { etrans; [apply (Hchange _ _ Hc)|]. by apply Hkey. }
    rewrite Hid in *. rewrite (Hrev _ _ _ _ _ Hrun Hcur Hr) in Hcur.
    exists st2, run. split; [done|]. split; [done|]. right. by exists run1, (host_now (N.succ w)).
  - destruct e; try done. intros H. apply IH in H as (st0 & run0 & Hsteps & Hrest); [|by apply (Henv w2)].
    exists st0, run0. split; [by etrans|done].
Qed.

Lemma add_pending_write_id run ck write run' :
  add_pending_write run ck write = Ok (Some run') -> run_id run' = run_id run.
Proof using Type.
  unfold add_pending_write. intros (c & _ & H)%result_bind_Ok. by destruct (existsb _ _); simplify_eq/=.
Qed.

(** C3: recording the write of a node loses no update: whatever other clients do to
    the run between the read and the write, and however often the write is retried,
    a successful [persist_pending_write] has the effect of one atomic step at some
    point among theirs: it adds the write to the checkpoint then stored and changes
    nothing else of the store, or finds the node's write already recorded. *)
Theorem persist_pending_write_atomic id ck write st w u st' w' :
  revisions_identify ->
  keeps_keyed id -> keyed id st ->
  persist_pending_write id ck write (st, w) = (Ok u, (st', w')) ->
  exists st0 run checkpoint, env_steps st st0 /\ store_runs st0 !! id = Some run
    /\ active_checkpoint run = Some checkpoint /\ ck_id checkpoint = ck
    /\ (st' = st0 /\ write_node_id write ∈ write_node_id <$> ck_pending_writes checkpoint
        \/ write_node_id write ∉ write_node_id <$> ck_pending_writes checkpoint
           /\ exists t, st' = st0 <| store_runs := <[id := touched (run
                <| active_checkpoint := Some (checkpoint <| ck_pending_writes :=
                     sort_writes (ck_pending_writes checkpoint ++ [write]) |>) |>) t]>
                (store_runs st0) |>).
Proof using Type.
  intros Hrev Hkeeps Hkey H. unfold persist_pending_write in H.
  apply cas_loop_atomic in H as (st0 & run & Henv & Hrun & H);
    [|done|intros; by eapply add_pending_write_id|done|done].
  exists st0, run. unfold add_pending_write, matching_checkpoint in H.
  destruct (active_checkpoint run) as [c|]; cbn in H; [|naive_solver].
  destruct (bool_decide_reflect (ck_id c = ck)) as [Hck|]; cbn in H; [|naive_solver].
  exists c. repeat split; [done..|].
  destruct (existsb _ _) eqn:Hex.
  - destruct H as [[_ ->]|(? & ? & ? & _)]; [|done]. left. split; [done|].
    apply existsb_exists in Hex as (x & Hx%list_elem_of_In & Heq%String.eqb_eq).
    apply list_elem_of_fmap. by exists x.
  - destruct H as [[? _]|(run1 & t & [= <-] & ->)]; [done|]. right. split; [|by exists t].
    intros (x & Heq & Hx)%list_elem_of_fmap.
    assert (existsb (fun e => String.eqb (write_node_id e) (write_node_id write)) (ck_pending_writes c) = true); [|congruence].
    apply existsb_exists. exists x. split; [by apply list_elem_of_In|by apply String.eqb_eq].
Qed.
End atomic.

(** * Independence of the order of completion *)

Section order.
Context `{JN : JsonNumber} `{JT : !JsonText} `{SWC : !StateWriteCodec} `{AC : !ActivationCodec}
  `{SC : !SpecCodec} `{WB : !WorkflowBytes} `{SG : !SignalCodec} `{RC : !ResponseCodec}
  `{FS : FileSystem} `{U : Unicode} `{HO : Host}
  `{EN : !Environment} `{HA : !FlowNodeHarness}.

(** No other client touches the store while the driver works. *)
Definition quiet : Prop := forall n st, interfere n st = st.

Context (Hquiet : quiet).

(** The run after [n] more writes, the last at world [w]. *)
Definition with_writes (run : FlowRunV1) (checkpoint : WorkflowCheckpointV1)
    (writes : list WorkflowPendingWriteV1) (revision : Z) (t : DateTime) : FlowRunV1 :=
  run <| active_checkpoint := Some (checkpoint <| ck_pending_writes := sort_writes writes |>) |>
      <| run_revision := revision |> <| run_updated_at := t |>.

Lemma with_writes_twice run ck ws1 r1 t1 ws2 r2 t2 :
  with_writes (with_writes run ck ws1 r1 t1) (ck <| ck_pending_writes := sort_writes ws1 |>) ws2 r2 t2
  = with_writes run ck ws2 r2 t2.
Proof using Type. done. Qed.

Lemma persist_fresh id st w run ck write :
  store_runs st !! id = Some run -> run_id run = id -> active_checkpoint run = Some ck ->
  write_node_id write ∉ write_node_id <$> ck_pending_writes ck ->
  persist_pending_write id (ck_id ck) write (st, w) =
    (Ok tt, (st <| store_runs := <[id := with_writes run ck (ck_pending_writes ck ++ [write])
                     (u32_saturating_add (run_revision run) 1) (host_now (N.succ w))]>
                     (store_runs st) |>, N.succ (N.succ (N.succ w)))).
Proof using Hquiet.
  intros Hrun Hid Hck Hfresh. unfold persist_pending_write, PERSIST_ATTEMPTS. cbn [cas_loop].
  unfold m_bind at 1. rewrite get_flow_run_run, Hquiet, Hrun.
  unfold m_bind at 1, m_lift. cbn [opt_context]. unfold m_bind at 1.
  unfold add_pending_write, matching_checkpoint. rewrite Hck. cbn [mbind option_bind].
  rewrite bool_decide_eq_true_2 by done. cbn [opt_context result_bind].
  assert (existsb (fun existing => String.eqb (write_node_id existing) (write_node_id write))
            (ck_pending_writes ck) = false) as ->.
  { apply not_true_is_false. intros (x & Hx%list_elem_of_In & Heq%String.eqb_eq)%existsb_exists.
    apply Hfresh, list_elem_of_fmap. by exists x. }
  unfold m_bind at 1, on_run, touch. cbn [m_bind m_world m_update utc_now].
  unfold on_conflict, m_bind. rewrite update_flow_run_run, Hquiet. unfold update_flow_run_conn.
  cbn. rewrite Hid, Hrun, Z.eqb_refl. done.
Qed.

(** World and revision after [n] persisted writes: each reads the store, the clock
    and the store again. *)
Fixpoint world_after (n : nat) (w : World) : World :=
  match n with O => w | S n => world_after n (N.succ (N.succ (N.succ w))) end.
Fixpoint revision_after (n : nat) (r : Z) : Z :=
  match n with O => r | S n => revision_after n (u32_saturating_add r 1) end.

Lemma sort_writes_app p ws1 ws2 :
  NoDup (write_node_id <$> (p ++ ws1) ++ ws2) ->
  sort_writes (sort_writes (p ++ ws1) ++ ws2) = sort_writes ((p ++ ws1) ++ ws2).
Proof using Type.
  intros Hnd. symmetry. apply sort_by_key_unique; [|done].
  by rewrite (sort_by_key_perm write_node_id (p ++ ws1)).
Qed.

Lemma persist_all id write writes st w run ck :
  store_runs st !! id = Some run -> run_id run = id -> active_checkpoint run = Some ck ->
  NoDup (write_node_id <$> ck_pending_writes ck ++ write :: writes) ->
  m_for (write :: writes) (persist_pending_write id (ck_id ck)) (st, w) =
    (Ok tt, (st <| store_runs := <[id := with_writes run ck (ck_pending_writes ck ++ write :: writes)
                     (revision_after (S (length writes)) (run_revision run))
                     (host_now (N.succ (world_after (length writes) w)))]>
                     (store_runs st) |>, world_after (S (length writes)) w)).
Proof using Hquiet.
  revert write st w run ck.
  induction writes as [|next writes IH]; intros write st w run ck Hrun Hid Hck Hnd.
  - cbn [m_for]. unfold m_bind at 1. rewrite persist_fresh with (run := run); [done..|].
    rewrite fmap_app in Hnd. apply NoDup_app in Hnd as (_ & Hd & _).
    intros Hin. by eapply Hd; [exact Hin|apply list_elem_of_singleton].
  - change (write :: next :: writes) with ([write] ++ next :: writes) in *. rewrite app_assoc in *.
    cbn [app m_for]. unfold m_bind at 1. rewrite persist_fresh with (run := run); [|done..|].
    2: { rewrite fmap_app, fmap_app in Hnd. apply NoDup_app in Hnd as (Hnd & _ & _).
         apply NoDup_app in Hnd as (_ & Hd & _).
         intros Hin. by eapply Hd; [exact Hin|apply list_elem_of_singleton]. }
    set (run1 := with_writes run ck (ck_pending_writes ck ++ [write]) _ _).
    set (ck1 := ck <| ck_pending_writes := sort_writes (ck_pending_writes ck ++ [write]) |>).
    change (ck_id ck) with (ck_id ck1). cbv beta iota.
    change (persist_pending_write id (ck_id ck1) next ;;* m_for writes (persist_pending_write id (ck_id ck1)))
      with (m_for (next :: writes) (persist_pending_write id (ck_id ck1))).
    rewrite (IH next _ _ run1 ck1); [|by cbn; rewrite lookup_insert_eq|done|done|].
    2: { cbn. rewrite fmap_app in *. unfold sort_writes.
         by rewrite (sort_by_key_perm write_node_id). }
    cbn [length world_after revision_after]. do 2 f_equal.
    unfold set_field, set_store_runs. cbn [store_runs store_tasks store_effects]. f_equal.
    rewrite insert_insert_eq. f_equal. unfold run1. rewrite with_writes_twice.
    change (ck_pending_writes ck1) with (sort_writes (ck_pending_writes ck ++ [write])).
    unfold with_writes. by rewrite sort_writes_app.
Qed.

(** Persisting a superstep's writes does not depend on their order. *)
Lemma persist_any_order id ws1 ws2 st w run ck :
  store_runs st !! id = Some run -> run_id run = id -> active_checkpoint run = Some ck ->
  NoDup (write_node_id <$> ck_pending_writes ck ++ ws1) -> ws1 ≡ₚ ws2 ->
  m_for ws1 (persist_pending_write id (ck_id ck)) (st, w)
  = m_for ws2 (persist_pending_write id (ck_id ck)) (st, w).
Proof using Hquiet.
  intros Hrun Hid Hck Hnd Hp.
  destruct ws1 as [|a ws1]; [by apply Permutation_nil_l in Hp as ->|].
  destruct ws2 as [|b ws2]; [by apply Permutation_nil_r in Hp|].
  assert (length ws1 = length ws2) as Hlen by (apply Permutation_length in Hp; by injection Hp).
  rewrite !persist_all with (run := run); try done; [|by rewrite <-Hp].
  assert (sort_writes (ck_pending_writes ck ++ a :: ws1) = sort_writes (ck_pending_writes ck ++ b :: ws2))
    as Hsort by (apply sort_by_key_unique; [by rewrite Hp|done]).
  unfold with_writes. by rewrite Hlen, Hsort.
Qed.

(** ** The superstep as a whole *)

Lemma m_execute_id run context item s write s' :
  m_execute run context item s = (Ok write, s') -> write_node_id write = item_node_id item.
Proof using Type.
  destruct s as [st w]. unfold m_execute, m_bind, m_world, execute_checkpoint_node.
  destruct (run_checkpoint_node run item context w) as [[[result|interrupt]|e] w1]; cbn;
    [by intros [= <- _]| |by intros [= <- _]].
  destruct (active_checkpoint run); cbn; [by intros [= <- _]|done].
Qed.

Lemma execute_items_ids run context items s writes s' :
  execute_items run context items s = (Ok writes, s') ->
  write_node_id <$> writes = item_node_id <$> items.
Proof using Type.
  revert s writes s'. induction items as [|item items IH]; intros s writes s'; cbn [execute_items].
  - by intros [= <- _].
  - intros (write & s1 & Hw & (ws & s2 & Hi & [= <- _])%m_bind_Ok)%m_bind_Ok.
    cbn. by rewrite (IH _ _ _ Hi), (m_execute_id _ _ _ _ _ _ Hw).
Qed.

Lemma split_items_sub run items parallel serial :
  split_items run items = Ok (parallel, serial) -> parallel `sublist_of` items.
Proof using Type.
  revert parallel serial. induction items as [|item items IH]; intros parallel serial; cbn.
  - intros [= <- <-]. constructor.
  - intros (node & _ & ([p s] & Hs & [= Heq])%result_bind_Ok)%result_bind_Ok.
    specialize (IH _ _ Hs). destruct (node_is_parallel_safe node); injection Heq as <- <-;
      by constructor.
Qed.

Lemma pending_parallel_nodup run checkpoint parallel serial :
  NoDup (item_node_id <$> ck_nodes checkpoint) ->
  NoDup (write_node_id <$> ck_pending_writes checkpoint) ->
  split_items run (pending_items checkpoint) = Ok (parallel, serial) ->
  NoDup ((write_node_id <$> ck_pending_writes checkpoint) ++ (item_node_id <$> parallel)).
Proof using Type.
  intros Hitems Hwrites Hsub%split_items_sub. unfold pending_items in Hsub.
  apply NoDup_app. split; [done|]. split.
  - intros id Hid (item & -> & Hin)%list_elem_of_fmap.
    assert (item ∈ List.filter (fun item => negb (bool_decide (item_node_id item ∈
      (list_to_set (write_node_id <$> ck_pending_writes checkpoint) : gset string)))) (ck_nodes checkpoint))
      as Hf by (eapply elem_of_sublist; [done|exact Hsub]).
    apply list_elem_of_In, filter_In in Hf as [_ Hneg%negb_true_iff].
    apply bool_decide_eq_false in Hneg. apply Hneg. by apply elem_of_list_to_set.
  - eapply sublist_NoDup; [exact Hitems|]. apply fmap_sublist. etrans; [exact Hsub|].
    clear. induction (ck_nodes checkpoint) as [|item items IH]; cbn; [constructor|].
    destruct (negb _); by constructor.
Qed.

(** C2: supersteps are deterministic in their nodes: two executors that finish the
    parallel nodes of a checkpoint in different orders leave the same store, the
    same clock and the same outcome, committed or not. *)
Theorem superstep_order_irrelevant (EX1 EX2 : Executor) context run checkpoint st w :
  store_runs st !! run_id run = Some run -> active_checkpoint run = Some checkpoint ->
  NoDup (item_node_id <$> ck_nodes checkpoint) ->
  NoDup (write_node_id <$> ck_pending_writes checkpoint) ->
  complete_checkpoint (EX := EX1) context run checkpoint (st, w)
  = complete_checkpoint (EX := EX2) context run checkpoint (st, w).
Proof using Hquiet.
  intros Hrun Hck Hitems Hwrites. unfold complete_checkpoint.
  apply m_bind_cong. intros [parallel serial] s1 [= Hsplit <-].
  pose proof (pending_parallel_nodup _ _ _ _ Hitems Hwrites Hsplit) as Hnd.
  apply m_bind_cong. intros results [st1 w1] Hx.
  pose proof (execute_items_store _ _ _ _ _ _ Hx) as Hst. cbn in Hst. subst st1.
  apply execute_items_ids in Hx. unfold m_bind at 1, m_world. symmetry.
  unfold m_bind at 1. symmetry. cbv beta iota. unfold m_bind at 1. symmetry. unfold m_bind at 1.
  symmetry.
  rewrite (persist_any_order (run_id run) (completion_order (Executor := EX1) w1 results)
             (completion_order (Executor := EX2) w1 results) st (N.succ w1) run checkpoint); try done.
  - rewrite completion_order_perm, fmap_app, Hx. done.
  - by rewrite !completion_order_perm.
Qed.
End order.
