(* ===== verification/FlowRestart.v ===== *)
(** What opening the store does to Flow runs after the process stopped
    ([recover_interrupted_runtime_state] of store/sqlite_runtime.rs): runs a driver
    was working on are paused, and the interrupted node is handed to a person. *)
From S2P Require Import Prelude RustStr RustStrFacts Json Enterprise WorkflowState WorkflowAutomation FlowGraph FlowActivation Flow WorkflowInterrupt HumanTask Workflow FlowRun FlowEngine FlowResume FlowStore FlowDriver FlowCommit FlowLoop FlowProgress FlowConcurrency.

Section restart.
Context `{JN : JsonNumber} `{HO : Host}.

Definition RESTART_ERROR : string := "server restarted at a node boundary; resume after inspection".

(** * The statements *)

(** The [status] column of a run. *)
Definition status_column (run : FlowRunV1) : string := run_status_as_str (run_status run).

(** [WHERE status IN ('queued', 'running', 'pause_requested')] *)
Definition was_driven (run : FlowRunV1) : bool :=
  existsb (String.eqb (status_column run)) ["queued"; "running"; "pause_requested"].

(** The first UPDATE.  It computes the revision in SQL, where it does not saturate. *)
Definition restart_pause (now : DateTime) (run : FlowRunV1) : FlowRunV1 :=
  if was_driven run
  then run <| run_status := Paused |> <| run_error := Some RESTART_ERROR |>
           <| run_revision := run_revision run + 1 |> <| run_updated_at := now |>
  else run.

(** [deserialize_json_column]: a revision outside [u32] does not parse. *)
Definition select_runs (p : FlowRunV1 -> bool) (conn : FlowStore) : Result anyhow (list FlowRunV1) :=
  let rows := List.filter p (map_to_list (store_runs conn)).*2 in
  let? _ := ensure (forallb (fun run => run_revision run <=? u32_max) rows)
              "invalid value: integer, expected u32" in
  Ok rows.

Definition interrupted_by_restart (run : FlowRunV1) : bool :=
  String.eqb (status_column run) "paused" && bool_decide (run_error run = Some RESTART_ERROR).

(** One transaction: a failed statement rolls back the other. *)
Definition attach_human_task_to_flow_run_conn (run : FlowRunV1) (expected_run_revision : Z)
    (task : HumanTaskV1) (conn : FlowStore) : Result anyhow FlowStore :=
  let? conn := update_flow_run_conn run expected_run_revision conn in
  insert_human_task_conn task conn.

(** * The loops *)

(** A statement on the connection the opening store holds alone. *)
Definition m_conn (f : FlowStore -> Result anyhow FlowStore) : StoreM unit :=
  let* st := m_self in let* st := m_lift (f st) in m_set st.

Definition last_node_run (p : FlowNodeRunStatusV1 -> bool) (run : FlowRunV1) : option FlowNodeRunV1 :=
  List.find (fun node_run => p (node_run_status node_run)) (reverse (node_runs run)).

Definition is_open_status (s : FlowNodeRunStatusV1) : bool :=
  match s with NodeRunning | NodeResuming => true | _ => false end.

Definition checkpoint_payload (checkpoint : WorkflowCheckpointV1) : Value :=
  json_object
    [("checkpointId", VString (host_uuid_string (ck_id checkpoint)));
     ("superstep", json_u64 (ck_superstep checkpoint));
     ("nodeIds", VArray ((fun item => VString (item_node_id item)) <$> ck_nodes checkpoint));
     ("completedPendingWrites", json_u64 (vec_len (List.filter (fun write =>
        match write_result write with Some _ => true | None => false end) (ck_pending_writes checkpoint))));
     ("pendingWriteCount", json_u64 (vec_len (ck_pending_writes checkpoint)))].

Definition recovery_payload (run : FlowRunV1) (id : string) : Value :=
  json_object
    [("flowId", VString (run_flow_id run)); ("flowVersion", json_u64 (run_flow_version run));
     ("nodeId", VString id); ("sideEffectState", VString "unknown");
     ("resumeCommandId", json_option (fun command => VString (host_uuid_string command))
                           (pending_resume_command_id run));
     ("resumableContinuation", VBool (bool_decide (is_Some (pending_resume_command_id run))));
     ("checkpoint", json_option checkpoint_payload (active_checkpoint run))].

(** Binds a task to a run of the snapshot and writes both. *)
Definition attach_task (run : FlowRunV1) (task : HumanTaskV1) : StoreM unit :=
  let* (_, run') := on_run (run <| active_human_task_id := Some (task_id task) |>) touch in
  m_conn (attach_human_task_to_flow_run_conn run' (run_revision run) task).

Definition recover_run (run : FlowRunV1) : StoreM unit :=
  match active_human_task_id run, last_node_run is_open_status run with
  | None, Some node_run =>
      let* task := m_world (flow_recovery (run_thread_id run) (run_id run)
        (Some (node_run_id node_run)) (Some (node_run_node_id node_run))
        (host_uuid_string (node_run_id node_run))
        "服务在节点执行期间中断。请先核对外部系统是否已产生副作用，再决定重试或取消。"
        (recovery_payload run (node_run_node_id node_run))) in
      attach_task run task
  | _, _ => m_ret tt
  end.

Definition waiting_approval_column (run : FlowRunV1) : bool :=
  String.eqb (status_column run) "waiting_approval".

(** Runs that waited for an approval before Human tasks existed. *)
Definition attach_legacy_approval (run : FlowRunV1) : StoreM unit :=
  match active_human_task_id run,
        last_node_run (fun s => bool_decide (s = NodeWaitingApproval)) run with
  | None, Some node_run =>
      let id := node_run_node_id node_run in
      let node_label := match find_node (run_graph run) id with Some n => label n | None => id end in
      let* task := m_world (flow_approval (run_thread_id run) (run_id run) (node_run_id node_run) id
        node_label
        (json_object [("flowId", VString (run_flow_id run)); ("flowVersion", json_u64 (run_flow_version run));
                      ("nodeId", VString id); ("nodeLabel", VString node_label);
                      ("input", node_run_input node_run)])) in
      attach_task run task
  | _, _ => m_ret tt
  end.

Definition m_select (p : FlowRunV1 -> bool) : StoreM (list FlowRunV1) :=
  let* st := m_self in m_lift (select_runs p st).

(** [recover_interrupted_runtime_state], up to the work forms. *)
Definition recover_interrupted_runtime_state : StoreM unit :=
  let* now := m_world utc_now in
  m_update (fun st => st <| store_runs := restart_pause now <$> store_runs st |>) ;;*
  let* interrupted_runs := m_select interrupted_by_restart in
  m_for interrupted_runs recover_run ;;*
  let* legacy_approval_runs := m_select waiting_approval_column in
  m_for legacy_approval_runs attach_legacy_approval.

(** * Facts *)

(** The node of a run a loop hands to a person. *)
Definition left_behind (p : FlowNodeRunStatusV1 -> bool) (run : FlowRunV1) : option FlowNodeRunV1 :=
  match active_human_task_id run with None => last_node_run p run | Some _ => None end.

(** The two loops differ in the nodes they look for and the task they make. *)
Definition hand_over (p : FlowNodeRunStatusV1 -> bool)
    (make : FlowRunV1 -> FlowNodeRunV1 -> World -> HumanTaskV1 * World) (run : FlowRunV1) : StoreM unit :=
  match left_behind p run with
  | Some node_run => let* task := m_world (make run node_run) in attach_task run task
  | None => m_ret tt
  end.

(** [task] asks a person about [node_run] of [run]. *)
Definition asks_about (type : HumanTaskTypeV1) (run : FlowRunV1) (node_run : FlowNodeRunV1)
    (task : HumanTaskV1) : Prop :=
  task_status task = Pending /\ task_type task = type /\ source_kind task = FlowRunSource
  /\ source_id task = run_id run /\ source_node_run_id task = Some (node_run_id node_run)
  /\ task_thread_id task = run_thread_id run /\ task_revision task = 1.

(** What a loop leaves of a run it has visited, given the tables before and after it. *)
Definition visited (p : FlowNodeRunStatusV1 -> bool) (type : HumanTaskTypeV1)
    (before after : FlowStore) (run run' : FlowRunV1) : Prop :=
  match left_behind p run with
  | None => run' = run
  | Some node_run => exists task now,
      store_tasks before !! task_id task = None /\ store_tasks after !! task_id task = Some task
      /\ asks_about type run node_run task
      /\ run' = touched (run <| active_human_task_id := Some (task_id task) |>) now
  end.

Lemma insert_human_task_conn_Ok task conn conn' :
  insert_human_task_conn task conn = Ok conn' ->
  store_tasks conn !! task_id task = None
  /\ conn' = conn <| store_tasks := <[task_id task := task]> (store_tasks conn) |>.
Proof using Type.
  unfold insert_human_task_conn. case_bool_decide as Hs; [done|].
  destruct (existsb _ _); [done|]. intros [= <-]. split; [|done].
  by apply eq_None_not_Some.
Qed.

Lemma attach_task_Ok run task st w st' w' :
  attach_task run task (st, w) = (Ok tt, (st', w')) ->
  store_tasks st !! task_id task = None
  /\ st' = st <| store_runs := <[run_id run :=
               touched (run <| active_human_task_id := Some (task_id task) |>) (host_now w)]> (store_runs st) |>
             <| store_tasks := <[task_id task := task]> (store_tasks st) |>.
Proof using Type.
  unfold attach_task, on_run, touch, m_conn, attach_human_task_to_flow_run_conn. cbn -[touched u32_saturating_add].
  destruct (update_flow_run_conn _ _ st) as [st1|e] eqn:Hu; cbn -[u32_saturating_add]; [|done].
  apply update_flow_run_conn_Ok in Hu as (current & Hcur & Hrev & ->).
  destruct (insert_human_task_conn task _) as [st2|e] eqn:Hi; cbn; [|done].
  apply insert_human_task_conn_Ok in Hi as [Hnew ->]. intros [= <- <-]. by split.
Qed.

Section loop.
Context (p : FlowNodeRunStatusV1 -> bool) (type : HumanTaskTypeV1)
  (make : FlowRunV1 -> FlowNodeRunV1 -> World -> HumanTaskV1 * World).
Hypothesis make_asks : forall run node_run w, asks_about type run node_run (make run node_run w).1.

Lemma hand_over_Ok run st w st' w' :
  store_runs st !! run_id run = Some run ->
  hand_over p make run (st, w) = (Ok tt, (st', w')) ->
  (exists run', store_runs st' = <[run_id run := run']> (store_runs st)
                /\ visited p type st st' run run')
  /\ store_tasks st ⊆ store_tasks st' /\ store_effects st' = store_effects st.
Proof using All.
  intros Hrun. unfold hand_over, visited. destruct (left_behind p run) as [node_run|].
  - unfold m_bind at 1, m_world. pose proof (make_asks run node_run w) as Hasks.
    destruct (make run node_run w) as [task w1]. cbn in Hasks.
    intros [Hnew ->]%attach_task_Ok. cbn. split_and!; [|by apply insert_subseteq|done].
    eexists. split; [done|]. exists task, (host_now w1). by rewrite lookup_insert_eq.
  - intros [= <- <-]. split_and!; [|done|done].
    exists run. by rewrite insert_id.
Qed.

Lemma hand_over_loop rows st w st' w' :
  NoDup (run_id <$> rows) -> (forall run, run ∈ rows -> store_runs st !! run_id run = Some run) ->
  m_for rows (hand_over p make) (st, w) = (Ok tt, (st', w')) ->
  (forall id, id ∉ run_id <$> rows -> store_runs st' !! id = store_runs st !! id)
  /\ (forall run, run ∈ rows -> exists run', store_runs st' !! run_id run = Some run'
        /\ visited p type st st' run run')
  /\ store_tasks st ⊆ store_tasks st' /\ store_effects st' = store_effects st.
Proof using All.
  revert st w. induction rows as [|run rows IH]; intros st w Hnd Hrows; cbn [m_for].
  { intros [= <- <-]. split_and!; [done|set_solver|done|done]. }
  rewrite m_bind_Ok. intros ([] & [st1 w1] & Hstep & Hloop).
  cbn in Hnd. apply NoDup_cons in Hnd as [Hfresh Hnd].
  apply hand_over_Ok in Hstep as ((run1 & Hruns & Hv) & Htasks & Heff); [|apply Hrows; set_solver].
  apply IH in Hloop as (Hother & Hin & Htasks' & Heff'); [|done|].
  2: { intros r Hr. rewrite Hruns, lookup_insert_ne; [apply Hrows; set_solver|].
       intros Heq. apply Hfresh. rewrite Heq. by apply list_elem_of_fmap_2. }
  split_and!; [| |by etrans|by etrans].
  - intros id Hid. cbn in Hid. apply not_elem_of_cons in Hid as [Hne Hid].
    rewrite Hother by done. by rewrite Hruns, lookup_insert_ne.
  - intros r [->|Hr]%elem_of_cons.
    + exists run1. rewrite Hother by done. rewrite Hruns, lookup_insert_eq. split; [done|].
      unfold visited in *. destruct (left_behind p run); [|done].
      destruct Hv as (task & now & H1 & H2 & H3). exists task, now. split_and!; [done| |apply H3..].
      by eapply lookup_weaken.
    + destruct (Hin r Hr) as (r' & Hr' & Hv'). exists r'. split; [done|].
      unfold visited in *. destruct (left_behind p r); [|done].
      destruct Hv' as (task & now & H1 & H2). exists task, now. split; [|done].
      by eapply lookup_weaken_None.
Qed.
End loop.


(** * The two loops together *)

Lemma NoDup_fmap_filter {A B} (f : A -> B) (p : A -> bool) (l : list A) :
  NoDup (f <$> l) -> NoDup (f <$> List.filter p l).
Proof using Type.
  induction l as [|x l IH]; cbn; [done|]. intros [Hx Hl]%NoDup_cons.
  destruct (p x); cbn; [|auto]. constructor; [|auto]. intros Hin. apply Hx.
  apply list_elem_of_fmap in Hin as (y & -> & Hy). apply list_elem_of_fmap_2.
  by apply list_elem_of_In, filter_In in Hy as [Hy%list_elem_of_In _].
Qed.

Definition recovery_task (run : FlowRunV1) (node_run : FlowNodeRunV1) : World -> HumanTaskV1 * World :=
  flow_recovery (run_thread_id run) (run_id run) (Some (node_run_id node_run))
    (Some (node_run_node_id node_run)) (host_uuid_string (node_run_id node_run))
    "服务在节点执行期间中断。请先核对外部系统是否已产生副作用，再决定重试或取消。"
    (recovery_payload run (node_run_node_id node_run)).

Lemma recovery_task_asks run node_run w : asks_about TaskRecovery run node_run (recovery_task run node_run w).1.
Proof using Type. by split_and!. Qed.

Lemma recover_run_hands_over run : recover_run run = hand_over is_open_status recovery_task run.
Proof using Type.
  unfold recover_run, hand_over, left_behind.
  destruct (active_human_task_id run); [done|]. by destruct (last_node_run _ run).
Qed.

Definition waits (s : FlowNodeRunStatusV1) : bool := bool_decide (s = NodeWaitingApproval).

Definition legacy_task (run : FlowRunV1) (node_run : FlowNodeRunV1) : World -> HumanTaskV1 * World :=
  let id := node_run_node_id node_run in
  let node_label := match find_node (run_graph run) id with Some n => label n | None => id end in
  flow_approval (run_thread_id run) (run_id run) (node_run_id node_run) id node_label
    (json_object [("flowId", VString (run_flow_id run)); ("flowVersion", json_u64 (run_flow_version run));
                  ("nodeId", VString id); ("nodeLabel", VString node_label);
                  ("input", node_run_input node_run)]).

Lemma legacy_task_asks run node_run w : asks_about TaskApproval run node_run (legacy_task run node_run w).1.
Proof using Type. by split_and!. Qed.

Lemma attach_legacy_hands_over run : attach_legacy_approval run = hand_over waits legacy_task run.
Proof using Type.
  unfold attach_legacy_approval, hand_over, left_behind, waits.
  destruct (active_human_task_id run); [done|]. by destruct (last_node_run _ run).
Qed.

Lemma m_for_ext {S A} (f g : A -> M S unit) l s :
  (forall x, f x = g x) -> m_for l f s = m_for l g s.
Proof using Type.
  intros Hfg. revert s. induction l as [|x l IH]; intros s; cbn; [done|].
  rewrite Hfg. apply m_bind_cong. auto.
Qed.

(** What a SELECT returns. *)
Lemma select_runs_Ok p st rows :
  (forall id, keyed id st) -> select_runs p st = Ok rows ->
  NoDup (run_id <$> rows)
  /\ (forall run, run ∈ rows <-> p run = true /\ store_runs st !! run_id run = Some run)
  /\ (forall run, run ∈ rows -> run_revision run <= u32_max).
Proof using Type.
  intros Hkey. unfold select_runs. rewrite result_bind_Ok. intros (u & Hr%ensure_Ok & [= <-]).
  assert (forall run, run ∈ (map_to_list (store_runs st)).*2 <-> store_runs st !! run_id run = Some run) as Hin.
  { intros run. rewrite list_elem_of_fmap. split.
    - intros ([id r] & -> & Hl%elem_of_map_to_list). cbn. by rewrite (Hkey _ _ Hl).
    - intros Hl. exists (run_id run, run). by rewrite elem_of_map_to_list. }
  split_and!.
  - apply (NoDup_fmap_filter run_id p). assert (run_id <$> (map_to_list (store_runs st)).*2 = (map_to_list (store_runs st)).*1) as ->.
    { rewrite <-list_fmap_compose. apply list_fmap_ext. intros i [id r] Hl%list_elem_of_lookup_2.
      apply elem_of_map_to_list in Hl. cbn. by apply Hkey. }
    apply NoDup_fst_map_to_list.
  - intros run. rewrite list_elem_of_In, filter_In, <-list_elem_of_In, Hin. tauto.
  - intros run Hrun. rewrite forallb_forall in Hr. apply Z.leb_le, Hr. by apply list_elem_of_In.
Qed.

(** What the start-up leaves of a run. *)
Definition restarted (before after : FlowStore) (now : DateTime) (run run' : FlowRunV1) : Prop :=
  let paused := restart_pause now run in
  if interrupted_by_restart paused then visited is_open_status TaskRecovery before after paused run'
  else if waiting_approval_column run then visited waits TaskApproval before after run run'
  else run' = paused.

Lemma visited_mono p type before before' after after' run run' :
  store_tasks before ⊆ store_tasks before' -> store_tasks after ⊆ store_tasks after' ->
  visited p type before' after run run' -> visited p type before after' run run'.
Proof using Type.
  intros Hb Ha. unfold visited. destruct (left_behind p run); [|done].
  intros (task & now & H1 & H2 & H3). exists task, now.
  split_and!; [by eapply lookup_weaken_None|by eapply lookup_weaken|apply H3..].
Qed.

Lemma visited_keeps p type before after run run' :
  visited p type before after run run' ->
  run_id run' = run_id run /\ run_status run' = run_status run /\ run_error run' = run_error run
  /\ left_behind p run' = None /\ (run_revision run <= u32_max -> run_revision run' <= u32_max).
Proof using Type.
  unfold visited. destruct (left_behind p run) eqn:Hl.
  - intros (task & now & _ & _ & _ & ->). split_and!; try done. cbn. unfold u32_saturating_add. lia.
  - by intros ->.
Qed.

(** A SELECT followed by its loop. *)
Definition phase (q p : _ -> bool) (type : HumanTaskTypeV1) (before after : FlowStore) : Prop :=
  store_tasks before ⊆ store_tasks after /\ store_effects after = store_effects before
  /\ forall id, match store_runs before !! id with
                | None => store_runs after !! id = None
                | Some run => exists run', store_runs after !! id = Some run'
                    /\ if q run then visited p type before after run run' /\ run_revision run <= u32_max
                       else run' = run
                end.

Lemma phase_Ok q p type make st w u st' w' :
  (forall run node_run w, asks_about type run node_run (make run node_run w).1) ->
  (forall id, keyed id st) ->
  (let* rows := m_select q in m_for rows (hand_over p make)) (st, w) = (Ok u, (st', w')) ->
  phase q p type st st' /\ forall id, keyed id st'.
Proof using Type.
  intros Hasks Hkey. rewrite m_bind_Ok. intros (rows & s3 & Hsel & H). destruct u.
  unfold m_select, m_self, m_lift, m_bind in Hsel. injection Hsel as Hsel <-.
  apply select_runs_Ok in Hsel as (Hnd & Hrows & Hrev); [|done].
  apply (hand_over_loop _ _ _ Hasks) in H as (Hother & Hvis & Htasks & Heff); [|done|by intros r [_ ?]%Hrows].
  assert (forall id run, store_runs st !! id = Some run -> exists run', store_runs st' !! id = Some run'
    /\ if q run then visited p type st st' run run' /\ run_revision run <= u32_max else run' = run) as Hall.
  { intros id run Hrun. pose proof (Hkey _ _ Hrun) as <-. destruct (q run) eqn:Hq.
    - assert (run ∈ rows) as Hin by by apply Hrows. destruct (Hvis run Hin) as (run' & ? & ?).
      exists run'. auto.
    - exists run. split; [|done]. rewrite Hother; [done|]. intros (r & Hid & [Hq' Hr]%Hrows)%list_elem_of_fmap.
      rewrite <-Hid in Hr. congruence. }
  assert (forall id, store_runs st !! id = None -> store_runs st' !! id = None) as Hnone.
  { intros id Hid. rewrite Hother; [done|]. intros (r & -> & [_ Hr]%Hrows)%list_elem_of_fmap. congruence. }
  split; [split_and!; [done|done|]|].
  - intros id. destruct (store_runs st !! id) eqn:Hid; auto.
  - intros id run' Hid. destruct (store_runs st !! id) as [run|] eqn:Hrun; [|by rewrite (Hnone _ Hrun) in Hid].
    destruct (Hall _ _ Hrun) as (r & Hr & Hv). simplify_eq. apply Hkey in Hrun as <-.
    destruct (q run); [|by subst]. destruct Hv as [(? & _)%visited_keeps _]. done.
Qed.

Lemma restart_pause_id now run : run_id (restart_pause now run) = run_id run.
Proof using Type. unfold restart_pause. by destruct (was_driven run). Qed.

Lemma was_driven_cases run :
  was_driven run = true <-> run_status run ∈ [Queued; Running; PauseRequested; Resuming].
Proof using Type.
  unfold was_driven, status_column. destruct (run_status run); cbn; set_solver.
Qed.

Lemma waiting_not_driven run :
  waiting_approval_column run = true -> was_driven run = false /\ interrupted_by_restart run = false.
Proof using Type.
  unfold waiting_approval_column, was_driven, interrupted_by_restart, status_column.
  by destruct (run_status run).
Qed.

Lemma waiting_restart_pause now run :
  waiting_approval_column (restart_pause now run) = waiting_approval_column run.
Proof using Type.
  unfold restart_pause. destruct (was_driven run) eqn:Hd; [|done].
  apply was_driven_cases in Hd. unfold waiting_approval_column, status_column. cbn.
  destruct (run_status run); cbn; set_solver.
Qed.

Definition paused_store (now : DateTime) (st : FlowStore) : FlowStore :=
  st <| store_runs := restart_pause now <$> store_runs st |>.

Lemma recover_phases st w u st' w' :
  (forall id, keyed id st) ->
  recover_interrupted_runtime_state (st, w) = (Ok u, (st', w')) ->
  exists mid, phase interrupted_by_restart is_open_status TaskRecovery (paused_store (host_now w) st) mid
    /\ phase waiting_approval_column waits TaskApproval mid st'.
Proof using Type.
  intros Hkey. unfold recover_interrupted_runtime_state. rewrite m_bind_Ok.
  intros (now & s1 & [= <- <-] & H). revert H. rewrite m_bind_Ok. intros ([] & s2 & [= <-] & H).
  assert (forall id, keyed id (paused_store (host_now w) st)) as Hkey1.
  { intros id run. cbn. rewrite lookup_fmap, fmap_Some. intros (r & Hr & ->).
    rewrite restart_pause_id. by apply Hkey. }
  revert H. rewrite m_bind_Ok. intros (rows & s3 & Hsel & H).
  revert H. rewrite m_bind_Ok. intros ([] & [mid w2] & Hloop & H).
  rewrite (m_for_ext _ _ _ _ recover_run_hands_over) in Hloop.
  destruct (phase_Ok interrupted_by_restart is_open_status TaskRecovery recovery_task
    (paused_store (host_now w) st) (N.succ w) tt mid w2 recovery_task_asks Hkey1) as [Hph Hkey2].
  { apply m_bind_Ok. eauto. }
  exists mid. split; [done|].
  destruct (phase_Ok waiting_approval_column waits TaskApproval legacy_task mid w2 u st' w'
    legacy_task_asks Hkey2) as [? _]; [|done].
  apply m_bind_Ok in H as (rows2 & s4 & Hsel2 & H). apply m_bind_Ok.
  rewrite (m_for_ext _ _ _ _ attach_legacy_hands_over) in H. eauto.
Qed.

Lemma recover_Ok st w u st' w' :
  (forall id, keyed id st) ->
  recover_interrupted_runtime_state (st, w) = (Ok u, (st', w')) ->
  store_tasks st ⊆ store_tasks st' /\ store_effects st' = store_effects st
  /\ (forall id, store_runs st !! id = None -> store_runs st' !! id = None)
  /\ (forall id run, store_runs st !! id = Some run ->
       exists run', store_runs st' !! id = Some run' /\ restarted st st' (host_now w) run run'
         /\ (interrupted_by_restart run' || waiting_approval_column run' = true ->
             run_revision run' <= u32_max)).
Proof using Type.
  intros Hkey (mid & (Ht1 & He1 & Hr1) & (Ht2 & He2 & Hr2))%recover_phases; [|done].
  cbn in Ht1, He1. split_and!; [by etrans|by etrans| |].
  - intros id Hid. specialize (Hr1 id). cbn in Hr1. rewrite lookup_fmap, Hid in Hr1. cbn in Hr1.
    specialize (Hr2 id). by rewrite Hr1 in Hr2.
  - intros id run Hid. specialize (Hr1 id). cbn in Hr1. rewrite lookup_fmap, Hid in Hr1. cbn in Hr1.
    destruct Hr1 as (run1 & Hrun1 & Hv1). specialize (Hr2 id). rewrite Hrun1 in Hr2.
    destruct Hr2 as (run2 & Hrun2 & Hv2). exists run2. split; [done|].
    unfold restarted. destruct (interrupted_by_restart (restart_pause (host_now w) run)) eqn:Hi.
    + destruct Hv1 as [Hv1 Hrev]. pose proof (visited_keeps _ _ _ _ _ _ Hv1) as (_ & Hs & Herr & _ & Hb).
      assert (waiting_approval_column run1 = false) as Hw.
      { unfold waiting_approval_column, status_column, interrupted_by_restart, status_column in *.
        rewrite Hs. by destruct (run_status (restart_pause _ run)). }
      rewrite Hw in Hv2. subst run2. split; [|auto].
      eapply visited_mono; [| |exact Hv1]; done.
    + subst run1. rewrite waiting_restart_pause in Hv2. destruct (waiting_approval_column run) eqn:Hw.
      * assert (restart_pause (host_now w) run = run) as Heq.
        { unfold restart_pause. by destruct (waiting_not_driven run Hw) as [-> _]. }
        rewrite Heq in Hv2. destruct Hv2 as [Hv2 Hrev].
        pose proof (visited_keeps _ _ _ _ _ _ Hv2) as (_ & _ & _ & _ & Hb).
        split; [|auto]. by eapply visited_mono; [exact Ht1| |exact Hv2].
      * subst run2. split; [done|]. by rewrite Hi, waiting_restart_pause, Hw.
Qed.

(** * What the start-up promises *)

(** Nothing is left for it to do. *)
Definition recovered (run : FlowRunV1) : Prop :=
  was_driven run = false
  /\ (interrupted_by_restart run = true -> left_behind is_open_status run = None)
  /\ (waiting_approval_column run = true -> left_behind waits run = None)
  /\ (interrupted_by_restart run || waiting_approval_column run = true -> run_revision run <= u32_max).

Lemma restart_pause_not_driven now run : was_driven (restart_pause now run) = false.
Proof using Type. unfold restart_pause. by destruct (was_driven run) eqn:Hd. Qed.

Lemma restarted_recovered before after now run run' :
  restarted before after now run run' ->
  (interrupted_by_restart run' || waiting_approval_column run' = true -> run_revision run' <= u32_max) ->
  recovered run'.
Proof using Type.
  unfold restarted, recovered. intros Hr Hrev.
  destruct (interrupted_by_restart (restart_pause now run)) eqn:Hi; [|destruct (waiting_approval_column run) eqn:Hw].
  - apply visited_keeps in Hr as (_ & Hs & _ & Hl & _). pose proof (restart_pause_not_driven now run) as Hd.
    split_and!; [|done| |done]; [unfold was_driven, status_column in *; by rewrite Hs|].
    unfold waiting_approval_column, interrupted_by_restart, status_column in *. rewrite Hs.
    by destruct (run_status (restart_pause now run)).
  - apply visited_keeps in Hr as (_ & Hs & Herr & Hl & _). apply waiting_not_driven in Hw as [Hd Hi'].
    assert (was_driven run' = was_driven run /\ interrupted_by_restart run' = interrupted_by_restart run) as [-> Hi2].
    { unfold was_driven, interrupted_by_restart, status_column. by rewrite Hs, Herr. }
    split_and!; [done|congruence|done|done].
  - subst run'. rewrite Hi, waiting_restart_pause, Hw. rewrite restart_pause_not_driven.
    by rewrite waiting_restart_pause, Hw, Hi in Hrev.
Qed.

Lemma phase_idle p make rows s :
  (forall run, run ∈ rows -> left_behind p run = None) ->
  m_for rows (hand_over p make) s = (Ok tt, s).
Proof using Type.
  induction rows as [|run rows IH]; intros Hidle; cbn [m_for]; [done|].
  unfold m_bind, hand_over at 1. rewrite Hidle by set_solver. apply IH. set_solver.
Qed.

Lemma select_idle q p make st w :
  (forall id run, store_runs st !! id = Some run -> q run = true ->
                  left_behind p run = None /\ run_revision run <= u32_max) ->
  exists rows, m_select q (st, w) = (Ok rows, (st, w))
    /\ m_for rows (hand_over p make) (st, w) = (Ok tt, (st, w)).
Proof using Type.
  intros Hidle. set (rows := List.filter q (map_to_list (store_runs st)).*2).
  assert (forall run, run ∈ rows -> left_behind p run = None /\ run_revision run <= u32_max) as Hrows.
  { intros run (Hin & Hq)%list_elem_of_In%filter_In. apply list_elem_of_In, list_elem_of_fmap in Hin
      as ([id r] & -> & Hl%elem_of_map_to_list). by eapply Hidle. }
  exists rows. split.
  - unfold m_select, m_self, m_bind, m_lift, select_runs. fold rows.
    replace (forallb _ rows) with true; [done|]. symmetry. apply forallb_forall.
    intros run Hin%list_elem_of_In. apply Z.leb_le. by apply Hrows.
  - apply phase_idle. by intros run [? _]%Hrows.
Qed.

Lemma recover_idle st w :
  (forall id run, store_runs st !! id = Some run -> recovered run) ->
  recover_interrupted_runtime_state (st, w) = (Ok tt, (st, N.succ w)).
Proof using Type.
  intros Hrec. unfold recover_interrupted_runtime_state.
  erewrite m_bind_pure by reflexivity.
  assert (st <| store_runs := restart_pause (host_now w) <$> store_runs st |> = st) as Heq.
  { assert (restart_pause (host_now w) <$> store_runs st = store_runs st) as Hm.
    { apply map_eq. intros id. rewrite lookup_fmap. destruct (store_runs st !! id) as [run|] eqn:Hr; [|done].
      cbn. f_equal. unfold restart_pause. by destruct (Hrec _ _ Hr) as [-> _]. }
    destruct st as [runs tasks effects]. cbn in *. by rewrite Hm. }
  erewrite m_bind_pure by reflexivity. cbn [fst]. rewrite Heq.
  destruct (select_idle interrupted_by_restart is_open_status recovery_task st (N.succ w)) as (rows & Hs & Hl).
  { intros id run Hr Hq. destruct (Hrec _ _ Hr) as (_ & H1 & _ & H2). split; [auto|]. apply H2. by rewrite Hq. }
  rewrite (m_bind_pure _ _ _ _ _ Hs). rewrite <-(m_for_ext _ _ _ _ recover_run_hands_over) in Hl.
  rewrite (m_bind_pure _ _ _ _ _ Hl).
  destruct (select_idle waiting_approval_column waits legacy_task st (N.succ w)) as (rows2 & Hs2 & Hl2).
  { intros id run Hr Hq. destruct (Hrec _ _ Hr) as (_ & _ & H1 & H2). split; [auto|]. apply H2. rewrite Hq. apply orb_true_r. }
  rewrite (m_bind_pure _ _ _ _ _ Hs2). by rewrite (m_for_ext _ _ _ _ attach_legacy_hands_over).
Qed.


(** * A second interruption *)

(** The stored run [id] names no task, and the task that would hand over its last open
    node is in the store already. *)
Definition handed_over_before (id : Uuid) (run : FlowRunV1) (st : FlowStore) : Prop :=
  store_runs st !! id = Some run /\ active_human_task_id run = None
  /\ exists node_run, last_node_run is_open_status run = Some node_run
       /\ is_Some (store_tasks st !!
             stable_task_id (run_id run) "recovery" (host_uuid_string (node_run_id node_run))).

Definition blocked (id : Uuid) (run : FlowRunV1) (s : FlowStore * World) : Prop :=
  handed_over_before id run s.1 /\ forall i, keyed i s.1.

Lemma attach_task_shape run task st w :
  exists w', attach_task run task (st, w) =
    match (let? st1 := update_flow_run_conn (touched (run <| active_human_task_id := Some (task_id task) |>)
                          (host_now w)) (run_revision run) st in insert_human_task_conn task st1) with
    | Ok st2 => (Ok tt, (st2, w'))
    | Err e => (Err e, (st, w'))
    end.
Proof using Type.
  exists (N.succ w). unfold attach_task, on_run, touch, m_conn, attach_human_task_to_flow_run_conn, m_lift, m_set, m_self, m_bind.
  cbn -[touched u32_saturating_add]. by destruct (result_bind _ _).
Qed.

Lemma recover_step_blocked id run r s :
  blocked id run s -> (run_id r = id -> r = run) ->
  blocked id run (snd (hand_over is_open_status recovery_task r s))
  /\ (r = run -> exists e, fst (hand_over is_open_status recovery_task r s) = Err e).
Proof using Type.
  destruct s as [st w]. intros [(Hrun & Hact & node_run & Hlast & Htask) Hkey] Hr.
  assert (run_id run = id) as Hid by by apply Hkey in Hrun.
  unfold hand_over. destruct (left_behind is_open_status r) as [nr|] eqn:Hl.
  2: { split; [by split; [split_and!; eauto|]|]. intros ->. unfold left_behind in Hl. by rewrite Hact, Hlast in Hl. }
  unfold m_bind at 1 2, m_world.
  pose proof (recovery_task_asks r nr w) as Hasks.
  assert (task_id (recovery_task r nr w).1 = stable_task_id (run_id r) "recovery" (host_uuid_string (node_run_id nr))) as Htid by done.
  destruct (recovery_task r nr w) as [task w1]. cbn [fst] in *.
  destruct (attach_task_shape r task st w1) as [w2 ->].
  destruct (result_bind _ _) as [st2|e] eqn:Hc; cbn [fst snd].
  - rewrite result_bind_Ok in Hc. destruct Hc as (st1 & (cur & Hcur & _ & ->)%update_flow_run_conn_Ok & [Hnew ->]%insert_human_task_conn_Ok).
    cbn in Hnew, Hcur. assert (run_id r <> id) as Hne.
    { intros Heq. rewrite (Hr Heq) in *. unfold left_behind in Hl. rewrite Hact in Hl. simplify_eq.
      rewrite Htid in Hnew. by rewrite Hnew in Htask; apply is_Some_None in Htask. }
    split; [|intros ->; congruence]. split; [split_and!|].
    + cbn. by rewrite lookup_insert_ne.
    + done.
    + exists node_run. split; [done|]. cbn. destruct (decide (task_id task = stable_task_id (run_id run) "recovery"
        (host_uuid_string (node_run_id node_run)))) as [->|?]; [by rewrite lookup_insert_eq|by rewrite lookup_insert_ne].
    + intros i run'. cbn. destruct (decide (i = run_id r)) as [->|?].
      * rewrite lookup_insert_eq. by intros [= <-].
      * rewrite lookup_insert_ne by done. apply Hkey.
  - split; [|eauto]. by split; [split_and!; eauto|].
Qed.

Lemma recover_loop_blocked id run rows s :
  blocked id run s -> run ∈ rows -> (forall r, r ∈ rows -> run_id r = id -> r = run) ->
  exists e s', m_for rows (hand_over is_open_status recovery_task) s = (Err e, s') /\ blocked id run s'.
Proof using Type.
  revert s. induction rows as [|r rows IH]; intros s Hb Hin Hu; [set_solver|]. cbn [m_for].
  destruct (recover_step_blocked id run r s Hb) as [Hb' Herr]; [apply Hu; set_solver|].
  unfold m_bind. destruct (hand_over _ _ r s) as [[[]|e] s1]; cbn [fst snd] in *; [|by eauto].
  apply IH; [done| |intros; apply Hu; set_solver].
  apply elem_of_cons in Hin as [<-|Hin]; [|done]. by destruct Herr.
Qed.

Lemma m_select_run p st w : m_select p (st, w) = (select_runs p st, (st, w)).
Proof using Type. unfold m_select, m_bind, m_self, m_lift. by destruct (select_runs p st). Qed.

Definition hand_over_interrupted : StoreM unit :=
  (let* interrupted_runs := m_select interrupted_by_restart in
   m_for interrupted_runs recover_run ;;*
   let* legacy_approval_runs := m_select waiting_approval_column in
   m_for legacy_approval_runs attach_legacy_approval).

Lemma recover_unfold st w :
  recover_interrupted_runtime_state (st, w) = hand_over_interrupted (paused_store (host_now w) st, N.succ w).
Proof using Type. reflexivity. Qed.

Lemma recover_blocked id run s :
  blocked id run s -> was_driven run || interrupted_by_restart run = true ->
  exists e s' run', recover_interrupted_runtime_state s = (Err e, s') /\ blocked id run' s'
    /\ interrupted_by_restart run' = true.
Proof using Type.
  destruct s as [st w]. intros [Hst Hkey] Hdriven. cbn [fst] in Hst, Hkey. set (run1 := restart_pause (host_now w) run).
  assert (interrupted_by_restart run1 = true) as Hi.
  { unfold run1, restart_pause. destruct (was_driven run); [|done].
    unfold interrupted_by_restart, status_column. cbn. by case_bool_decide. }
  rewrite recover_unfold. unfold hand_over_interrupted.
  assert (blocked id run1 (paused_store (host_now w) st, N.succ w)) as Hb.
  { destruct Hst as (Hrun & Hact & nr & Hlast & Htask). split; [split_and!|].
    - cbn. by rewrite lookup_fmap, Hrun.
    - unfold run1, restart_pause. by destruct (was_driven run).
    - exists nr. unfold run1. rewrite restart_pause_id. split; [|done].
      unfold restart_pause. by destruct (was_driven run).
    - intros i r. cbn. rewrite lookup_fmap, fmap_Some. intros (r0 & Hr0 & ->). rewrite restart_pause_id.
      by apply Hkey. }
  destruct (select_runs interrupted_by_restart (paused_store (host_now w) st)) as [rows|e] eqn:Hsel.
  - rewrite (m_bind_pure _ _ rows _ (paused_store (host_now w) st, N.succ w)); [|by rewrite m_select_run, Hsel].
    destruct Hb as [Hst1 Hkey1]. pose proof Hst1 as (Hrun1 & _). cbn [fst] in Hrun1, Hkey1.
    assert (run_id run1 = id) as Hid by by apply Hkey1 in Hrun1.
    apply select_runs_Ok in Hsel as (_ & Hrows & _); [|done].
    destruct (recover_loop_blocked id run1 rows (paused_store (host_now w) st, N.succ w)) as (e & s' & Hloop & Hb').
    + by split.
    + apply Hrows. by rewrite Hid.
    + intros r [_ Hr]%Hrows Hrid. rewrite Hrid in Hr. congruence.
    + rewrite <-(m_for_ext _ _ _ _ recover_run_hands_over) in Hloop.
      exists e, s', run1. unfold m_bind. by rewrite Hloop.
  - exists e, (paused_store (host_now w) st, N.succ w), run1. unfold m_bind at 1.
    by rewrite m_select_run, Hsel.
Qed.

(** C31: a node interrupted by two restarts keeps the store from opening: the task that
    hands a node over is identified by its node run, so when the recovery task of the
    last open node of a driven run exists already (a person answered it and the run was
    resumed) and the run names no task, recovering fails, and fails again at every
    later start. *)
Theorem second_interruption_blocks_startup st w id run n :
  (forall i, keyed i st) -> handed_over_before id run st -> was_driven run = true ->
  exists e, fst (recover_interrupted_runtime_state
                   (Nat.iter n (fun s => snd (recover_interrupted_runtime_state s)) (st, w))) = Err e.
Proof using Type.
  intros Hkey Hst Hdriven.
  assert (exists run', blocked id run' (Nat.iter n (fun s => snd (recover_interrupted_runtime_state s)) (st, w))
    /\ was_driven run' || interrupted_by_restart run' = true) as (run' & Hb & Hd).
  { induction n as [|n (run' & Hb & Hd)]; cbn [Nat.iter nat_rect].
    - exists run. by rewrite Hdriven.
    - destruct (recover_blocked _ _ _ Hb Hd) as (e & s' & run1 & Heq & Hb1 & Hi). exists run1.
      unfold Nat.iter in Heq. rewrite Heq. rewrite Hi. by rewrite orb_true_r. }
  destruct (recover_blocked _ _ _ Hb Hd) as (e & s' & _ & -> & _). by exists e.
Qed.
End restart.
