(* ===== verification/FlowApi.v ===== *)
(** The HTTP handlers that resolve, claim and assign Human tasks and pause, resume and
    cancel Flow runs (opentopia-server, human_tasks_api.rs and flows_api.rs). *)
From S2P Require Import Prelude RustStr RustStrFacts Json Enterprise WorkflowState WorkflowAutomation FlowGraph FlowActivation Flow WorkflowInterrupt HumanTask Workflow FlowRun FlowEngine FlowResume FlowStore FlowDriver FlowCommit FlowLoop FlowProgress FlowConcurrency FlowRestart.

(** * Errors *)

Inductive StatusCode := BAD_REQUEST | NOT_FOUND | CONFLICT | INTERNAL_SERVER_ERROR | BAD_GATEWAY.
Record ApiError := { status : StatusCode; message : string }.

Definition api_bad_request (s : string) : ApiError := {| status := BAD_REQUEST; message := s |}.
Definition api_not_found (s : string) : ApiError := {| status := NOT_FOUND; message := s |}.
Definition api_conflict (s : string) : ApiError := {| status := CONFLICT; message := s |}.
Definition api_bad_gateway (s : string) : ApiError := {| status := BAD_GATEWAY; message := s |}.

Section errors.
Context `{HO : Host}.

(** [ApiError::from] of an error that is no [StoreError]. *)
Definition api_from (error : anyhow) : ApiError :=
  {| status := INTERNAL_SERVER_ERROR; message := error_string error |}.

Definition flow_error (error : anyhow) : ApiError :=
  match error with
  | HumanTaskNotFound _ | RunNotFound _ => api_not_found (error_string error)
  | HumanTaskRevisionConflict _ | RunRevisionConflict _ => api_conflict (error_string error)
  | _ => api_from error
  end.

Definition human_task_error (error : anyhow) : ApiError :=
  match error with
  | HumanTaskNotFound _ => api_not_found (error_string error)
  | HumanTaskRevisionConflict _ => api_conflict (error_string error)
  | _ => flow_error error
  end.
End errors.

(** * Handlers *)

(** A handler runs against the store; an error response keeps what it has written. *)
Definition Handler `{JsonNumber} (A : Type) : Type :=
  FlowStore * World -> Result ApiError A * (FlowStore * World).

Section handler.
Context `{JN : JsonNumber}.

Definition h_ret {A} (a : A) : Handler A := fun s => (Ok a, s).
Definition h_fail {A} (e : ApiError) : Handler A := fun s => (Err e, s).
Definition h_bind {A B} (m : Handler A) (k : A -> Handler B) : Handler B :=
  fun s => match m s with
           | (Ok a, s') => k a s'
           | (Err e, s') => (Err e, s')
           end.
Definition h_ensure (b : bool) (e : ApiError) : Handler unit := if b then h_ret tt else h_fail e.
(** [.map_err(convert)?] *)
Definition h_call {A} (convert : anyhow -> ApiError) (m : StoreM A) : Handler A :=
  fun s => let '(r, s') := m s in (map_err convert r, s').
(** [.ok_or_else(|| e)?] *)
Definition h_some {A} (o : option A) (e : ApiError) : Handler A :=
  match o with Some a => h_ret a | None => h_fail e end.
End handler.

Notation "'let!' x ':=' m 'in' k" := (h_bind m (fun x => k))
  (at level 10, x pattern, m at level 100, k at level 200) : rust_scope.
Notation "m ';;!' k" := (h_bind m (fun _ => k))
  (at level 100, k at level 200, right associativity) : rust_scope.

(** The parts of the server the handlers call that are outside this development:
    settings and threads, the runtime context of a run, and the delivery of outputs
    with the tasks it makes. *)
Class Server `{JsonNumber} := {
  ensure_enterprise : World -> Result ApiError unit;
  ensure_flow_thread : Uuid -> World -> Result ApiError unit;
  flow_runtime_context : FlowRunV1 -> World -> Result ApiError ToolInvocationContext;
  DeliveryReceipt : Type;
  deliver_run_output : FlowRunV1 -> StoreM DeliveryReceipt;
  get_workflow_delivery_receipt : Uuid -> StoreM (option DeliveryReceipt);
}.

Notation TaskM := (M (HumanTaskV1 * World)).

Record ResolveHumanTaskRequest `{JsonNumber} := {
  request_expected_revision : Z;
  request_action : HumanTaskActionV1;
  request_note : option string;
  request_idempotency_key : option string;
  request_response : option Value;
}.

Record ResolveHumanTaskResponse `{Server} := {
  response_task : HumanTaskV1;
  response_run : option FlowRunV1;
  response_receipt : option DeliveryReceipt;
}.
#[global] Arguments response_task {_ _} _.
#[global] Arguments response_run {_ _} _.
#[global] Arguments response_receipt {_ _} _.

Record ResumeFlowRunRequest := {
  retry_interrupted_node : bool;
  approved : option bool;
  resume_note : option string;
}.

Section api.
Context `{JN : JsonNumber} `{JT : !JsonText} `{SG : !SignalCodec} `{RC : !ResponseCodec} `{EN : !Environment} `{HO : Host}
  `{SV : !Server}.

(** Reading what the environment of the server answers at this moment. *)
Definition h_server {A} (f : World -> Result ApiError A) : Handler A :=
  fun '(st, w) => (f w, (st, N.succ w)).

Definition human_task_for_request (id : Uuid) : Handler HumanTaskV1 :=
  let! found := h_call human_task_error (get_human_task id) in
  let! task := h_some found (api_not_found "Human task not found") in
  h_server (ensure_flow_thread (task_thread_id task)) ;;!
  h_ret task.

Definition resolution_matches (task : HumanTaskV1) (action : HumanTaskActionV1) (key : string) : bool :=
  match resolution task with
  | Some r => bool_decide (resolution_action r = action)
              && bool_decide (resolution_idempotency_key r = Some key)
  | None => false
  end.

(** [{:?}] *)
Definition action_debug (action : HumanTaskActionV1) : string :=
  match action with
  | ActApprove => "Approve" | ActReject => "Reject" | ActRetry => "Retry" | ActResume => "Resume"
  | ActSubmit => "Submit" | ActReconnect => "Reconnect" | ActAcknowledge => "Acknowledge"
  | ActCancel => "Cancel"
  end.

Definition request_key (task : HumanTaskV1) (request : ResolveHumanTaskRequest) : string :=
  default ("legacy:" +:+ host_uuid_string (task_id task) +:+ ":"
             +:+ pretty (request_expected_revision request) +:+ ":"
             +:+ action_debug (request_action request))
          (trim_nonempty (request_idempotency_key request)).

Definition flow_run_of (id : Uuid) : Handler FlowRunV1 :=
  let! found := h_call human_task_error (get_flow_run id) in
  h_some found (api_not_found "Flow run not found").

(** The answer to a request whose task is no longer pending. *)
Definition replay_resolution (task : HumanTaskV1) (action : HumanTaskActionV1) (key : string)
    : Handler ResolveHumanTaskResponse :=
  h_ensure (resolution_matches task action key) (api_conflict "Human task is no longer pending") ;;!
  match source_kind task with
  | FlowRunSource =>
      let! run := flow_run_of (source_id task) in
      h_ret {| response_task := task; response_run := Some run; response_receipt := None |}
  | DeliveryReceiptSource =>
      let! receipt := h_call human_task_error (get_workflow_delivery_receipt (source_id task)) in
      h_ret {| response_task := task; response_run := None; response_receipt := receipt |}
  end.

Definition actor : string := "local_operator".

(** The five assignments of every cancelling or rejecting action. *)
Definition cancel_by_operator (note : option string) (otherwise : string) : RunM unit :=
  m_update (fun run => run <| run_status := Cancelled |>
      <| run_error := Some (default otherwise note) |> <| active_human_task_id := None |>) ;;*
  let* now := m_world utc_now in
  m_update (fun run => run <| run_completed_at := Some now |>) ;;*
  touch.

Definition retry_recovery : RunM unit :=
  let* run := m_self in
  match pending_resume_command_id run with
  | Some _ =>
      m_update (fun run => run <| run_status := Resuming |>
        <| node_runs := (fun node => if bool_decide (node_run_status node = NodeResuming)
                                     then node <| node_run_error := None |> else node) <$> node_runs run |>)
  | None =>
      prepare_flow_resume true ;;*
      m_update (fun run => run <| run_status := Running |>)
  end ;;*
  m_update (fun run => run <| run_error := None |> <| active_human_task_id := None |>) ;;*
  touch.

Definition approve_output : RunM unit :=
  m_update (fun run => run <| output_reviewed := true |> <| run_status := Succeeded |>
                           <| active_human_task_id := None |> <| run_error := None |>) ;;*
  let* now := m_world utc_now in
  m_update (fun run => run <| run_completed_at := Some now |>) ;;*
  touch.

(** An answer to an Agent, or the cancellation of its run. *)
Definition resume_or_cancel (task : HumanTaskV1) (request : ResolveHumanTaskRequest) (key otherwise : string)
    : RunM (option Uuid) :=
  if bool_decide (request_action request = ActCancel)
  then cancel_by_operator (request_note request) otherwise ;;* m_ret None
  else let* command := prepare_flow_interrupt_resume task (request_action request)
                         (request_response request) (request_note request) actor key in
       m_ret (Some (command_id command)).

(** The [match] on the task's kind: what the action does to the run, the id of the
    resume command, or the refusal of an action the kind does not take. *)
Definition apply_action (task : HumanTaskV1) (request : ResolveHumanTaskRequest) (key : string)
    : string + RunM (option Uuid) :=
  match task_type task, task_continuation_id task with
  | TaskApproval, None =>
      match request_action request with
      | ActApprove | ActReject =>
          inr (resolve_flow_approval (bool_decide (request_action request = ActApprove)) (request_note request) ;;*
               m_ret None)
      | _ => inl "approval tasks only accept approve or reject"
      end
  | TaskApproval, Some _ | TaskInputRequest, _ | TaskReconnect, _ | TaskReconciliation, _ =>
      inr (resume_or_cancel task request key "Human task cancelled by operator")
  | TaskRecovery, Some _ =>
      inr (resume_or_cancel task request key "Agent continuation retry cancelled")
  | TaskRecovery, None =>
      match request_action request with
      | ActRetry => inr (retry_recovery ;;* m_ret None)
      | ActCancel =>
          inr (cancel_by_operator (request_note request) "recovery cancelled by operator" ;;* m_ret None)
      | _ => inl "recovery tasks only accept retry or cancel"
      end
  | TaskOutputReview, _ =>
      match request_action request with
      | ActApprove => inr (approve_output ;;* m_ret None)
      | ActReject =>
          inr (cancel_by_operator (request_note request) "Flow output rejected by operator" ;;* m_ret None)
      | _ => inl "output review only accepts approve or reject"
      end
  | TaskDataCorrection, _ | TaskManual, _ => inl "Human task kind is not supported yet"
  end.

(** [?] inside the [match]: the errors of the runtime are internal errors. *)
Definition on_run_h {A} (run : FlowRunV1) (m : string + RunM A) : Handler (A * FlowRunV1) :=
  match m with
  | inl refusal => h_fail (api_bad_request refusal)
  | inr m => h_call api_from (on_run run m)
  end.

Definition claimed_by_other (task : HumanTaskV1) : option string :=
  match claimed_by task with
  | Some claimant => if String.eqb claimant actor then None else Some claimant
  | None => None
  end.

(** The response once run and task are written. *)
Definition finish_resolution (task : HumanTaskV1) (run : FlowRunV1)
    (context : option ToolInvocationContext) : Handler ResolveHumanTaskResponse :=
  match context with
  | Some c => h_call api_from (m_lift (spawn_check c))
  | None => h_ret tt
  end ;;!
  let! receipt :=
    if bool_decide (run_status run = Succeeded)
    then let! r := h_call (fun e => api_bad_gateway (error_string e)) (deliver_run_output run) in
         h_ret (Some r)
    else h_ret None in
  h_ret {| response_task := task; response_run := Some run; response_receipt := receipt |}.

(** The response to a task that changed since it was read. *)
Definition replay_after_conflict (id : Uuid) (action : HumanTaskActionV1) (key : string) (error : anyhow)
    : Handler ResolveHumanTaskResponse :=
  let! current := human_task_for_request id in
  h_ensure (resolution_matches current action key) (human_task_error error) ;;!
  let! current_run := flow_run_of (source_id current) in
  h_ret {| response_task := current; response_run := Some current_run; response_receipt := None |}.

(** The transaction and what its outcome means. *)
Definition commit_resolution (id : Uuid) (request : ResolveHumanTaskRequest) (key : string)
    (run run' : FlowRunV1) (task' : HumanTaskV1) (context : option ToolInvocationContext)
    : Handler ResolveHumanTaskResponse := fun s =>
  match update_flow_run_and_human_task run' (run_revision run) task'
          (Some (request_expected_revision request)) s with
  | (Ok (run', task'), s') => finish_resolution task' run' context s'
  | (Err (HumanTaskRevisionConflict revision), s') =>
      replay_after_conflict id (request_action request) key (HumanTaskRevisionConflict revision) s'
  | (Err error, s') => h_fail (human_task_error error) s'
  end.

(** From the read of the run on. *)
Definition resolve_flow_task (id : Uuid) (task : HumanTaskV1) (request : ResolveHumanTaskRequest)
    (key : string) : Handler ResolveHumanTaskResponse :=
  let! run := flow_run_of (source_id task) in
  h_server (ensure_flow_thread (run_thread_id run)) ;;!
  h_ensure (bool_decide (active_human_task_id run = Some (task_id task)))
    (api_conflict "Flow run is no longer waiting on this Human task") ;;!
  match claimed_by_other task with
  | Some claimant => h_fail (api_conflict ("Human task is claimed by " +:+ claimant))
  | None => h_ret tt
  end ;;!
  let! (resume_command_id, run') := on_run_h run (apply_action task request key) in
  let audit_command_id := default (host_v5 (task_id task) key) resume_command_id in
  let! (_, task') := h_call api_from (on_task task
      (resolve_with_command (request_action request) (request_note request) actor
         (Some audit_command_id) (Some key) (request_response request))) in
  let! context :=
    match run_status run' with
    | Running | Resuming => let! c := h_server (flow_runtime_context run') in h_ret (Some c)
    | _ => h_ret None
    end in
  commit_resolution id request key run run' task' context.

(** [resolve_delivery_human_task] settles receipts, which are not modelled. *)
Definition resolve_human_task
    (resolve_delivery_human_task : HumanTaskV1 -> ResolveHumanTaskRequest -> string
                                   -> Handler ResolveHumanTaskResponse)
    (id : Uuid) (request : ResolveHumanTaskRequest) : Handler ResolveHumanTaskResponse :=
  h_server ensure_enterprise ;;!
  let! task := human_task_for_request id in
  let key := request_key task request in
  if bool_decide (task_status task = Pending) then
    h_ensure (task_revision task =? request_expected_revision request)
      (api_conflict ("Human task revision conflict; current revision is " +:+ pretty (task_revision task))) ;;!
    match source_kind task with
    | DeliveryReceiptSource => resolve_delivery_human_task task request key
    | FlowRunSource => resolve_flow_task id task request key
    end
  else replay_resolution task (request_action request) key.

(** The guard the claim and assign handlers share, and their update. *)
Definition change_task (id : Uuid) (expected_revision : Z) (change : TaskM unit) : Handler HumanTaskV1 :=
  h_server ensure_enterprise ;;!
  let! task := human_task_for_request id in
  h_ensure (task_revision task =? expected_revision)
    (api_conflict ("Human task revision conflict; current revision is " +:+ pretty (task_revision task))) ;;!
  let! (_, task') := h_call api_from (on_task task change) in
  h_call human_task_error (update_human_task task' expected_revision).

Definition claim_human_task (id : Uuid) (expected_revision : Z) : Handler HumanTaskV1 :=
  change_task id expected_revision (claim actor).
Definition assign_human_task (id : Uuid) (expected_revision : Z) (assignee : option string) : Handler HumanTaskV1 :=
  change_task id expected_revision (assign assignee).

(** * flows_api.rs *)

Definition flow_run_for_request (id : Uuid) : Handler FlowRunV1 :=
  let! found := h_call flow_error (get_flow_run id) in
  let! run := h_some found (api_not_found "Flow run not found") in
  h_server (ensure_flow_thread (run_thread_id run)) ;;!
  h_ret run.

Definition pause_flow_run (id : Uuid) : Handler FlowRunV1 :=
  let! run := flow_run_for_request id in
  h_ensure (match run_status run with Queued | Running | Resuming => true | _ => false end)
    (api_conflict "only a queued or running Flow can be paused") ;;!
  let! (_, run') := h_call api_from (on_run run
    (m_update (fun run => run <| run_status := PauseRequested |>) ;;* touch)) in
  h_call flow_error (update_flow_run run' (run_revision run)).

(** The run and, when a task is pending, the task in one transaction. *)
Definition settle_run (run run' : FlowRunV1) (task : option HumanTaskV1) (settle : option (TaskM unit))
    : Handler FlowRunV1 :=
  match task, settle with
  | Some task, Some settle =>
      let! (_, task') := h_call api_from (on_task task settle) in
      let! (run', _) := h_call flow_error (update_flow_run_and_human_task run' (run_revision run)
                          task' (Some (task_revision task))) in
      h_ret run'
  | _, _ => h_call flow_error (update_flow_run run' (run_revision run))
  end.

Definition resume_flow_run (id : Uuid) (request : ResumeFlowRunRequest) : Handler FlowRunV1 :=
  let! run := flow_run_for_request id in
  h_server (ensure_flow_thread (run_thread_id run)) ;;!
  let! human_task := h_call flow_error (get_pending_human_task_for_flow_run (run_id run)) in
  let! (run', action) :=
    match run_status run with
    | Paused =>
        h_ensure (match approved request with None => true | Some _ => false end)
          (api_bad_request "approved is only valid while a Flow is waiting for approval") ;;!
        let! (_, run') := h_call api_from (on_run run (
          prepare_flow_resume (retry_interrupted_node request) ;;*
          m_update (fun run => run <| run_status := Running |> <| run_error := None |>) ;;*
          touch)) in
        h_ret (run', match human_task with Some _ => Some ActRetry | None => None end)
    | WaitingApproval =>
        let! yes := h_some (approved request) (api_bad_request "approved is required") in
        let! (_, run') := h_call api_from (on_run run (resolve_flow_approval yes (resume_note request))) in
        h_ret (run', Some (if yes then ActApprove else ActReject))
    | _ => h_fail (api_conflict "Flow run is not paused or waiting for approval")
    end in
  let! context :=
    if is_terminal (run_status run') then h_ret None else
    let! c := h_server (flow_runtime_context run') in h_ret (Some c) in
  let! run' := settle_run run run' human_task
                 ((fun action => resolve action (resume_note request) actor) <$> action) in
  match context with
  | Some c => h_call api_from (m_lift (spawn_check c)) ;;! h_ret run'
  | None => h_ret run'
  end.

Definition api_request_cancel : RunM unit :=
  let* run := m_self in
  match run_status run with
  | Paused | WaitingApproval | WaitingHuman =>
      m_update (fun run => run <| run_status := Cancelled |>) ;;*
      let* now := m_world utc_now in
      m_update (fun run => run <| run_completed_at := Some now |>)
  | _ => m_update (fun run => run <| run_status := CancelRequested |>)
  end ;;*
  m_update (fun run => run <| active_human_task_id := None |>) ;;*
  touch.

Definition cancel_flow_run (id : Uuid) : Handler FlowRunV1 :=
  let! run := flow_run_for_request id in
  h_ensure (negb (is_terminal (run_status run))) (api_conflict "Flow run is already terminal") ;;!
  let! (_, run') := h_call api_from (on_run run api_request_cancel) in
  let! pending_task := h_call flow_error (get_pending_human_task_for_flow_run (run_id run')) in
  settle_run run run' pending_task
    (Some (cancel_task (Some "Flow run cancelled by operator") actor)).

(** * What an answer does to a run *)

(** What identifies a run, its revision and the task it names. *)
Definition identity_of (run : FlowRunV1) := (run_id run, run_thread_id run).

(** [m], when it succeeds, counts the revision of the run up if [bumps], and makes it
    name no task if [clears]. *)
Definition answers (bumps clears : bool) {A} (m : RunM A) : Prop :=
  forall run w a run' w', m (run, w) = (Ok a, (run', w')) ->
    identity_of run' = identity_of run
    /\ run_revision run' = (if bumps then u32_saturating_add (run_revision run) 1 else run_revision run)
    /\ active_human_task_id run' = (if clears then None else active_human_task_id run).

Lemma answers_bind b1 b2 c1 c2 {A B} (m : RunM A) (k : A -> RunM B) :
  b1 && b2 = false -> answers b1 c1 m -> (forall a, answers b2 c2 (k a)) ->
  answers (b1 || b2) (c1 || c2) (m_bind m k).
Proof using Type.
  intros Hb Hm Hk run w a run' w'. rewrite m_bind_Ok. intros (x & [run1 w1] & H1 & H2).
  apply Hm in H1 as (Hi1 & Hr1 & Ha1). apply Hk in H2 as (Hi2 & Hr2 & Ha2).
  split_and!; [congruence| |].
  - rewrite Hr2. destruct b1, b2; cbn in *; congruence.
  - rewrite Ha2. destruct c1, c2; cbn; congruence.
Qed.

Lemma answers_keeps {A} (m : RunM A) :
  keeps (fun r => (identity_of r, run_revision r, active_human_task_id r)) m -> answers false false m.
Proof using Type.
  intros Hk run w a run' w' H. pose proof (keeps_run _ _ _ _ _ _ _ Hk H) as Heq. cbn in Heq.
  unfold identity_of in *. by injection Heq as -> -> -> ->.
Qed.

Lemma answers_clear (f : FlowRunV1 -> FlowRunV1) :
  (forall r, identity_of (f r) = identity_of r /\ run_revision (f r) = run_revision r
             /\ active_human_task_id (f r) = None) ->
  answers false true (m_update f).
Proof using Type. intros Hf run w a run' w' [= <- <- <-]. apply Hf. Qed.

Lemma answers_touch : answers true false touch.
Proof using Type. intros run w a run' w' [= <- <- <-]. done. Qed.

Lemma answers_last {A} (m : RunM unit) (k : RunM A) b c :
  answers b c m -> answers false false k -> answers b c (m ;;* k).
Proof using Type.
  intros Hm Hk. rewrite <-(orb_false_r b), <-(orb_false_r c).
  apply answers_bind; [apply andb_false_r|done|by intros _].
Qed.

Lemma answers_first {A B} (m : RunM A) (k : A -> RunM B) b c :
  keeps (fun r => (identity_of r, run_revision r, active_human_task_id r)) m ->
  (forall a, answers b c (k a)) -> answers b c (m_bind m k).
Proof using Type.
  intros Hm Hk. change (answers (false || b) (false || c) (m_bind m k)).
  apply answers_bind; [done|by apply answers_keeps|done].
Qed.

Lemma answers_then {A} c1 c2 (m : RunM A) (k : A -> RunM unit) :
  answers false c1 m -> (forall a, answers true c2 (k a)) -> answers true (c1 || c2) (m_bind m k).
Proof using Type. intros Hm Hk. by apply (answers_bind false true). Qed.

Ltac solve_identity_keeps :=
  solve_keeps;
  repeat match goal with
  | |- keeps _ (transcript_entry _ _ _) => unfold transcript_entry; solve_keeps
  | |- keeps _ (route_after_node _ _) => unfold route_after_node; solve_keeps
  | |- keeps _ (route_edge _ ?x) => destruct x; unfold route_edge, consume_loop_budget; solve_keeps
  end.

Lemma cancel_by_operator_answers note otherwise : answers true true (cancel_by_operator note otherwise).
Proof using Type.
  unfold cancel_by_operator. apply (answers_then true false); [by apply answers_clear|]. intros _.
  apply answers_first; [solve_keeps|]. intros now. apply answers_first; [solve_keeps|]. intros _.
  apply answers_touch.
Qed.

Lemma resolve_flow_approval_answers ok note : answers true true (resolve_flow_approval ok note).
Proof using Type.
  unfold resolve_flow_approval.
  repeat (apply answers_first; [solve [solve_identity_keeps]|intros ?]).
  apply (answers_then true false); [by apply answers_clear|]. intros _.
  apply answers_first; [|intros; apply answers_touch].
  destruct ok; solve_identity_keeps.
Qed.

Lemma prepare_flow_interrupt_resume_answers task action response note by_ key :
  answers true true (prepare_flow_interrupt_resume task action response note by_ key).
Proof using Type.
  unfold prepare_flow_interrupt_resume.
  repeat (apply answers_first; [solve [solve_identity_keeps]|intros ?]).
  apply (answers_bind false true true false); [done|by apply answers_clear|]. intros _.
  apply answers_last; [apply answers_touch|apply answers_keeps; solve_keeps].
Qed.

(** A step before the one that clears the task may clear it too. *)
Lemma answers_cleared {A B} (m : RunM A) (k : A -> RunM B) b :
  keeps (fun r => (identity_of r, run_revision r)) m -> (forall a, answers b true (k a)) ->
  answers b true (m_bind m k).
Proof using Type.
  intros Hm Hk run w a run' w'. rewrite m_bind_Ok. intros (x & [run1 w1] & H1 & H2).
  pose proof (keeps_run _ _ _ _ _ _ _ Hm H1) as Heq. cbn in Heq.
  apply Hk in H2 as (Hi & Hr & Ha). split_and!; [congruence| |done]. rewrite Hr.
  by injection Heq as _ _ ->.
Qed.

Lemma retry_items_keeps completed items :
  keeps (fun r => (identity_of r, run_revision r)) (retry_items completed items).
Proof using Type.
  induction items as [|item items IH]; cbn [retry_items]; [apply keeps_ret|].
  apply keeps_bind; [|intros; apply keeps_bind; [done|intros; apply keeps_ret]].
  unfold retry_item, superstep_node_run. destruct (decide _); solve_identity_keeps.
Qed.

Lemma prepare_flow_resume_keeps retry :
  keeps (fun r => (identity_of r, run_revision r)) (prepare_flow_resume retry).
Proof using Type.
  unfold prepare_flow_resume, retry_checkpoint, retry_running_node. solve_keeps.
  apply retry_items_keeps.
Qed.

Lemma retry_recovery_answers : answers true true retry_recovery.
Proof using Type.
  unfold retry_recovery. apply answers_first; [solve_keeps|]. intros run.
  apply answers_cleared.
  - destruct (pending_resume_command_id run); solve_keeps; apply prepare_flow_resume_keeps.
  - intros _. apply (answers_then true false); [by apply answers_clear|]. intros _. apply answers_touch.
Qed.

Lemma approve_output_answers : answers true true approve_output.
Proof using Type.
  unfold approve_output. apply (answers_then true false); [by apply answers_clear|]. intros _.
  apply answers_first; [solve_keeps|]. intros now. apply answers_first; [solve_keeps|]. intros _.
  apply answers_touch.
Qed.

Lemma apply_action_answers task request key m :
  apply_action task request key = inr m -> answers true true m.
Proof using Type.
  assert (forall note otherwise, answers true true (cancel_by_operator note otherwise ;;* m_ret (None : option Uuid))) as Hcancel.
  { intros. apply answers_last; [apply cancel_by_operator_answers|apply answers_keeps, keeps_ret]. }
  assert (forall otherwise, answers true true (resume_or_cancel task request key otherwise)) as Hresume.
  { intros. unfold resume_or_cancel. case_bool_decide; [apply Hcancel|].
    apply (answers_bind true false true false); [done|apply prepare_flow_interrupt_resume_answers|].
    intros. apply answers_keeps, keeps_ret. }
  unfold apply_action. destruct (task_type task), (task_continuation_id task), (request_action request);
    intros [= <-]; auto; apply answers_last; try (apply answers_keeps, keeps_ret);
    auto using resolve_flow_approval_answers, retry_recovery_answers, approve_output_answers.
Qed.

(** * Reading and committing *)

(** [m] writes nothing itself. *)
Definition reads_only {A} (m : Handler A) : Prop :=
  forall st w r st' w', m (st, w) = (r, (st', w')) -> env_steps st st'.

Lemma reads_ret {A} (a : A) : reads_only (h_ret a).
Proof using Type. intros st w r st' w' [= _ <- _]. apply rtc_refl. Qed.
Lemma reads_fail {A} e : reads_only (@h_fail _ A e).
Proof using Type. intros st w r st' w' [= _ <- _]. apply rtc_refl. Qed.
Lemma reads_server {A} (f : World -> Result ApiError A) : reads_only (h_server f).
Proof using Type. intros st w r st' w' [= _ <- _]. apply rtc_refl. Qed.
Lemma reads_read {A} convert (f : FlowStore -> A) : reads_only (h_call convert (m_read f)).
Proof using Type. intros st w r st' w' [= _ <- _]. apply rtc_once. by exists w. Qed.
Lemma reads_bind {A B} (m : Handler A) (k : A -> Handler B) :
  reads_only m -> (forall a, reads_only (k a)) -> reads_only (h_bind m k).
Proof using Type.
  intros Hm Hk st w r st' w'. unfold h_bind.
  destruct (m (st, w)) as [[a|e] [st1 w1]] eqn:H; [|by intros [= _ <- _]; eapply Hm].
  intros H2. etrans; [by eapply Hm|by eapply Hk].
Qed.
Lemma reads_some {A} (o : option A) e : reads_only (h_some o e).
Proof using Type. destruct o; [apply reads_ret|apply reads_fail]. Qed.
Lemma reads_ensure b e : reads_only (h_ensure b e).
Proof using Type. destruct b; [apply reads_ret|apply reads_fail]. Qed.
Lemma reads_flow_run_of id : reads_only (flow_run_of id).
Proof using Type. apply reads_bind; [apply reads_read|intros; apply reads_some]. Qed.
Lemma reads_human_task_for_request id : reads_only (human_task_for_request id).
Proof using Type.
  apply reads_bind; [apply reads_read|]. intros. apply reads_bind; [apply reads_some|]. intros.
  apply reads_bind; [apply reads_server|]. intros. apply reads_ret.
Qed.
Lemma reads_replay_after_conflict id action key e : reads_only (replay_after_conflict id action key e).
Proof using Type.
  apply reads_bind; [apply reads_human_task_for_request|]. intros.
  apply reads_bind; [apply reads_ensure|]. intros.
  apply reads_bind; [apply reads_flow_run_of|]. intros. apply reads_ret.
Qed.

(** A step of the local copies of run and task. *)
Lemma h_bind_Ok {A B} (m : Handler A) (k : A -> Handler B) s r s' :
  h_bind m k s = (r, s') ->
  (exists e, r = Err e /\ m s = (Err e, s')) \/ exists a s1, m s = (Ok a, s1) /\ k a s1 = (r, s').
Proof using Type.
  unfold h_bind. destruct (m s) as [[a|e] s1]; [by right; exists a, s1|]. intros [= <- <-]. left. by exists e.
Qed.

Lemma on_run_h_inv {A} run (m : string + RunM A) st w r st' w' :
  on_run_h run m (st, w) = (r, (st', w')) ->
  st' = st /\ forall a run', r = Ok (a, run') ->
    exists m' w1, m = inr m' /\ m' (run, w) = (Ok a, (run', w1)).
Proof using Type.
  unfold on_run_h. destruct m as [refusal|m]; [by intros [= <- <- _]|].
  unfold h_call, on_run. destruct (m (run, w)) as [[a|e] [run1 w1]] eqn:Hm; intros [= <- <- <-];
    (split; [done|]); intros a' run' [= <- <-]; by exists m, w1.
Qed.

Lemma on_task_inv {A} task (m : M (HumanTaskV1 * World) A) st w r st' w' :
  h_call api_from (on_task task m) (st, w) = (r, (st', w')) ->
  st' = st /\ forall a task', r = Ok (a, task') -> exists w1, m (task, w) = (Ok a, (task', w1)).
Proof using Type.
  unfold h_call, on_task. destruct (m (task, w)) as [[a|e] [task1 w1]] eqn:Hm; intros [= <- <- <-];
    (split; [done|]); intros a' task' [= <- <-]; by exists w1.
Qed.

(** [task'] is [task] answered by the action under the key. *)
Definition answered (task task' : HumanTaskV1) (action : HumanTaskActionV1) (key : string) : Prop :=
  (task_id task', source_kind task', source_id task') = (task_id task, source_kind task, source_id task)
  /\ task_status task' <> Pending
  /\ action ∈ allowed_actions task /\ resolution_matches task' action key = true
  /\ task_revision task' = u32_saturating_add (task_revision task) 1.

Lemma resolve_with_command_answered action note by_ command key r task w u task' w' :
  trim_nonempty (Some key) = Some key ->
  resolve_with_command action note by_ command (Some key) r (task, w) = (Ok u, (task', w')) ->
  answered task task' action key.
Proof using Type.
  intros Hkey. unfold resolve_with_command, ensure_pending, m_bind, m_self, m_ensure, m_lift, m_world, m_update, utc_now.
  case_bool_decide as Hp; cbn; [|done]. case_bool_decide as Ha; cbn; [|done]. intros [= _ <- _].
  split_and!; [done| |done| |done].
  - cbn. by case_bool_decide.
  - unfold resolution_matches. cbn. cbn in Hkey. rewrite Hkey. by rewrite !bool_decide_eq_true_2.
Qed.

Lemma trim_nonempty_idemp o s : trim_nonempty o = Some s -> trim_nonempty (Some s) = Some s.
Proof using Type.
  intros [Hne Ht]%trim_nonempty_Some. unfold trim_nonempty. rewrite Ht. by destruct s.
Qed.

Lemma action_debug_trimmed p action : strip_ws_rev (String.rev (p +:+ action_debug action)) = None.
Proof using Type. rewrite str_rev_app. destruct action; reflexivity. Qed.

Lemma request_key_trimmed task request :
  trim_nonempty (Some (request_key task request)) = Some (request_key task request).
Proof using Type.
  unfold request_key. destruct (trim_nonempty (request_idempotency_key request)) as [key|] eqn:Hk; cbn [default].
  { by eapply trim_nonempty_idemp. }
  rewrite <-!str_app_assoc. set (s := _ +:+ action_debug _).
  assert (trim s = s) as Ht by (apply trim_fixed; [reflexivity|apply action_debug_trimmed]).
  unfold trim_nonempty. by rewrite Ht.
Qed.

(** What the handler did, given the task it read and, as [Q], what it read of the run: it refused, it reported the same
    answer given before, or it wrote run and task and went on. *)
Inductive resolution_effect (id : Uuid) (task : HumanTaskV1) (request : ResolveHumanTaskRequest)
    (key : string) (Q : FlowRunV1 -> Prop) (st : FlowStore)
    : Result ApiError ResolveHumanTaskResponse * (FlowStore * World) -> Prop :=
| effect_refused e st' w' :
    env_steps st st' -> resolution_effect id task request key Q st (Err e, (st', w'))
| effect_replayed resp st1 st' w' :
    env_steps st st1 -> env_steps st1 st' ->
    store_tasks st1 !! id = Some (response_task resp) ->
    resolution_matches (response_task resp) (request_action request) key = true ->
    response_run resp = store_runs st' !! source_id (response_task resp) -> is_Some (response_run resp) ->
    resolution_effect id task request key Q st (Ok resp, (st', w'))
| effect_both st0 w0 run run' task' context :
    env_steps st st0 ->
    active_human_task_id run = Some (task_id task) ->
    identity_of run' = identity_of run ->
    run_revision run' = u32_saturating_add (run_revision run) 1 ->
    active_human_task_id run' = None ->
    answered task task' (request_action request) key ->
    (run_revision <$> store_runs st0 !! run_id run) = Some (run_revision run) ->
    (task_revision <$> store_tasks st0 !! task_id task) = Some (request_expected_revision request) ->
    Q run ->
    resolution_effect id task request key Q st
      (finish_resolution task' run' context
         (st0 <| store_runs := <[run_id run := run']> (store_runs st0) |>
              <| store_tasks := <[task_id task := task']> (store_tasks st0) |>, w0)).

Lemma resolution_effect_after id task request key Q st st1 res :
  env_steps st st1 -> resolution_effect id task request key Q st1 res -> resolution_effect id task request key Q st res.
Proof using Type.
  intros Hst [e st' w' H|resp st2 st' w' H1 H2 ? ? ? ?|st0 w0 run run' task' context H ? ? ? ? ? ? ? ?].
  - apply effect_refused. by etrans.
  - eapply (effect_replayed _ _ _ _ _ _ _ st2); try done. by etrans.
  - eapply effect_both; try done. by etrans.
Qed.

(** A read before the rest of a handler. *)
Lemma effect_read {A} (m : Handler A) k id task request key Q st w :
  reads_only m ->
  (forall a st1 w1, m (st, w) = (Ok a, (st1, w1)) -> resolution_effect id task request key Q st1 (k a (st1, w1))) ->
  resolution_effect id task request key Q st (h_bind m k (st, w)).
Proof using Type.
  intros Hm Hk. unfold h_bind. destruct (m (st, w)) as [[a|e] [st1 w1]] eqn:H.
  - eapply resolution_effect_after; [by eapply Hm|by apply Hk].
  - apply effect_refused. by eapply Hm.
Qed.

Lemma human_task_for_request_Ok id st w t st' w' :
  human_task_for_request id (st, w) = (Ok t, (st', w')) ->
  st' = interfere w st /\ store_tasks st' !! id = Some t.
Proof using Type.
  unfold human_task_for_request, h_bind, h_call. cbn.
  destruct (store_tasks (interfere w st) !! id) as [task|] eqn:Ht; cbn; [|done].
  destruct (ensure_flow_thread _ _); cbn; [|done]. by intros [= -> <- _].
Qed.

Lemma flow_run_of_Ok id st w run st' w' :
  flow_run_of id (st, w) = (Ok run, (st', w')) -> st' = interfere w st /\ store_runs st' !! id = Some run.
Proof using Type.
  unfold flow_run_of, h_bind, h_call. cbn.
  destruct (store_runs (interfere w st) !! id) as [r|] eqn:Hr; cbn; [|done]. by intros [= -> <- _].
Qed.

Lemma replay_after_conflict_effect id task request key Q error st w :
  resolution_effect id task request key Q st (replay_after_conflict id (request_action request) key error (st, w)).
Proof using Type.
  unfold replay_after_conflict, h_bind at 1.
  destruct (human_task_for_request id (st, w)) as [[t|e] [st1 w1]] eqn:Ht.
  2: { apply effect_refused. by eapply reads_human_task_for_request. }
  pose proof (reads_human_task_for_request _ _ _ _ _ _ Ht) as Hst1. apply human_task_for_request_Ok in Ht as [_ Ht].
  unfold h_ensure. destruct (resolution_matches t _ _) eqn:Hmatch; [|by apply effect_refused].
  unfold h_bind, h_ret at 1. destruct (flow_run_of (source_id t) (st1, w1)) as [[run|e] [st2 w2]] eqn:Hr.
  - pose proof (reads_flow_run_of _ _ _ _ _ _ Hr) as Hst2. apply flow_run_of_Ok in Hr as [_ Hr].
    by eapply (effect_replayed _ _ _ _ _ _ _ st1 st2).
  - apply effect_refused. etrans; [done|]. by eapply reads_flow_run_of.
Qed.

Lemma u32_bump_is_change n : n < u32_max -> u32_saturating_add n 1 <> n.
Proof using Type. unfold u32_saturating_add. lia. Qed.

Lemma update_run_and_task_writes run expected task texpected st w pair st' w' :
  update_flow_run_and_human_task run expected task (Some texpected) (st, w) = (Ok pair, (st', w')) ->
  pair = (run, task)
  /\ (run_revision <$> store_runs (interfere w st) !! run_id run) = Some expected
  /\ (task_revision <$> store_tasks (interfere w st) !! task_id task) = Some texpected
  /\ st' = interfere w st <| store_runs := <[run_id run := run]> (store_runs (interfere w st)) |>
             <| store_tasks := <[task_id task := task]> (store_tasks (interfere w st)) |>.
Proof using Type.
  unfold update_flow_run_and_human_task. rewrite m_bind_Ok. intros (u & [st1 w1] & H & [= <- <- <-]).
  rewrite m_transaction_run in H. destruct (update_run_and_task_conn _ _ _ _ _) as [st2|] eqn:Hc; [|done].
  injection H as _ <- <-. unfold update_run_and_task_conn in Hc. rewrite result_bind_Ok in Hc.
  destruct Hc as (conn & (current & -> & <- & ->)%update_flow_run_conn_Ok & Hc).
  unfold update_human_task_conn in Hc. cbn in Hc.
  destruct (store_tasks (interfere w st) !! task_id task) as [t|]; [|done]. cbn in Hc.
  destruct (Z.eqb_spec (task_revision t) texpected) as [<-|]; [|done]. by injection Hc as <-.
Qed.

Lemma update_run_and_task_Err run expected task texpected st w e st' w' :
  update_flow_run_and_human_task run expected task texpected (st, w) = (Err e, (st', w')) ->
  st' = interfere w st.
Proof using Type.
  unfold update_flow_run_and_human_task, m_bind. rewrite m_transaction_run.
  destruct (update_run_and_task_conn _ _ _ _ _); [done|]. by intros [= _ <- _].
Qed.

Lemma resolve_flow_task_effect id task request st w :
  let Q run := exists st1, env_steps st st1 /\ store_runs st1 !! source_id task = Some run in
  resolution_effect id task request (request_key task request) Q st
    (resolve_flow_task id task request (request_key task request) (st, w)).
Proof using Type.
  intros Q. unfold resolve_flow_task.
  unfold h_bind at 1. destruct (flow_run_of (source_id task) (st, w)) as [[run|e] [st1 w1]] eqn:Hr0.
  2: { apply effect_refused. by eapply reads_flow_run_of. }
  pose proof (reads_flow_run_of _ _ _ _ _ _ Hr0) as Hst1. apply flow_run_of_Ok in Hr0 as [_ Hr0].
  assert (Q run) as HQ by by exists st1. clear Hr0. clearbody Q.
  apply (resolution_effect_after _ _ _ _ _ _ st1 _ Hst1).
  apply effect_read; [apply reads_server|]. intros _ st2 w2 _.
  apply effect_read; [apply reads_ensure|]. intros [] st3 w3 Hact.
  unfold h_ensure in Hact. case_bool_decide as Hactive; [|done]. clear Hact.
  apply effect_read; [by destruct (claimed_by_other task); [apply reads_fail|apply reads_ret]|]. intros _ st4 w4 _.
  unfold h_bind at 1. destruct (on_run_h run _ (st4, w4)) as [[[command run']|e] [st5 w5]] eqn:Hrun.
  all: apply on_run_h_inv in Hrun as [-> Hrun]. 2: by apply effect_refused, rtc_refl.
  destruct (Hrun _ _ eq_refl) as (m & w6 & Hm & Hrun'). apply apply_action_answers in Hm.
  apply Hm in Hrun' as (Hid & Hrev & Hnone).
  unfold h_bind at 1. destruct (h_call _ _ (st4, w5)) as [[[u task']|e] [st6 w7]] eqn:Htask.
  all: apply on_task_inv in Htask as [-> Htask]. 2: by apply effect_refused, rtc_refl.
  destruct (Htask _ _ eq_refl) as (w8 & Hans). apply resolve_with_command_answered in Hans; [|apply request_key_trimmed].
  apply effect_read.
  { destruct (run_status run'); try apply reads_ret; (apply reads_bind; [apply reads_server|intros; apply reads_ret]). }
  intros context st7 w9 _. unfold commit_resolution.
  destruct (update_flow_run_and_human_task _ _ _ _ _) as [[pair|e] [st8 w10]] eqn:Hu.
  - apply update_run_and_task_writes in Hu as (-> & Hr & Ht & ->).
    injection Hid as Hid Hthread. pose proof Hans as ([= Htid _ _] & _). rewrite Hid in *. rewrite Htid in *.
    eapply (effect_both _ _ _ _ _ _ (interfere w9 st7) w10 run run' task' context); try done.
    + apply rtc_once. by exists w9.
    + unfold identity_of. congruence.
  - assert (env_steps st7 st8) as Hsteps.
    { apply update_run_and_task_Err in Hu as ->. apply rtc_once. by exists w9. }
    destruct e; try by apply effect_refused.
    eapply resolution_effect_after; [exact Hsteps|]. apply replay_after_conflict_effect.
Qed.

(** C32: answering a Flow's Human task is all or nothing among the steps of other
    clients.  Either the handler refuses and writes nothing; or it writes nothing and
    reports the same answer, which it found recorded under the request's key; or run
    and task have the revisions it read and both are replaced in one step: the task
    resolved by the requested action under the request's key, the run, which named the
    task, released from it with its next revision. *)
Theorem resolve_flow_task_atomic id task request st w :
  resolution_effect id task request (request_key task request)
    (fun run => exists st1, env_steps st st1 /\ store_runs st1 !! source_id task = Some run) st
    (resolve_flow_task id task request (request_key task request) (st, w)).
Proof using Type. apply resolve_flow_task_effect. Qed.

(** * Repeated requests *)

(** No other client, and a server that answers. *)
Definition undisturbed : Prop := forall n st, interfere n st = st.
Definition serving : Prop :=
  (forall w, ensure_enterprise w = Ok tt) /\ (forall id w, ensure_flow_thread id w = Ok tt).

Lemma undisturbed_steps a b : undisturbed -> env_steps a b -> b = a.
Proof using Type. intros Hq. induction 1 as [|a b c [n ->] _ IH]; [done|]. by rewrite IH, Hq. Qed.

(** The handler on a task that has been answered under the same key. *)
Lemma resolve_answered rd id request st w t run :
  undisturbed -> serving -> store_tasks st !! id = Some t -> task_status t <> Pending ->
  source_kind t = FlowRunSource -> store_runs st !! source_id t = Some run ->
  resolution_matches t (request_action request) (request_key t request) = true ->
  exists w', resolve_human_task rd id request (st, w)
    = (Ok {| response_task := t; response_run := Some run; response_receipt := None |}, (st, w')).
Proof using Type.
  intros Hq [He Hf] Ht Hp Hk Hr Hm.
  unfold resolve_human_task, human_task_for_request, replay_resolution, flow_run_of, h_server, h_bind, h_call, h_ret, h_ensure, get_human_task, get_flow_run, m_read, m_interfere, m_bind, m_self, m_ret.
  rewrite He, !Hq, Ht. cbn. rewrite Hf. rewrite bool_decide_eq_false_2 by done. rewrite Hm, Hk. cbn.
  rewrite Hq, Hr. cbn. eauto.
Qed.

(** Delivering the output of a run leaves runs and tasks that exist as they are. *)
Definition delivery_keeps_documents : Prop := forall run st w r st' w',
  deliver_run_output run (st, w) = (r, (st', w')) ->
  store_runs st' = store_runs st /\ store_tasks st ⊆ store_tasks st'.

Lemma finish_resolution_Ok task run context st w resp st' w' :
  delivery_keeps_documents ->
  finish_resolution task run context (st, w) = (Ok resp, (st', w')) ->
  response_task resp = task /\ store_runs st' = store_runs st /\ store_tasks st ⊆ store_tasks st'.
Proof using Type.
  intros Hd. unfold finish_resolution. intros [(e & [=] & _)|(u & [st1 w1] & H1 & H2)]%h_bind_Ok.
  assert (st1 = st) as ->.
  { destruct context; [|by injection H1 as _ <- _]. unfold h_call, m_lift in H1. by destruct (spawn_check _); injection H1 as _ <- _. }
  apply h_bind_Ok in H2 as [(e & [=] & _)|(receipt & [st2 w2] & H2 & [= <- <- _])].
  split; [done|]. case_bool_decide; [|by injection H2 as _ <- _].
  apply h_bind_Ok in H2 as [(e & [=] & _)|(r & [st3 w3] & H2 & [= _ <- _])].
  unfold h_call in H2. destruct (deliver_run_output run (st, w1)) as [r' [st4 w4]] eqn:Hdel.
  injection H2 as _ -> _. by eapply Hd.
Qed.

Lemma request_key_id t t' request : task_id t' = task_id t -> request_key t' request = request_key t request.
Proof using Type. unfold request_key. by intros ->. Qed.

(** What a successful answer leaves in the store. *)
Definition recorded (id : Uuid) (request : ResolveHumanTaskRequest) (t : HumanTaskV1) (st : FlowStore) : Prop :=
  store_tasks st !! id = Some t /\ task_status t <> Pending /\ source_kind t = FlowRunSource
  /\ is_Some (store_runs st !! source_id t)
  /\ resolution_matches t (request_action request) (request_key t request) = true.

Lemma resolve_effect_recorded id task request Q st resp st' w' :
  undisturbed -> delivery_keeps_documents -> (forall run, Q run -> run_id run = source_id task) ->
  task_id task = id -> source_kind task = FlowRunSource ->
  store_tasks st !! id = Some task -> task_ok task ->
  resolution_effect id task request (request_key task request) Q st (Ok resp, (st', w')) ->
  recorded id request (response_task resp) st'.
Proof using Type.
  intros Hq Hd HQ Hid Hk Hst Hok. remember (Ok resp, (st', w')) as res eqn:Hres. intros Heff. revert Hres.
  destruct Heff as [|resp1 st1 st2 w2 H1 H2 Ht Hm Hr [run Hrun]|st0 w0 run run' task' context H1 Hact Hi _ _ Hans _ _ Hrun]; [done| |].
  - intros [= <- <- _]. apply undisturbed_steps in H1 as ->; [|done]. apply undisturbed_steps in H2 as ->; [|done].
    rewrite Hst in Ht. injection Ht as Ht. rewrite <-Ht in *. split_and!; try done.
    + intros Hp%(tk_open _ Hok). unfold resolution_matches in Hm. by rewrite Hp in Hm.
    + rewrite <-Hr. by eexists.
  - intros Hfin. destruct Hans as ([= Htid Hkind Hsrc] & Hp & _ & Hm & _).
    apply finish_resolution_Ok in Hfin as (-> & Hruns & Htasks); [|done]. split_and!.
    + eapply lookup_weaken; [|exact Htasks]. cbn. by rewrite Hid, lookup_insert_eq.
    + done.
    + congruence.
    + rewrite Hruns. cbn. rewrite Hsrc, <-(HQ _ Hrun), lookup_insert_eq. by eexists.
    + by rewrite (request_key_id task).
Qed.

(** C40: answering a task twice is answering it once.  Without other clients, a request
    that succeeded succeeds again when it is repeated, reports the task as the first
    one left it, and changes nothing. *)
Theorem resolve_human_task_idempotent rd id request st w t resp st' w' :
  undisturbed -> serving -> delivery_keeps_documents ->
  store_tasks st !! id = Some t -> task_id t = id -> source_kind t = FlowRunSource -> task_ok t ->
  keyed (source_id t) st ->
  resolve_human_task rd id request (st, w) = (Ok resp, (st', w')) ->
  exists run w2, resolve_human_task rd id request (st', w')
    = (Ok {| response_task := response_task resp; response_run := Some run; response_receipt := None |}, (st', w2)).
Proof using Type.
  intros Hq Hs Hd Ht Hid Hk Hok Hkey Hrun.
  assert (recorded id request (response_task resp) st') as (Ht' & Hp' & Hk' & [run Hr'] & Hm').
  2: { exists run. by apply resolve_answered. }
  unfold resolve_human_task in Hrun.
  apply h_bind_Ok in Hrun as [(e & [=] & _)|(u & [st1 w1] & [= _ <- <-] & Hrun)].
  apply h_bind_Ok in Hrun as [(e & [=] & _)|(task & [st2 w2] & Htask & Hrun)].
  apply human_task_for_request_Ok in Htask as [-> Htask]. rewrite Hq in *. rewrite Ht in Htask. injection Htask as <-.
  revert Hrun. case_bool_decide as Hp; intros Hrun.
  - apply h_bind_Ok in Hrun as [(e & [=] & _)|(v & [st3 w3] & Hens & Hrun)].
    unfold h_ensure in Hens. destruct (task_revision t =? _); [|done]. injection Hens as _ <- <-.
    rewrite Hk in Hrun. pose proof (resolve_flow_task_effect id t request st w2) as Heff. cbn zeta in Heff.
    rewrite Hrun in Heff. eapply resolve_effect_recorded in Heff; try done.
    intros r (st1 & Hsteps & Hr). apply undisturbed_steps in Hsteps as ->; [|done]. by apply Hkey.
  - unfold replay_resolution in Hrun.
    apply h_bind_Ok in Hrun as [(e & [=] & _)|(v & [st3 w3] & Hens & Hrun)].
    unfold h_ensure in Hens. destruct (resolution_matches t _ _) eqn:Hm; [|done]. injection Hens as _ <- <-.
    rewrite Hk in Hrun. apply h_bind_Ok in Hrun as [(e & [=] & _)|(run & [st3 w3] & Hr & [= <- <- _])].
    apply flow_run_of_Ok in Hr as [-> Hr]. rewrite Hq in *. by split_and!.
Qed.

(** Of two identical requests that race, the second is refused.  Both have read
    the same run and task; once the first has committed, the transaction of the second
    finds the run's revision changed before it looks at the task, and answers 409 with a
    revision conflict, although the task records the very answer it repeats and the
    handler means to report that answer. *)
Theorem identical_requests_race id request key run task run1 task1 context1 run2 task2 context2 st w resp st1 w1 w2 :
  undisturbed -> delivery_keeps_documents -> run_revision run < u32_max ->
  run_id run1 = run_id run -> run_revision run1 = u32_saturating_add (run_revision run) 1 ->
  run_id run2 = run_id run ->
  task_id task = id -> store_tasks st !! id = Some task ->
  task_revision task = request_expected_revision request ->
  answered task task1 (request_action request) key ->
  commit_resolution id request key run run1 task1 context1 (st, w) = (Ok resp, (st1, w1)) ->
  (exists t, store_tasks st1 !! id = Some t /\ resolution_matches t (request_action request) key = true)
  /\ commit_resolution id request key run run2 task2 context2 (st1, w2)
     = (Err (api_conflict ("Flow run revision conflict; current revision is " +:+ pretty (run_revision run + 1))),
        (st1, N.succ w2)).
Proof using Type.
  intros Hq Hd Hmax H1 Hrev H2 Hid Htask Hexp ([= Htid _ _] & _ & _ & Hm & _) Hfirst.
  rewrite u32_saturating_add_exact in Hrev by lia.
  assert (store_runs st1 !! run_id run = Some run1 /\ store_tasks st1 !! id = Some task1) as [Hrun1 Htask1].
  { unfold commit_resolution in Hfirst. destruct (update_flow_run_and_human_task _ _ _ _ _) as [[pair|e] [st2 w3]] eqn:Hu.
    - apply update_run_and_task_writes in Hu as (-> & _ & _ & ->).
      apply finish_resolution_Ok in Hfirst as (_ & -> & Hsub); [|done]. rewrite Hq in *. cbn. split.
      + by rewrite H1, lookup_insert_eq.
      + eapply lookup_weaken; [|exact Hsub]. cbn. by rewrite Htid, Hid, lookup_insert_eq.
    - destruct e; try discriminate Hfirst. exfalso. clear Hfirst. unfold update_flow_run_and_human_task, m_bind in Hu. rewrite m_transaction_run, Hq in Hu.
      unfold update_run_and_task_conn, update_flow_run_conn, update_human_task_conn in Hu.
      destruct (store_runs st !! run_id run1) as [stored|]; [|done].
      destruct (run_revision stored =? run_revision run); [|done]. cbn in Hu.
      rewrite Htid, Hid, Htask, Hexp, Z.eqb_refl in Hu. done. }
  split; [by eauto|].
  unfold commit_resolution, update_flow_run_and_human_task, m_bind.
  rewrite m_transaction_run, Hq. unfold update_run_and_task_conn, update_flow_run_conn.
  rewrite H2, Hrun1. destruct (Z.eqb_spec (run_revision run1) (run_revision run)) as [Heq|_]; [lia|]. cbn. by rewrite Hrev.
Qed.
End api.
