(* ===== verification/ShellLex.v ===== *)
(** The lexical level of shell_analysis.rs: [char]s, words and operators of a command
    line, and the executable regions nested in it.  An index into the characters of a
    command is represented by the suffix that starts there. *)
From S2P Require Import Prelude RustStr RustStrFacts.

(** * Characters *)

(** A [char] as its UTF-8 encoding. *)
Notation char := string (only parsing).

(** [chars().collect::<Vec<_>>()]: a continuation byte belongs to the character before. *)
Fixpoint chars (s : string) : list char :=
  match s with
  | "" => []
  | String a s' =>
      match chars s' with
      | (String b _ as c) :: cs =>
          if is_continuation b then String a c :: cs else String a "" :: c :: cs
      | cs => String a "" :: cs
      end
  end.

(** [iter().collect::<String>()] *)
Definition collect (l : list char) : string := String.concat "" l.

Definition dquote : char := Eval cbv in String (Ascii.ascii_of_nat 34) "".
Definition newline : char := Eval cbv in String (Ascii.ascii_of_nat 10) "".
Definition carriage_return : char := Eval cbv in String (Ascii.ascii_of_nat 13) "".

Definition is_whitespace (c : char) : bool :=
  match strip_ws c with Some "" => true | _ => false end.
Definition is_name_char (c : char) : bool :=
  match c with String a "" => is_ascii_alphanumeric a || Ascii.eqb a (chr "_") | _ => false end.
Definition is_wildcard_char (c : char) : bool := existsb (String.eqb c) ["*"; "?"; "["; "]"].

(** * Words and operators *)

Record Word := { value : string; dynamic : bool; wildcard : bool }.

#[export] Instance Word_eq_dec : EqDecision Word.
Proof. solve_decision. Defined.

Inductive Operator := Sequence | Pipeline | Redirection | Background.
#[export] Instance Operator_eq_dec : EqDecision Operator.
Proof. solve_decision. Defined.

Inductive Lexeme := LWord (word : Word) | LOperator (operator : Operator).

(** The locals of [lex]. *)
Record Lexer := {
  output : list Lexeme;
  word : string;
  word_dynamic : bool;
  word_wildcard : bool;
  quote : option char;
}.

Definition flush_word (st : Lexer) : Lexer :=
  if str_is_empty (word st) then st
  else {| output := output st ++ [LWord {| value := word st; dynamic := word_dynamic st;
                                           wildcard := word_wildcard st |}];
          word := ""; word_dynamic := false; word_wildcard := false; quote := quote st |}.

Definition push_operator (op : Operator) (st : Lexer) : Lexer :=
  {| output := output st ++ [LOperator op]; word := word st; word_dynamic := word_dynamic st;
     word_wildcard := word_wildcard st; quote := quote st |}.
Definition set_quote (q : option char) (st : Lexer) : Lexer :=
  {| output := output st; word := word st; word_dynamic := word_dynamic st;
     word_wildcard := word_wildcard st; quote := q |}.
Definition push_char (ch : char) (is_dynamic is_wildcard : bool) (st : Lexer) : Lexer :=
  {| output := output st; word := word st +:+ ch; word_dynamic := word_dynamic st || is_dynamic;
     word_wildcard := word_wildcard st || is_wildcard; quote := quote st |}.

(** [percent_expansion_at] on the characters that follow the percent sign. *)
Fixpoint percent_name (saw_name : bool) (l : list char) : bool :=
  match l with
  | [] => false
  | ch :: l => if String.eqb ch "%" then saw_name
               else if is_name_char ch then percent_name true l else false
  end.
Definition percent_expansion_at (ch : char) (rest : list char) : bool :=
  String.eqb ch "%" && percent_name false rest.

Definition expands (ch : char) (rest : list char) : bool :=
  String.eqb ch "$" || String.eqb ch "`" || percent_expansion_at ch rest.

(** The operator a character starts and whether it takes the next character too. *)
Definition operator_at (ch : char) (rest : list char) : option (Operator * bool) :=
  let doubled := match rest with next :: _ => String.eqb next ch | [] => false end in
  if String.eqb ch ";" then Some (Sequence, false)
  else if String.eqb ch "|" then Some (if doubled then (Sequence, true) else (Pipeline, false))
  else if String.eqb ch "&" then Some (if doubled then (Sequence, true) else (Background, false))
  else if String.eqb ch ">" || String.eqb ch "<" then Some (Redirection, doubled)
  else None.

(** One character inside a quotation. *)
Definition lex_quoted (q ch : char) (rest : list char) (st : Lexer) : Lexer :=
  if String.eqb ch q then set_quote None st
  else if String.eqb q "'" then push_char ch false false st
  else push_char ch (expands ch rest) (is_wildcard_char ch) st.

Fixpoint lex_from (st : Lexer) (l : list char) : Lexer :=
  match l with
  | [] => st
  | ch :: rest =>
      match quote st with
      | Some q => lex_from (lex_quoted q ch rest st) rest
      | None =>
          if String.eqb ch "'" || String.eqb ch dquote then lex_from (set_quote (Some ch) st) rest
          else if is_whitespace ch then
            let st := flush_word st in
            lex_from (if String.eqb ch newline || String.eqb ch carriage_return
                      then push_operator Sequence st else st) rest
          else match operator_at ch rest with
               | Some (op, doubled) =>
                   let st := push_operator op (flush_word st) in
                   match rest with
                   | _ :: rest' => if doubled then lex_from st rest' else lex_from st rest
                   | [] => st
                   end
               | None => lex_from (push_char ch (expands ch rest) (is_wildcard_char ch) st) rest
               end
      end
  end.

Definition lex (command : string) : list Lexeme :=
  output (flush_word (lex_from
    {| output := []; word := ""; word_dynamic := false; word_wildcard := false; quote := None |}
    (chars command))).

(** * Nested regions *)

(** Past the quotation whose opening quote precedes [l]. *)
Fixpoint skip_single_quoted (l : list char) : list char :=
  match l with
  | [] => []
  | ch :: rest =>
      if String.eqb ch "'"
      then match rest with
           | next :: rest' => if String.eqb next "'" then skip_single_quoted rest' else rest
           | [] => []
           end
      else skip_single_quoted rest
  end.

Fixpoint skip_line_comment (l : list char) : list char :=
  match l with
  | [] => []
  | ch :: rest => if String.eqb ch carriage_return || String.eqb ch newline then rest
                  else skip_line_comment rest
  end.

(** Past the block comment whose opening two characters precede [l]. *)
Fixpoint skip_block_comment (l : list char) : list char :=
  match l with
  | ch :: rest =>
      match rest with
      | next :: rest' => if String.eqb ch "#" && String.eqb next ">" then rest' else skip_block_comment rest
      | [] => []
      end
  | [] => []
  end.

(** What the scanners do at a quote, a comment or an escape: the suffix after it. *)
Definition skip_opaque (ch : char) (rest : list char) : option (list char) :=
  if String.eqb ch "'" then Some (skip_single_quoted rest)
  else if String.eqb ch "#" then Some (skip_line_comment rest)
  else if String.eqb ch "<" && match rest with next :: _ => String.eqb next "#" | [] => false end
  then Some (skip_block_comment (tl rest))
  else if String.eqb ch "`" then Some (tl rest)
  else None.

(** The text between two positions. *)
Definition between (l suffix : list char) : string := collect (take (length l - length suffix) l).

(** [find_matching_group] returns the suffix that starts with the closing character;
    [scan_double_quoted] the suffix after the quotation and the regions in it. *)
Fixpoint find_matching_group (fuel : nat) (l : list char) (opn close : char) (depth : nat)
    : option (list char) :=
  match fuel, l with
  | S fuel, ch :: rest =>
      match skip_opaque ch rest with
      | Some rest' => find_matching_group fuel rest' opn close depth
      | None =>
          if String.eqb ch dquote then find_matching_group fuel (fst (scan_double_quoted fuel rest)) opn close depth
          else if String.eqb ch opn then find_matching_group fuel rest opn close (S depth)
          else if String.eqb ch close then
            match depth with
            | S (S depth') => find_matching_group fuel rest opn close (S depth')
            | _ => Some l
            end
          else find_matching_group fuel rest opn close depth
      end
  | _, _ => None
  end
with scan_double_quoted (fuel : nat) (l : list char) : list char * list string :=
  match fuel, l with
  | S fuel, ch :: rest =>
      if String.eqb ch "`" then scan_double_quoted fuel (tl rest)
      else if String.eqb ch dquote then (rest, [])
      else match rest with
           | next :: body =>
               if String.eqb ch "$" && String.eqb next "(" then
                 match find_matching_group fuel body "(" ")" 1 with
                 | Some suffix => let '(l', regions) := scan_double_quoted fuel (tl suffix) in
                                  (l', between body suffix :: regions)
                 | None => scan_double_quoted fuel body
                 end
               else scan_double_quoted fuel rest
           | [] => scan_double_quoted fuel rest
           end
  | _, _ => ([], [])
  end.

Definition closing_of (ch : char) : option char :=
  if String.eqb ch "{" then Some "}" else if String.eqb ch "(" then Some ")" else None.

Fixpoint regions_from (fuel : nat) (l : list char) : list string :=
  match fuel, l with
  | S fuel, ch :: rest =>
      match skip_opaque ch rest with
      | Some rest' => regions_from fuel rest'
      | None =>
          if String.eqb ch dquote then
            let '(rest', regions) := scan_double_quoted fuel rest in regions ++ regions_from fuel rest'
          else match closing_of ch with
               | Some close =>
                   match find_matching_group fuel rest ch close 1 with
                   | Some suffix => between rest suffix :: regions_from fuel (tl suffix)
                   | None => regions_from fuel rest
                   end
               | None => regions_from fuel rest
               end
      end
  | _, _ => []
  end.

Definition nested_executable_regions (command : string) : list string :=
  let l := chars command in regions_from (S (length l)) l.
