(* ===== verification/ShellAnalysis.v ===== *)
(** The classifier of shell_analysis.rs: what a command line is inferred to do. *)
From S2P Require Import Prelude RustStr RustStrFacts RustText ShellLex.

(** * Strings *)

Definition to_ascii_lowercase (s : string) : string := str_map to_ascii_lower s.
Definition str_any (p : Ascii.ascii -> bool) (s : string) : bool :=
  negb (str_all (fun a => negb (p a)) s).

(** [find] with a predicate on ASCII characters. *)
Fixpoint find_char (p : Ascii.ascii -> bool) (s : string) : option nat :=
  match s with
  | "" => None
  | String a s' => if p a then Some O else S <$> find_char p s'
  end.
(** [rfind] *)
Fixpoint rfind_char (p : Ascii.ascii -> bool) (s : string) : option nat :=
  match s with
  | "" => None
  | String a s' => match rfind_char p s' with
                   | Some n => Some (S n)
                   | None => if p a then Some O else None
                   end
  end.
(** [rsplit_once] at a one-byte separator, and the last piece of [rsplit]. *)
Definition rsplit_once (p : Ascii.ascii -> bool) (s : string) : option (string * string) :=
  (fun n => (str_take n s, str_drop (S n) s)) <$> rfind_char p s.
Definition last_piece (p : Ascii.ascii -> bool) (s : string) : string :=
  match rsplit_once p s with Some (_, piece) => piece | None => s end.

Definition is_separator (a : Ascii.ascii) : bool := Ascii.eqb a (chr "/") || Ascii.eqb a (chr "\").
Definition is_wildcard_byte (a : Ascii.ascii) : bool := is_wildcard_char (String a "").
Definition is_word_byte (a : Ascii.ascii) : bool := is_ascii_alphanumeric a || Ascii.eqb a (chr "_").
Definition one_of (l : list string) (s : string) : bool := existsb (String.eqb s) l.

(** * Data *)

Inductive ShellCapability :=
| Observation | ReadFiles | CapWorkspaceWrite | DeleteFiles | GitRead | GitMutation | Network
| StartProcess | BackgroundProcess | DynamicExecution | CapUnknown.
#[export] Instance ShellCapability_eq_dec : EqDecision ShellCapability.
Proof. solve_decision. Defined.

(** The derived [Ord]. *)
Definition capability_rank (c : ShellCapability) : Z :=
  match c with
  | Observation => 0 | ReadFiles => 1 | CapWorkspaceWrite => 2 | DeleteFiles => 3 | GitRead => 4
  | GitMutation => 5 | Network => 6 | StartProcess => 7 | BackgroundProcess => 8
  | DynamicExecution => 9 | CapUnknown => 10
  end.

Inductive ShellAnalysisConfidence := ConfidenceHigh | ConfidenceMedium | ConfidenceLow.

Record ShellCommandAnalysis := {
  capabilities : list ShellCapability;
  destructive : bool;
  analysis_dynamic : bool;
  concrete_targets : list string;
  targets_concrete : bool;
  confidence : ShellAnalysisConfidence;
  has_pipeline : bool;
  has_redirection : bool;
  has_background_operator : bool;
  destructive_targets_concrete : bool;
  has_destructive_target : bool;
  strictly_read_only : bool;
}.

Definition is_strictly_read_only (self : ShellCommandAnalysis) : bool := strictly_read_only self.
Definition is_unreviewable_destructive_action (self : ShellCommandAnalysis) : bool :=
  destructive self && (negb (destructive_targets_concrete self) || negb (has_destructive_target self)).

Inductive CommandFamily :=
| Ripgrep | PowerShellRead | Git | Delete | SetContent | OutFile | NetworkFamily | DynamicRuntime
| PackageManager | Cargo | Format.
#[export] Instance CommandFamily_eq_dec : EqDecision CommandFamily.
Proof. solve_decision. Defined.

Definition COMMAND_FAMILIES : list (string * CommandFamily) :=
  [("rg", Ripgrep); ("ripgrep", Ripgrep);
   ("select-string", PowerShellRead); ("sls", PowerShellRead); ("get-content", PowerShellRead);
   ("gc", PowerShellRead); ("cat", PowerShellRead); ("type", PowerShellRead);
   ("get-childitem", PowerShellRead); ("get-child-item", PowerShellRead); ("gci", PowerShellRead);
   ("dir", PowerShellRead); ("ls", PowerShellRead); ("get-item", PowerShellRead);
   ("gi", PowerShellRead); ("import-csv", PowerShellRead); ("ipcsv", PowerShellRead);
   ("test-path", PowerShellRead); ("resolve-path", PowerShellRead); ("get-acl", PowerShellRead);
   ("get-filehash", PowerShellRead); ("git", Git);
   ("remove-item", Delete); ("rm", Delete); ("del", Delete); ("erase", Delete); ("rmdir", Delete);
   ("rd", Delete); ("set-content", SetContent); ("out-file", OutFile);
   ("curl", NetworkFamily); ("invoke-webrequest", NetworkFamily); ("invoke-restmethod", NetworkFamily);
   ("wget", NetworkFamily); ("python", DynamicRuntime); ("python3", DynamicRuntime);
   ("py", DynamicRuntime); ("node", DynamicRuntime); ("pwsh", DynamicRuntime);
   ("powershell", DynamicRuntime); ("powershell_ise", DynamicRuntime);
   ("pnpm", PackageManager); ("npm", PackageManager); ("npx", PackageManager);
   ("pnpx", PackageManager); ("cargo", Cargo); ("format", Format)].

Definition GIT_READ_SUBCOMMANDS : list string :=
  ["status"; "diff"; "log"; "show"; "rev-parse"; "branch"; "worktree"; "blame"; "ls-files";
   "ls-tree"; "cat-file"; "describe"; "remote"; "tag"].
Definition GIT_MUTATION_SUBCOMMANDS : list string :=
  ["add"; "commit"; "checkout"; "switch"; "restore"; "merge"; "rebase"; "cherry-pick"; "revert";
   "stash"; "apply"; "am"; "mv"; "rm"; "init"; "clone"; "fetch"; "pull"; "push"].
Definition PACKAGE_WRITE_SUBCOMMANDS : list string :=
  ["add"; "install"; "i"; "remove"; "rm"; "uninstall"; "update"; "upgrade"; "publish"; "link"; "unlink"].
Definition CARGO_WRITE_SUBCOMMANDS : list string :=
  ["add"; "remove"; "install"; "uninstall"; "update"; "publish"; "login"; "logout"].

(** What the loop over the segments accumulates. *)
Record Aggregate := {
  agg_capabilities : list ShellCapability;
  agg_destructive : bool;
  agg_dynamic : bool;
  agg_concrete_targets : list string;
  agg_targets_concrete : bool;
  saw_unknown : bool;
  all_read_only : bool;
  agg_destructive_targets_concrete : bool;
  saw_destructive_target : bool;
}.

Definition eta_Aggregate (r : Aggregate) : Aggregate :=
  {| agg_capabilities := agg_capabilities r; agg_destructive := agg_destructive r;
     agg_dynamic := agg_dynamic r; agg_concrete_targets := agg_concrete_targets r;
     agg_targets_concrete := agg_targets_concrete r; saw_unknown := saw_unknown r;
     all_read_only := all_read_only r;
     agg_destructive_targets_concrete := agg_destructive_targets_concrete r;
     saw_destructive_target := saw_destructive_target r |}.
#[export] Instance set_agg_capabilities : Setter agg_capabilities := ltac:(derive_setter eta_Aggregate agg_capabilities).
#[export] Instance set_agg_destructive : Setter agg_destructive := ltac:(derive_setter eta_Aggregate agg_destructive).
#[export] Instance set_agg_dynamic : Setter agg_dynamic := ltac:(derive_setter eta_Aggregate agg_dynamic).
#[export] Instance set_agg_concrete_targets : Setter agg_concrete_targets := ltac:(derive_setter eta_Aggregate agg_concrete_targets).
#[export] Instance set_agg_targets_concrete : Setter agg_targets_concrete := ltac:(derive_setter eta_Aggregate agg_targets_concrete).
#[export] Instance set_saw_unknown : Setter saw_unknown := ltac:(derive_setter eta_Aggregate saw_unknown).
#[export] Instance set_all_read_only : Setter all_read_only := ltac:(derive_setter eta_Aggregate all_read_only).
#[export] Instance set_agg_destructive_targets_concrete : Setter agg_destructive_targets_concrete := ltac:(derive_setter eta_Aggregate agg_destructive_targets_concrete).
#[export] Instance set_saw_destructive_target : Setter saw_destructive_target := ltac:(derive_setter eta_Aggregate saw_destructive_target).

(** [Aggregate::default] *)
Definition aggregate_default : Aggregate :=
  {| agg_capabilities := []; agg_destructive := false; agg_dynamic := false; agg_concrete_targets := [];
     agg_targets_concrete := false; saw_unknown := false; all_read_only := false;
     agg_destructive_targets_concrete := false; saw_destructive_target := false |}.

(** A method of the accumulator, as the function from the old to the new one. *)
Notation Step := (Aggregate -> Aggregate).

Definition init_if_needed : Step := fun self =>
  match agg_capabilities self with
  | [] => self <| agg_targets_concrete := true |> <| all_read_only := true |>
               <| agg_destructive_targets_concrete := true |>
  | _ => self
  end.

Definition add_capabilities (l : list ShellCapability) : Step := fun self =>
  self <| agg_capabilities := agg_capabilities self ++ l |>.
Definition not_read_only : Step := fun self => self <| all_read_only := false |>.
Definition mark_dynamic (b : bool) : Step := fun self => self <| agg_dynamic := agg_dynamic self || b |>.
Definition push_target (t : string) : Step := fun self =>
  self <| agg_concrete_targets := agg_concrete_targets self ++ [t] |>.

(** * Targets *)

Definition looks_like_dynamic_target (s : string) : bool :=
  let s := trim_start s in
  starts_with "(" s || starts_with "@(" s || starts_with "${" s || starts_with "$(" s || starts_with "{" s.

Definition is_unresolved (word : Word) : bool :=
  dynamic word || wildcard word || str_is_empty (trim (value word)) || looks_like_dynamic_target (value word).

Definition add_targets (words : list Word) : Step := fun self =>
  self <| agg_concrete_targets :=
           agg_concrete_targets self ++ (value <$> List.filter (fun w => negb (is_unresolved w)) words) |>
       <| agg_targets_concrete :=
           agg_targets_concrete self && forallb (fun w => negb (is_unresolved w)) words
           && match words with [] => false | _ => true end |>.

(** [strip_prefix("${")] with the brace that closes it, or a plain dollar sign. *)
Definition variable_reference (s : string) : option string :=
  let s := trim s in
  name ← match strip_prefix "${" s ≫= strip_suffix "}" with
         | Some name => Some name
         | None => strip_prefix "$" s
         end;
  if str_is_empty name || negb (str_all is_word_byte name) then None else Some (to_ascii_lowercase name).

Definition resolve_static_word (word : Word) (static_values : gmap string Word) : Word :=
  default word (name ← variable_reference (value word); static_values !! name).

Definition resolve_all (words : list Word) (static_values : gmap string Word) : list Word :=
  (fun w => resolve_static_word w static_values) <$> words.

Definition add_resolved_targets (words : list Word) (static_values : gmap string Word) : Step :=
  add_targets (resolve_all words static_values).

Definition wildcard_read_scope (s : string) : option string :=
  n ← find_char is_wildcard_byte s;
  let prefix := str_take n s in
  let scope :=
    match rfind_char is_separator prefix with
    | Some O => str_take 1 prefix
    | Some i => if bool_decide (i = 2%nat) && bool_decide (String.get 1 prefix = Some (chr ":"))
                then str_take 3 prefix else str_take i prefix
    | None => "."
    end in
  if str_is_empty scope then None else Some scope.

Definition add_read_target (word : Word) : Step := fun self =>
  if wildcard word && negb (dynamic word) then
    let self := self <| agg_targets_concrete := false |> in
    match wildcard_read_scope (value word) with Some scope => push_target scope self | None => self end
  else add_targets [word] self.
Definition add_read_targets (words : list Word) : Step := fun self =>
  fold_left (fun self word => add_read_target word self) words self.

Definition add_destructive_targets (words : list Word) : Step := fun self =>
  add_targets words
    (self <| saw_destructive_target := saw_destructive_target self
               || match words with [] => false | _ => true end |>
          <| agg_destructive_targets_concrete :=
               agg_destructive_targets_concrete self && negb (existsb is_unresolved words) |>).
Definition add_resolved_destructive_targets (words : list Word) (static_values : gmap string Word) : Step :=
  add_destructive_targets (resolve_all words static_values).

(** * Assignments *)

Definition looks_like_static_path_literal (s : string) : bool :=
  str_any is_separator s || starts_with "." s || bool_decide (String.get 1 s = Some (chr ":"))
  || match rsplit_once (fun a => Ascii.eqb a (chr ".")) s with
     | Some (stem, extension) =>
         negb (str_is_empty stem) && negb (str_is_empty extension)
         && str_all (fun a => is_word_byte a || Ascii.eqb a (chr "-")) extension
     | None => false
     end.

(** A value written in one word with its name, or as the argument of a call. *)
Definition looks_dynamic (s : string) : bool :=
  str_contains "$" s || str_contains "`" s || starts_with "(" s || starts_with "{" s.

Definition static_string_assignment (words : list Word) : option (string * Word) :=
  '(name, val) ←
    match words with
    | [name; equals; val] =>
        if String.eqb (value equals) "="
        then (fun name => (name, val)) <$> variable_reference (value name) else None
    | [assignment] =>
        '(name, val) ← split_once "=" (value assignment);
        name ← variable_reference name;
        let val := trim val in
        if str_is_empty val then None
        else Some (name, {| value := val; dynamic := looks_dynamic val;
                            wildcard := str_any is_wildcard_byte val |})
    | _ => None
    end;
  if dynamic val || str_contains "::" (value val) || negb (looks_like_static_path_literal (value val))
     || looks_like_dynamic_target (value val)
  then None else Some (name, val).

Definition assigned_variable_name (words : list Word) : option string :=
  let inline assignment := '(name, _) ← split_once "=" (value assignment); variable_reference name in
  match words with
  | name :: equals :: _ =>
      if String.eqb (value equals) "=" then variable_reference (value name) else inline name
  | [assignment] => inline assignment
  | [] => None
  end.

(** * .NET readers *)

Definition DOTNET_READ_INVOCATIONS : list string :=
  ["[system.io.file]::readallbytes("; "[io.file]::readallbytes(";
   "[system.io.file]::readalltext("; "[io.file]::readalltext(";
   "[system.io.file]::readalllines("; "[io.file]::readalllines(";
   "[system.io.file]::openread("; "[io.file]::openread(";
   "[system.io.file]::opentext("; "[io.file]::opentext(";
   "[system.io.directory]::enumeratefiles("; "[io.directory]::enumeratefiles(";
   "[system.io.directory]::enumeratedirectories("; "[io.directory]::enumeratedirectories(";
   "[system.io.directory]::enumeratefilesystementries("; "[io.directory]::enumeratefilesystementries(";
   "[system.io.directory]::getfiles("; "[io.directory]::getfiles(";
   "[system.io.directory]::getdirectories("; "[io.directory]::getdirectories(";
   "[system.io.directory]::getfilesystementries("; "[io.directory]::getfilesystementries(";
   "[system.io.streamreader]::new("; "[io.streamreader]::new(";
   "[microsoft.visualbasic.fileio.textfieldparser]::new("].

Definition strip_quotes (q s : string) : option string := strip_prefix q s ≫= strip_suffix q.

Definition inline_argument_word (s : string) : Word :=
  let val := trim (default s (match strip_quotes "'" s with
                              | Some v => Some v
                              | None => strip_quotes dquote s
                              end)) in
  {| value := val; dynamic := looks_dynamic val; wildcard := false |}.

(** The loop body for the first invocation the text contains: an argument that cannot
    be read ends the search ([?]). *)
Fixpoint find_invocation (lower s : string) (invocations : list string) : option Word :=
  match invocations with
  | [] => None
  | invocation :: rest =>
      match str_find invocation lower with
      | None => find_invocation lower s rest
      | Some start =>
          '(arguments, _) ← split_once ")" (str_drop (start + String.length invocation) s);
          let argument := trim (match split_once "," arguments with Some (a, _) => a | None => arguments end) in
          if str_is_empty argument then None else Some (inline_argument_word argument)
      end
  end.
Definition dotnet_read_argument (s : string) : option Word :=
  find_invocation (to_ascii_lowercase s) s DOTNET_READ_INVOCATIONS.

Definition direct_dotnet_read_argument (words : list Word) : option Word :=
  match head words ≫= (fun w => dotnet_read_argument (value w)) with
  | Some argument => Some argument
  | None =>
      match words with
      | name :: equals :: expression :: _ =>
          if String.eqb (value equals) "=" && bool_decide (is_Some (variable_reference (value name)))
          then dotnet_read_argument (value expression) else None
      | _ => None
      end
  end.

Definition normalize_command_name (s : string) : string :=
  let name := to_ascii_lowercase (last_piece is_separator s) in
  default name (match strip_suffix ".exe" name with Some n => Some n | None => strip_suffix ".com" name end).

Definition position {A} (p : A -> bool) (l : list A) : option nat := fst <$> list_find p l.

Definition new_object_reader_argument (words : list Word) : option Word :=
  command ← head words;
  if negb (String.eqb (normalize_command_name (value command)) "new-object") then None else
  type_index ← position (fun w => one_of ["system.io.streamreader"; "io.streamreader";
     "microsoft.visualbasic.fileio.textfieldparser"] (to_ascii_lowercase (value w))) words;
  let argument_index :=
    S (default type_index (position (fun w => eq_ignore_ascii_case (value w) "-argumentlist") words)) in
  words !! argument_index.

(** [classify_known_dotnet_read] returns whether it classified the segment. *)
Definition dotnet_argument (words : list Word) : option Word :=
  match direct_dotnet_read_argument words with
  | Some argument => Some argument
  | None => new_object_reader_argument words
  end.

Definition classify_known_dotnet_read (argument : Word) (static_values : gmap string Word) : Step := fun self =>
  let self := add_capabilities [Observation; ReadFiles] self in
  let argument := resolve_static_word argument static_values in
  let argument := {| value := value argument; dynamic := dynamic argument; wildcard := false |} in
  let self := mark_dynamic (dynamic argument) self in
  let self := if dynamic argument then not_read_only self else self in
  add_read_targets [argument] self.

(** * Arguments *)

Fixpoint git_subcommand (words : list Word) : option (string * list Word) :=
  match words with
  | [] => None
  | word :: rest =>
      let lower := to_ascii_lowercase (value word) in
      if one_of ["-c"; "--git-dir"; "--work-tree"; "--namespace"] lower
      then match rest with _ :: rest' => git_subcommand rest' | [] => None end
      else if starts_with "-c=" lower || starts_with "--git-dir=" lower || starts_with "--work-tree=" lower
              || starts_with "--namespace=" lower
              || one_of ["--no-pager"; "--paginate"; "--literal-pathspecs"] lower
      then git_subcommand rest
      else if starts_with "-" (value word) then git_subcommand rest
      else Some (lower, rest)
  end.

Definition git_workdir (words : list Word) : option Word :=
  i ← position (fun w => String.eqb (value w) "-C") words; words !! S i.

Definition powershell_parameter_takes_value (s : string) : bool :=
  one_of ["-algorithm"; "-credential"; "-delimiter"; "-depth"; "-encoding"; "-erroraction";
          "-errorvariable"; "-exclude"; "-filter"; "-header"; "-include"; "-informationaction";
          "-informationvariable"; "-newerthan"; "-olderthan"; "-outbuffer"; "-outvariable";
          "-parameter"; "-pathtype"; "-pattern"; "-pipelinevariable"; "-readcount";
          "-relativebasepath"; "-stream"; "-tail"; "-totalcount"; "-warningaction"; "-warningvariable"]
         (to_ascii_lowercase s).

(** The loops below run over the words after the command. *)
Fixpoint powershell_positional_arguments (words : list Word) : list Word :=
  match words with
  | [] => []
  | word :: rest =>
      if powershell_parameter_takes_value (value word)
      then match rest with _ :: rest' => powershell_positional_arguments rest' | [] => [] end
      else if starts_with "-" (value word) then powershell_positional_arguments rest
      else word :: powershell_positional_arguments rest
  end.

Fixpoint named_arguments (named : list string) (words : list Word) : list Word :=
  match words with
  | [] => []
  | word :: rest =>
      if one_of named (to_ascii_lowercase (value word))
      then match rest with target :: rest' => target :: named_arguments named rest' | [] => [] end
      else named_arguments named rest
  end.

Definition extract_powershell_paths (words : list Word) (named : list string) : list Word :=
  match named_arguments named (tail words) with
  | [] =>
      let command_name := match words with w :: _ => normalize_command_name (value w) | [] => "" end in
      let positionals := powershell_positional_arguments (tail words) in
      let pattern_is_named := existsb (fun w => eq_ignore_ascii_case (value w) "-pattern") words in
      let positional_index :=
        if one_of ["select-string"; "sls"] command_name && negb pattern_is_named then 1%nat else 0%nat in
      option_list (positionals !! positional_index)
  | targets => targets
  end.

Definition is_cmd_switch (s : string) : bool :=
  one_of ["/s"; "/q"; "/f"; "/a"; "/p"] (to_ascii_lowercase s).
Definition positional_arguments (words : list Word) (start : nat) : list Word :=
  List.filter (fun w => String.eqb (value w) "-" || (negb (starts_with "-" (value w)) && negb (is_cmd_switch (value w))))
    (drop start words).

(** * Families *)

Definition mark_unknown : Step := fun self =>
  add_capabilities [CapUnknown] self <| saw_unknown := true |> <| all_read_only := false |>.
Definition mark_unknown_dynamic : Step := fun self =>
  mark_dynamic true (add_capabilities [DynamicExecution] (mark_unknown self)).

(** [if aggregate.dynamic { aggregate.all_read_only = false }] *)
Definition dynamic_not_read_only : Step := fun self =>
  if agg_dynamic self then not_read_only self else self.

Definition runs_preprocessor (word : Word) : bool :=
  let lower := to_ascii_lowercase (value word) in
  one_of ["--pre"; "--hostname-bin"] lower || starts_with "--pre=" lower || starts_with "--hostname-bin=" lower.

Definition classify_ripgrep (words : list Word) : Step := fun self =>
  let self := add_capabilities [Observation; ReadFiles] self in
  let self := if existsb runs_preprocessor words
              then not_read_only (mark_dynamic true (add_capabilities [DynamicExecution] self)) else self in
  let self := dynamic_not_read_only (mark_dynamic (existsb dynamic words) self) in
  push_target "workspace:command-scope" self.

Definition read_paths (words : list Word) (static_values : gmap string Word) : list Word :=
  let paths := resolve_all (extract_powershell_paths words ["-path"; "-literalpath"]) static_values in
  if existsb (fun w => eq_ignore_ascii_case (value w) "-literalpath") words then paths
  else (fun path => {| value := value path; dynamic := dynamic path;
                       wildcard := wildcard path || str_any is_wildcard_byte (value path) |}) <$> paths.

Definition classify_read_command (words : list Word) (static_values : gmap string Word) : Step := fun self =>
  let self := add_capabilities [Observation; ReadFiles] self in
  let resolved_paths := read_paths words static_values in
  let has_unresolved_dynamic_path := existsb dynamic resolved_paths in
  let self := mark_dynamic has_unresolved_dynamic_path self in
  let self := if has_unresolved_dynamic_path then not_read_only self else self in
  add_read_targets resolved_paths self.

(** Listing forms: only options and the words of the list. *)
Definition lists_only (allowed : list string) (tail : list Word) : bool :=
  forallb (fun w => starts_with "-" (value w) || one_of allowed (value w)) tail.

Definition ambiguous_mutator (subcommand : string) (tail : list Word) : bool :=
  let flagged flags := existsb (fun w => one_of flags (value w)) tail in
  if String.eqb subcommand "branch" then
    flagged ["-d"; "-D"; "-m"; "-M"; "-c"; "-C"; "--delete"; "--move"; "--copy"; "--edit-description";
             "--set-upstream-to"; "--unset-upstream"]
    || negb (lists_only ["list"; "show"] tail)
  else if String.eqb subcommand "tag" then
    flagged ["-d"; "--delete"; "-a"; "--annotate"; "-s"; "--sign"; "-f"; "--force"]
    || negb (lists_only ["list"; "show"] tail)
  else if String.eqb subcommand "remote" then
    match tail with
    | w :: _ => one_of ["add"; "remove"; "rm"; "rename"; "set-head"; "set-branches"; "set-url"; "prune"; "update"]
                  (to_ascii_lowercase (value w))
    | [] => false
    end || negb (lists_only ["list"; "show"; "get-url"] tail)
  else if String.eqb subcommand "worktree" then
    match tail with w :: _ => negb (eq_ignore_ascii_case (value w) "list") | [] => false end
  else false.

Definition writes_output (tail : list Word) : bool :=
  existsb (fun w => let lower := to_ascii_lowercase (value w) in
                    String.eqb lower "--output" || starts_with "--output=" lower) tail.

Definition classify_git_subcommand (subcommand : string) (tail : list Word) : Step := fun self =>
  if one_of GIT_READ_SUBCOMMANDS subcommand then
    if writes_output tail then not_read_only (add_capabilities [GitRead; CapWorkspaceWrite] self)
    else if ambiguous_mutator subcommand tail then not_read_only (add_capabilities [GitMutation] self)
    else add_capabilities [Observation; GitRead] self
  else if one_of ["reset"; "clean"] subcommand then
    push_target "repository:index-and-worktree"
      (not_read_only (add_capabilities [GitMutation; DeleteFiles] self <| agg_destructive := true |>))
    <| saw_destructive_target := true |>
  else if one_of GIT_MUTATION_SUBCOMMANDS subcommand then not_read_only (add_capabilities [GitMutation] self)
  else mark_unknown self.

Definition classify_git (words : list Word) (static_values : gmap string Word) : Step := fun self =>
  match git_subcommand (tail words) with
  | None => mark_unknown self
  | Some (subcommand, tail) =>
      let self := match git_workdir words with
                  | Some workdir => add_resolved_targets [workdir] static_values self
                  | None => push_target "repository:current-workdir" self
                  end in
      dynamic_not_read_only (mark_dynamic (existsb dynamic words) (classify_git_subcommand subcommand tail self))
  end.

Definition classify_delete (words : list Word) (command_name : string) (static_values : gmap string Word)
    : Step := fun self =>
  let self := not_read_only (add_capabilities [CapWorkspaceWrite; DeleteFiles] self <| agg_destructive := true |>) in
  let targets := if String.eqb command_name "remove-item"
                 then extract_powershell_paths words ["-path"; "-literalpath"]
                 else positional_arguments words 1 in
  add_resolved_destructive_targets targets static_values self.

Definition classify_network (words : list Word) : Step := fun self =>
  let self := not_read_only (add_capabilities [Network; StartProcess] self) in
  let writes_file := existsb (fun w =>
    one_of ["-o"; "--output"; "--output-dir"; "-outfile"] (to_ascii_lowercase (value w))) words in
  let self := if writes_file then add_capabilities [CapWorkspaceWrite] self else self in
  mark_dynamic (existsb dynamic words) self.

(** Starting a process that runs code of its own. *)
Definition start_dynamic_process : Step := fun self =>
  not_read_only (mark_dynamic true (add_capabilities [StartProcess; DynamicExecution] self)).

Definition classify_dynamic_runtime (words : list Word) : Step := fun self =>
  let self := start_dynamic_process self in
  match List.find (fun w => negb (starts_with "-" (value w))
                            && negb (one_of ["-c"; "-command"; "/c"] (to_ascii_lowercase (value w))))
          (drop 1 words) with
  | Some script => add_targets [script] self
  | None => self
  end.

(** [classify_package_manager] and [classify_cargo] differ in the subcommands. *)
Definition classify_builder (write_subcommands : list string) (words : list Word) : Step := fun self =>
  let self := start_dynamic_process self in
  match words !! 1%nat with
  | Some w => if one_of write_subcommands (to_ascii_lowercase (value w))
              then add_capabilities [CapWorkspaceWrite; Network] self else self
  | None => self
  end.
Definition classify_package_manager : list Word -> Step := classify_builder PACKAGE_WRITE_SUBCOMMANDS.
Definition classify_cargo : list Word -> Step := classify_builder CARGO_WRITE_SUBCOMMANDS.

Definition command_family (command_name : string) : option CommandFamily :=
  find_map (fun '(name, family) => if String.eqb name command_name then Some family else None)
    COMMAND_FAMILIES.

Definition is_script (command_name : string) : bool :=
  ends_with ".ps1" command_name || ends_with ".sh" command_name || ends_with ".bat" command_name
  || ends_with ".cmd" command_name.

Definition classify_family (family : CommandFamily) (words : list Word) (command_name : string)
    (static_values : gmap string Word) : Step := fun self =>
  match family with
  | Ripgrep => classify_ripgrep words self
  | PowerShellRead => classify_read_command words static_values self
  | Git => classify_git words static_values self
  | Delete => classify_delete words command_name static_values self
  | SetContent | OutFile =>
      add_resolved_targets (extract_powershell_paths words ["-path"; "-literalpath"; "-filepath"]) static_values
        (not_read_only (add_capabilities [CapWorkspaceWrite] self))
  | NetworkFamily => classify_network words self
  | DynamicRuntime => classify_dynamic_runtime words self
  | PackageManager => classify_package_manager words self
  | Cargo => classify_cargo words self
  | Format =>
      add_resolved_destructive_targets (positional_arguments words 1) static_values
        (not_read_only (add_capabilities [DeleteFiles] self <| agg_destructive := true |>))
  end.

Definition classify_segment (words : list Word) (static_values : gmap string Word) : Step := fun self =>
  let self := init_if_needed self in
  match dotnet_argument words with
  | Some argument => classify_known_dotnet_read argument static_values self
  | None =>
      match words with
      | [] => self
      | command_word :: _ =>
          if dynamic command_word then mark_unknown_dynamic self else
          let command_name := normalize_command_name (value command_word) in
          if is_script command_name then
            add_resolved_targets (take 1 words) static_values (start_dynamic_process self)
          else match command_family command_name with
               | None => mark_unknown self
               | Some family => classify_family family words command_name static_values self
               end
      end
  end.

(** * The analysis *)

(** The loop over the lexemes: [current] is emptied into [segments] by an operator. *)
Fixpoint split_segments (current : list Word) (lexemes : list Lexeme) : list (list Word) :=
  match lexemes with
  | [] => match current with [] => [] | _ => [current] end
  | LWord word :: rest => split_segments (current ++ [word]) rest
  | LOperator _ :: rest =>
      match current with [] => [] | _ => [current] end ++ split_segments [] rest
  end.

Definition has_operator (op : Operator) (lexemes : list Lexeme) : bool :=
  existsb (fun lexeme => match lexeme with LOperator o => bool_decide (o = op) | LWord _ => false end) lexemes.

(** One segment: a literal assignment is remembered, any other one forgets its variable. *)
Definition analyze_segment (state : gmap string Word * Aggregate) (segment : list Word)
    : gmap string Word * Aggregate :=
  let '(static_values, self) := state in
  match static_string_assignment segment with
  | Some (name, val) =>
      (<[name := val]> static_values, add_capabilities [Observation] (init_if_needed self))
  | None =>
      let static_values := match assigned_variable_name segment with
                           | Some name => delete name static_values
                           | None => static_values
                           end in
      (static_values, classify_segment segment static_values self)
  end.

Definition merge_nested (nested : ShellCommandAnalysis) : Step := fun self =>
  let found_known_capability :=
    existsb (fun c => negb (bool_decide (c = Observation)) && negb (bool_decide (c = CapUnknown)))
      (capabilities nested) in
  if negb found_known_capability && negb (destructive nested) then self else
  let self := init_if_needed self in
  {| agg_capabilities := agg_capabilities self ++ capabilities nested;
     agg_destructive := agg_destructive self || destructive nested;
     agg_dynamic := agg_dynamic self || analysis_dynamic nested;
     agg_concrete_targets := agg_concrete_targets self ++ concrete_targets nested;
     agg_targets_concrete := agg_targets_concrete self && targets_concrete nested;
     saw_unknown := saw_unknown self || existsb (fun c => bool_decide (c = CapUnknown)) (capabilities nested);
     all_read_only := all_read_only self && is_strictly_read_only nested;
     agg_destructive_targets_concrete :=
       agg_destructive_targets_concrete self && destructive_targets_concrete nested;
     saw_destructive_target := saw_destructive_target self || has_destructive_target nested |}.

(** [sort_unstable] and [dedup] on capabilities, [sort] and [dedup] on targets. *)
Fixpoint insert_capability (c : ShellCapability) (l : list ShellCapability) : list ShellCapability :=
  match l with
  | [] => [c]
  | d :: l' => if capability_rank c <=? capability_rank d then c :: l else d :: insert_capability c l'
  end.
Definition sort_capabilities (l : list ShellCapability) : list ShellCapability := foldr insert_capability [] l.
Fixpoint dedup {A} `{EqDecision A} (l : list A) : list A :=
  match l with
  | x :: ((y :: _) as l') => if decide (x = y) then dedup l' else x :: dedup l'
  | _ => l
  end.

Definition conclude (segments : list (list Word)) (pipeline redirection background : bool) (self : Aggregate)
    : ShellCommandAnalysis :=
  let self := if redirection then not_read_only (add_capabilities [CapWorkspaceWrite] self) else self in
  let self := if background then not_read_only (add_capabilities [BackgroundProcess] self) else self in
  let self := match segments with
              | [] => add_capabilities [CapUnknown] self <| saw_unknown := true |> <| all_read_only := false |>
              | _ => self
              end in
  {| capabilities := dedup (sort_capabilities (agg_capabilities self));
     destructive := agg_destructive self;
     analysis_dynamic := agg_dynamic self;
     concrete_targets := dedup (sort_by_key id (agg_concrete_targets self));
     targets_concrete := agg_targets_concrete self;
     confidence := if saw_unknown self then ConfidenceLow
                   else if agg_dynamic self || negb (agg_targets_concrete self) then ConfidenceMedium
                   else ConfidenceHigh;
     has_pipeline := pipeline;
     has_redirection := redirection;
     has_background_operator := background;
     destructive_targets_concrete := agg_destructive_targets_concrete self;
     has_destructive_target := saw_destructive_target self;
     strictly_read_only := all_read_only self && negb (agg_dynamic self) && negb pipeline && negb redirection
       && negb background && negb (saw_unknown self) && negb (agg_destructive self) |}.

(** [levels] is 32 less the nesting. *)
Fixpoint analyze_shell_command_nested (levels : nat) (command : string) : ShellCommandAnalysis :=
  let lexemes := lex command in
  let segments := split_segments [] lexemes in
  let '(_, self) := fold_left analyze_segment segments (∅, aggregate_default) in
  let nested := match levels with
                | O => []
                | S levels => analyze_shell_command_nested levels <$> nested_executable_regions command
                end in
  conclude segments
    (has_operator Pipeline lexemes || existsb has_pipeline nested)
    (has_operator Redirection lexemes || existsb has_redirection nested)
    (has_operator Background lexemes || existsb has_background_operator nested)
    (fold_left (fun self n => merge_nested n self) nested self).

Definition MAX_NESTING : nat := 32.
Definition analyze_shell_command (command : string) : ShellCommandAnalysis :=
  analyze_shell_command_nested MAX_NESTING command.
