(* ===== verification/ShellFacts.v ===== *)
(** What the shell analysis promises: the strict read-only answer and the destructive
    flag against reference definitions, the shape of its result, its termination, and
    the commands it misjudges. *)
From S2P Require Import Prelude RustStr RustStrFacts RustText ShellLex ShellAnalysis.

(** * The reference: which segments only observe *)

Definition is_some {A} (o : option A) : bool := match o with Some _ => true | None => false end.

(** A reader named by .NET observes unless its argument stays dynamic. *)
Definition dotnet_observes (argument : Word) (static_values : gmap string Word) : bool :=
  negb (dynamic (resolve_static_word argument static_values)).

Definition git_observes (words : list Word) : bool :=
  match git_subcommand (tail words) with
  | Some (subcommand, tail) =>
      one_of GIT_READ_SUBCOMMANDS subcommand && negb (writes_output tail)
      && negb (ambiguous_mutator subcommand tail) && negb (existsb dynamic words)
  | None => false
  end.

Definition family_observes (family : CommandFamily) (words : list Word) (static_values : gmap string Word) : bool :=
  match family with
  | Ripgrep => negb (existsb runs_preprocessor words) && negb (existsb dynamic words)
  | PowerShellRead => negb (existsb dynamic (read_paths words static_values))
  | Git => git_observes words
  | _ => false
  end.

(** The family of a segment whose head is a plain name. *)
Definition segment_family (words : list Word) : option CommandFamily :=
  command ← head words;
  let name := normalize_command_name (value command) in
  if dynamic command || is_script name then None else command_family name.

Definition segment_observes (words : list Word) (static_values : gmap string Word) : bool :=
  match dotnet_argument words, segment_family words with
  | Some argument, _ => dotnet_observes argument static_values
  | None, Some family => family_observes family words static_values
  | None, None => match words with [] => true | _ => false end
  end.

(** The literals a segment leaves for the ones after it. *)
Definition statics_after (static_values : gmap string Word) (segment : list Word) : gmap string Word :=
  match static_string_assignment segment with
  | Some (name, val) => <[name := val]> static_values
  | None => match assigned_variable_name segment with
            | Some name => delete name static_values
            | None => static_values
            end
  end.

Fixpoint segments_observe (static_values : gmap string Word) (segments : list (list Word)) : bool :=
  match segments with
  | [] => true
  | segment :: rest =>
      let after := statics_after static_values segment in
      (is_some (static_string_assignment segment) || segment_observes segment after)
      && segments_observe after rest
  end.

(** Whether a nested region is taken into account at all. *)
Definition reports (nested : ShellCommandAnalysis) : bool :=
  existsb (fun c => negb (bool_decide (c = Observation)) && negb (bool_decide (c = CapUnknown)))
    (capabilities nested) || destructive nested.

Definition nested_analyses (levels : nat) (command : string) : list ShellCommandAnalysis :=
  match levels with
  | O => []
  | S levels => analyze_shell_command_nested levels <$> nested_executable_regions command
  end.

Definition operator_free (levels : nat) (command : string) : bool :=
  forallb (fun lexeme => match lexeme with LOperator Sequence => true | LOperator _ => false | LWord _ => true end)
    (lex command)
  && forallb (fun n => negb (has_pipeline n || has_redirection n || has_background_operator n))
       (nested_analyses levels command).

(** * The accumulator *)

(** Nothing against a strict read-only answer so far. *)
Definition clean (a : Aggregate) : bool :=
  all_read_only a && negb (agg_dynamic a) && negb (saw_unknown a) && negb (agg_destructive a).

(** Every step records a capability, and [CapUnknown] with the unknown flag. *)
Definition has_unknown (l : list ShellCapability) : bool := existsb (fun c => bool_decide (c = CapUnknown)) l.
Definition tracked (a : Aggregate) : Prop := saw_unknown a = has_unknown (agg_capabilities a).

Lemma has_unknown_app l k : has_unknown (l ++ k) = has_unknown l || has_unknown k.
Proof. apply existsb_app. Qed.

(** The fields target bookkeeping leaves alone. *)
Definition flags_of (a : Aggregate) :=
  (agg_capabilities a, agg_destructive a, agg_dynamic a, saw_unknown a, all_read_only a).

Lemma flags_add_targets words a : flags_of (add_targets words a) = flags_of a.
Proof. reflexivity. Qed.
Lemma flags_add_destructive_targets words a : flags_of (add_destructive_targets words a) = flags_of a.
Proof. reflexivity. Qed.
Lemma flags_push_target t a : flags_of (push_target t a) = flags_of a.
Proof. reflexivity. Qed.
Lemma flags_add_read_targets words a : flags_of (add_read_targets words a) = flags_of a.
Proof.
  unfold add_read_targets. revert a. induction words as [|w words IH]; intros a; cbn [fold_left]; [done|].
  rewrite IH. unfold add_read_target. destruct (wildcard w && negb (dynamic w)); [|done].
  by destruct (wildcard_read_scope _).
Qed.

Lemma flags_clean a b : flags_of a = flags_of b -> clean a = clean b.
Proof. unfold flags_of, clean. intros [= H1 H2 H3 H4 H5]. by rewrite H2, H3, H4, H5. Qed.
Lemma flags_destructive a b : flags_of a = flags_of b -> agg_destructive a = agg_destructive b.
Proof. unfold flags_of. by intros [=]. Qed.
Lemma flags_capabilities a b : flags_of a = flags_of b -> agg_capabilities a = agg_capabilities b.
Proof. unfold flags_of. by intros [=]. Qed.

Lemma clean_mark_dynamic b a : clean (mark_dynamic b a) = clean a && negb b.
Proof. unfold clean. cbn. destruct (agg_dynamic a), b; cbn; by rewrite ?andb_true_r, ?andb_false_r. Qed.
Lemma clean_start_dynamic_process a : clean (start_dynamic_process a) = false.
Proof. done. Qed.
Lemma clean_mark_unknown a : clean (mark_unknown a) = false.
Proof. done. Qed.
Lemma clean_add_capabilities l a : clean (add_capabilities l a) = clean a.
Proof. done. Qed.
Lemma clean_not_read_only a : clean (not_read_only a) = false.
Proof. done. Qed.
Lemma clean_dynamic_not_read_only a : clean (dynamic_not_read_only a) = clean a.
Proof.
  unfold dynamic_not_read_only. destruct (agg_dynamic a) eqn:Hd; [|done].
  unfold clean. cbn. by rewrite Hd, andb_false_r.
Qed.

Lemma classify_ripgrep_clean words a :
  clean (classify_ripgrep words a) = clean a && family_observes Ripgrep words ∅.
Proof.
  unfold classify_ripgrep. rewrite (flags_clean _ _ (flags_push_target _ _)), clean_dynamic_not_read_only, clean_mark_dynamic.
  cbn [family_observes]. destruct (existsb runs_preprocessor words); cbn [negb andb].
  - by rewrite clean_not_read_only, !andb_false_r.
  - by rewrite clean_add_capabilities.
Qed.

Lemma classify_read_command_clean words statics a :
  clean (classify_read_command words statics a) = clean a && family_observes PowerShellRead words statics.
Proof.
  unfold classify_read_command. cbn [family_observes].
  rewrite (flags_clean _ _ (flags_add_read_targets _ _)).
  destruct (existsb dynamic (read_paths words statics)).
  - by rewrite clean_not_read_only, andb_false_r.
  - by rewrite clean_mark_dynamic, clean_add_capabilities.
Qed.

Lemma classify_git_subcommand_clean subcommand tail a :
  clean (classify_git_subcommand subcommand tail a)
  = clean a && (one_of GIT_READ_SUBCOMMANDS subcommand && negb (writes_output tail)
                && negb (ambiguous_mutator subcommand tail)).
Proof.
  unfold classify_git_subcommand. destruct (one_of GIT_READ_SUBCOMMANDS subcommand); cbn [andb].
  - destruct (writes_output tail); cbn [negb andb]; [by rewrite clean_not_read_only, andb_false_r|].
    destruct (ambiguous_mutator subcommand tail); cbn [negb]; [by rewrite clean_not_read_only, andb_false_r|].
    by rewrite clean_add_capabilities, andb_true_r.
  - rewrite andb_false_r. destruct (one_of _ subcommand); [done|].
    destruct (one_of _ subcommand); [done|apply clean_mark_unknown].
Qed.

Lemma classify_git_clean words statics a :
  clean (classify_git words statics a) = clean a && git_observes words.
Proof.
  unfold classify_git, git_observes. destruct (git_subcommand (tail words)) as [[subcommand tail]|].
  - rewrite clean_dynamic_not_read_only, clean_mark_dynamic, classify_git_subcommand_clean, <-!andb_assoc.
    f_equal. by destruct (git_workdir words).
  - by rewrite clean_mark_unknown, andb_false_r.
Qed.

Lemma classify_family_clean family words name statics a :
  clean (classify_family family words name statics a) = clean a && family_observes family words statics.
Proof.
  destruct family; cbn [classify_family family_observes].
  - apply classify_ripgrep_clean.
  - apply classify_read_command_clean.
  - apply classify_git_clean.
  - by rewrite andb_false_r.
  - by rewrite andb_false_r.
  - by rewrite andb_false_r.
  - rewrite andb_false_r. unfold classify_network. rewrite clean_mark_dynamic. by destruct (existsb _ words).
  - rewrite andb_false_r. unfold classify_dynamic_runtime. by destruct (List.find _ _).
  - rewrite andb_false_r. unfold classify_package_manager, classify_builder.
    destruct (words !! 1%nat) as [w|]; [|done]. by destruct (one_of _ _).
  - rewrite andb_false_r. unfold classify_cargo, classify_builder.
    destruct (words !! 1%nat) as [w|]; [|done]. by destruct (one_of _ _).
  - by rewrite andb_false_r.
Qed.

Lemma classify_segment_clean words statics a :
  clean (classify_segment words statics a) = clean (init_if_needed a) && segment_observes words statics.
Proof.
  unfold classify_segment, segment_observes. set (b := init_if_needed a).
  destruct (dotnet_argument words) as [argument|].
  - unfold classify_known_dotnet_read, dotnet_observes. rewrite (flags_clean _ _ (flags_add_read_targets _ _)).
    cbn [dynamic]. destruct (dynamic (resolve_static_word argument statics)).
    + by rewrite clean_not_read_only, andb_false_r.
    + by rewrite clean_mark_dynamic, clean_add_capabilities.
  - destruct words as [|command words]; cbn [segment_family head mbind option_bind]; [by rewrite andb_true_r|].
    destruct (dynamic command); cbn [orb]; [unfold mark_unknown_dynamic; by rewrite clean_mark_dynamic, !andb_false_r|].
    destruct (is_script _).
    { unfold add_resolved_targets. rewrite (flags_clean _ _ (flags_add_targets _ _)).
      by rewrite clean_start_dynamic_process, andb_false_r. }
    destruct (command_family _) as [family|]; [apply classify_family_clean|].
    by rewrite clean_mark_unknown, andb_false_r.
Qed.

(** * What a step records *)

(** The segments that destroy. *)
Definition family_destroys (family : CommandFamily) (words : list Word) : bool :=
  match family with
  | Delete | Format => true
  | Git => match git_subcommand (tail words) with
           | Some (subcommand, _) => one_of ["reset"; "clean"] subcommand
           | None => false
           end
  | _ => false
  end.
Definition segment_destroys (words : list Word) : bool :=
  match dotnet_argument words, segment_family words with
  | None, Some family => family_destroys family words
  | _, _ => false
  end.

(** From [a] to [b] the capabilities [l] are recorded, destructive ones if [d]. *)
Record records (l : list ShellCapability) (d : bool) (a b : Aggregate) : Prop := {
  rec_capabilities : agg_capabilities b = agg_capabilities a ++ l;
  rec_unknown : saw_unknown b = saw_unknown a || has_unknown l;
  rec_destructive : agg_destructive b = agg_destructive a || d;
  rec_delete : d = true -> DeleteFiles ∈ l;
}.

Lemma records_refl a : records [] false a a.
Proof. split; [by rewrite app_nil_r|by rewrite orb_false_r|by rewrite orb_false_r|done]. Qed.

Lemma records_trans l1 d1 l2 d2 a b c :
  records l1 d1 a b -> records l2 d2 b c -> records (l1 ++ l2) (d1 || d2) a c.
Proof.
  intros [H1 H2 H3 H4] [K1 K2 K3 K4]. split.
  - by rewrite K1, H1, app_assoc.
  - by rewrite K2, H2, has_unknown_app, orb_assoc.
  - by rewrite K3, H3, orb_assoc.
  - intros [Hd|Hd]%orb_true_iff; set_solver.
Qed.

Definition tracked_of (a : Aggregate) := (agg_capabilities a, saw_unknown a, agg_destructive a).
Lemma tracked_flags a b : flags_of a = flags_of b -> tracked_of a = tracked_of b.
Proof. unfold flags_of, tracked_of. by intros [= -> -> _ -> _]. Qed.

(** Steps that record nothing. *)
Lemma records_same l d a b b' : tracked_of b' = tracked_of b -> records l d a b -> records l d a b'.
Proof.
  unfold tracked_of. intros [= E1 E2 E3] [H1 H2 H3 H4].
  split; [by rewrite E1|by rewrite E2|by rewrite E3|done].
Qed.

Lemma records_add l a : has_unknown l = false -> records l false a (add_capabilities l a).
Proof. intros Hl. split; cbn; [done|by rewrite Hl, orb_false_r|by rewrite orb_false_r|done]. Qed.
Lemma records_mark_unknown a : records [CapUnknown] false a (mark_unknown a).
Proof. by split; cbn; rewrite ?orb_true_r, ?orb_false_r. Qed.
Lemma records_destroy l a :
  has_unknown l = false -> DeleteFiles ∈ l ->
  records l true a (add_capabilities l a <| agg_destructive := true |>).
Proof. intros Hl Hd. split; cbn; [done|by rewrite Hl, orb_false_r|by rewrite orb_true_r|done]. Qed.
Lemma tracked_dynamic_not_read_only a : tracked_of (dynamic_not_read_only a) = tracked_of a.
Proof. unfold dynamic_not_read_only. by destruct (agg_dynamic a). Qed.
Lemma tracked_read_targets words a : tracked_of (add_read_targets words a) = tracked_of a.
Proof. apply tracked_flags, flags_add_read_targets. Qed.

(** The step of every family. *)
Definition observing : list ShellCapability := [Observation; ReadFiles; GitRead].
Definition recorded (d o : bool) (a b : Aggregate) : Prop :=
  exists l, records l d a b /\ l <> [] /\ (o = true -> l ⊆ observing).

Lemma recorded_intro l d o a b b' :
  records l d a b -> tracked_of b' = tracked_of b -> l <> [] -> (o = true -> l ⊆ observing) -> recorded d o a b'.
Proof. intros Hr Ht Hl Ho. exists l. split; [by eapply records_same|done]. Qed.

Lemma classify_ripgrep_recorded words a :
  recorded false (family_observes Ripgrep words ∅) a (classify_ripgrep words a).
Proof.
  unfold classify_ripgrep. cbn [family_observes]. destruct (existsb runs_preprocessor words); cbn [negb andb].
  - eapply (recorded_intro ([Observation; ReadFiles] ++ [DynamicExecution]) (false || false));
      [eapply records_trans; by apply records_add| |done|done].
    exact (tracked_dynamic_not_read_only _).
  - eapply (recorded_intro [Observation; ReadFiles]); [by apply records_add| |done|set_solver].
    exact (tracked_dynamic_not_read_only _).
Qed.

Lemma classify_read_command_recorded words statics a :
  recorded false true a (classify_read_command words statics a).
Proof.
  unfold classify_read_command. eapply (recorded_intro [Observation; ReadFiles]); [by apply records_add| |done|set_solver].
  rewrite tracked_read_targets. by destruct (existsb dynamic _).
Qed.

Lemma one_of_elem l s : one_of l s = true <-> s ∈ l.
Proof.
  unfold one_of. rewrite existsb_exists. setoid_rewrite <-list_elem_of_In. split.
  - by intros (x & Hx & ->%String.eqb_eq).
  - intros Hs. exists s. by rewrite String.eqb_refl.
Qed.

Lemma classify_git_recorded words statics a :
  recorded (family_destroys Git words) (git_observes words) a (classify_git words statics a).
Proof.
  unfold classify_git, git_observes, family_destroys.
  destruct (git_subcommand (tail words)) as [[subcommand tail]|].
  2: { by eapply recorded_intro; [apply records_mark_unknown|..]. }
  set (b := match git_workdir words with Some workdir => _ | None => _ end).
  assert (tracked_of b = tracked_of a) as Hb by (unfold b; by destruct (git_workdir words)).
  assert (forall l d c o, records l d b c -> l <> [] -> (o = true -> l ⊆ observing) ->
    recorded d o a (dynamic_not_read_only (mark_dynamic (existsb dynamic words) c))) as Hfin.
  { intros l d c o Hr Hl Ho. exists l. split; [|done].
    eapply records_same; [exact (tracked_dynamic_not_read_only _)|].
    unfold tracked_of in Hb. injection Hb as E1 E2 E3. destruct Hr as [H1 H2 H3 H4]. rewrite E1 in H1. rewrite E2 in H2. rewrite E3 in H3.
    by split. }
  unfold classify_git_subcommand. destruct (one_of GIT_READ_SUBCOMMANDS subcommand) eqn:Hread; cbn [andb].
  - assert (one_of ["reset"; "clean"] subcommand = false) as ->.
    { apply not_true_iff_false. rewrite one_of_elem. intros Hin.
      repeat (apply elem_of_cons in Hin as [->|Hin]; [done|]). by apply elem_of_nil in Hin. }
    destruct (writes_output tail); cbn [negb andb].
    { by eapply Hfin; [eapply records_same; [|by apply (records_add [GitRead; CapWorkspaceWrite])]|..]. }
    destruct (ambiguous_mutator subcommand tail); cbn [negb andb].
    { by eapply Hfin; [eapply records_same; [|by apply (records_add [GitMutation])]|..]. }
    eapply Hfin; [by apply (records_add [Observation; GitRead])|done|set_solver].
  - destruct (one_of ["reset"; "clean"] subcommand).
    { eapply Hfin; [eapply records_same; [|apply (records_destroy [GitMutation; DeleteFiles]); [done|set_solver]]|done|done].
      reflexivity. }
    destruct (one_of GIT_MUTATION_SUBCOMMANDS subcommand).
    { by eapply Hfin; [eapply records_same; [|by apply (records_add [GitMutation])]|..]. }
    by eapply Hfin; [apply records_mark_unknown|..].
Qed.

Lemma start_dynamic_process_recorded a : records [StartProcess; DynamicExecution] false a (start_dynamic_process a).
Proof. by eapply records_same; [|apply (records_add [StartProcess; DynamicExecution])]. Qed.

Lemma classify_builder_recorded subcommands words a : recorded false false a (classify_builder subcommands words a).
Proof.
  unfold classify_builder.
  assert (recorded false false a (start_dynamic_process a)) as Hs
    by by eapply recorded_intro; [apply start_dynamic_process_recorded|..].
  destruct (words !! 1%nat) as [w|]; [|done]. destruct (one_of _ _); [|done].
  eapply (recorded_intro ([StartProcess; DynamicExecution] ++ [CapWorkspaceWrite; Network]) (false || false));
    [eapply records_trans; [apply start_dynamic_process_recorded|by apply records_add]|done..].
Qed.

Lemma classify_family_recorded family words name statics a :
  recorded (family_destroys family words) (family_observes family words statics) a
    (classify_family family words name statics a).
Proof.
  destruct family; cbn [classify_family family_destroys].
  - apply classify_ripgrep_recorded.
  - destruct (classify_read_command_recorded words statics a) as (l & ? & ? & ?). exists l. auto.
  - apply classify_git_recorded.
  - eapply (recorded_intro [CapWorkspaceWrite; DeleteFiles]); [apply records_destroy; [done|set_solver]|done..].
  - by eapply (recorded_intro [CapWorkspaceWrite]); [apply records_add|..].
  - by eapply (recorded_intro [CapWorkspaceWrite]); [apply records_add|..].
  - assert (records [Network; StartProcess] false a (not_read_only (add_capabilities [Network; StartProcess] a))) as Hr
      by by eapply records_same; [|apply records_add].
    unfold classify_network. match goal with |- context [if ?b then _ else _] => destruct b end.
    + by eapply (recorded_intro ([Network; StartProcess] ++ [CapWorkspaceWrite]) (false || false));
        [eapply records_trans; [exact Hr|by apply records_add]|..].
    + by eapply recorded_intro; [exact Hr|..].
  - unfold classify_dynamic_runtime. destruct (List.find _ _);
      by eapply recorded_intro; [apply start_dynamic_process_recorded|..].
  - apply classify_builder_recorded.
  - apply classify_builder_recorded.
  - eapply (recorded_intro [DeleteFiles]); [apply records_destroy; [done|set_solver]|done..].
Qed.

Lemma classify_segment_recorded words statics a :
  words <> [] ->
  recorded (segment_destroys words) (segment_observes words statics) (init_if_needed a)
    (classify_segment words statics a).
Proof.
  intros Hne. unfold classify_segment, segment_observes, segment_destroys. set (b := init_if_needed a).
  destruct (dotnet_argument words) as [argument|].
  - unfold classify_known_dotnet_read.
    eapply (recorded_intro [Observation; ReadFiles]); [by apply records_add| |done|set_solver].
    rewrite tracked_read_targets. by destruct (dynamic _).
  - destruct words as [|command words]; [done|]. cbn [segment_family head mbind option_bind].
    destruct (dynamic command); cbn [orb].
    { eapply (recorded_intro ([CapUnknown] ++ [DynamicExecution]) (false || false));
        [eapply records_trans; [apply records_mark_unknown|by apply records_add]|done..]. }
    destruct (is_script _).
    { eapply (recorded_intro [StartProcess; DynamicExecution]); [apply start_dynamic_process_recorded|done..]. }
    destruct (command_family _) as [family|]; [apply classify_family_recorded|].
    eapply recorded_intro; [apply records_mark_unknown|done..].
Qed.

(** * The loops *)

Lemma init_clean a : agg_capabilities a = [] -> agg_dynamic a = false -> saw_unknown a = false ->
  agg_destructive a = false -> clean (init_if_needed a) = true.
Proof. unfold init_if_needed, clean. intros -> H1 H2 H3. cbn. by rewrite H1, H2, H3. Qed.

(** The accumulator between two segments. *)
Record accumulated (first : bool) (a : Aggregate) : Prop := {
  acc_first : if first then a = aggregate_default else agg_capabilities a <> [];
  acc_unknown : saw_unknown a = has_unknown (agg_capabilities a);
  acc_delete : agg_destructive a = true -> DeleteFiles ∈ agg_capabilities a;
}.

Lemma init_same first a : accumulated first a ->
  tracked_of (init_if_needed a) = tracked_of a /\ (first = false -> init_if_needed a = a)
  /\ (first = true -> clean (init_if_needed a) = true).
Proof.
  intros [Hf _ _]. destruct first; [subst; by split_and!|].
  unfold init_if_needed. by destruct (agg_capabilities a).
Qed.

Lemma recorded_accumulated d o first a b :
  accumulated first a -> recorded d o (init_if_needed a) b ->
  accumulated false b /\ agg_destructive b = agg_destructive a || d
  /\ (o = true -> agg_capabilities a ⊆ observing -> agg_capabilities b ⊆ observing).
Proof.
  intros Ha (l & [H1 H2 H3 H4] & Hl & Ho). pose proof (init_same _ _ Ha) as (Ht & _).
  unfold tracked_of in Ht. injection Ht as E1 E2 E3. rewrite E1 in H1. rewrite E2 in H2. rewrite E3 in H3.
  destruct Ha as [_ Hu Hd]. split_and!; [split| |].
  - rewrite H1. destruct l; [done|]. by destruct (agg_capabilities a).
  - by rewrite H2, H1, has_unknown_app, Hu.
  - rewrite H3, H1. intros [?%Hd|?%H4]%orb_true_iff; set_solver.
  - done.
  - intros ? ?. rewrite H1. specialize (Ho ltac:(done)). set_solver.
Qed.

(** What a segment does, and what it leaves to the next. *)
Definition destroys (segment : list Word) : bool :=
  negb (is_some (static_string_assignment segment)) && segment_destroys segment.
Definition observes (statics : gmap string Word) (segment : list Word) : bool :=
  is_some (static_string_assignment segment) || segment_observes segment (statics_after statics segment).

Lemma analyze_segment_step first statics a segment :
  segment <> [] -> accumulated first a ->
  exists b, analyze_segment (statics, a) segment = (statics_after statics segment, b)
    /\ accumulated false b
    /\ agg_destructive b = agg_destructive a || destroys segment
    /\ clean b = (first || clean a) && observes statics segment
    /\ (observes statics segment = true -> agg_capabilities a ⊆ observing -> agg_capabilities b ⊆ observing).
Proof.
  intros Hne Ha. unfold analyze_segment, statics_after, destroys, observes.
  pose proof (init_same _ _ Ha) as (_ & Hold & Hnew).
  assert (clean (init_if_needed a) = first || clean a) as Hc by (destruct first; [by apply Hnew|by rewrite Hold]).
  destruct (static_string_assignment segment) as [[name val]|] eqn:Hs; cbn [is_some negb andb orb].
  - eexists. split; [done|].
    destruct (recorded_accumulated false true first a (add_capabilities [Observation] (init_if_needed a)) Ha) as (? & ? & ?).
    { eapply (recorded_intro [Observation]); [by apply records_add|done|done|set_solver]. }
    split_and!; [done|done|by rewrite clean_add_capabilities, andb_true_r|done].
  - unfold statics_after. rewrite Hs. set (after := match assigned_variable_name segment with Some _ => _ | None => _ end).
    exists (classify_segment segment after a). split; [done|].
    destruct (recorded_accumulated _ _ _ _ _ Ha (classify_segment_recorded segment after a Hne)) as (? & ? & ?).
    split_and!; [done|done| |done]. by rewrite classify_segment_clean, Hc.
Qed.

Lemma analyze_segments statics segments first a :
  Forall (fun s => s <> []) segments -> accumulated first a ->
  exists statics' b, fold_left analyze_segment segments (statics, a) = (statics', b)
    /\ accumulated (first && match segments with [] => true | _ => false end) b
    /\ agg_destructive b = agg_destructive a || existsb destroys segments
    /\ (segments <> [] -> clean b = (first || clean a) && segments_observe statics segments)
    /\ (segments_observe statics segments = true -> agg_capabilities a ⊆ observing ->
        agg_capabilities b ⊆ observing).
Proof.
  revert statics first a. induction segments as [|segment segments IH]; intros statics first a Hne Ha.
  { exists statics, a. cbn. rewrite andb_true_r, orb_false_r. by split_and!. }
  inversion_clear Hne as [|? ? Hs Hne']. cbn [fold_left].
  destruct (analyze_segment_step first statics a segment Hs Ha) as (b & -> & Hb & Hd & Hc & Ho).
  destruct (IH (statics_after statics segment) false b Hne' Hb) as (statics' & b' & Heq & Hb' & Hd' & Hc' & Ho').
  exists statics', b'. split_and!; [done| | | |].
  - rewrite andb_false_r. by destruct segments.
  - rewrite Hd', Hd. cbn [existsb]. by rewrite orb_assoc.
  - intros _. cbn [segments_observe]. fold (observes statics segment). rewrite andb_assoc, <-Hc.
    destruct segments as [|s' segments]; [|by rewrite Hc'].
    cbn in Heq. injection Heq as _ <-. by rewrite andb_true_r.
  - cbn [segments_observe]. fold (observes statics segment). intros [? ?]%andb_true_iff ?. auto.
Qed.

Lemma split_segments_nonempty current lexemes : Forall (fun s => s <> []) (split_segments current lexemes).
Proof.
  revert current. induction lexemes as [|[w|op] lexemes IH]; intros current; cbn.
  - destruct current; by repeat constructor.
  - apply IH.
  - apply Forall_app. split; [destruct current; by repeat constructor|apply IH].
Qed.

(** * Nested regions *)

(** The shape of every analysis. *)
Record shaped (n : ShellCommandAnalysis) : Prop := {
  sh_read_only : strictly_read_only n = true ->
    has_unknown (capabilities n) = false /\ analysis_dynamic n = false /\ destructive n = false
    /\ capabilities n ⊆ observing
    /\ has_pipeline n = false /\ has_redirection n = false /\ has_background_operator n = false;
  sh_destructive : destructive n = true -> DeleteFiles ∈ capabilities n;
  sh_confidence : confidence n = ConfidenceLow <-> CapUnknown ∈ capabilities n;
}.

Lemma has_unknown_elem l : has_unknown l = true <-> CapUnknown ∈ l.
Proof.
  unfold has_unknown. rewrite existsb_exists. setoid_rewrite <-list_elem_of_In. split.
  - by intros (x & Hx & ->%bool_decide_eq_true).
  - intros Hx. exists CapUnknown. by rewrite bool_decide_eq_true.
Qed.

Lemma merge_nested_step first a n :
  shaped n -> accumulated first a ->
  accumulated (first && negb (reports n)) (merge_nested n a)
  /\ agg_destructive (merge_nested n a) = agg_destructive a || destructive n
  /\ (clean (merge_nested n a) = if reports n then (first || clean a) && strictly_read_only n else clean a)
  /\ (strictly_read_only n = true -> agg_capabilities a ⊆ observing ->
      agg_capabilities (merge_nested n a) ⊆ observing).
Proof.
  intros Hn Ha. pose proof (init_same _ _ Ha) as (Ht & Hold & Hnew).
  unfold merge_nested. cbv zeta. rewrite <-negb_orb. fold (reports n).
  destruct (reports n) eqn:Hr; cbn [negb].
  - assert (capabilities n <> []) as Hne.
    { intros Hnil. unfold reports in Hr. rewrite Hnil in Hr. cbn in Hr.
      apply (sh_destructive _ Hn) in Hr. rewrite Hnil in Hr. by apply elem_of_nil in Hr. }
    unfold tracked_of in Ht. injection Ht as E1 E2 E3. fold (has_unknown (capabilities n)).
    destruct Ha as [_ Hu Hd]. rewrite andb_false_r. split_and!; [split; cbn| | |].
    + rewrite E1. destruct (agg_capabilities a); [done|by destruct (capabilities n)].
    + by rewrite E1, E2, has_unknown_app, Hu.
    + rewrite E1, E3. intros [?%Hd|?%(sh_destructive _ Hn)]%orb_true_iff; set_solver.
    + cbn. by rewrite E3.
    + assert (clean (init_if_needed a) = first || clean a) as <- by (destruct first; [by apply Hnew|by rewrite Hold]).
      unfold clean. cbn. unfold is_strictly_read_only. destruct (strictly_read_only n) eqn:Hs.
      * destruct (sh_read_only _ Hn Hs) as (Hun & Hdy & Hde & _). rewrite Hun, Hdy, Hde, !orb_false_r. by rewrite !andb_true_r.
      * by rewrite !andb_false_r.
    + cbn. rewrite E1. intros Hs Ho. destruct (sh_read_only _ Hn Hs) as (_ & _ & _ & Hsub & _). set_solver.
  - assert (destructive n = false) as Hd by (unfold reports in Hr; by apply orb_false_iff in Hr as [_ ?]).
    rewrite andb_true_r, Hd, orb_false_r. by split_and!.
Qed.

Lemma merge_all nested first a :
  Forall shaped nested -> accumulated first a ->
  exists b, fold_left (fun self n => merge_nested n self) nested a = b
    /\ accumulated (first && forallb (fun n => negb (reports n)) nested) b
    /\ agg_destructive b = agg_destructive a || existsb destructive nested
    /\ (first = false -> clean b = clean a && forallb (fun n => negb (reports n) || strictly_read_only n) nested)
    /\ (forallb strictly_read_only (List.filter reports nested) = true -> agg_capabilities a ⊆ observing ->
        agg_capabilities b ⊆ observing).
Proof.
  revert first a. induction nested as [|n nested IH]; intros first a Hn Ha; cbn [fold_left forallb existsb].
  { exists a. rewrite andb_true_r, orb_false_r. split_and!; try done. intros _. by rewrite andb_true_r. }
  apply Forall_cons in Hn as [Hn Hns].
  destruct (merge_nested_step first a n Hn Ha) as (Hb & Hd & Hc & Ho).
  destruct (IH _ _ Hns Hb) as (b & Heq & Hb' & Hd' & Hc' & Ho'). exists b. split_and!; [done| | | |].
  - by rewrite andb_assoc.
  - by rewrite Hd', Hd, orb_assoc.
  - intros ->. rewrite Hc' by done. rewrite Hc, andb_assoc. f_equal. cbn [orb].
    destruct (reports n); [done|by rewrite andb_true_r].
  - cbn [List.filter]. destruct (reports n) eqn:Hr; cbn [forallb].
    + intros [Hs Hall]%andb_true_iff Hsub. apply Ho'; [done|by apply Ho].
    + intros Hall Hsub. apply Ho'; [done|]. unfold merge_nested. cbv zeta. rewrite <-negb_orb.
      fold (reports n). by rewrite Hr.
Qed.

(** * The result *)

Lemma insert_capability_perm c l : insert_capability c l ≡ₚ c :: l.
Proof.
  induction l as [|d l IH]; cbn; [done|]. destruct (capability_rank c <=? capability_rank d); [done|].
  rewrite IH. apply Permutation_swap.
Qed.
Lemma sort_capabilities_perm l : sort_capabilities l ≡ₚ l.
Proof. induction l as [|c l IH]; cbn; [done|]. by rewrite insert_capability_perm, IH. Qed.

Lemma elem_of_dedup {A} `{EqDecision A} (x : A) l : x ∈ dedup l <-> x ∈ l.
Proof.
  induction l as [|y l IH]; [done|]. destruct l as [|z l]; [done|]. cbn [dedup] in *.
  destruct (decide (y = z)) as [->|]; set_solver.
Qed.

Lemma elem_of_capabilities c l : c ∈ dedup (sort_capabilities l) <-> c ∈ l.
Proof. by rewrite elem_of_dedup, sort_capabilities_perm. Qed.

Lemma conclude_shaped segments p r b a :
  accumulated (match segments with [] => true | _ => false end) a \/ accumulated false a ->
  (strictly_read_only (conclude segments p r b a) = true -> agg_capabilities a ⊆ observing) ->
  shaped (conclude segments p r b a).
Proof.
  intros Ha Hsub. assert (saw_unknown a = has_unknown (agg_capabilities a)) as Hu by (destruct Ha as [[]|[]]; done).
  assert (agg_destructive a = true -> DeleteFiles ∈ agg_capabilities a) as Hd by (destruct Ha as [[]|[]]; done).
  clear Ha. split.
  - cbn. rewrite !andb_true_iff, !negb_true_iff. intros ((((((Hro & Hdy) & ->) & ->) & ->) & Hun) & Hde).
    assert (segments <> []) as Hne by (by intros ->). destruct segments as [|s segs]; [done|]. cbn in *.
    split_and!; try done.
    + apply not_true_iff_false. rewrite has_unknown_elem, elem_of_capabilities, <-has_unknown_elem.
      rewrite Hu in Hun. by rewrite Hun.
    + intros c. rewrite elem_of_capabilities. apply Hsub.
      by rewrite Hro, Hdy, Hun, Hde.
  - cbn. rewrite elem_of_capabilities. destruct segments, r, b; cbn; set_solver.
  - cbn. rewrite elem_of_capabilities. rewrite <-has_unknown_elem.
    assert (forall (u d : bool), (if u then ConfidenceLow else if d then ConfidenceMedium else ConfidenceHigh) = ConfidenceLow <-> u = true) as ->
      by (by intros [] []).
    destruct segments, r, b; cbn; rewrite ?has_unknown_app, ?orb_true_r, ?orb_false_r; cbn; by rewrite ?Hu, ?orb_false_r, ?orb_true_r.
Qed.

Lemma conclude_strict segments p r b a :
  strictly_read_only (conclude segments p r b a)
  = match segments with [] => false | _ => true end && negb (p || r || b) && clean a.
Proof.
  unfold clean. destruct segments, p, r, b; cbn; rewrite ?andb_false_r, ?andb_true_r; try done.
Qed.

Lemma analyze_unfold levels command :
  let lexemes := lex command in
  let segments := split_segments [] lexemes in
  let nested := nested_analyses levels command in
  analyze_shell_command_nested levels command
  = conclude segments
      (has_operator Pipeline lexemes || existsb has_pipeline nested)
      (has_operator Redirection lexemes || existsb has_redirection nested)
      (has_operator Background lexemes || existsb has_background_operator nested)
      (fold_left (fun self n => merge_nested n self) nested
         (snd (fold_left analyze_segment segments (∅, aggregate_default)))).
Proof.
  destruct levels; cbn [analyze_shell_command_nested nested_analyses]; by destruct (fold_left analyze_segment _ _).
Qed.

Lemma operator_free_spec levels command :
  let nested := nested_analyses levels command in
  operator_free levels command
  = negb ((has_operator Pipeline (lex command) || existsb has_pipeline nested)
          || (has_operator Redirection (lex command) || existsb has_redirection nested)
          || (has_operator Background (lex command) || existsb has_background_operator nested)).
Proof.
  intros nested. unfold operator_free. fold nested.
  assert (forall l, forallb (fun lexeme => match lexeme with LOperator Sequence => true | LOperator _ => false | LWord _ => true end) l
     = negb (has_operator Pipeline l || has_operator Redirection l || has_operator Background l)) as ->.
  { induction l as [|[w|[]] l IH]; cbn; rewrite ?IH, ?orb_true_r; try done. }
  assert (forallb (fun n => negb (has_pipeline n || has_redirection n || has_background_operator n)) nested
     = negb (existsb has_pipeline nested || existsb has_redirection nested || existsb has_background_operator nested)) as ->.
  { induction nested as [|n nested IH]; cbn; [done|]. rewrite IH.
    by destruct (has_pipeline n), (has_redirection n), (has_background_operator n), (existsb has_pipeline nested),
      (existsb has_redirection nested), (existsb has_background_operator nested). }
  by destruct (has_operator Pipeline (lex command)), (has_operator Redirection (lex command)), (has_operator Background (lex command)),
    (existsb has_pipeline nested), (existsb has_redirection nested), (existsb has_background_operator nested).
Qed.

(** The reference definitions of the two answers. *)
Definition command_observes (levels : nat) (command : string) : bool :=
  let segments := split_segments [] (lex command) in
  match segments with [] => false | _ => true end
  && operator_free levels command
  && segments_observe ∅ segments
  && forallb (fun n => negb (reports n) || strictly_read_only n) (nested_analyses levels command).

Definition command_destroys (levels : nat) (command : string) : bool :=
  existsb destroys (split_segments [] (lex command))
  || existsb destructive (nested_analyses levels command).

Lemma default_accumulated : accumulated true aggregate_default.
Proof. by split. Qed.

Lemma forallb_reports nested :
  forallb (fun n => negb (reports n) || strictly_read_only n) nested = true ->
  forallb strictly_read_only (List.filter reports nested) = true.
Proof.
  rewrite !forallb_forall. intros Hall n [Hn Hr]%filter_In. specialize (Hall n Hn). by rewrite Hr in Hall.
Qed.

Lemma analysis_spec levels command :
  shaped (analyze_shell_command_nested levels command)
  /\ strictly_read_only (analyze_shell_command_nested levels command) = command_observes levels command
  /\ destructive (analyze_shell_command_nested levels command) = command_destroys levels command.
Proof.
  revert command. induction levels as [|levels IH]; intros command; rewrite analyze_unfold.
  all: set (segments := split_segments [] (lex command)).
  all: destruct (analyze_segments ∅ segments true aggregate_default (split_segments_nonempty _ _) default_accumulated)
    as (statics & a & -> & Ha & Hd & Hc & Ho); cbn [snd].
  all: match goal with |- context [nested_analyses ?l ?c] => set (nested := nested_analyses l c) end.
  all: assert (Forall shaped nested) as Hn
    by (unfold nested, nested_analyses; first [constructor|apply Forall_fmap, Forall_true; intros; apply IH]).
  all: destruct (merge_all nested _ a Hn Ha) as (b & -> & Hb & Hd' & Hc' & Ho').
  all: assert (forall p r k, strictly_read_only (conclude segments p r k b)
      = match segments with [] => false | _ => true end && negb (p || r || k) && segments_observe ∅ segments
        && forallb (fun n => negb (reports n) || strictly_read_only n) nested) as Hstrict
    by (intros p r k; rewrite conclude_strict; destruct segments as [|s segs]; [done|];
        rewrite Hc' by done; rewrite Hc by done; cbn [orb andb]; by rewrite !andb_assoc).
  all: split_and!; [apply conclude_shaped| |].
  all: try (unfold command_observes; fold segments nested; by rewrite Hstrict, operator_free_spec).
  all: try (unfold command_destroys; fold segments nested; unfold conclude; cbn [destructive];
            destruct segments; cbn; rewrite ?Hd'; repeat match goal with |- context [if ?c then _ else _] => destruct c end;
            cbn; by rewrite Hd', Hd).
  all: try (rewrite Hstrict; intros [[[_ _]%andb_true_iff Hobs]%andb_true_iff Hall%forallb_reports]%andb_true_iff;
            apply Ho'; [done|]; apply Ho; [done|set_solver]).
  all: destruct segments; cbn [andb] in *; [|by right].
  all: destruct (forallb (fun n => negb (reports n)) nested); first [by left|by right].
Qed.

(** * Order of the lists *)

Lemma insert_capability_sorted c l :
  StronglySorted (fun c d => capability_rank c <= capability_rank d) l ->
  StronglySorted (fun c d => capability_rank c <= capability_rank d) (insert_capability c l).
Proof.
  induction 1 as [|d l Hs IH Hd]; cbn; [by repeat constructor|].
  destruct (Z.leb_spec (capability_rank c) (capability_rank d)) as [Hle|Hlt].
  - repeat constructor; try done. eapply Forall_impl; [exact Hd|]. cbn. lia.
  - constructor; [done|]. rewrite insert_capability_perm. constructor; [lia|done].
Qed.
Lemma sort_capabilities_sorted l : StronglySorted (fun c d => capability_rank c <= capability_rank d) (sort_capabilities l).
Proof. induction l as [|c l IH]; cbn; [constructor|by apply insert_capability_sorted]. Qed.

Lemma dedup_cons {A} `{EqDecision A} (x y : A) l :
  dedup (x :: y :: l) = if decide (x = y) then dedup (y :: l) else x :: dedup (y :: l).
Proof. done. Qed.

Lemma StronglySorted_weaken {A} (R S : A -> A -> Prop) l :
  (forall x y, R x y -> S x y) -> StronglySorted R l -> StronglySorted S l.
Proof.
  intros HRS. induction 1 as [|x l Hs IH Hx]; constructor; [done|]. eapply Forall_impl; [exact Hx|]. auto.
Qed.

(** Without its repetitions a sorted list is strictly sorted. *)
Lemma dedup_sorted {A} `{EqDecision A} (R : A -> A -> Prop) (l : list A) :
  (forall x y, R x y -> R y x -> x = y) -> StronglySorted R l ->
  StronglySorted (fun x y => R x y /\ x <> y) (dedup l).
Proof.
  intros Hanti. induction 1 as [|x l Hs IH Hx]; [constructor|]. destruct l as [|y l]; [by repeat constructor|].
  rewrite dedup_cons. destruct (decide (x = y)) as [->|Hne]; [done|]. constructor; [done|].
  apply Forall_forall. intros z Hz'. rewrite elem_of_dedup in Hz'. rewrite Forall_forall in Hx.
  split; [by apply Hx|]. intros ->. apply Hne. apply Hanti; [apply Hx; set_solver|].
  apply elem_of_cons in Hz' as [->|Hz']; [apply Hx; set_solver|].
  apply StronglySorted_inv in Hs as [_ Hy]. rewrite Forall_forall in Hy. by apply Hy.
Qed.

Lemma capability_rank_inj c d : capability_rank c = capability_rank d -> c = d.
Proof. by destruct c, d. Qed.

(** C25: every analysis is well formed: its capabilities are strictly ascending and its
    targets strictly sorted; its confidence is low exactly when it names an unknown
    capability; a destructive one names the deletion of files; a strict read-only one
    is static, free of operators and names nothing but observation and reading. *)
Theorem analysis_well_formed command :
  let n := analyze_shell_command command in
  StronglySorted (fun c d => capability_rank c < capability_rank d) (capabilities n)
  /\ StronglySorted (fun s t => String.leb s t /\ s <> t) (concrete_targets n)
  /\ shaped n.
Proof.
  cbn zeta. split_and!; [| |apply analysis_spec].
  - unfold analyze_shell_command. rewrite analyze_unfold. cbn [capabilities conclude].
    eapply StronglySorted_weaken; [|apply dedup_sorted; [|apply sort_capabilities_sorted]].
    + intros c d [Hle Hne]. assert (capability_rank c <> capability_rank d); [|lia].
      intros Heq. by apply Hne, capability_rank_inj.
    + cbn. intros c d ? ?. apply capability_rank_inj. lia.
  - unfold analyze_shell_command. rewrite analyze_unfold. cbn [concrete_targets conclude].
    eapply StronglySorted_weaken; [|apply dedup_sorted; [|apply sort_by_key_sorted]]; [done|].
    unfold key_le. cbn. intros s t Hst Hts. apply Is_true_true in Hst, Hts.
    by apply String.leb_antisym.
Qed.


(** C24: a command is destructive exactly when one of its segments deletes, formats, or
    resets or cleans a repository, or one of its nested regions is destructive. *)
Theorem destructive_exact command :
  destructive (analyze_shell_command command) = command_destroys MAX_NESTING command.
Proof. apply analysis_spec. Qed.

(** * Commands it misjudges *)

(** the strict read-only answer is given to commands that do not only read.  Only
    the arguments that name a path of a read command are looked at, and a nested region
    with an unknown command is not merged, so an unknown program runs in a substitution;
    and a .NET read invocation is looked for anywhere in the first word, so a .NET write
    of what was read counts as the read. *)
Theorem strict_read_only_admits_effects :
  is_strictly_read_only (analyze_shell_command "cat notes.txt $(make install)") = true
  /\ is_strictly_read_only (analyze_shell_command "Get-Content -Path notes.txt -Encoding $(deploy)") = true
  /\ is_strictly_read_only (analyze_shell_command
       "[IO.File]::WriteAllText('out.txt',[IO.File]::ReadAllText('in.txt'))") = true
  /\ confidence (analyze_shell_command "make install") = ConfidenceLow.
Proof. vm_compute. done. Qed.
