(* ===== verification/ShellTermination.v ===== *)
(** The scanners of the shell analysis end: their fuel suffices, the regions they find
    are shorter than the command they are found in, and the depth of nesting the program
    allows is never reached by a command of fewer than 64 characters. *)
From S2P Require Import Prelude RustStr RustStrFacts RustText ShellLex ShellAnalysis ShellFacts.

(** * Scanners advance *)

Lemma suffix_of_tl {A} (l : list A) : tl l `suffix_of` l.
Proof. destruct l as [|x l]; [done|]. by apply suffix_cons_r. Qed.

Lemma skip_single_quoted_suffix l : skip_single_quoted l `suffix_of` l.
Proof.
  induction l as [l IH] using (induction_ltof1 _ (@length char)); unfold ltof in IH.
  destruct l as [|ch rest]; [done|]. cbn [skip_single_quoted]. destruct (String.eqb ch "'").
  - destruct rest as [|next rest]; [apply suffix_nil|]. destruct (String.eqb next "'").
    + apply suffix_cons_r, suffix_cons_r, IH. cbn. lia.
    + by apply suffix_cons_r.
  - apply suffix_cons_r, IH. cbn. lia.
Qed.
Lemma skip_line_comment_suffix l : skip_line_comment l `suffix_of` l.
Proof. induction l as [|ch l IH]; cbn; [done|]. destruct (_ || _); by apply suffix_cons_r. Qed.
Lemma skip_block_comment_suffix l : skip_block_comment l `suffix_of` l.
Proof.
  induction l as [|ch l IH]; [done|]. destruct l as [|next l]; cbn in *; [apply suffix_nil|].
  destruct (_ && _); [by apply suffix_cons_r, suffix_cons_r|by apply suffix_cons_r].
Qed.

Lemma skip_opaque_suffix ch rest l : skip_opaque ch rest = Some l -> l `suffix_of` rest.
Proof.
  unfold skip_opaque. repeat match goal with |- context [if ?b then _ else _] => destruct b end; intros [= <-].
  - apply skip_single_quoted_suffix.
  - apply skip_line_comment_suffix.
  - etrans; [apply skip_block_comment_suffix|apply suffix_of_tl].
  - apply suffix_of_tl.
Qed.

(** A group ends inside the text, and a quotation not before it. *)
Lemma scan_suffix fuel : forall l,
  (forall opn close depth suffix, find_matching_group fuel l opn close depth = Some suffix ->
     suffix `suffix_of` l /\ suffix <> [])
  /\ fst (scan_double_quoted fuel l) `suffix_of` l.
Proof.
  induction fuel as [|fuel IH]; intros l; [split; [done|apply suffix_nil]|].
  destruct l as [|ch rest]; [by split|].
  assert (forall r opn close depth suffix, r `suffix_of` rest ->
    find_matching_group fuel r opn close depth = Some suffix -> suffix `suffix_of` ch :: rest /\ suffix <> []) as Hgo.
  { intros r opn close depth suffix Hr H. apply IH in H as [H ?]. split; [|done].
    apply suffix_cons_r. by etrans. }
  split.
  - intros opn close depth suffix. cbn [find_matching_group].
    destruct (skip_opaque ch rest) as [rest'|] eqn:Hs; [by apply Hgo, skip_opaque_suffix with ch|].
    destruct (String.eqb ch dquote); [by apply Hgo, IH|].
    destruct (String.eqb ch opn); [by apply Hgo|].
    destruct (String.eqb ch close); [|by apply Hgo].
    destruct depth as [|[|depth]]; [by intros [= <-]..|by apply Hgo].
  - cbn [scan_double_quoted]. destruct (String.eqb ch "`").
    { apply suffix_cons_r. etrans; [apply IH|apply suffix_of_tl]. }
    destruct (String.eqb ch dquote); [by apply suffix_cons_r|].
    destruct rest as [|next body]; [apply suffix_cons_r, IH|].
    destruct (_ && _); [|apply suffix_cons_r, IH]. apply suffix_cons_r, suffix_cons_r.
    destruct (find_matching_group fuel body "(" ")" 1) as [suffix|] eqn:Hf; [|apply IH].
    pose proof (proj2 (IH (tl suffix))) as Ht. apply IH in Hf as [Hf _].
    destruct (scan_double_quoted fuel (tl suffix)). etrans; [exact Ht|]. etrans; [apply suffix_of_tl|done].
Qed.

Lemma skip_opaque_length ch rest l : skip_opaque ch rest = Some l -> (length l <= length rest)%nat.
Proof. intros H%skip_opaque_suffix. by apply suffix_length. Qed.
Lemma tl_length {A} (l : list A) : (length (tl l) <= length l)%nat.
Proof. apply suffix_length, suffix_of_tl. Qed.
Lemma scan_length fuel l :
  (forall opn close depth suffix, find_matching_group fuel l opn close depth = Some suffix ->
     (0 < length suffix <= length l)%nat)
  /\ (length (fst (scan_double_quoted fuel l)) <= length l)%nat.
Proof.
  split; [|apply suffix_length, scan_suffix]. intros opn close depth suffix [H Hne]%scan_suffix.
  apply suffix_length in H. destruct suffix; [done|]. cbn in *. lia.
Qed.

(** * The fuel suffices *)

Lemma scan_fuel fuel : forall l fuel', (length l < fuel)%nat -> (fuel <= fuel')%nat ->
  (forall opn close depth, find_matching_group fuel' l opn close depth = find_matching_group fuel l opn close depth)
  /\ scan_double_quoted fuel' l = scan_double_quoted fuel l.
Proof.
  induction fuel as [|fuel IH]; intros l [|fuel'] Hl Hf; try lia.
  destruct l as [|ch rest]; [by split|]. cbn in Hl.
  assert (forall r, (length r <= length rest)%nat ->
    (forall opn close depth, find_matching_group fuel' r opn close depth = find_matching_group fuel r opn close depth)
    /\ scan_double_quoted fuel' r = scan_double_quoted fuel r) as IH' by (intros r Hr; apply IH; lia).
  clear IH. split.
  - intros opn close depth. cbn [find_matching_group].
    destruct (skip_opaque ch rest) as [rest'|] eqn:Hs; [by apply skip_opaque_length in Hs; apply IH'|].
    destruct (String.eqb ch dquote).
    { destruct (IH' rest ltac:(lia)) as [_ ->]. apply IH', scan_length. }
    destruct (String.eqb ch opn); [by apply IH'|].
    destruct (String.eqb ch close); [|by apply IH'].
    destruct depth as [|[|depth]]; [done..|by apply IH'].
  - cbn [scan_double_quoted]. destruct (String.eqb ch "`"); [apply IH', tl_length|].
    destruct (String.eqb ch dquote); [done|].
    destruct rest as [|next body]; [by apply IH'|].
    destruct (_ && _); [|by apply IH'].
    destruct (IH' body ltac:(cbn; lia)) as [-> Hb].
    destruct (find_matching_group fuel body "(" ")" 1) as [suffix|] eqn:Hg; [|done].
    apply scan_length in Hg. pose proof (tl_length suffix).
    by destruct (IH' (tl suffix) ltac:(cbn; lia)) as [_ ->].
Qed.

Lemma regions_fuel fuel : forall l fuel', (length l < fuel)%nat -> (fuel <= fuel')%nat ->
  regions_from fuel' l = regions_from fuel l.
Proof.
  induction fuel as [|fuel IH]; intros l [|fuel'] Hl Hf; try lia.
  destruct l as [|ch rest]; [done|]. cbn in Hl. cbn [regions_from].
  destruct (skip_opaque ch rest) as [rest'|] eqn:Hs; [apply skip_opaque_length in Hs; apply IH; lia|].
  destruct (scan_fuel fuel rest fuel' ltac:(lia) ltac:(lia)) as [Hfind Hscan].
  destruct (String.eqb ch dquote).
  { rewrite Hscan. pose proof (proj2 (scan_length fuel rest)).
    destruct (scan_double_quoted fuel rest) as [rest' regions]. cbn in *. f_equal. apply IH; lia. }
  destruct (closing_of ch) as [close|]; [|apply IH; lia].
  rewrite Hfind. destruct (find_matching_group fuel rest ch close 1) as [suffix|] eqn:Hg; [|apply IH; lia].
  apply scan_length in Hg. pose proof (tl_length suffix). f_equal. apply IH; lia.
Qed.

(** * Regions are shorter than the command *)

Definition starts_continuation (s : string) : bool :=
  match s with String b _ => is_continuation b | "" => false end.

Lemma chars_head s c cs : chars s = c :: cs -> starts_continuation c = starts_continuation s.
Proof.
  destruct s as [|a s]; [done|]. cbn. destruct (chars s) as [|[|b c'] cs']; [by intros [= <- _]..|].
  by destruct (is_continuation b); intros [= <- _].
Qed.

Lemma chars_nonempty s : Forall (fun c => c <> "") (chars s).
Proof.
  induction s as [|a s IH]; [constructor|]. cbn. destruct (chars s) as [|c cs]; [by repeat constructor|].
  apply Forall_cons in IH as [Hc Hcs]. destruct c as [|b c]; [done|].
  destruct (is_continuation b); by repeat constructor.
Qed.

Lemma chars_cons_length a s :
  length (chars (String a s)) = ((if starts_continuation s then 0 else 1) + length (chars s))%nat.
Proof.
  cbn. destruct (chars s) as [|c cs] eqn:Hs.
  - destruct s as [|b s]; [done|]. exfalso. cbn in Hs.
    destruct (chars s) as [|[|d c] cs]; try done. by destruct (is_continuation d).
  - pose proof (chars_nonempty s) as Hne. rewrite Hs in Hne. inversion_clear Hne as [|? ? Hc _].
    rewrite <-(chars_head _ _ _ Hs). destruct c as [|b c]; [done|]. cbn. by destruct (is_continuation b).
Qed.

Lemma chars_app_length s t : (length (chars (s +:+ t)) <= length (chars s) + length (chars t))%nat.
Proof.
  induction s as [|a s IH]; [cbn; lia|]. change (String a s +:+ t) with (String a (s +:+ t)).
  rewrite !chars_cons_length. destruct s as [|b s]; [cbn in *; destruct (starts_continuation t); lia|].
  change (starts_continuation (String b s +:+ t)) with (starts_continuation (String b s)). lia.
Qed.

(** A character is one character. *)
Lemma chars_single s : Forall (fun c => chars c = [c]) (chars s).
Proof.
  induction s as [|a s IH]; [constructor|]. cbn [chars]. destruct (chars s) as [|c cs]; [by repeat constructor|].
  apply Forall_cons in IH as [Hc Hcs]. destruct c as [|b c]; [done|].
  destruct (is_continuation b) eqn:Hb; repeat constructor; try done.
  cbn [chars] in Hc |- *. rewrite Hc. by rewrite Hb.
Qed.

Definition single (l : list char) : Prop := Forall (fun c => chars c = [c]) l.

Lemma collect_length l : single l -> (length (chars (collect l)) <= length l)%nat.
Proof.
  unfold collect. induction 1 as [|c l Hc _ IH]; [done|].
  assert (String.concat "" (c :: l) = c +:+ String.concat "" l) as ->.
  { destruct l; [|done]. cbn. by rewrite str_app_nil_r. }
  pose proof (chars_app_length c (String.concat "" l)). rewrite Hc in *. cbn in *. lia.
Qed.

Lemma single_suffix l l' : l' `suffix_of` l -> single l -> single l'.
Proof. intros [k ->] H. by apply Forall_app in H as [_ ?]. Qed.

Lemma between_length l suffix :
  single l -> suffix `suffix_of` l -> suffix <> [] -> (length (chars (between l suffix)) < length l)%nat.
Proof.
  intros Hl [k ->] Hne. unfold between. rewrite length_app. replace (_ - _)%nat with (length k) by lia.
  rewrite take_app_length. apply Forall_app in Hl as [Hk _]. pose proof (collect_length k Hk).
  destruct suffix; [done|]. cbn. lia.
Qed.

Lemma scan_regions_shorter fuel : forall l, single l ->
  Forall (fun r => length (chars r) + 2 <= length l)%nat (snd (scan_double_quoted fuel l)).
Proof.
  induction fuel as [|fuel IH]; intros l Hl; [constructor|].
  destruct l as [|ch rest]; [constructor|].
  assert (forall l', l' `suffix_of` rest ->
    Forall (fun r => length (chars r) + 2 <= length (ch :: rest))%nat (snd (scan_double_quoted fuel l'))) as Hgo.
  { intros l' Hs. eapply Forall_impl; [apply IH|].
    - eapply single_suffix; [|exact Hl]. by apply suffix_cons_r.
    - cbn. intros r Hr. apply suffix_length in Hs. lia. }
  cbn [scan_double_quoted]. destruct (String.eqb ch "`"); [apply Hgo, suffix_of_tl|].
  destruct (String.eqb ch dquote); [constructor|].
  destruct rest as [|next body]; [by apply Hgo|]. destruct (_ && _); [|by apply Hgo].
  destruct (find_matching_group fuel body "(" ")" 1) as [suffix|] eqn:Hf; [|by apply Hgo, suffix_cons_r].
  apply scan_suffix in Hf as [Hf Hne]. pose proof (Hgo (tl suffix)) as Hrest.
  destruct (scan_double_quoted fuel (tl suffix)) as [l' regions]. cbn [snd] in *. constructor.
  - pose proof (between_length body suffix ltac:(eapply single_suffix; [|exact Hl]; by apply suffix_cons_r, suffix_cons_r) Hf Hne).
    cbn. lia.
  - apply Hrest. etrans; [apply suffix_of_tl|]. by apply suffix_cons_r.
Qed.

Lemma regions_shorter fuel : forall l, single l ->
  Forall (fun r => length (chars r) + 2 <= length l)%nat (regions_from fuel l).
Proof.
  induction fuel as [|fuel IH]; intros l Hl; [constructor|].
  destruct l as [|ch rest]; [constructor|].
  assert (single rest) as Hrest by (eapply single_suffix; [|exact Hl]; by apply suffix_cons_r).
  assert (forall l', l' `suffix_of` rest ->
    Forall (fun r => length (chars r) + 2 <= length (ch :: rest))%nat (regions_from fuel l')) as Hgo.
  { intros l' Hs. eapply Forall_impl; [apply IH; by eapply single_suffix|].
    cbn. intros r Hr. apply suffix_length in Hs. lia. }
  cbn [regions_from]. destruct (skip_opaque ch rest) as [rest'|] eqn:Hs; [by eapply Hgo, skip_opaque_suffix|].
  destruct (String.eqb ch dquote).
  { pose proof (scan_regions_shorter fuel rest Hrest) as Hsc. pose proof (proj2 (scan_suffix fuel rest)) as Hsuf.
    destruct (scan_double_quoted fuel rest) as [rest' regions]. cbn [fst snd] in *. apply Forall_app. split; [|by apply Hgo].
    eapply Forall_impl; [exact Hsc|]. cbn. lia. }
  destruct (closing_of ch) as [close|]; [|by apply Hgo].
  destruct (find_matching_group fuel rest ch close 1) as [suffix|] eqn:Hg; [|by apply Hgo].
  apply scan_suffix in Hg as [Hg Hne]. constructor.
  - pose proof (between_length rest suffix Hrest Hg Hne). cbn. lia.
  - apply Hgo. etrans; [apply suffix_of_tl|done].
Qed.

Lemma nested_regions_shorter command :
  Forall (fun r => length (chars r) + 2 <= length (chars command))%nat (nested_executable_regions command).
Proof. apply regions_shorter, chars_single. Qed.

(** Levels beyond the depth a command can have change nothing. *)
Lemma levels_enough levels : forall levels' command,
  (length (chars command) < 2 * S levels)%nat -> (levels <= levels')%nat ->
  analyze_shell_command_nested levels' command = analyze_shell_command_nested levels command.
Proof.
  induction levels as [|levels IH]; intros levels' command Hlen Hle.
  - assert (nested_executable_regions command = []) as Hnil.
    { pose proof (nested_regions_shorter command) as H. destruct (nested_executable_regions command) as [|r l]; [done|].
      apply Forall_cons in H as [H _]. lia. }
    rewrite !analyze_unfold. assert (forall n, nested_analyses n command = []) as Hno.
    { intros [|n]; [done|]. unfold nested_analyses. by rewrite Hnil. }
    by rewrite !Hno.
  - destruct levels' as [|levels']; [lia|]. rewrite !analyze_unfold.
    assert (nested_analyses (S levels') command = nested_analyses (S levels) command) as ->; [|done].
    unfold nested_analyses. apply list_fmap_ext. intros i r Hr%list_elem_of_lookup_2. apply IH; [|lia].
    pose proof (nested_regions_shorter command) as H. rewrite Forall_forall in H. specialize (H r Hr). lia.
Qed.

(** C26: the scan for nested regions ends, whatever the command: one step per character
    suffices, and every region is at least two characters shorter than the command.  So
    the analysis ends, and the 32 levels of nesting the program allows are no restriction
    for a command of fewer than 66 characters: more levels give the same answer. *)
Theorem nested_scan_terminates command :
  (forall fuel, (length (chars command) < fuel)%nat ->
     regions_from fuel (chars command) = nested_executable_regions command)
  /\ Forall (fun region => length (chars region) + 2 <= length (chars command))%nat
       (nested_executable_regions command)
  /\ ((length (chars command) < 66)%nat -> forall levels, (MAX_NESTING <= levels)%nat ->
      analyze_shell_command_nested levels command = analyze_shell_command command).
Proof.
  split_and!.
  - intros fuel Hf. apply regions_fuel; lia.
  - apply nested_regions_shorter.
  - intros Hlen levels Hle. apply levels_enough; [unfold MAX_NESTING; lia|done].
Qed.
