(* ===== verification/RustPath.v ===== *)
(** [std::path] on Unix, where a path is its bytes and ["/"] the only separator: the
    components of a path, its parent, file name and joins, and the operating system the
    sandbox and the policy ask about paths. *)
From S2P Require Import Prelude RustStr RustStrFacts RustText Enterprise.

Definition slash : Ascii.ascii := chr "/".

(** * Components *)

(** [std::path::Component]; [Prefix] does not occur on Unix. *)
Inductive Component :=
| RootDir
| CurDir
| ParentDir
| Normal (name : string).

#[export] Instance component_eq_dec : EqDecision Component.
Proof. solve_decision. Defined.

(** [Path::is_absolute], which on Unix is [has_root]. *)
Definition is_absolute (path : PathBuf) : bool := starts_with "/" path.

(** Segments that yield no component after the start of a path. *)
Definition is_noise (segment : string) : bool := bool_decide (segment = "" \/ segment = ".").

Definition segment_component (segment : string) : Component :=
  if bool_decide (segment = "..") then ParentDir else Normal segment.

(** What a path starts with: the root, a leading ["."], or nothing; and the segments
    after it. *)
Definition path_parts (path : PathBuf) : option Component * list string :=
  match split_char slash path with
  | first :: rest =>
      if is_absolute path then (Some RootDir, rest)
      else if bool_decide (first = ".") then (Some CurDir, rest)
      else (None, first :: rest)
  | [] => (None, [])
  end.

(** [Path::components]. *)
Definition components (path : PathBuf) : list Component :=
  let '(head, segments) := path_parts path in
  option_list head ++ (segment_component <$> filter (fun s => is_noise s = false) segments).

(** [Path::starts_with] and [Path]'s equality compare components. *)
Definition path_starts_with (path base : PathBuf) : bool :=
  bool_decide (components base `prefix_of` components path).
Definition path_eqb (left right : PathBuf) : bool := bool_decide (components left = components right).

(** * Parents, names, joins *)

Fixpoint trim_noise (segments : list string) : list string :=
  match segments with
  | s :: l => if is_noise s then trim_noise l else segments
  | [] => []
  end.
Definition trim_noise_end (segments : list string) : list string :=
  reverse (trim_noise (reverse segments)).

(** The text of a start and the segments after it. *)
Definition assemble (head : option Component) (segments : list string) : PathBuf :=
  match head with
  | Some RootDir => "/" +:+ str_join "/" segments
  | Some CurDir => str_join "/" ("." :: segments)
  | _ => str_join "/" segments
  end.

(** [Path::parent]: without the last component, unless it is the root. *)
Definition parent (path : PathBuf) : option PathBuf :=
  let '(head, segments) := path_parts path in
  match reverse (trim_noise_end segments) with
  | _ :: before => Some (assemble head (trim_noise_end (reverse before)))
  | [] => match head with Some CurDir => Some "" | _ => None end
  end.

(** [Path::file_name]. *)
Definition file_name (path : PathBuf) : option string :=
  match last (components path) with Some (Normal name) => Some name | _ => None end.

(** [Path::join] and [PathBuf::push]. *)
Definition path_join (base path : PathBuf) : PathBuf :=
  if is_absolute path then path
  else if str_is_empty base || starts_with "/" (String.rev base) then base +:+ path
  else base +:+ "/" +:+ path.

(** The segments left once [n] components are taken from the front. *)
Fixpoint drop_components (n : nat) (segments : list string) : list string :=
  match n with
  | O => segments
  | S n' => drop_components n' (tail (trim_noise segments))
  end.

(** [Path::strip_prefix]. *)
Definition path_strip_prefix (path base : PathBuf) : option PathBuf :=
  if path_starts_with path base then
    let '(head, segments) := path_parts path in
    match length (components base), head with
    | O, _ => Some (assemble head (trim_noise_end segments))
    | S n, Some _ => Some (str_join "/" (trim_noise_end (trim_noise (drop_components n segments))))
    | n, None => Some (str_join "/" (trim_noise_end (trim_noise (drop_components n segments))))
    end
  else None.

(** [path.components().any(|component| matches!(component, Component::ParentDir))]. *)
Definition has_parent_dir (path : PathBuf) : bool :=
  existsb (fun c => bool_decide (c = ParentDir)) (components path).

(** * The operating system *)

(** What the program asks about paths and its environment, besides
    [Path::canonicalize].  Paths and variables are assumed to be valid Unicode. *)
Class OsHost := {
  path_exists : PathBuf -> bool;
  is_dir : PathBuf -> bool;
  is_file : PathBuf -> bool;
  (** [std::env::current_dir().ok()] *)
  current_dir : option PathBuf;
  (** [std::env::var(name).ok()] *)
  env_var : string -> option string;
  (** [std::env::temp_dir()] *)
  temp_dir : PathBuf;
  (** the message of a failed [Path::canonicalize] *)
  canonicalize_error : PathBuf -> string;
  (** sixteen hexadecimal digits of [DefaultHasher] *)
  default_hash : PathBuf -> string;
}.

Section os.
Context `{FS : FileSystem} `{OS : OsHost}.

(** [std::env::split_paths]. *)
Definition env_path_list (name : string) : list PathBuf :=
  match env_var name with Some value => split_char (chr ":") value | None => [] end.

Definition absolute_path (path : PathBuf) : PathBuf :=
  if is_absolute path then path else path_join (default "." current_dir) path.

(** The walk to the nearest ancestor that exists, whose canonical form is extended by the
    names below it; [fuel] bounds the number of ancestors. *)
Fixpoint canonicalize_ancestor (fuel : nat) (path cursor : PathBuf) (missing : list string) : PathBuf :=
  match fuel with
  | O => path
  | S fuel' =>
      match parent cursor with
      | None => path
      | Some above =>
          let missing := match file_name cursor with
                         | Some name => missing ++ [name]
                         | None => missing
                         end in
          match canonicalize above with
          | Some canonical => foldl path_join canonical (reverse missing)
          | None => canonicalize_ancestor fuel' path above missing
          end
      end
  end.

Definition canonicalize_existing_ancestor (path : PathBuf) : PathBuf :=
  match canonicalize path with
  | Some canonical => canonical
  | None => canonicalize_ancestor (S (String.length path)) path path []
  end.

End os.

Example components_1 : components "/a//./b/../c/" = [RootDir; Normal "a"; Normal "b"; ParentDir; Normal "c"].
Proof. reflexivity. Qed.
Example components_2 : components "./a/." = [CurDir; Normal "a"] /\ components "" = [].
Proof. split; reflexivity. Qed.
Example parent_1 : parent "/a//b/" = Some "/a" /\ parent "/a" = Some "/" /\ parent "/" = None
  /\ parent "a" = Some "" /\ parent "" = None /\ parent "./" = Some "".
Proof. repeat split; reflexivity. Qed.
Example strip_1 : path_strip_prefix "/a/./b//c/" "/a" = Some "b//c" /\ path_strip_prefix "/a" "/a/" = Some "".
Proof. split; reflexivity. Qed.
Example join_1 : path_join "/a" "b" = "/a/b" /\ path_join "/a/" "b" = "/a/b" /\ path_join "/a" "/b" = "/b" /\ path_join "/a" "" = "/a/".
Proof. repeat split; reflexivity. Qed.
