(* ===== verification/Sandbox.v ===== *)
(** [sandbox/contract.rs] and [sandbox/path_policy.rs]: the configuration of the local
    sandbox, the roots it opens, the exact paths an approval adds to it, and the metadata
    directories it protects.  The branches for [cfg(not(windows))]. *)
From S2P Require Import Prelude RustStr RustStrFacts RustText Enterprise RustPath.

(** * [contract.rs]: data *)

Module WindowsSandboxBackend.
Inductive WindowsSandboxBackend := Auto | DedicatedUser | Unelevated.
#[export] Instance windows_sandbox_backend_eq_dec : EqDecision WindowsSandboxBackend.
Proof. solve_decision. Defined.
End WindowsSandboxBackend.
Notation WindowsSandboxBackend := WindowsSandboxBackend.WindowsSandboxBackend.
Export (hints) WindowsSandboxBackend.

Module OsSandboxMode.
Inductive OsSandboxMode := Disabled | BestEffort | Enforce.
#[export] Instance os_sandbox_mode_eq_dec : EqDecision OsSandboxMode.
Proof. solve_decision. Defined.
End OsSandboxMode.
Notation OsSandboxMode := OsSandboxMode.OsSandboxMode.
Export (hints) OsSandboxMode.

Module NetworkPolicy.
Inductive NetworkPolicy := Inherit | Allow | Deny.
#[export] Instance network_policy_eq_dec : EqDecision NetworkPolicy.
Proof. solve_decision. Defined.
End NetworkPolicy.
Notation NetworkPolicy := NetworkPolicy.NetworkPolicy.
Export (hints) NetworkPolicy.

Module SandboxMode.
Inductive SandboxMode := ReadOnly | WorkspaceWrite | DangerFullAccess.
#[export] Instance sandbox_mode_eq_dec : EqDecision SandboxMode.
Proof. solve_decision. Defined.
End SandboxMode.
Notation SandboxMode := SandboxMode.SandboxMode.
Export (hints) SandboxMode.

Module OsSandboxPlatform.
Inductive OsSandboxPlatform := Linux | Macos | Windows | Unsupported.
#[export] Instance os_sandbox_platform_eq_dec : EqDecision OsSandboxPlatform.
Proof. solve_decision. Defined.
End OsSandboxPlatform.
Notation OsSandboxPlatform := OsSandboxPlatform.OsSandboxPlatform.
Export (hints) OsSandboxPlatform.

Definition sandbox_mode_as_str (self : SandboxMode) : string :=
  match self with
  | SandboxMode.ReadOnly => "read-only"
  | SandboxMode.WorkspaceWrite => "workspace-write"
  | SandboxMode.DangerFullAccess => "danger-full-access"
  end.

Definition sandbox_mode_rank (mode : SandboxMode) : Z :=
  match mode with
  | SandboxMode.ReadOnly => 0
  | SandboxMode.WorkspaceWrite => 1
  | SandboxMode.DangerFullAccess => 2
  end.

Definition is_attenuation_of (self parent : SandboxMode) : bool :=
  sandbox_mode_rank self <=? sandbox_mode_rank parent.

Definition platform_as_str (self : OsSandboxPlatform) : string :=
  match self with
  | OsSandboxPlatform.Linux => "linux"
  | OsSandboxPlatform.Macos => "macos"
  | OsSandboxPlatform.Windows => "windows"
  | OsSandboxPlatform.Unsupported => "unsupported"
  end.

Record SandboxBackendCapabilities := {
  recursive_read_allowlist : bool;
  recursive_write_allowlist : bool;
  deny_read : bool;
  deny_write : bool;
  network_offline : bool;
  network_online : bool;
  private_desktop : bool;
  native_subprocess_ipc : bool;
}.

(** [SandboxBackendCapabilities::for_platform]. *)
Definition for_platform (platform : OsSandboxPlatform) (backend : WindowsSandboxBackend)
    : SandboxBackendCapabilities :=
  match platform with
  | OsSandboxPlatform.Windows =>
      match backend with
      | WindowsSandboxBackend.DedicatedUser =>
          {| recursive_read_allowlist := false; recursive_write_allowlist := false;
             deny_read := true; deny_write := true; network_offline := true;
             network_online := true; private_desktop := false; native_subprocess_ipc := true |}
      | WindowsSandboxBackend.Auto | WindowsSandboxBackend.Unelevated =>
          {| recursive_read_allowlist := false; recursive_write_allowlist := true;
             deny_read := false; deny_write := true; network_offline := false;
             network_online := true; private_desktop := false; native_subprocess_ipc := false |}
      end
  | OsSandboxPlatform.Linux | OsSandboxPlatform.Macos =>
      {| recursive_read_allowlist := true; recursive_write_allowlist := true;
         deny_read := false; deny_write := true; network_offline := true;
         network_online := true; private_desktop := false; native_subprocess_ipc := true |}
  | OsSandboxPlatform.Unsupported =>
      {| recursive_read_allowlist := false; recursive_write_allowlist := false;
         deny_read := false; deny_write := false; network_offline := false;
         network_online := false; private_desktop := false; native_subprocess_ipc := false |}
  end.

Record LocalSandboxConfig := {
  enabled : bool;
  mode : OsSandboxMode;
  network : NetworkPolicy;
  read_paths : list PathBuf;
  write_paths : list PathBuf;
  sandbox_mode : SandboxMode;
  writable_roots : list PathBuf;
  sandbox_home : option PathBuf;
  windows_backend : WindowsSandboxBackend;
  approved_read_paths : list PathBuf;
  approved_write_paths : list PathBuf;
}.

Definition eta_LocalSandboxConfig (r : LocalSandboxConfig) : LocalSandboxConfig :=
  {| enabled := enabled r; mode := mode r; network := network r; read_paths := read_paths r;
     write_paths := write_paths r; sandbox_mode := sandbox_mode r;
     writable_roots := writable_roots r; sandbox_home := sandbox_home r;
     windows_backend := windows_backend r; approved_read_paths := approved_read_paths r;
     approved_write_paths := approved_write_paths r |}.
#[export] Instance set_enabled : Setter enabled := ltac:(derive_setter eta_LocalSandboxConfig enabled).
#[export] Instance set_mode : Setter mode := ltac:(derive_setter eta_LocalSandboxConfig mode).
#[export] Instance set_network : Setter network := ltac:(derive_setter eta_LocalSandboxConfig network).
#[export] Instance set_read_paths : Setter read_paths := ltac:(derive_setter eta_LocalSandboxConfig read_paths).
#[export] Instance set_write_paths : Setter write_paths := ltac:(derive_setter eta_LocalSandboxConfig write_paths).
#[export] Instance set_sandbox_mode : Setter sandbox_mode := ltac:(derive_setter eta_LocalSandboxConfig sandbox_mode).
#[export] Instance set_writable_roots : Setter writable_roots := ltac:(derive_setter eta_LocalSandboxConfig writable_roots).
#[export] Instance set_sandbox_home : Setter sandbox_home := ltac:(derive_setter eta_LocalSandboxConfig sandbox_home).
#[export] Instance set_windows_backend : Setter windows_backend := ltac:(derive_setter eta_LocalSandboxConfig windows_backend).
#[export] Instance set_approved_read_paths : Setter approved_read_paths := ltac:(derive_setter eta_LocalSandboxConfig approved_read_paths).
#[export] Instance set_approved_write_paths : Setter approved_write_paths := ltac:(derive_setter eta_LocalSandboxConfig approved_write_paths).

#[export] Instance local_sandbox_config_eq_dec : EqDecision LocalSandboxConfig.
Proof. solve_decision. Defined.

(** [impl Default for LocalSandboxConfig]. *)
Definition default_sandbox_config : LocalSandboxConfig :=
  {| enabled := false; mode := OsSandboxMode.Disabled; network := NetworkPolicy.Deny;
     read_paths := []; write_paths := []; sandbox_mode := SandboxMode.WorkspaceWrite;
     writable_roots := []; sandbox_home := None;
     windows_backend := WindowsSandboxBackend.Auto;
     approved_read_paths := []; approved_write_paths := [] |}.

Definition best_effort : LocalSandboxConfig :=
  default_sandbox_config <| enabled := true |> <| mode := OsSandboxMode.BestEffort |>
                         <| sandbox_mode := SandboxMode.WorkspaceWrite |>.

Definition enforce : LocalSandboxConfig :=
  default_sandbox_config <| enabled := true |> <| mode := OsSandboxMode.Enforce |>
                         <| sandbox_mode := SandboxMode.WorkspaceWrite |>.

Definition danger_full_access : LocalSandboxConfig :=
  default_sandbox_config <| enabled := false |> <| mode := OsSandboxMode.Disabled |>
                         <| network := NetworkPolicy.Allow |>
                         <| sandbox_mode := SandboxMode.DangerFullAccess |>.

Definition effective_windows_backend (self : LocalSandboxConfig) : WindowsSandboxBackend :=
  match windows_backend self, mode self with
  | WindowsSandboxBackend.Auto, OsSandboxMode.Enforce => WindowsSandboxBackend.DedicatedUser
  | WindowsSandboxBackend.Auto, OsSandboxMode.BestEffort => WindowsSandboxBackend.Auto
  | backend, _ => backend
  end.

Definition with_sandbox_mode (self : LocalSandboxConfig) (sandbox_mode' : SandboxMode)
    : LocalSandboxConfig :=
  let self := self <| sandbox_mode := sandbox_mode' |> in
  if bool_decide (sandbox_mode' = SandboxMode.DangerFullAccess)
  then self <| enabled := false |> <| mode := OsSandboxMode.Disabled |>
            <| network := NetworkPolicy.Allow |>
  else self.

Definition is_enabled (self : LocalSandboxConfig) : bool :=
  enabled self && negb (bool_decide (mode self = OsSandboxMode.Disabled)).

Definition is_enforced (self : LocalSandboxConfig) : bool :=
  enabled self && bool_decide (mode self = OsSandboxMode.Enforce).

(** * [path_policy.rs] *)

Definition parse_enforcement_mode (value : string) : option OsSandboxMode :=
  let value := replace_char (chr "_") "-" (str_map to_ascii_lower value) in
  if bool_decide (value = "disabled") then Some OsSandboxMode.Disabled
  else if bool_decide (value = "best-effort") then Some OsSandboxMode.BestEffort
  else if bool_decide (value = "enforce" \/ value = "strict") then Some OsSandboxMode.Enforce
  else None.

Definition PROTECTED_METADATA_NAMES : list string := [".git"; ".agents"; ".codex"].

(** [Component::as_os_str]. *)
Definition component_str (c : Component) : string :=
  match c with RootDir => "/" | CurDir => "." | ParentDir => ".." | Normal name => name end.

Section sandbox.
Context `{FS : FileSystem} `{OS : OsHost}.

Definition paths_equal (left right : PathBuf) : bool :=
  path_eqb (canonicalize_existing_ancestor (absolute_path left))
           (canonicalize_existing_ancestor (absolute_path right)).

Definition path_is_within_approved_scope (path approved : PathBuf) : bool :=
  let path := canonicalize_existing_ancestor (absolute_path path) in
  let approved := canonicalize_existing_ancestor (absolute_path approved) in
  let within_directory := if is_dir approved then path_starts_with path approved else false in
  paths_equal path approved || within_directory.

Definition is_protected_metadata_path (path writable_root : PathBuf) : bool :=
  match path_strip_prefix (absolute_path path) (absolute_path writable_root) with
  | Some relative =>
      match components relative with
      | component :: _ =>
          existsb (eq_ignore_ascii_case (component_str component)) PROTECTED_METADATA_NAMES
      | [] => false
      end
  | None => false
  end.

Fixpoint dedup_onto (result paths : list PathBuf) : list PathBuf :=
  match paths with
  | [] => result
  | path :: paths' =>
      let path := absolute_path path in
      dedup_onto (if existsb (fun existing => path_eqb existing path) result
                  then result else result ++ [path]) paths'
  end.
Definition dedup_paths (paths : list PathBuf) : list PathBuf := dedup_onto [] paths.

(** * [impl LocalSandboxConfig] *)

Definition grant_read_path (self : LocalSandboxConfig) (path : PathBuf) : LocalSandboxConfig :=
  if existsb (paths_equal path) (approved_read_paths self) then self
  else self <| approved_read_paths := approved_read_paths self ++ [path] |>.

Definition grant_write_path (self : LocalSandboxConfig) (path : PathBuf) : LocalSandboxConfig :=
  if existsb (paths_equal path) (approved_write_paths self) then self
  else self <| approved_write_paths := approved_write_paths self ++ [path] |>.

Definition is_within_approved_read_scope (self : LocalSandboxConfig) (path : PathBuf) : bool :=
  existsb (path_is_within_approved_scope path) (approved_read_paths self).

Definition is_within_approved_write_scope (self : LocalSandboxConfig) (path : PathBuf) : bool :=
  existsb (path_is_within_approved_scope path) (approved_write_paths self).

Definition is_approved_write_path (self : LocalSandboxConfig) (path : PathBuf) : bool :=
  existsb (paths_equal path) (approved_write_paths self).

Definition has_approved_write_within (self : LocalSandboxConfig) (root : PathBuf) : bool :=
  let root := canonicalize_existing_ancestor (absolute_path root) in
  existsb (fun approved =>
             path_starts_with (canonicalize_existing_ancestor (absolute_path approved)) root)
          (approved_write_paths self).

Definition effective_writable_roots (self : LocalSandboxConfig) (workspace_root : PathBuf)
    : list PathBuf :=
  if bool_decide (sandbox_mode self = SandboxMode.WorkspaceWrite)
  then dedup_paths (workspace_root :: write_paths self ++ writable_roots self
                    ++ omap parent (approved_write_paths self))
  else [].

Definition configured_writable_roots (self : LocalSandboxConfig) (workspace_root : PathBuf)
    : list PathBuf :=
  if bool_decide (sandbox_mode self = SandboxMode.WorkspaceWrite)
  then dedup_paths (workspace_root :: write_paths self ++ writable_roots self)
  else [].

Definition effective_sandbox_home (self : LocalSandboxConfig) (workspace_root : PathBuf)
    : option PathBuf :=
  if is_enabled self then
    match sandbox_home self with
    | Some home => Some home
    | None => Some (path_join (path_join (path_join temp_dir "OpenTopia") "sandbox-home")
                              (default_hash (absolute_path workspace_root)))
    end
  else sandbox_home self.

Definition effective_readable_roots (self : LocalSandboxConfig) (workspace_root : PathBuf)
    : list PathBuf :=
  if bool_decide (sandbox_mode self = SandboxMode.DangerFullAccess) then []
  else dedup_paths (workspace_root :: read_paths self ++ approved_read_paths self
                    ++ approved_write_paths self ++ effective_writable_roots self workspace_root).

Definition effective_command_writable_roots (self : LocalSandboxConfig) (workspace_root : PathBuf)
    : list PathBuf :=
  dedup_paths (effective_writable_roots self workspace_root
               ++ option_list (effective_sandbox_home self workspace_root)).

Definition effective_command_readable_roots (self : LocalSandboxConfig) (workspace_root : PathBuf)
    : list PathBuf :=
  dedup_paths (effective_readable_roots self workspace_root
               ++ option_list (effective_sandbox_home self workspace_root)).

Definition protected_paths (workspace_root : PathBuf) (config : LocalSandboxConfig) : list PathBuf :=
  match sandbox_mode config with
  | SandboxMode.ReadOnly => [absolute_path workspace_root]
  | SandboxMode.DangerFullAccess => []
  | SandboxMode.WorkspaceWrite =>
      dedup_paths (effective_writable_roots config workspace_root ≫= fun root =>
                   path_join root <$> PROTECTED_METADATA_NAMES)
  end.

(** [LocalSandboxConfig::from_env]. *)
Definition from_env : LocalSandboxConfig :=
  let mode_value := replace_char (chr "_") "-"
                      (str_map to_ascii_lower (default "workspace-write" (env_var "OPENTOPIA_SANDBOX_MODE"))) in
  let '(legacy_enforcement, sandbox_mode) :=
    if bool_decide (mode_value = "enforce" \/ mode_value = "strict")
    then (Some OsSandboxMode.Enforce, SandboxMode.WorkspaceWrite)
    else if bool_decide (mode_value = "best-effort")
    then (Some OsSandboxMode.BestEffort, SandboxMode.WorkspaceWrite)
    else if bool_decide (mode_value = "disabled")
    then (Some OsSandboxMode.Disabled, SandboxMode.DangerFullAccess)
    else if bool_decide (mode_value = "read-only") then (None, SandboxMode.ReadOnly)
    else if bool_decide (mode_value = "workspace-write") then (None, SandboxMode.WorkspaceWrite)
    else if bool_decide (mode_value = "danger-full-access") then (None, SandboxMode.DangerFullAccess)
    else (Some OsSandboxMode.Enforce, SandboxMode.ReadOnly) in
  let danger := bool_decide (sandbox_mode = SandboxMode.DangerFullAccess) in
  let mode :=
    match env_var "OPENTOPIA_SANDBOX_ENFORCEMENT" ≫= parse_enforcement_mode with
    | Some mode => mode
    | None => default (if danger then OsSandboxMode.Disabled else OsSandboxMode.Enforce)
                      legacy_enforcement
    end in
  let network_value := str_map to_ascii_lower (default "deny" (env_var "OPENTOPIA_SANDBOX_NETWORK")) in
  let configured_network :=
    if bool_decide (network_value = "allow") then NetworkPolicy.Allow
    else if bool_decide (network_value = "inherit") then NetworkPolicy.Inherit
    else NetworkPolicy.Deny in
  let backend :=
    match env_var "OPENTOPIA_WINDOWS_SANDBOX" with
    | Some value =>
        let value := str_map to_ascii_lower value in
        if bool_decide (value = "auto") then WindowsSandboxBackend.Auto
        else if bool_decide (value ∈ ["dedicated_user"; "dedicated-user"; "elevated"])
        then WindowsSandboxBackend.DedicatedUser
        else if bool_decide (value ∈ ["unelevated"; "legacy"]) then WindowsSandboxBackend.Unelevated
        else WindowsSandboxBackend.DedicatedUser
    | None => WindowsSandboxBackend.Auto
    end in
  {| enabled := negb (bool_decide (mode = OsSandboxMode.Disabled)) && negb danger;
     mode := mode;
     network := if danger then NetworkPolicy.Allow else configured_network;
     read_paths := env_path_list "OPENTOPIA_SANDBOX_READ_PATHS";
     write_paths := env_path_list "OPENTOPIA_SANDBOX_WRITE_PATHS";
     sandbox_mode := sandbox_mode;
     writable_roots := env_path_list "OPENTOPIA_SANDBOX_WRITABLE_ROOTS";
     sandbox_home := env_var "OPENTOPIA_SANDBOX_HOME";
     windows_backend := backend;
     approved_read_paths := []; approved_write_paths := [] |}.

End sandbox.
