(* ===== verification/LocalEnvironment.v ===== *)
(** [execution/local_environment.rs] and [execution.rs]: how the local execution
    environment resolves the paths of file operations and of execution requirements
    against its sandbox configuration. *)
From S2P Require Import Prelude RustStr RustStrFacts RustText Enterprise RustPath Sandbox.

(** What the sandbox code asks about the machine it runs on. *)
Class SandboxHost := {
  (** [OsSandboxPlatform::current()] *)
  current_platform : OsSandboxPlatform;
  (** [std::env::current_exe().ok()] *)
  current_exe : option PathBuf;
  (** [verify_opentopia_sandbox_binary]: the handshake with the helper process *)
  verify_sandbox_binary : PathBuf -> Result string unit;
  (** [filesystem_metadata_generation] and [filesystem_object_identity]: text made of the
      metadata of a file *)
  metadata_generation : PathBuf -> string;
  object_identity : PathBuf -> string;
}.

Record LocalExecutionEnvironment := {
  env_workspace_root : PathBuf;
  env_sandbox_config : LocalSandboxConfig;
}.

(** [execution_spec.rs]. *)
Record ExecutionRequirements := {
  required_read_paths : list PathBuf;
  required_write_paths : list PathBuf;
  deny_read_paths : list PathBuf;
  deny_write_paths : list PathBuf;
  required_network : option NetworkPolicy;
}.

(** [ExecutionFailure::without_os_error(ExecutionStage::ValidatePolicy, message)]. *)
Definition policy_failure {A} (message : string) : Result anyhow A :=
  Err (Msg ("execution failed during ValidatePolicy: " +:+ message)).

Section local.
Context `{FS : FileSystem} `{OS : OsHost} `{SH : SandboxHost}.

(** [execution.rs]: the provided [ExecutionEnvironment::resolve_read_path], which the
    local environment overrides. *)
Definition default_resolve_read_path (self : LocalExecutionEnvironment) (path : PathBuf)
    : Result anyhow PathBuf :=
  if has_parent_dir path then Err (Msg ("workspace path cannot contain '..': " +:+ path)) else
  let? workspace_root := opt_context (canonicalize (env_workspace_root self))
      ("workspace root does not exist: " +:+ env_workspace_root self) in
  let candidate := if is_absolute path then path else path_join workspace_root path in
  let? resolved := opt_context (canonicalize candidate) ("path does not exist: " +:+ candidate) in
  if path_starts_with resolved workspace_root then Ok resolved
  else Err (Msg ("path is outside the workspace and no readable root authorized it: " +:+ path)).

Definition persistent_stdio_sandbox_config (self : LocalExecutionEnvironment)
    : Result anyhow LocalSandboxConfig :=
  let config := env_sandbox_config self in
  if bool_decide (current_platform = OsSandboxPlatform.Windows) && is_enabled config
     && bool_decide (effective_windows_backend config = WindowsSandboxBackend.DedicatedUser)
  then
    let? _ := ensure (negb (bool_decide (network config = NetworkPolicy.Deny)))
      "persistent stdio cannot use the Windows dedicated-user backend, and the streaming restricted-token backend cannot authoritatively enforce offline networking" in
    Ok (config <| windows_backend := WindowsSandboxBackend.Unelevated |>)
  else Ok config.

Definition workspace_root_canonical (self : LocalExecutionEnvironment) : Result anyhow PathBuf :=
  opt_context (canonicalize (env_workspace_root self))
    ("workspace root does not exist: " +:+ env_workspace_root self).

Definition candidate_path (self : LocalExecutionEnvironment) (path : PathBuf)
    : Result anyhow PathBuf :=
  if has_parent_dir path then Err (Msg ("workspace path cannot contain '..': " +:+ path)) else
  let? root := workspace_root_canonical self in
  Ok (if is_absolute path then path else path_join root path).

Definition resolve_existing_path (self : LocalExecutionEnvironment) (path : PathBuf)
    : Result anyhow PathBuf :=
  let? candidate := candidate_path self path in
  opt_context (canonicalize candidate) ("path does not exist: " +:+ candidate).

(** The loop [while !ancestor.exists()]; [fuel] bounds the number of ancestors. *)
Fixpoint existing_ancestor (fuel : nat) (candidate ancestor : PathBuf) : Result anyhow PathBuf :=
  if path_exists ancestor then Ok ancestor else
  match fuel with
  | O => Err (Panic "out of fuel")
  | S fuel' =>
      let? above := opt_context (parent ancestor)
                      ("write path has no existing ancestor: " +:+ candidate) in
      existing_ancestor fuel' candidate above
  end.

Definition canonical_roots (roots : list PathBuf) : list PathBuf := omap canonicalize roots.

Definition resolve_write_path (self : LocalExecutionEnvironment) (path : PathBuf)
    : Result anyhow PathBuf :=
  if bool_decide (sandbox_mode (env_sandbox_config self) = SandboxMode.ReadOnly)
  then Err (Msg "sandbox mode read-only does not permit file writes") else
  let? candidate := candidate_path self path in
  let? ancestor := existing_ancestor (String.length candidate) candidate candidate in
  let suffix := default "" (path_strip_prefix candidate ancestor) in
  let? resolved_ancestor := opt_context (canonicalize ancestor) (canonicalize_error ancestor) in
  let resolved_candidate := path_join resolved_ancestor suffix in
  if bool_decide (sandbox_mode (env_sandbox_config self) = SandboxMode.DangerFullAccess)
  then Ok candidate else
  let approved := is_within_approved_write_scope (env_sandbox_config self) resolved_candidate in
  let writable_roots := canonical_roots
      (configured_writable_roots (env_sandbox_config self) (env_workspace_root self)) in
  let configured_root := List.find (path_starts_with resolved_ancestor) writable_roots in
  if bool_decide (configured_root = None) && negb approved
  then Err (Msg ("write path escapes workspace: " +:+ path)) else
  let root := default resolved_ancestor configured_root in
  if is_protected_metadata_path resolved_candidate root && negb approved
  then Err (ApprovalRequired ("Write to protected workspace metadata: " +:+ path))
  else Ok candidate.

Definition validate_execution_requirements (self : LocalExecutionEnvironment)
    (requirements : ExecutionRequirements) : Result anyhow unit :=
  let config := env_sandbox_config self in
  let capabilities := for_platform current_platform (effective_windows_backend config) in
  if negb (bool_decide (deny_read_paths requirements = [])) && negb (deny_read capabilities)
  then policy_failure "deny-read requirements need a sandbox backend with authoritative read isolation"
  else if negb (bool_decide (deny_write_paths requirements = [])) && negb (deny_write capabilities)
  then policy_failure "deny-write requirements are unsupported by the selected sandbox backend"
  else if bool_decide (required_network requirements = Some NetworkPolicy.Allow)
          && bool_decide (network config = NetworkPolicy.Deny)
  then policy_failure "the command requires network access but the sandbox is offline"
  else if bool_decide (required_network requirements = Some NetworkPolicy.Deny)
          && negb (network_offline capabilities)
  then policy_failure "offline execution requires a sandbox backend with authoritative network isolation"
  else
    let? _ := r_for (required_read_paths requirements)
                (fun path => let? _ := resolve_existing_path self path in Ok tt) in
    let? _ := r_for (deny_read_paths requirements)
                (fun path => let? _ := resolve_existing_path self path in Ok tt) in
    r_for (required_write_paths requirements)
      (fun path => let? _ := resolve_write_path self path in Ok tt).

End local.
