(* ===== verification/SandboxCommand.v ===== *)
(** [sandbox/command.rs], [sandbox/descriptor.rs] and the helper lookup of
    [sandbox/windows_backend.rs]: the command a sandbox configuration turns a program
    into, on each platform, and the description of the sandbox shown to clients. *)
From S2P Require Import Prelude RustStr RustStrFacts RustText Enterprise RustPath Sandbox LocalEnvironment.

Inductive SandboxCommandStatus :=
| StatusDisabled
| StatusUnrestricted
| StatusWrapped (platform : OsSandboxPlatform) (backend : string)
| StatusBestEffortPassthrough (platform : OsSandboxPlatform) (reason : string).

Record SandboxPreparationPlan := {
  preparation_key : string;
  preparation_program : string;
  preparation_args : list string;
  preparation_env : list (string * string);
}.

Record SandboxCommandPlan := {
  plan_program : string;
  plan_args : list string;
  plan_env : list (string * string);
  plan_baseline_preparation : option SandboxPreparationPlan;
  plan_preparation : option SandboxPreparationPlan;
  plan_status : SandboxCommandStatus;
}.

Record SandboxLaunchOptions := {
  interactive : bool;
  persistent_stdio : bool;
  runtime_read_roots : list PathBuf;
  managed_runtime_roots : list PathBuf;
  environment_keys : list string;
  additional_denied_read_paths : list PathBuf;
  additional_protected_paths : list PathBuf;
  timeout_ms : option Z;
  termination_timeout_ms : option Z;
  max_memory_bytes : option Z;
  max_cpu_time_ms : option Z;
  max_output_bytes : option Z;
}.

Definition default_launch_options : SandboxLaunchOptions :=
  {| interactive := false; persistent_stdio := false; runtime_read_roots := [];
     managed_runtime_roots := []; environment_keys := []; additional_denied_read_paths := [];
     additional_protected_paths := []; timeout_ms := None; termination_timeout_ms := None;
     max_memory_bytes := None; max_cpu_time_ms := None; max_output_bytes := None |}.

(** A plan that runs the program as it is. *)
Definition passthrough (program : string) (args : list string) (status : SandboxCommandStatus)
    : SandboxCommandPlan :=
  {| plan_program := program; plan_args := args; plan_env := [];
     plan_baseline_preparation := None; plan_preparation := None; plan_status := status |}.

(** [SandboxCommandPlan::disabled] and [SandboxCommandPlan::unrestricted]. *)
Definition plan_disabled (program : string) (args : list string) : SandboxCommandPlan :=
  passthrough program args StatusDisabled.
Definition plan_unrestricted (program : string) (args : list string) : SandboxCommandPlan :=
  passthrough program args StatusUnrestricted.

Definition dq : string := String (Ascii.ascii_of_nat 34) "".
Definition nul : string := String Ascii.zero "".

Definition seatbelt_escape (path : PathBuf) : string :=
  replace_char (Ascii.ascii_of_nat 34) ("\" +:+ dq) (replace_char (chr "\") "\\" path).

Definition windows_comparison_path (path : PathBuf) : string :=
  strip_verbatim (replace_char (chr "/") "\" path).

Definition windows_permission_profile (config : LocalSandboxConfig) : string :=
  match sandbox_mode config, network config with
  | SandboxMode.ReadOnly, NetworkPolicy.Deny => "opentopia-windows-read-only-offline"
  | SandboxMode.WorkspaceWrite, NetworkPolicy.Deny => "opentopia-windows-workspace-write-offline"
  | SandboxMode.ReadOnly, _ => "opentopia-windows-read-only-internet"
  | SandboxMode.WorkspaceWrite, _ => "opentopia-windows-workspace-write-internet"
  | SandboxMode.DangerFullAccess, _ => "danger-full-access"
  end.

Definition sandbox_permission_profile (platform : OsSandboxPlatform) (config : LocalSandboxConfig)
    : string :=
  match platform with
  | OsSandboxPlatform.Windows => windows_permission_profile config
  | _ => sandbox_mode_as_str (sandbox_mode config)
  end.

Definition sandbox_probe_command (platform : OsSandboxPlatform) : string * list string :=
  match platform with
  | OsSandboxPlatform.Windows => ("cmd.exe", ["/d"; "/c"; "exit 0"])
  | _ => ("/usr/bin/true", [])
  end.

Definition windows_sandbox_environment_keys : list string :=
  ["SystemRoot"; "WINDIR"; "COMSPEC"; "PATH"; "PATHEXT"; "NUMBER_OF_PROCESSORS";
   "PROCESSOR_ARCHITECTURE"; "USERPROFILE"; "HOME"; "XDG_CONFIG_HOME"; "XDG_CACHE_HOME";
   "XDG_DATA_HOME"; "XDG_STATE_HOME"; "APPDATA"; "LOCALAPPDATA"; "NPM_CONFIG_USERCONFIG";
   "NPM_CONFIG_GLOBALCONFIG"; "NPM_CONFIG_CACHE"; "PNPM_HOME"; "TEMP"; "TMP"; "HOMEDRIVE";
   "HOMEPATH"; "NO_COLOR"; "TERM"; "PAGER"; "GIT_PAGER"; "GH_PAGER"; "CI"; "OPENTOPIA_SANDBOX"].

(** [unavailable_backend] and [build_unsupported_sandbox_command]. *)
Definition unavailable_backend (platform : OsSandboxPlatform) (reason program : string)
    (args : list string) (config : LocalSandboxConfig) : Result anyhow SandboxCommandPlan :=
  if is_enforced config then Err (Msg reason)
  else Ok (passthrough program args (StatusBestEffortPassthrough platform reason)).

Definition build_unsupported_sandbox_command (platform : OsSandboxPlatform) (program : string)
    (args : list string) (config : LocalSandboxConfig) : Result anyhow SandboxCommandPlan :=
  let reason := "OS-level local sandboxing is unsupported on platform '"
                +:+ platform_as_str platform +:+ "'." in
  match mode config with
  | OsSandboxMode.Disabled => Ok (plan_disabled program args)
  | OsSandboxMode.BestEffort =>
      Ok (passthrough program args (StatusBestEffortPassthrough platform reason))
  | OsSandboxMode.Enforce => Err (Msg reason)
  end.

(** [args.windows(2)]. *)
Definition windows2 (args : list string) : list (string * string) := zip args (tail args).

(** The flag of an optional number. *)
Definition number_flag (flag : string) (value : option Z) : list string :=
  match value with Some n => [flag; pretty n] | None => [] end.

Definition flag_each (flag : string) (paths : list PathBuf) : list string :=
  paths ≫= fun path => [flag; path].

Definition to_ascii_upper (a : Ascii.ascii) : Ascii.ascii :=
  if is_ascii_lower a then Ascii.ascii_of_N (byte_of a - 32) else a.

Section command.
Context `{FS : FileSystem} `{OS : OsHost} `{SH : SandboxHost} `{HO : Host}.

Definition first_existing_executable (candidates : list PathBuf) : option PathBuf :=
  List.find is_file candidates.

Definition windows_path_starts_with (path root : PathBuf) : bool :=
  let path := canonicalize_existing_ancestor (absolute_path path) in
  let root := canonicalize_existing_ancestor (absolute_path root) in
  let path := str_map to_ascii_lower (windows_comparison_path path) in
  let root := str_map to_ascii_lower
      (String.rev (trim_start_while (fun a => Ascii.eqb a (chr "\"))
                     (String.rev (windows_comparison_path root)))) in
  bool_decide (path = root)
  || match strip_prefix root path with Some suffix => starts_with "\" suffix | None => false end.

(** The options of [bwrap] before ["--"]. *)
Definition bubblewrap_options (cwd workspace_root : PathBuf) (config : LocalSandboxConfig)
    : list string :=
  let workspace_root := absolute_path workspace_root in
  let cwd := absolute_path cwd in
  ["--die-with-parent"; "--unshare-pid"; "--unshare-ipc"; "--unshare-uts"; "--ro-bind"; "/"; "/";
   "--proc"; "/proc"; "--dev"; "/dev"; "--tmpfs"; "/tmp"]
  ++ (if bool_decide (network config = NetworkPolicy.Deny) then ["--unshare-net"] else [])
  ++ (effective_writable_roots config workspace_root ≫= fun path =>
        ["--bind"; absolute_path path; absolute_path path])
  ++ (List.filter path_exists (protected_paths workspace_root config) ≫= fun path =>
        ["--ro-bind"; absolute_path path; absolute_path path])
  ++ ["--chdir"; cwd].

Definition build_bubblewrap_command (program : string) (original_args : list string)
    (cwd workspace_root : PathBuf) (config : LocalSandboxConfig)
    : Result anyhow SandboxCommandPlan :=
  let backend :=
    if bool_decide (current_platform = OsSandboxPlatform.Linux)
    then first_existing_executable ["/usr/bin/bwrap"; "/bin/bwrap"]
    else Some "/usr/bin/bwrap" in
  match backend with
  | None => unavailable_backend OsSandboxPlatform.Linux
              "bubblewrap was not found at /usr/bin/bwrap or /bin/bwrap" program original_args config
  | Some backend =>
      Ok (passthrough backend
            (bubblewrap_options cwd workspace_root config ++ ["--"; program] ++ original_args)
            (StatusWrapped OsSandboxPlatform.Linux "bubblewrap"))
  end.

Definition seatbelt_profile (workspace_root : PathBuf) (config : LocalSandboxConfig) : string :=
  let workspace_root := absolute_path workspace_root in
  str_join (String (Ascii.ascii_of_nat 10) "")
    (["(version 1)"; "(deny default)"; "(allow process*)"; "(allow signal (target self))";
      "(allow sysctl-read)"; "(allow file-read-metadata)"; "(allow file-read*)"]
     ++ (if bool_decide (sandbox_mode config = SandboxMode.WorkspaceWrite)
         then ["(allow file-write*"]
              ++ ((fun path => "  (subpath " +:+ dq +:+ seatbelt_escape (absolute_path path) +:+ dq +:+ ")")
                    <$> effective_writable_roots config workspace_root)
              ++ ["  (subpath " +:+ dq +:+ "/tmp" +:+ dq +:+ ")";
                  "  (subpath " +:+ dq +:+ "/private/tmp" +:+ dq +:+ ")"; ")"]
              ++ ((fun path => "(deny file-write* (subpath " +:+ dq
                               +:+ seatbelt_escape (absolute_path path) +:+ dq +:+ "))")
                    <$> protected_paths workspace_root config)
         else [])
     ++ (if bool_decide (network config = NetworkPolicy.Deny) then [] else ["(allow network*)"])).

Definition build_sandbox_exec_command (program : string) (original_args : list string)
    (workspace_root : PathBuf) (config : LocalSandboxConfig) : Result anyhow SandboxCommandPlan :=
  let backend := "/usr/bin/sandbox-exec" in
  if bool_decide (current_platform = OsSandboxPlatform.Macos) && negb (is_file backend)
  then unavailable_backend OsSandboxPlatform.Macos "/usr/bin/sandbox-exec is unavailable"
         program original_args config
  else Ok (passthrough backend
             (["-p"; seatbelt_profile workspace_root config; program] ++ original_args)
             (StatusWrapped OsSandboxPlatform.Macos "seatbelt")).

(** * Windows *)

Definition opentopia_sandbox_state_dir : option PathBuf :=
  match env_var "OPENTOPIA_SANDBOX_STATE_DIR" with
  | Some dir => Some dir
  | None => (fun root => path_join (path_join root "OpenTopia") "sandbox")
              <$> env_var "LOCALAPPDATA"
  end.

Definition windows_minimal_runtime_roots : list PathBuf :=
  List.filter path_exists
    (omap env_var ["SystemRoot"; "ProgramFiles"; "ProgramFiles(x86)"; "ProgramData"]).

Definition windows_sandbox_state_generation : string :=
  match opentopia_sandbox_state_dir with
  | None => "unavailable"
  | Some state_dir =>
      state_dir +:+ nul +:+ "config=" +:+ metadata_generation (path_join state_dir "config.toml")
      +:+ nul +:+ "credentials=" +:+ metadata_generation (path_join state_dir "credentials.dpapi")
  end.

Definition argument_value (args : list string) (flag : string) : string :=
  match List.find (fun p => String.eqb p.1 flag) (windows2 args) with
  | Some p => p.2
  | None => "unspecified"
  end.

Definition windows_baseline_preparation_key (args : list string) (helper : PathBuf) : string :=
  "windows-account-baseline-v1" +:+ nul +:+ "backend=" +:+ argument_value args "--backend"
  +:+ nul +:+ "network=" +:+ argument_value args "--network"
  +:+ nul +:+ "state=" +:+ windows_sandbox_state_generation
  +:+ nul +:+ "helper=" +:+ metadata_generation helper.

Definition PATH_FLAGS : list string :=
  ["--cwd"; "--read-root"; "--managed-runtime-root"; "--runtime-root"; "--write-root";
   "--runtime-home"; "--protect"; "--allow-protected-root"; "--deny-read"].

Definition windows_preparation_key (args : list string) (helper : PathBuf) : string :=
  str_join nul args
  +:+ str_join "" ((fun p => nul +:+ p.1 +:+ "=" +:+ object_identity p.2)
                     <$> List.filter (fun p => bool_decide (p.1 ∈ PATH_FLAGS)) (windows2 args))
  +:+ nul +:+ "state=" +:+ windows_sandbox_state_generation
  +:+ nul +:+ "helper=" +:+ metadata_generation helper.

(** The roots the managed read capability covers. *)
Definition managed_read_roots (workspace_root : PathBuf) (config : LocalSandboxConfig)
    (options : SandboxLaunchOptions) : list PathBuf :=
  let immutable := absolute_path <$> windows_minimal_runtime_roots in
  let configured := effective_command_readable_roots config workspace_root in
  absolute_path <$>
    List.filter path_exists
      (dedup_paths
         (configured ++
          List.filter (fun runtime => negb (existsb (windows_path_starts_with runtime) immutable)
                                      && negb (existsb (windows_path_starts_with runtime) configured))
                      (runtime_read_roots options))).

(** The arguments of the helper after ["run"], up to the network flag. *)
Definition windows_sandbox_args (cwd workspace_root : PathBuf) (backend : WindowsSandboxBackend)
    (config : LocalSandboxConfig) (options : SandboxLaunchOptions) : list string :=
  let managed := managed_read_roots workspace_root config options in
  let protected := protected_paths workspace_root config in
  ["--cwd"; absolute_path cwd; "--backend";
   match backend with
   | WindowsSandboxBackend.Auto => "auto"
   | WindowsSandboxBackend.DedicatedUser => "dedicated-user"
   | WindowsSandboxBackend.Unelevated => "unelevated"
   end]
  ++ (if interactive options then ["--interactive"] else [])
  ++ (if persistent_stdio options then ["--persistent-stdio"] else [])
  ++ number_flag "--timeout-ms" (timeout_ms options)
  ++ number_flag "--termination-timeout-ms" (termination_timeout_ms options)
  ++ number_flag "--max-memory-bytes" (max_memory_bytes options)
  ++ number_flag "--max-cpu-time-ms" (max_cpu_time_ms options)
  ++ number_flag "--max-output-bytes" (max_output_bytes options)
  ++ flag_each "--read-root" managed
  ++ flag_each "--managed-runtime-root"
       (absolute_path <$> List.filter is_dir (dedup_paths (managed_runtime_roots options)))
  ++ flag_each "--runtime-root"
       (List.filter (fun runtime => negb (existsb (windows_path_starts_with runtime) managed))
          (List.filter path_exists (absolute_path <$> windows_minimal_runtime_roots)))
  ++ flag_each "--write-root"
       (absolute_path <$> List.filter path_exists (effective_command_writable_roots config workspace_root))
  ++ flag_each "--runtime-home"
       (absolute_path <$> List.filter path_exists (option_list (effective_sandbox_home config workspace_root)))
  ++ flag_each "--allow-protected-root"
       (absolute_path <$> List.filter path_exists
          (List.filter (has_approved_write_within config) protected))
  ++ flag_each "--protect"
       (absolute_path <$> List.filter path_exists
          (List.filter (fun path => negb (has_approved_write_within config path)) protected
           ++ additional_protected_paths options))
  ++ flag_each "--deny-read"
       (absolute_path <$> List.filter path_exists (additional_denied_read_paths options))
  ++ ["--network";
      match network config with NetworkPolicy.Deny => "deny" | _ => "internet" end].

Definition build_windows_sandbox_command_with_binary (sandbox : PathBuf) (program : string)
    (args : list string) (cwd workspace_root : PathBuf) (config : LocalSandboxConfig)
    (options : SandboxLaunchOptions) (w : World) : Result anyhow SandboxCommandPlan * World :=
  let workspace_root := absolute_path workspace_root in
  let '(nonce, w) := new_v4 w in
  let error_nonce := replace_char (chr "-") "" (host_uuid_string nonce) in
  let configured_backend := effective_windows_backend config in
  let downgrade := persistent_stdio options
      && bool_decide (configured_backend = WindowsSandboxBackend.DedicatedUser) in
  let plan :=
    let? _ := ensure (negb downgrade || negb (bool_decide (network config = NetworkPolicy.Deny)))
      "Windows persistent stdio requires the streaming restricted-token backend, which cannot authoritatively enforce offline networking" in
    let backend := if downgrade then WindowsSandboxBackend.Unelevated else configured_backend in
    let? _ := ensure (negb (bool_decide (mode config = OsSandboxMode.Enforce)
                            && negb (bool_decide (backend = WindowsSandboxBackend.DedicatedUser))
                            && negb (persistent_stdio options)))
      "Windows enforce mode requires the dedicated-user sandbox backend because the restricted-token backend cannot preserve arbitrary child-process IPC; choose auto/dedicated_user and complete `opentopia-sandbox setup`, or explicitly use best-effort mode" in
    let sandbox_args := windows_sandbox_args cwd workspace_root backend config options in
    let baseline_args := "provision-baseline" :: sandbox_args in
    let scope_args := "provision-scope" :: sandbox_args in
    let keys := dedup_by eq_ignore_ascii_case
        (sort_by_key (str_map to_ascii_upper)
           (windows_sandbox_environment_keys ++ environment_keys options
            ++ ["OPENTOPIA_SANDBOX_STATE_DIR"])) in
    let env := option_list ((fun path => ("OPENTOPIA_SANDBOX_STATE_DIR", path))
                              <$> opentopia_sandbox_state_dir)
               ++ [("OPENTOPIA_SANDBOX_ENV_KEYS", str_join ";" keys);
                   ("OPENTOPIA_SANDBOX_ERROR_NONCE", error_nonce)] in
    let preparation args key :=
      Some {| preparation_key := key; preparation_program := sandbox;
              preparation_args := args; preparation_env := env |} in
    Ok {| plan_program := sandbox;
          plan_args := "run" :: sandbox_args ++ ["--"; program] ++ args;
          plan_env := env;
          plan_baseline_preparation :=
            preparation baseline_args (windows_baseline_preparation_key baseline_args sandbox);
          plan_preparation := preparation scope_args (windows_preparation_key scope_args sandbox);
          plan_status := StatusWrapped OsSandboxPlatform.Windows
            match backend with
            | WindowsSandboxBackend.Auto => "opentopia-windows-auto"
            | WindowsSandboxBackend.DedicatedUser => "opentopia-windows-dedicated-user"
            | WindowsSandboxBackend.Unelevated => "opentopia-windows-restricted-token"
            end |} in
  (plan, w).

(** The first candidate that passes the handshake, else the handshakes' errors. *)
Fixpoint first_verified (candidates : list PathBuf) (incompatibilities : list string)
    : Result anyhow (option PathBuf) :=
  match candidates with
  | [] => match incompatibilities with
          | [] => Ok None
          | _ => Err (Msg (str_join "; " incompatibilities))
          end
  | candidate :: rest =>
      match verify_sandbox_binary candidate with
      | Ok _ => Ok (Some candidate)
      | Err error => first_verified rest (incompatibilities ++ [error])
      end
  end.

Definition resolve_opentopia_sandbox_binary : Result anyhow (option PathBuf) :=
  match env_var "OPENTOPIA_WINDOWS_SANDBOX_BIN" with
  | Some configured =>
      let? _ := ensure (is_file configured)
        ("configured OpenTopia Windows sandbox helper was not found at '" +:+ configured +:+ "'") in
      let? _ := map_err Msg (verify_sandbox_binary configured) in
      Ok (Some configured)
  | None =>
      let above := current_exe ≫= parent in
      let sibling := (fun dir => path_join dir "opentopia-sandbox.exe") <$> above in
      let cargo_debug_sibling :=
        (fun dir => path_join dir "opentopia-sandbox.exe") <$> (above ≫= parent) in
      first_verified (List.filter is_file (option_list sibling ++ option_list cargo_debug_sibling)) []
  end.

Definition build_windows_sandbox_command (program : string) (args : list string)
    (cwd workspace_root : PathBuf) (config : LocalSandboxConfig) (options : SandboxLaunchOptions)
    (w : World) : Result anyhow SandboxCommandPlan * World :=
  match resolve_opentopia_sandbox_binary with
  | Ok (Some sandbox) =>
      build_windows_sandbox_command_with_binary sandbox program args cwd workspace_root config options w
  | Ok None =>
      let reason := default "OpenTopia Windows sandbox backend was not found"
                      (env_var "OPENTOPIA_SANDBOX_BACKEND_ERROR") in
      (unavailable_backend OsSandboxPlatform.Windows reason program args config, w)
  | Err error =>
      (unavailable_backend OsSandboxPlatform.Windows (error_string error) program args config, w)
  end.

Definition build_local_sandbox_command_for_platform_with_options (platform : OsSandboxPlatform)
    (program : string) (args : list string) (cwd workspace_root : PathBuf)
    (config : LocalSandboxConfig) (options : SandboxLaunchOptions) (w : World)
    : Result anyhow SandboxCommandPlan * World :=
  if bool_decide (sandbox_mode config = SandboxMode.DangerFullAccess)
  then (Ok (plan_unrestricted program args), w)
  else if negb (is_enabled config) then (Ok (plan_disabled program args), w)
  else match platform with
       | OsSandboxPlatform.Linux =>
           (build_bubblewrap_command program args cwd workspace_root config, w)
       | OsSandboxPlatform.Macos =>
           (build_sandbox_exec_command program args workspace_root config, w)
       | OsSandboxPlatform.Windows =>
           build_windows_sandbox_command program args cwd workspace_root config options w
       | OsSandboxPlatform.Unsupported =>
           (build_unsupported_sandbox_command platform program args config, w)
       end.

End command.

(** * [sandbox/descriptor.rs] *)

Inductive ExecutionEnvironmentKind := KindLocal | KindDocker | KindRemote.
Inductive SandboxLifecycle := LifecycleReady | LifecycleStarting | LifecycleStopped | LifecycleError.

Record SandboxDescriptor := {
  descriptor_id : string;
  descriptor_thread_id : Uuid;
  descriptor_kind : ExecutionEnvironmentKind;
  descriptor_lifecycle : SandboxLifecycle;
  descriptor_workspace_root : PathBuf;
  descriptor_capabilities : list string;
  descriptor_message : string;
  descriptor_platform : OsSandboxPlatform;
  descriptor_mode : OsSandboxMode;
  descriptor_network : NetworkPolicy;
  descriptor_sandbox_mode : SandboxMode;
  descriptor_readable_roots : list PathBuf;
  descriptor_writable_roots : list PathBuf;
  descriptor_protected_paths : list PathBuf;
  descriptor_backend : option string;
  permission_profile : string;
  descriptor_enforced : bool;
  descriptor_available : bool;
}.

Definition sandbox_capabilities (mode : SandboxMode) : list string :=
  ["filesystem"; "shell"; "spawn_stdio"; "os_sandbox_preflight"]
  ++ (if bool_decide (mode = SandboxMode.ReadOnly) then [] else ["apply_patch"]).

(** What [SandboxDescriptor::local] reports of the probe's plan: the lifecycle, whether
    the sandbox is available and enforced, its backend, and a message. *)
Definition probe_report `{HO : Host} (plan : Result anyhow SandboxCommandPlan)
    : SandboxLifecycle * bool * bool * option string * string :=
  match plan with
  | Ok plan =>
      match plan_status plan with
      | StatusWrapped _ backend =>
          (LifecycleReady, true, true, Some backend,
           "OS sandbox command wrapping is configured using " +:+ backend
           +:+ "; restricted calls fail closed at execution time.")
      | StatusBestEffortPassthrough _ reason => (LifecycleReady, false, false, None, reason)
      | StatusUnrestricted =>
          (LifecycleReady, true, false, None,
           "Sandbox restrictions are disabled; commands have full filesystem and network access.")
      | StatusDisabled =>
          (LifecycleStopped, false, false, None, "OS sandbox is disabled by configuration.")
      end
  | Err err => (LifecycleError, false, false, None, error_string err)
  end.

(** [SandboxDescriptor::local]. *)
Definition descriptor_local `{FileSystem} `{OsHost} `{SandboxHost} `{Host} (thread_id : Uuid)
    (workspace_root : PathBuf) (config : LocalSandboxConfig) (w : World) : SandboxDescriptor * World :=
  let platform := current_platform in
  let probe := sandbox_probe_command platform in
  let '(plan, w) := build_local_sandbox_command_for_platform_with_options platform probe.1 probe.2
                      workspace_root workspace_root config default_launch_options w in
  let '(lifecycle, available, enforced, backend, message) := probe_report plan in
  ({| descriptor_id := "local-" +:+ host_uuid_string thread_id;
      descriptor_thread_id := thread_id;
      descriptor_kind := KindLocal;
      descriptor_lifecycle := lifecycle;
      descriptor_workspace_root := workspace_root;
      descriptor_capabilities := sandbox_capabilities (sandbox_mode config);
      descriptor_message := message;
      descriptor_platform := platform;
      descriptor_mode := mode config;
      descriptor_network := network config;
      descriptor_sandbox_mode := sandbox_mode config;
      descriptor_readable_roots := effective_readable_roots config workspace_root;
      descriptor_writable_roots := effective_writable_roots config workspace_root;
      descriptor_protected_paths := protected_paths workspace_root config;
      descriptor_backend := backend;
      permission_profile := sandbox_permission_profile platform config;
      descriptor_enforced := enforced;
      descriptor_available := available |}, w).
