(* ===== verification/Policy.v ===== *)
(** [policy.rs], [execution_authorization.rs] and [execution_authority.rs]: permission
    modes, the decisions of the policy engine on reads, writes, commands, MCP tools and
    network access, the authority one tool call asks for and the sandbox it is granted. *)
From S2P Require Import Prelude RustStr RustStrFacts RustText Json Enterprise ShellLex ShellAnalysis RustPath Sandbox LocalEnvironment.

(** * [policy.rs]: data *)

Module PermissionMode.
Inductive PermissionMode := Chat | ReadOnly | Auto | Approve | FullAccess | Unrestricted.
#[export] Instance permission_mode_eq_dec : EqDecision PermissionMode.
Proof. solve_decision. Defined.
End PermissionMode.
Notation PermissionMode := PermissionMode.PermissionMode.
Export (hints) PermissionMode.

Inductive ApprovalPolicy := OnRequest | Never.
Inductive ApprovalsReviewer := User | AutoReview.

Definition approval_policy (self : PermissionMode) : ApprovalPolicy :=
  match self with
  | PermissionMode.Auto | PermissionMode.Approve | PermissionMode.FullAccess => OnRequest
  | PermissionMode.Chat | PermissionMode.ReadOnly | PermissionMode.Unrestricted => Never
  end.

Definition approvals_reviewer (self : PermissionMode) : ApprovalsReviewer :=
  match self with PermissionMode.Auto => AutoReview | _ => User end.

(** [PermissionMode::from_str]. *)
Definition permission_mode_from_str (value : string) : Result anyhow PermissionMode :=
  let other := str_map to_ascii_lower value in
  if bool_decide (other = "chat") then Ok PermissionMode.Chat
  else if bool_decide (other ∈ ["readonly"; "read_only"; "read-only"]) then Ok PermissionMode.ReadOnly
  else if bool_decide (other = "auto") then Ok PermissionMode.Auto
  else if bool_decide (other = "approve") then Ok PermissionMode.Approve
  else if bool_decide (other ∈ ["fullaccess"; "full_access"; "full-access"])
  then Ok PermissionMode.FullAccess
  else if bool_decide (other ∈ ["unrestricted"; "no_approvals"; "no-approvals"])
  then Ok PermissionMode.Unrestricted
  else Err (Msg ("unknown permission mode: " +:+ other)).

Module PolicyDecision.
Inductive PolicyDecision := Allow | Deny (reason : string) | Ask (reason : string).
#[export] Instance policy_decision_eq_dec : EqDecision PolicyDecision.
Proof. solve_decision. Defined.
End PolicyDecision.
Notation PolicyDecision := PolicyDecision.PolicyDecision.
Export (hints) PolicyDecision.

Module PolicyRuleEffect.
Inductive PolicyRuleEffect := Allow | Ask | Deny.
#[export] Instance policy_rule_effect_eq_dec : EqDecision PolicyRuleEffect.
Proof. solve_decision. Defined.
End PolicyRuleEffect.
Notation PolicyRuleEffect := PolicyRuleEffect.PolicyRuleEffect.
Export (hints) PolicyRuleEffect.

(** [PermissionMode::resolve_policy_decision]. *)
Definition resolve_policy_decision (self : PermissionMode) (decision : PolicyDecision)
    : PolicyDecision :=
  match self, decision with
  | PermissionMode.Unrestricted, PolicyDecision.Ask _ => PolicyDecision.Allow
  | _, decision => decision
  end.

(** The loop of [PolicyDecision::combine]. *)
Fixpoint combine_onto (asks : list string) (decisions : list PolicyDecision) : PolicyDecision :=
  match decisions with
  | [] => match asks with
          | [] => PolicyDecision.Allow
          | _ => PolicyDecision.Ask (str_join "; " asks)
          end
  | PolicyDecision.Deny reason :: _ => PolicyDecision.Deny reason
  | PolicyDecision.Ask reason :: rest =>
      combine_onto (if bool_decide (reason ∈ asks) then asks else asks ++ [reason]) rest
  | PolicyDecision.Allow :: rest => combine_onto asks rest
  end.
Definition combine (decisions : list PolicyDecision) : PolicyDecision := combine_onto [] decisions.

Definition to_decision (self : PolicyRuleEffect) (reason : string) : PolicyDecision :=
  match self with
  | PolicyRuleEffect.Allow => PolicyDecision.Allow
  | PolicyRuleEffect.Ask => PolicyDecision.Ask reason
  | PolicyRuleEffect.Deny => PolicyDecision.Deny reason
  end.

Inductive CommandRuleMatch := Prefix | Contains.

Record CommandPolicyRule := {
  rule_pattern : string;
  match_kind : CommandRuleMatch;
  rule_effect : PolicyRuleEffect;
  rule_reason : string;
  case_sensitive : bool;
}.

(** [CommandPolicyRule::prefix] and [CommandPolicyRule::contains]. *)
Definition rule_prefix (pattern : string) (effect : PolicyRuleEffect) (reason : string)
    : CommandPolicyRule :=
  {| rule_pattern := pattern; match_kind := Prefix; rule_effect := effect;
     rule_reason := reason; case_sensitive := false |}.
Definition rule_contains (pattern : string) (effect : PolicyRuleEffect) (reason : string)
    : CommandPolicyRule :=
  {| rule_pattern := pattern; match_kind := Contains; rule_effect := effect;
     rule_reason := reason; case_sensitive := false |}.

Definition rule_matches (self : CommandPolicyRule) (command : string) : bool :=
  let '(command, pattern) :=
    if case_sensitive self then (command, rule_pattern self)
    else (str_map to_ascii_lower command, str_map to_ascii_lower (rule_pattern self)) in
  match match_kind self with
  | Prefix => starts_with pattern (trim_start command)
  | Contains => str_contains pattern command
  end.

Definition rule_decision (self : CommandPolicyRule) (command : string) : PolicyDecision :=
  to_decision (rule_effect self) (str_replace "{command}" command (rule_reason self)).

Record NetworkPolicyConfig := {
  default_effect : PolicyRuleEffect;
  allowed_hosts : list string;
}.

Record PolicyConfig := {
  command_rules : list CommandPolicyRule;
  policy_network : NetworkPolicyConfig;
}.

(** [impl Default for NetworkPolicyConfig] and [PolicyConfig]. *)
Definition default_network_policy : NetworkPolicyConfig :=
  {| default_effect := PolicyRuleEffect.Ask; allowed_hosts := [] |}.
Definition default_policy_config : PolicyConfig :=
  let destructive_reason := "Potentially destructive command: {command}" in
  {| command_rules :=
       [rule_contains "rm -rf" PolicyRuleEffect.Ask destructive_reason;
        rule_contains "del /s" PolicyRuleEffect.Ask destructive_reason;
        rule_contains "format " PolicyRuleEffect.Ask destructive_reason;
        rule_contains "git reset --hard" PolicyRuleEffect.Ask destructive_reason;
        rule_contains "sudo " PolicyRuleEffect.Ask destructive_reason];
     policy_network := default_network_policy |}.

Section policy.
Context `{JN : JsonNumber} `{FS : FileSystem} `{OS : OsHost} `{SH : SandboxHost}.

Record ToolPermissionDescriptor := {
  descriptor_source : string;
  descriptor_name : string;
  permission_labels : list string;
  annotations : Value;
}.

(** [ToolPermissionDescriptor::new]. *)
Definition new_descriptor (source name : string) (permission_labels : list string)
    (annotations : Value) : ToolPermissionDescriptor :=
  {| descriptor_source := source; descriptor_name := name;
     permission_labels :=
       List.filter (fun label => negb (str_is_empty label))
         ((fun label => str_map to_ascii_lower (trim label)) <$> permission_labels);
     annotations := annotations |}.

Definition has_label (self : ToolPermissionDescriptor) (candidates : list string) : bool :=
  existsb (fun label => existsb (eq_ignore_ascii_case label) candidates) (permission_labels self).

Definition annotation_bool (self : ToolPermissionDescriptor) (key : string) : bool :=
  default false (get_bool (annotations self) key).

Definition labels_display (self : ToolPermissionDescriptor) : string :=
  match permission_labels self with [] => "unknown" | labels => str_join ", " labels end.

(** * [execution_authorization.rs]: intents *)

Inductive FilesystemAccess := AccessNone | ReadWorkspace | WriteWorkspace | FsInheritSession.
#[export] Instance filesystem_access_eq_dec : EqDecision FilesystemAccess.
Proof. solve_decision. Defined.

Inductive NetworkAccess := PreferDeny | NetDeny | NetInheritSession | Required.
#[export] Instance network_access_eq_dec : EqDecision NetworkAccess.
Proof. solve_decision. Defined.

Definition does_not_require_network (self : NetworkAccess) : bool :=
  match self with PreferDeny | NetDeny => true | _ => false end.

Inductive ProcessLifetime := LifetimeNone | OneShot | Background | PersistentService.

Inductive ApprovalEscalation := EscalationNone | ExactPaths | CommandScopedHostAccess.
#[export] Instance approval_escalation_eq_dec : EqDecision ApprovalEscalation.
Proof. solve_decision. Defined.

Record ToolExecutionIntent := {
  filesystem : FilesystemAccess;
  intent_network : NetworkAccess;
  process_lifetime : ProcessLifetime;
  approval_escalation : ApprovalEscalation;
  requested_read_paths : list PathBuf;
  requested_write_paths : list PathBuf;
}.

(** The constructors of [ToolExecutionIntent]. *)
Definition observation (read_paths : list PathBuf) : ToolExecutionIntent :=
  {| filesystem := ReadWorkspace; intent_network := PreferDeny; process_lifetime := LifetimeNone;
     approval_escalation := ExactPaths; requested_read_paths := read_paths;
     requested_write_paths := [] |}.
Definition workspace_mutation (write_paths : list PathBuf) : ToolExecutionIntent :=
  {| filesystem := WriteWorkspace; intent_network := PreferDeny; process_lifetime := LifetimeNone;
     approval_escalation := ExactPaths; requested_read_paths := [];
     requested_write_paths := write_paths |}.
Definition session_process (lifetime : ProcessLifetime) : ToolExecutionIntent :=
  {| filesystem := FsInheritSession; intent_network := NetInheritSession;
     process_lifetime := lifetime; approval_escalation := CommandScopedHostAccess;
     requested_read_paths := []; requested_write_paths := [] |}.
Definition external : ToolExecutionIntent :=
  {| filesystem := AccessNone; intent_network := NetInheritSession;
     process_lifetime := LifetimeNone; approval_escalation := EscalationNone;
     requested_read_paths := []; requested_write_paths := [] |}.
Definition default_intent : ToolExecutionIntent :=
  {| filesystem := FsInheritSession; intent_network := NetInheritSession;
     process_lifetime := LifetimeNone; approval_escalation := EscalationNone;
     requested_read_paths := []; requested_write_paths := [] |}.

(** * [BasicPolicyEngine] *)

Record BasicPolicyEngine := {
  workspace_root : PathBuf;
  engine_writable_roots : list PathBuf;
  engine_approved_write_paths : list PathBuf;
  unrestricted_file_access : bool;
  engine_mode : PermissionMode;
  engine_config : PolicyConfig;
}.

Definition new_with_config_and_sandbox (workspace_root : PathBuf) (mode : PermissionMode)
    (config : PolicyConfig) (sandbox_config : LocalSandboxConfig) : BasicPolicyEngine :=
  {| workspace_root := workspace_root;
     engine_writable_roots := configured_writable_roots sandbox_config workspace_root;
     engine_approved_write_paths := approved_write_paths sandbox_config;
     unrestricted_file_access :=
       match mode with PermissionMode.FullAccess | PermissionMode.Unrestricted => true | _ => false end
       || bool_decide (sandbox_mode sandbox_config = SandboxMode.DangerFullAccess);
     engine_mode := mode;
     engine_config := config |}.

Definition new_with_sandbox_config (workspace_root : PathBuf) (mode : PermissionMode)
    (sandbox_config : LocalSandboxConfig) : BasicPolicyEngine :=
  new_with_config_and_sandbox workspace_root mode default_policy_config sandbox_config.

(** What [inside_roots] and [inside_approved_scope] compare. *)
Definition policy_candidate (self : BasicPolicyEngine) (path : PathBuf) : PathBuf :=
  let workspace_root := default (workspace_root self) (canonicalize (workspace_root self)) in
  canonicalize_existing_ancestor
    (if is_absolute path then path else path_join workspace_root path).

Definition inside_roots (self : BasicPolicyEngine) (path : PathBuf) (roots : list PathBuf) : bool :=
  if has_parent_dir path then false else
  let candidate := policy_candidate self path in
  existsb (fun root => path_starts_with candidate (canonicalize_existing_ancestor root)) roots.

(** The [paths_equal] of policy.rs. *)
Definition policy_paths_equal (left right : PathBuf) : bool :=
  path_starts_with left right && path_starts_with right left.

Definition inside_approved_scope (self : BasicPolicyEngine) (path : PathBuf)
    (approved_paths : list PathBuf) : bool :=
  if has_parent_dir path then false else
  let candidate := policy_candidate self path in
  existsb (fun approved =>
             let approved := canonicalize_existing_ancestor approved in
             path_starts_with candidate approved
             && (policy_paths_equal candidate approved || is_dir approved))
          approved_paths.

Definition inspect_read (self : BasicPolicyEngine) (path : PathBuf) : PolicyDecision :=
  if bool_decide (engine_mode self = PermissionMode.Chat)
  then PolicyDecision.Deny "Chat mode does not allow file access."
  else if has_parent_dir path
  then PolicyDecision.Deny ("Read path cannot contain '..': " +:+ path)
  else PolicyDecision.Allow.

Definition inspect_write (self : BasicPolicyEngine) (path : PathBuf) : PolicyDecision :=
  match engine_mode self with
  | PermissionMode.Chat | PermissionMode.ReadOnly =>
      PolicyDecision.Deny "Current permission mode does not allow writes."
  | PermissionMode.FullAccess | PermissionMode.Unrestricted => PolicyDecision.Allow
  | PermissionMode.Auto | PermissionMode.Approve =>
      if unrestricted_file_access self then PolicyDecision.Allow
      else if inside_roots self path (engine_writable_roots self) then PolicyDecision.Allow
      else if inside_approved_scope self path (engine_approved_write_paths self)
      then PolicyDecision.Allow
      else PolicyDecision.Ask ("Writing outside authorized roots: " +:+ path)
  end.

(** [inspect_command] after the permission presets: the configured rules, then the
    structural analysis.  Its [unreachable!] arms are the panic. *)
Definition inspect_analyzed_command (self : BasicPolicyEngine) (command : string)
    : Result anyhow PolicyDecision :=
  let analysis := analyze_shell_command command in
  let destructive_ask :=
    PolicyDecision.Ask ("Potentially destructive shell action: " +:+ command) in
  match List.find (fun rule => rule_matches rule command) (command_rules (engine_config self)) with
  | Some rule =>
      Ok match destructive analysis, rule_decision rule command with
         | true, PolicyDecision.Allow => destructive_ask
         | _, decision => decision
         end
  | None =>
      if destructive analysis then Ok destructive_ask
      else if bool_decide (Network ∈ capabilities analysis) then
        match engine_mode self with
        | PermissionMode.FullAccess | PermissionMode.Unrestricted => Ok PolicyDecision.Allow
        | PermissionMode.Auto | PermissionMode.Approve =>
            Ok (to_decision (default_effect (policy_network (engine_config self)))
                  ("Shell command requires network access: " +:+ command))
        | PermissionMode.Chat | PermissionMode.ReadOnly =>
            Err (Panic "chat and read-only command decisions return before network inspection")
        end
      else Ok PolicyDecision.Allow
  end.

Definition inspect_command (self : BasicPolicyEngine) (command : string)
    : Result anyhow PolicyDecision :=
  match engine_mode self with
  | PermissionMode.Chat => Ok (PolicyDecision.Deny "Chat mode does not allow shell commands.")
  | PermissionMode.ReadOnly =>
      if is_strictly_read_only (analyze_shell_command command) then Ok PolicyDecision.Allow
      else Ok (PolicyDecision.Deny "Read-only mode only allows shell commands classified as strict observations.")
  | _ => inspect_analyzed_command self command
  end.

Inductive McpToolRisk := RiskReadOnly | RiskWrite | RiskNetwork | RiskSecret | RiskDestructive | RiskUnknown.
#[export] Instance mcp_tool_risk_eq_dec : EqDecision McpToolRisk.
Proof. solve_decision. Defined.

Definition risk_as_str (self : McpToolRisk) : string :=
  match self with
  | RiskReadOnly => "read-only" | RiskWrite => "write" | RiskNetwork => "network"
  | RiskSecret => "secret" | RiskDestructive => "destructive" | RiskUnknown => "unknown"
  end.

Definition classify_mcp_tool (descriptor : ToolPermissionDescriptor) : McpToolRisk :=
  let has_read := has_label descriptor ["read"; "readonly"; "read_only"]
                  || annotation_bool descriptor "readOnlyHint" in
  let has_write := has_label descriptor ["write"; "modify"; "mutation"] in
  let has_network := has_label descriptor ["network"; "open_world"; "openworld"]
                     || annotation_bool descriptor "openWorldHint" in
  let has_secret := has_label descriptor ["secret"; "secrets"; "credential"; "credentials"] in
  let has_destructive := has_label descriptor ["destructive"; "delete"; "dangerous"]
                         || annotation_bool descriptor "destructiveHint" in
  let explicit_unknown := has_label descriptor ["unknown"] in
  if has_destructive then RiskDestructive
  else if has_secret then RiskSecret
  else if has_network then RiskNetwork
  else if has_write then RiskWrite
  else if has_read && negb explicit_unknown then RiskReadOnly
  else RiskUnknown.

Definition mcp_approval_reason (descriptor : ToolPermissionDescriptor) (risk : McpToolRisk) : string :=
  "MCP tool requires approval: " +:+ descriptor_name descriptor +:+ " (" +:+ risk_as_str risk
  +:+ ") [" +:+ labels_display descriptor +:+ "]".

Definition inspect_mcp_tool_call (self : BasicPolicyEngine) (descriptor : ToolPermissionDescriptor)
    : PolicyDecision :=
  let risk := classify_mcp_tool descriptor in
  let ask := PolicyDecision.Ask (mcp_approval_reason descriptor risk) in
  match engine_mode self with
  | PermissionMode.Chat => PolicyDecision.Deny "Chat mode does not allow MCP tool calls."
  | PermissionMode.ReadOnly =>
      if bool_decide (risk = RiskReadOnly) then PolicyDecision.Allow
      else PolicyDecision.Deny
             ("Read-only mode only allows MCP tools annotated as read-only: "
              +:+ descriptor_name descriptor +:+ " (" +:+ risk_as_str risk +:+ ") ["
              +:+ labels_display descriptor +:+ "]")
  | PermissionMode.Approve | PermissionMode.Auto =>
      if bool_decide (risk = RiskReadOnly) then PolicyDecision.Allow else ask
  | PermissionMode.FullAccess =>
      if bool_decide (risk = RiskDestructive) then ask else PolicyDecision.Allow
  | PermissionMode.Unrestricted => PolicyDecision.Allow
  end.

Definition inspect_network (self : BasicPolicyEngine) (host : string) : PolicyDecision :=
  let host := trim host in
  let config := policy_network (engine_config self) in
  if str_is_empty host then PolicyDecision.Deny "Network host cannot be empty."
  else if existsb (fun allowed => eq_ignore_ascii_case allowed host) (allowed_hosts config)
  then PolicyDecision.Allow
  else match engine_mode self with
       | PermissionMode.Chat => PolicyDecision.Deny "Chat mode does not allow network access."
       | PermissionMode.FullAccess | PermissionMode.Unrestricted => PolicyDecision.Allow
       | PermissionMode.ReadOnly | PermissionMode.Auto | PermissionMode.Approve =>
           to_decision (default_effect config) ("Network access requires approval: " +:+ host)
       end.

Definition resolve_intent_path (workspace_root path : PathBuf) : PathBuf :=
  if is_absolute path then path else path_join workspace_root path.

(** [PolicyEngine::inspect_execution_intent]. *)
Definition inspect_execution_intent (self : BasicPolicyEngine) (intent : ToolExecutionIntent)
    (workspace_root : PathBuf) : PolicyDecision :=
  combine
    (((fun path => inspect_read self (resolve_intent_path workspace_root path))
        <$> requested_read_paths intent)
     ++ ((fun path => inspect_write self (resolve_intent_path workspace_root path))
           <$> requested_write_paths intent)
     ++ (if bool_decide (requested_write_paths intent = [])
            && bool_decide (filesystem intent = WriteWorkspace)
         then [inspect_write self workspace_root] else [])
     ++ (if bool_decide (intent_network intent = Required)
         then [inspect_network self "tool-execution"] else [])).
End policy.
