(* ===== verification/Authority.v ===== *)
(** [execution_authorization.rs], [execution_authority.rs] and the authorization steps of
    [tools.rs], [agent.rs] and [agent/tool_scheduler.rs]: the sandbox one tool call is granted,
    the authority of one Agent run, and what decides whether a tool runs. *)
From S2P Require Import Prelude RustStr RustStrFacts RustText Json Enterprise RustPath Sandbox LocalEnvironment Policy.

Section authority.
Context `{JN : JsonNumber} `{FS : FileSystem} `{U : Unicode} `{OS : OsHost} `{SH : SandboxHost}.

(** * [execution_authorization.rs] *)

Record ExecutionGrant := {
  grant_sandbox : LocalSandboxConfig;
  grant_process_lifetime : ProcessLifetime;
}.

Definition resolve_requested_path (workspace_root path : PathBuf) : Result anyhow PathBuf :=
  let? _ := ensure (negb (has_parent_dir path)) ("authorized path cannot contain '..': " +:+ path) in
  Ok (if is_absolute path then path else path_join workspace_root path).

Fixpoint resolve_requested_paths (workspace_root : PathBuf) (paths : list PathBuf)
    : Result anyhow (list PathBuf) :=
  match paths with
  | [] => Ok []
  | path :: paths' =>
      let? resolved := resolve_requested_path workspace_root path in
      let? rest := resolve_requested_paths workspace_root paths' in
      Ok (resolved :: rest)
  end.

(** The sandbox mode of a call, at most the session's. *)
Definition intent_sandbox (base : LocalSandboxConfig) (filesystem : FilesystemAccess)
    : LocalSandboxConfig :=
  match filesystem with
  | AccessNone | ReadWorkspace => with_sandbox_mode base SandboxMode.ReadOnly
  | WriteWorkspace =>
      match sandbox_mode base with
      | SandboxMode.ReadOnly => with_sandbox_mode base SandboxMode.ReadOnly
      | _ => with_sandbox_mode base SandboxMode.WorkspaceWrite
      end
  | FsInheritSession => base
  end.

Definition intent_network_policy (base : LocalSandboxConfig) (access : NetworkAccess)
    (approval_granted : bool) (capabilities : SandboxBackendCapabilities) : NetworkPolicy :=
  match access with
  | PreferDeny => if network_offline capabilities then NetworkPolicy.Deny else network base
  | NetDeny => NetworkPolicy.Deny
  | NetInheritSession => network base
  | Required => if approval_granted then NetworkPolicy.Allow else network base
  end.

(** [ExecutionGrant::resolve_with_capabilities]. *)
Definition resolve_with_capabilities (base : LocalSandboxConfig) (workspace_root : PathBuf)
    (intent : ToolExecutionIntent) (approval_granted : bool)
    (capabilities : SandboxBackendCapabilities) : Result anyhow ExecutionGrant :=
  let sandbox := intent_sandbox base (filesystem intent) in
  let sandbox := sandbox <| network :=
    intent_network_policy base (intent_network intent) approval_granted capabilities |> in
  let? read_paths := resolve_requested_paths workspace_root (requested_read_paths intent) in
  let? write_paths := resolve_requested_paths workspace_root (requested_write_paths intent) in
  let leased_write_paths := List.filter (is_within_approved_write_scope base) write_paths in
  let sandbox := sandbox <| approved_read_paths := [] |> <| approved_write_paths := [] |> in
  let sandbox := foldl grant_read_path sandbox read_paths in
  let sandbox := if bool_decide (approval_escalation intent = ExactPaths)
                 then foldl grant_write_path sandbox leased_write_paths else sandbox in
  let sandbox :=
    match approval_escalation intent with
    | ExactPaths =>
        if approval_granted || bool_decide (sandbox_mode base = SandboxMode.DangerFullAccess)
        then foldl grant_write_path sandbox write_paths else sandbox
    | CommandScopedHostAccess => if approval_granted then danger_full_access else sandbox
    | EscalationNone => sandbox
    end in
  Ok {| grant_sandbox := sandbox; grant_process_lifetime := process_lifetime intent |}.

(** [ExecutionGrant::resolve]. *)
Definition grant_resolve (base : LocalSandboxConfig) (workspace_root : PathBuf)
    (intent : ToolExecutionIntent) (approval_granted : bool) : Result anyhow ExecutionGrant :=
  resolve_with_capabilities base workspace_root intent approval_granted
    (for_platform current_platform (effective_windows_backend base)).

(** * [execution_authority.rs] *)

Record ExecutionAuthority := {
  authority_workspace_root : PathBuf;
  authority_permission_mode : PermissionMode;
  authority_sandbox_config : LocalSandboxConfig;
  capability_projection : CapabilityProjection;
}.

(** [ExecutionAuthority::new]. *)
Definition authority_new (workspace_root : PathBuf) (permission_mode : PermissionMode)
    (sandbox_config : LocalSandboxConfig) (projection : CapabilityProjection)
    : Result anyhow ExecutionAuthority :=
  let? _ := ensure (allows_workspace_root projection workspace_root)
    ("workspace root is outside the execution authority projection: " +:+ workspace_root) in
  let? _ := ensure (negb (str_is_empty workspace_root))
    "execution authority requires a workspace root" in
  Ok {| authority_workspace_root := workspace_root; authority_permission_mode := permission_mode;
        authority_sandbox_config := sandbox_config; capability_projection := projection |}.

Definition same_workspace (left right : PathBuf) : bool :=
  path_eqb (default left (canonicalize left)) (default right (canonicalize right)).

Definition validate_workspace (self : ExecutionAuthority) (workspace_root : PathBuf)
    : Result anyhow unit :=
  ensure (same_workspace (authority_workspace_root self) workspace_root)
    ("turn workspace does not match its execution authority: expected "
     +:+ authority_workspace_root self +:+ ", found " +:+ workspace_root).

Definition with_projection (self : ExecutionAuthority) (projection : CapabilityProjection)
    : Result anyhow ExecutionAuthority :=
  authority_new (authority_workspace_root self) (authority_permission_mode self)
    (authority_sandbox_config self) projection.

Definition with_sandbox (self : ExecutionAuthority) (sandbox_config : LocalSandboxConfig)
    : Result anyhow ExecutionAuthority :=
  let? _ := ensure (is_attenuation_of (sandbox_mode sandbox_config)
                                      (sandbox_mode (authority_sandbox_config self)))
    "sandbox authority cannot be widened while preparing a run" in
  let? _ := ensure (bool_decide (sandbox_config =
                      with_sandbox_mode (authority_sandbox_config self) (sandbox_mode sandbox_config)))
    "sandbox attenuation may only change the policy-level sandbox mode" in
  authority_new (authority_workspace_root self) (authority_permission_mode self) sandbox_config
    (capability_projection self).

(** * [tools.rs]: what decides whether a tool runs *)

(** The part of [ToolInvocationContext] that carries authority. *)
Record ToolInvocationContext := {
  ctx_workspace_root : PathBuf;
  ctx_policy : BasicPolicyEngine;
  ctx_permission_mode : PermissionMode;
  ctx_sandbox_config : option LocalSandboxConfig;
  ctx_approval_granted : bool;
}.

(** [ExecutionAuthority::local_tool_context]. *)
Definition local_tool_context (self : ExecutionAuthority) : ToolInvocationContext :=
  {| ctx_workspace_root := authority_workspace_root self;
     ctx_policy := new_with_sandbox_config (authority_workspace_root self)
                     (authority_permission_mode self) (authority_sandbox_config self);
     ctx_permission_mode := authority_permission_mode self;
     ctx_sandbox_config := Some (authority_sandbox_config self);
     ctx_approval_granted := false |}.

Definition enforce_policy_decision (decision : PolicyDecision) (context : ToolInvocationContext)
    : Result anyhow unit :=
  match resolve_policy_decision (ctx_permission_mode context) decision with
  | PolicyDecision.Allow => Ok tt
  | PolicyDecision.Deny reason => Err (Msg ("denied: " +:+ reason))
  | PolicyDecision.Ask reason =>
      if ctx_approval_granted context then Ok tt else Err (ApprovalRequired reason)
  end.

(** [ToolInvocationContext::apply_execution_intent]: the sandbox of the environment the
    tool runs in, [None] when the context has no sandbox. *)
Definition apply_execution_intent (self : ToolInvocationContext) (intent : ToolExecutionIntent)
    : Result anyhow (option ExecutionGrant * ToolInvocationContext) :=
  match ctx_sandbox_config self with
  | None => Ok (None, self)
  | Some base =>
      let? grant := grant_resolve base (ctx_workspace_root self) intent false in
      Ok (Some grant,
          {| ctx_workspace_root := ctx_workspace_root self; ctx_policy := ctx_policy self;
             ctx_permission_mode := ctx_permission_mode self;
             ctx_sandbox_config := Some (grant_sandbox grant);
             ctx_approval_granted := ctx_approval_granted self |})
  end.

(** [Tool::authorization_preflight] and the start of [Tool::execute] for a typed tool whose
    decoded input asks for [intent] and whose own preflight answers [tool_preflight]: the
    grant and the context [execute_typed] runs in. *)
Definition typed_preflight (context : ToolInvocationContext) (intent : ToolExecutionIntent)
    (tool_preflight : option PolicyDecision) : PolicyDecision :=
  combine [inspect_execution_intent (ctx_policy context) intent (ctx_workspace_root context);
           default PolicyDecision.Allow tool_preflight].

Definition authorize_typed (context : ToolInvocationContext) (intent : ToolExecutionIntent)
    (tool_preflight : option PolicyDecision)
    : Result anyhow (option ExecutionGrant * ToolInvocationContext) :=
  let? _ := enforce_policy_decision (typed_preflight context intent tool_preflight) context in
  apply_execution_intent context intent.

(** * [agent.rs] and [agent/tool_scheduler.rs]: replaying an approved call *)

(** [AgentCore::scoped_approved_context]. *)
Definition scoped_approved_context (sandbox_config : LocalSandboxConfig) (workspace_root : PathBuf)
    (permission_mode : PermissionMode) (projection : CapabilityProjection)
    (execution_intent : ToolExecutionIntent) : Result anyhow ToolInvocationContext :=
  let? approved := grant_resolve sandbox_config workspace_root execution_intent true in
  let? authority := authority_new workspace_root permission_mode (grant_sandbox approved) projection in
  let ctx := local_tool_context authority in
  Ok {| ctx_workspace_root := ctx_workspace_root ctx; ctx_policy := ctx_policy ctx;
        ctx_permission_mode := ctx_permission_mode ctx;
        ctx_sandbox_config := ctx_sandbox_config ctx; ctx_approval_granted := true |}.

(** The loop of [grant_turn_path_leases] over the intents of the approved calls. *)
Fixpoint grant_turn_path_leases (sandbox : LocalSandboxConfig) (workspace_root : PathBuf)
    (intents : list ToolExecutionIntent) : Result anyhow LocalSandboxConfig :=
  match intents with
  | [] => Ok sandbox
  | intent :: rest =>
      let? grant := grant_resolve sandbox workspace_root intent true in
      let sandbox := foldl grant_read_path sandbox (approved_read_paths (grant_sandbox grant)) in
      let sandbox := foldl grant_write_path sandbox (approved_write_paths (grant_sandbox grant)) in
      grant_turn_path_leases sandbox workspace_root rest
  end.

(** [AgentCore::apply_agent_profile], its sandbox part. *)
Definition apply_profile_sandbox (sandbox_config : LocalSandboxConfig)
    (requested : option SandboxMode) : LocalSandboxConfig :=
  match requested with
  | Some requested =>
      if is_attenuation_of requested (sandbox_mode sandbox_config)
      then with_sandbox_mode sandbox_config requested else sandbox_config
  | None => sandbox_config
  end.

End authority.
