(* ===== verification/PathFacts.v ===== *)
(** Facts about paths: absolute paths written as lists of names, what the operations of
    [RustPath] do on them, and canonicalization under the laws of a POSIX file system. *)
From S2P Require Import Prelude RustStr RustStrFacts RustText Enterprise RustPath.

(** * Absolute paths as lists of names *)

Definition valid_name (name : string) : Prop :=
  name <> "" /\ name <> "." /\ name <> ".." /\ slash ∉ String.list_ascii_of_string name.

#[export] Instance valid_name_dec name : Decision (valid_name name).
Proof. unfold valid_name. apply _. Defined.

Definition valid_names (names : list string) : Prop := Forall valid_name names.
#[export] Instance valid_names_dec names : Decision (valid_names names).
Proof. unfold valid_names. apply _. Defined.

#[export] Instance normal_inj : Inj (=) (=) Normal.
Proof. by intros ?? [= ->]. Qed.

(** ["/a/b"] for [["a"; "b"]]. *)
Definition abs (names : list string) : PathBuf := "/" +:+ str_join "/" names.
#[global] Arguments abs : simpl never.

Lemma split_char_none c s : c ∉ String.list_ascii_of_string s -> split_char c s = [s].
Proof.
  induction s as [|a s IH]; [done|]. cbn. intros [Ha Hs]%not_elem_of_cons.
  destruct (Ascii.eqb_spec a c) as [->|_]; [done|]. by rewrite IH.
Qed.

Lemma split_char_sep c s t : c ∉ String.list_ascii_of_string s ->
  split_char c (s +:+ String c t) = s :: split_char c t.
Proof.
  induction s as [|a s IH]; cbn; [by rewrite Ascii.eqb_refl|]. intros [Ha Hs]%not_elem_of_cons.
  destruct (Ascii.eqb_spec a c) as [->|_]; [done|]. by rewrite IH.
Qed.

Lemma split_char_join l : valid_names l -> l <> [] -> split_char slash (str_join "/" l) = l.
Proof.
  induction l as [|s [|s' l] IH]; intros Hl Hne; [done| |].
  - apply Forall_inv in Hl as (_ & _ & _ & Hs). by apply split_char_none.
  - apply Forall_cons in Hl as [(_ & _ & _ & Hs) Hl].
    change (str_join "/" (s :: s' :: l)) with (s +:+ String slash (str_join "/" (s' :: l))).
    rewrite split_char_sep by done. by rewrite IH.
Qed.

Lemma valid_not_noise s : valid_name s -> is_noise s = false.
Proof. intros (H1 & H2 & _). unfold is_noise. by rewrite bool_decide_eq_false_2 by tauto. Qed.

Lemma valid_component s : valid_name s -> segment_component s = Normal s.
Proof. intros (_ & _ & H & _). unfold segment_component. by rewrite bool_decide_eq_false_2. Qed.

Lemma path_parts_abs l : valid_names l ->
  path_parts (abs l) = (Some RootDir, match l with [] => [""] | _ => l end).
Proof.
  intros Hl. unfold path_parts, abs.
  change (split_char slash ("/" +:+ str_join "/" l)) with ("" :: split_char slash (str_join "/" l)).
  change (is_absolute ("/" +:+ str_join "/" l)) with true. cbn iota. f_equal.
  destruct l as [|s l]; [done|]. by rewrite split_char_join.
Qed.

Lemma valid_filter l : valid_names l ->
  filter (fun s => is_noise s = false) (match l with [] => [""] | _ => l end) = l.
Proof.
  intros Hl. destruct l as [|s l]; [done|]. revert Hl. generalize (s :: l). clear s l.
  induction 1 as [|s l Hs Hl IH]; [done|]. rewrite filter_cons_True by by apply valid_not_noise. by rewrite IH.
Qed.

Lemma components_abs l : valid_names l -> components (abs l) = RootDir :: (Normal <$> l).
Proof.
  intros Hl. unfold components. rewrite path_parts_abs by done. rewrite valid_filter by done.
  cbn [option_list app]. f_equal. induction Hl as [|s l Hs Hl IH]; [done|]. cbn. by rewrite valid_component, IH.
Qed.

Lemma abs_inj l l' : valid_names l -> valid_names l' -> components (abs l) = components (abs l') -> l = l'.
Proof.
  intros Hl Hl'. rewrite !components_abs by done. intros [= H].
  by apply (inj (fmap Normal)) in H.
Qed.

Lemma path_eqb_abs l l' : valid_names l -> valid_names l' -> path_eqb (abs l) (abs l') = bool_decide (l = l').
Proof.
  intros Hl Hl'. unfold path_eqb. apply bool_decide_ext. split; [by apply abs_inj|by intros ->].
Qed.

Lemma starts_with_abs l l' : valid_names l -> valid_names l' ->
  path_starts_with (abs l) (abs l') = bool_decide (l' `prefix_of` l).
Proof.
  intros Hl Hl'. unfold path_starts_with. rewrite !components_abs by done. apply bool_decide_ext. split.
  - intros H%prefix_cons_inv_2. destruct H as [k Hk].
    apply fmap_app_inv in Hk as (l1 & l2 & H1 & H2 & ->). apply (inj (fmap Normal)) in H1.
    subst. by exists l2.
  - intros [k ->]. exists (Normal <$> k). by rewrite fmap_app.
Qed.

Lemma has_parent_dir_abs l : valid_names l -> has_parent_dir (abs l) = false.
Proof.
  intros Hl. unfold has_parent_dir. rewrite components_abs by done. clear Hl.
  change (existsb (fun c => bool_decide (c = ParentDir)) (Normal <$> l) = false).
  by induction l.
Qed.

Lemma is_absolute_abs l : is_absolute (abs l) = true.
Proof. done. Qed.

Lemma trim_noise_valid l : valid_names l -> trim_noise l = l.
Proof. destruct 1 as [|s l Hs _]; [done|]. cbn. by rewrite valid_not_noise. Qed.

Lemma valid_reverse l : valid_names l -> valid_names (reverse l).
Proof. unfold valid_names. by rewrite Forall_reverse. Qed.

Lemma trim_noise_end_valid l : valid_names l -> trim_noise_end l = l.
Proof.
  intros Hl. unfold trim_noise_end. rewrite trim_noise_valid by by apply valid_reverse.
  by rewrite reverse_involutive.
Qed.

Lemma list_ascii_app s t :
  String.list_ascii_of_string (s +:+ t) = String.list_ascii_of_string s ++ String.list_ascii_of_string t.
Proof. induction s as [|a s IH]; [done|]. cbn. by f_equal. Qed.

Lemma parent_abs l n : valid_names (l ++ [n]) -> parent (abs (l ++ [n])) = Some (abs l).
Proof.
  intros Hl. unfold parent. rewrite path_parts_abs by done.
  assert (match l ++ [n] with [] => [""] | _ => l ++ [n] end = l ++ [n]) as -> by (by destruct l).
  rewrite trim_noise_end_valid, reverse_snoc by done. cbn iota. rewrite reverse_involutive.
  apply Forall_app in Hl as [Hl _]. by rewrite trim_noise_end_valid.
Qed.

Lemma parent_root : parent (abs []) = None.
Proof. done. Qed.

Lemma file_name_abs l n : valid_names (l ++ [n]) -> file_name (abs (l ++ [n])) = Some n.
Proof.
  intros Hl. unfold file_name. rewrite components_abs, fmap_app by done.
  change (RootDir :: (Normal <$> l) ++ (Normal <$> [n])) with ((RootDir :: (Normal <$> l)) ++ [Normal n]).
  by rewrite last_snoc.
Qed.

Lemma str_join_snoc l n : l <> [] -> str_join "/" (l ++ [n]) = str_join "/" l +:+ "/" +:+ n.
Proof.
  induction l as [|s [|s' l] IH]; intros Hne; [done|done|].
  change (s +:+ "/" +:+ str_join "/" ((s' :: l) ++ [n]) = (s +:+ "/" +:+ str_join "/" (s' :: l)) +:+ "/" +:+ n).
  rewrite IH by done. by rewrite !str_app_assoc.
Qed.

Lemma starts_with_slash a s : starts_with "/" (String a s) = Ascii.eqb slash a.
Proof.
  unfold starts_with.
  change (strip_prefix "/" (String a s)) with (if Ascii.eqb slash a then Some s else None).
  by destruct (Ascii.eqb slash a).
Qed.

(** A name is relative and does not end in a separator. *)
Lemma not_absolute s : slash ∉ String.list_ascii_of_string s -> is_absolute s = false.
Proof.
  unfold is_absolute. destruct s as [|a s]; [done|]. intros [Ha _]%not_elem_of_cons.
  rewrite starts_with_slash. by apply Ascii.eqb_neq.
Qed.

Lemma ends_in_slash s n : n <> "" -> slash ∉ String.list_ascii_of_string n ->
  starts_with "/" (String.rev (s +:+ n)) = false.
Proof.
  intros Hne Hn. rewrite str_rev_app.
  assert (exists a n', String.rev n = String a n' /\ a <> slash) as (a & n' & -> & Ha).
  { destruct (String.rev n) as [|a n'] eqn:E.
    - by rewrite <- (str_rev_involutive n), E in Hne.
    - exists a, n'. split; [done|]. intros ->. apply Hn.
      rewrite <- (str_rev_involutive n), E, str_rev_cons, list_ascii_app. set_solver. }
  change (String a n' +:+ String.rev s) with (String a (n' +:+ String.rev s)).
  rewrite starts_with_slash. by apply Ascii.eqb_neq.
Qed.

Lemma join_abs l n : valid_names (l ++ [n]) -> path_join (abs l) n = abs (l ++ [n]).
Proof.
  intros Hl. apply Forall_app in Hl as [Hl (_ & _ & _ & Hn)%Forall_inv].
  unfold path_join. rewrite not_absolute by done. unfold abs.
  destruct l as [|s l _] using rev_ind; [done|].
  apply Forall_app in Hl as [Hl (Hs & _ & _ & Hs')%Forall_inv].
  rewrite (str_join_snoc (l ++ [s])) by (by destruct l).
  rewrite <- (str_app_assoc "/" (str_join "/" (l ++ [s]))).
  assert (exists t, "/" +:+ str_join "/" (l ++ [s]) = t +:+ s) as [t ->].
  { destruct l as [|s0 l]; [by exists "/"|]. exists ("/" +:+ str_join "/" (s0 :: l) +:+ "/").
    by rewrite str_join_snoc, !str_app_assoc. }
  rewrite ends_in_slash, orb_false_r by done.
  assert (str_is_empty (t +:+ s) = false) as -> by (destruct t; [by destruct s|done]). done.
Qed.

Lemma str_join_cons s l : l <> [] -> str_join "/" (s :: l) = s +:+ "/" +:+ str_join "/" l.
Proof. by destruct l. Qed.

Lemma join_relative l ms : valid_names (l ++ ms) -> ms <> [] ->
  path_join (abs l) (str_join "/" ms) = abs (l ++ ms).
Proof.
  intros Hl Hne. destruct ms as [|m ms]; [done|]. clear Hne.
  destruct (decide (ms = [])) as [->|Hms]; [by apply join_abs|].
  rewrite str_join_cons by done.
  apply Forall_app in Hl as [Hl Hm]. apply Forall_cons in Hm as [Hm Hms'].
  assert (valid_names (l ++ [m])) as Hlm by (apply Forall_app; auto using Forall_singleton).
  pose proof (join_abs l m Hlm) as Hj. revert Hj. unfold path_join.
  destruct Hm as (Hm0 & _ & _ & Hm1). rewrite (not_absolute m) by done.
  destruct m as [|a m]; [done|]. cbn [String.append]. unfold is_absolute. rewrite starts_with_slash.
  apply not_elem_of_cons in Hm1 as [Ha _]. rewrite (proj2 (Ascii.eqb_neq _ _) Ha).
  intros Hj. replace (abs (l ++ String a m :: ms)) with (abs (l ++ [String a m]) +:+ "/" +:+ str_join "/" ms).
  - rewrite <- Hj. destruct (_ || _).
    + change (String a (m +:+ "/" +:+ str_join "/" ms)) with (String a m +:+ "/" +:+ str_join "/" ms).
      by rewrite !str_app_assoc.
    + change (String a (m +:+ "/" +:+ str_join "/" ms)) with (String a m +:+ "/" +:+ str_join "/" ms).
      by rewrite !str_app_assoc.
  - unfold abs. rewrite !str_app_assoc. f_equal. clear -Hms.
    induction l as [|s l IH]; [by destruct ms|].
    change ((s :: l) ++ ?k) with (s :: (l ++ k)). rewrite !str_join_cons by (by destruct l).
    rewrite !str_app_assoc. by rewrite <- IH.
Qed.

Lemma tail_trim_valid s l : valid_names (s :: l) -> tail (trim_noise (s :: l)) = l.
Proof. intros H. by rewrite trim_noise_valid. Qed.

Lemma drop_components_valid l : forall m, valid_names (l ++ m) -> drop_components (length l) (l ++ m) = m.
Proof.
  induction l as [|s l IH]; intros m Hl; [done|]. cbn [length drop_components app].
  rewrite tail_trim_valid by done. apply IH. by apply Forall_inv_tail in Hl.
Qed.

Lemma strip_prefix_abs l m : valid_names (l ++ m) ->
  path_strip_prefix (abs (l ++ m)) (abs l) = Some (str_join "/" m).
Proof.
  intros H. pose proof H as [Hl Hm]%Forall_app. unfold path_strip_prefix.
  rewrite starts_with_abs, bool_decide_eq_true_2, path_parts_abs, components_abs by (done || by exists m).
  cbn [length]. rewrite length_fmap. do 2 f_equal.
  destruct (decide (l ++ m = [])) as [Hnil|Hne].
  - apply app_eq_nil in Hnil as [-> ->]. done.
  - assert (match l ++ m with [] => [""] | _ => l ++ m end = l ++ m) as -> by (by destruct (l ++ m)).
    by rewrite drop_components_valid, trim_noise_valid, trim_noise_end_valid.
Qed.

(** ** A separator at the end *)

Lemma path_parts_trailing l n : valid_names (l ++ [n]) ->
  path_parts (abs (l ++ [n]) +:+ "/") = (Some RootDir, l ++ [n; ""]).
Proof.
  intros Hl. unfold path_parts, abs. rewrite str_app_assoc.
  change (is_absolute ("/" +:+ str_join "/" (l ++ [n]) +:+ "/")) with true.
  change (split_char slash ("/" +:+ str_join "/" (l ++ [n]) +:+ "/"))
    with ("" :: split_char slash (str_join "/" (l ++ [n]) +:+ "/")). cbn iota. f_equal.
  induction l as [|s l IH].
  - apply Forall_inv in Hl as (_ & _ & _ & Hn). change (n +:+ "/") with (n +:+ String slash "").
    by rewrite split_char_sep.
  - apply Forall_cons in Hl as [(_ & _ & _ & Hs) Hl].
    change ((s :: l) ++ [n]) with (s :: (l ++ [n])). rewrite str_join_cons by (by destruct l).
    rewrite !str_app_assoc. change ("/" +:+ ?x) with (String slash x).
    rewrite split_char_sep by done. by rewrite IH.
Qed.

Lemma segments_valid l : valid_names l -> segment_component <$> l = Normal <$> l.
Proof. induction 1 as [|s l Hs Hl IH]; [done|]. cbn. by rewrite valid_component, IH. Qed.

Lemma filter_valid l : valid_names l -> filter (fun s => is_noise s = false) l = l.
Proof. intros Hl. apply valid_filter in Hl as Hf. by destruct l. Qed.

Lemma components_trailing l n : valid_names (l ++ [n]) ->
  components (abs (l ++ [n]) +:+ "/") = components (abs (l ++ [n])).
Proof.
  intros Hl. rewrite components_abs by done. unfold components. rewrite path_parts_trailing by done.
  change (l ++ [n; ""]) with (l ++ [n] ++ [""]). rewrite app_assoc, filter_app, filter_valid by done.
  change (filter (fun s => is_noise s = false) [""]) with (@nil string). rewrite app_nil_r.
  cbn [option_list app]. by rewrite segments_valid.
Qed.

Lemma parent_trailing l n : valid_names (l ++ [n]) -> parent (abs (l ++ [n]) +:+ "/") = Some (abs l).
Proof.
  intros Hl. rewrite <- (parent_abs l n) by done. unfold parent.
  rewrite path_parts_trailing, path_parts_abs by done.
  assert (match l ++ [n] with [] => [""] | _ => l ++ [n] end = l ++ [n]) as -> by (by destruct l).
  change (l ++ [n; ""]) with (l ++ [n] ++ [""]). rewrite app_assoc.
  assert (trim_noise_end ((l ++ [n]) ++ [""]) = trim_noise_end (l ++ [n])) as ->; [|done].
  unfold trim_noise_end. by rewrite (reverse_snoc (l ++ [n])).
Qed.

Lemma file_name_trailing l n : valid_names (l ++ [n]) -> file_name (abs (l ++ [n]) +:+ "/") = Some n.
Proof. intros Hl. unfold file_name. rewrite components_trailing by done. by apply file_name_abs. Qed.

(** * Canonicalization on a POSIX file system *)

(** What POSIX path resolution guarantees of [realpath] and [stat], for absolute paths
    without ["."], [".."] and repeated separators, as long as no chain of links is too
    long: links are resolved from left to right, the result is absolute and free of
    links, every prefix of a path that exists exists, and a trailing separator only
    restricts what a path may name. *)
Class PosixPaths `{FS : FileSystem} `{OS : OsHost} : Prop := {
  canonical_form p c : canonicalize p = Some c -> exists cs, valid_names cs /\ c = abs cs;
  canonical_fixed p c : canonicalize p = Some c -> canonicalize c = Some c;
  canonical_child l cs n : valid_names (l ++ [n]) -> valid_names cs ->
    canonicalize (abs l) = Some (abs cs) ->
    canonicalize (abs (l ++ [n])) = canonicalize (abs (cs ++ [n]));
  canonical_parent l n : valid_names (l ++ [n]) ->
    is_Some (canonicalize (abs (l ++ [n]))) -> is_Some (canonicalize (abs l));
  canonical_prefix l n : valid_names (l ++ [n]) ->
    canonicalize (abs (l ++ [n])) = Some (abs (l ++ [n])) -> canonicalize (abs l) = Some (abs l);
  canonical_root : canonicalize (abs []) = Some (abs []);
  canonical_trailing p c : canonicalize (p +:+ "/") = Some c -> p <> "" -> canonicalize p = Some c;
  exists_canonical l : valid_names l ->
    path_exists (abs l) = bool_decide (is_Some (canonicalize (abs l)));
}.

Section posix.
Context `{FS : FileSystem} `{OS : OsHost} `{PP : !PosixPaths}.

(** The names [l] lead, through their longest prefix [es] that exists, to the existing
    canonical names [cs], with the names [ms] missing below them. *)
Definition located (l cs ms : list string) : Prop :=
  exists es, l = es ++ ms /\ valid_names l /\ valid_names (cs ++ ms) /\ canonicalize (abs es) = Some (abs cs)
    /\ match ms with [] => True | m :: _ => canonicalize (abs (es ++ [m])) = None end.

Lemma located_total l : valid_names l -> exists cs ms, located l cs ms.
Proof using PP.
  induction l as [|n l IH] using rev_ind; intros Hl.
  - exists [], [], []. split_and!; [done|done|done|apply canonical_root|done].
  - pose proof Hl as [Hl' Hn]%Forall_app. destruct (canonicalize (abs (l ++ [n]))) as [c|] eqn:Hc.
    + destruct (canonical_form _ _ Hc) as (cs & Hcs & ->). exists cs, [], (l ++ [n]).
      rewrite !app_nil_r. split_and!; try done.
    + destruct IH as (cs & ms & es & -> & _ & Hv & He & Hm); [done|]. exists cs, (ms ++ [n]), es.
      rewrite !app_assoc. split_and!; [done|done| |done|].
      * apply Forall_app. split; [done|]. exact Hn.
      * destruct ms as [|m ms]; [|done]. by rewrite app_nil_r in Hc.
Qed.

(** Nothing below a missing name exists. *)
Lemma missing_below es m k : valid_names (es ++ m :: k) ->
  canonicalize (abs (es ++ [m])) = None -> canonicalize (abs (es ++ m :: k)) = None.
Proof using PP.
  induction k as [|n k IH] using rev_ind; intros Hv Hm; [done|].
  destruct (canonicalize (abs (es ++ m :: k ++ [n]))) as [c|] eqn:Hc; [|done].
  assert (is_Some (canonicalize (abs (es ++ m :: k)))) as [c' Hc'].
  { apply (canonical_parent _ n); rewrite <- app_assoc; [done|].
    change ((m :: k) ++ [n]) with (m :: k ++ [n]). by rewrite Hc. }
  rewrite IH in Hc'; [done| |done].
  change (es ++ m :: k ++ [n]) with (es ++ (m :: k) ++ [n]) in Hv. rewrite app_assoc in Hv.
  by apply Forall_app in Hv as [Hv _].
Qed.

Lemma located_missing l cs m ms : located l cs (m :: ms) -> canonicalize (abs l) = None.
Proof using PP. intros (es & -> & Hv & _ & _ & Hm). by apply missing_below. Qed.

Lemma foldl_join_abs cs ms : valid_names (cs ++ ms) -> foldl path_join (abs cs) ms = abs (cs ++ ms).
Proof.
  revert cs. induction ms as [|m ms IH]; intros cs Hv; [by rewrite app_nil_r|]. cbn.
  rewrite join_abs; [|by rewrite (cons_middle m), app_assoc in Hv; apply Forall_app in Hv as [? _]].
  rewrite IH by by rewrite <- app_assoc. by rewrite <- app_assoc.
Qed.

(** The walk to an existing ancestor finds the prefix that exists. *)
Lemma canonicalize_ancestor_located fuel path es cs ms rest :
  valid_names (es ++ ms) -> valid_names (cs ++ ms ++ rest) -> ms <> [] ->
  canonicalize (abs es) = Some (abs cs) ->
  (match ms with [] => True | m :: _ => canonicalize (abs (es ++ [m])) = None end) ->
  (length ms <= fuel)%nat ->
  canonicalize_ancestor fuel path (abs (es ++ ms)) (reverse rest) = abs (cs ++ ms ++ rest).
Proof using PP.
  revert fuel rest. induction ms as [|n ms IH] using rev_ind; intros fuel rest Hv Hc Hne He Hm Hf; [done|].
  rewrite length_app in Hf. cbn in Hf. destruct fuel as [|fuel]; [lia|].
  rewrite app_assoc in Hv |- *. cbn [canonicalize_ancestor].
  rewrite parent_abs, file_name_abs by done.
  assert (reverse rest ++ [n] = reverse (n :: rest)) as -> by by rewrite reverse_cons.
  destruct ms as [|m ms].
  - rewrite app_nil_r, He, reverse_involutive. rewrite foldl_join_abs; [done|]. exact Hc.
  - rewrite missing_below; [| |done]; [|by apply Forall_app in Hv as [? _]].
    rewrite IH; try done.
    + by rewrite <- !app_assoc.
    + by apply Forall_app in Hv as [? _].
    + by rewrite <- !app_assoc in Hc.
    + cbn in *. lia.
Qed.

Lemma length_abs l : valid_names l -> (length l <= String.length (abs l))%nat.
Proof.
  intros Hl. unfold abs. rewrite str_length_app. induction Hl as [|s l Hs Hl IH]; [cbn; lia|].
  destruct (decide (l = [])) as [->|Hne].
  - destruct s; [by destruct Hs as [[] _]|cbn; lia].
  - rewrite str_join_cons, !str_length_app by done. destruct s; [by destruct Hs as [[] _]|]. cbn in *. lia.
Qed.

Lemma located_valid l cs ms : located l cs ms -> valid_names l /\ valid_names (cs ++ ms).
Proof. by intros (es & _ & Hl & Hv & _). Qed.

Lemma canonicalize_existing_located l cs ms : located l cs ms ->
  canonicalize_existing_ancestor (abs l) = abs (cs ++ ms).
Proof using PP.
  intros Hloc. pose proof Hloc as (es & -> & Hl & Hv & He & Hm). unfold canonicalize_existing_ancestor.
  destruct ms as [|m ms]; [by rewrite !app_nil_r, He|].
  rewrite (located_missing _ _ _ _ Hloc).
  pose proof (canonicalize_ancestor_located (S (String.length (abs (es ++ m :: ms)))) (abs (es ++ m :: ms))
    es cs (m :: ms) []) as H.
  rewrite app_nil_r in H. apply H; try done. pose proof (length_abs _ Hl) as Hlen.
  rewrite length_app in Hlen. lia.
Qed.

Lemma located_none l cs m ms : located l cs (m :: ms) -> canonicalize (abs (cs ++ [m])) = None.
Proof using PP.
  intros (es & -> & Hl & Hv & He & Hm). rewrite <- (canonical_child es cs m); [done| | |done].
  - rewrite (cons_middle m), app_assoc in Hl. by apply Forall_app in Hl as [Hl _].
  - by apply Forall_app in Hv as [Hv _].
Qed.

Lemma located_fixed l cs ms : located l cs ms -> canonicalize (abs cs) = Some (abs cs).
Proof using PP. intros (es & _ & _ & _ & He & _). by eapply canonical_fixed. Qed.

Lemma located_canonical l cs ms : located l cs ms -> located (cs ++ ms) cs ms.
Proof using PP.
  intros Hloc. exists cs. split_and!; [done|by eapply located_valid|by eapply located_valid|by eapply located_fixed|].
  destruct ms as [|m ms]; [done|]. by eapply located_none.
Qed.

Lemma located_exact l cs : located l cs [] <-> valid_names l /\ valid_names cs /\ canonicalize (abs l) = Some (abs cs).
Proof.
  split.
  - intros (es & -> & Hl & Hv & He & _). rewrite !app_nil_r in *. done.
  - intros (Hl & Hv & He). exists l. by rewrite !app_nil_r.
Qed.

(** A canonical path with a separator behind it. *)
Lemma canonicalize_existing_trailing l n : valid_names (l ++ [n]) ->
  canonicalize (abs (l ++ [n])) = Some (abs (l ++ [n])) ->
  canonicalize_existing_ancestor (abs (l ++ [n]) +:+ "/") = abs (l ++ [n]).
Proof using PP.
  intros Hv Hc. unfold canonicalize_existing_ancestor.
  destruct (canonicalize (abs (l ++ [n]) +:+ "/")) as [c|] eqn:Ht.
  { apply canonical_trailing in Ht; [|done]. congruence. }
  cbn [canonicalize_ancestor]. rewrite parent_trailing, file_name_trailing by done.
  rewrite (canonical_prefix l n) by done. cbn. by apply join_abs.
Qed.

(** What a resolved ancestor and the rest of the path are joined to. *)
Lemma canonicalize_existing_joined l cs ms : located l cs ms ->
  canonicalize_existing_ancestor (path_join (abs cs) (str_join "/" ms)) = abs (cs ++ ms).
Proof using PP.
  intros Hloc. pose proof (located_canonical _ _ _ Hloc) as Hcs. pose proof (located_valid _ _ _ Hcs) as [_ Hv].
  destruct ms as [|m ms].
  - rewrite app_nil_r in *. apply located_exact in Hcs as (_ & _ & Hc).
    destruct cs as [|n cs _] using rev_ind.
    + change (path_join (abs []) (str_join "/" [])) with (abs []). unfold canonicalize_existing_ancestor. by rewrite Hc.
    + assert (path_join (abs (cs ++ [n])) (str_join "/" []) = abs (cs ++ [n]) +:+ "/") as ->;
        [|by apply canonicalize_existing_trailing].
      unfold path_join. cbn [str_join]. change (is_absolute "") with false. cbn iota.
      destruct (str_is_empty _ || _) eqn:E; [|done]. exfalso.
      pose proof (join_abs cs n Hv) as Hj. apply Forall_app in Hv as [_ (Hn0 & _ & _ & Hn)%Forall_inv].
      rewrite <- Hj in E. unfold path_join in E. rewrite (not_absolute n) in E by done.
      destruct (str_is_empty (abs cs) || _) in E.
      * rewrite ends_in_slash in E by done. by destruct (abs cs), n.
      * rewrite <- str_app_assoc, ends_in_slash in E by done. by destruct (abs cs), n.
  - rewrite join_relative by done. by apply canonicalize_existing_located.
Qed.

End posix.
