(* ===== verification/SandboxFacts.v ===== *)
(** Theorems about the sandbox: what [resolve_write_path] accepts on a POSIX file system,
    that the policy engine and the execution environment agree about it, that a grant made
    without approval widens nothing, and what the command plans enforce. *)
From S2P Require Import Prelude RustStr RustStrFacts RustText Json Enterprise ShellLex ShellAnalysis RustPath Sandbox LocalEnvironment SandboxCommand Policy Authority PathFacts.

(** * Relative paths *)

Lemma path_parts_relative ms : valid_names ms -> ms <> [] -> path_parts (str_join "/" ms) = (None, ms).
Proof.
  intros Hv Hne. unfold path_parts. rewrite split_char_join by done. destruct ms as [|m ms]; [done|].
  apply Forall_cons in Hv as [(Hm0 & Hm1 & _ & Hm) _].
  assert (is_absolute (str_join "/" (m :: ms)) = false) as ->.
  { destruct m as [|a m]; [done|]. apply not_elem_of_cons in Hm as [Ha _].
    unfold is_absolute. assert (exists t, str_join "/" (String a m :: ms) = String a t) as [t ->].
    { destruct ms; cbn; eauto. }
    rewrite starts_with_slash. by apply Ascii.eqb_neq. }
  by rewrite bool_decide_eq_false_2.
Qed.

Lemma relative_not_absolute ms : valid_names ms -> ms <> [] -> is_absolute (str_join "/" ms) = false.
Proof.
  intros Hv Hne. pose proof (path_parts_relative ms Hv Hne) as H. unfold path_parts in H.
  rewrite split_char_join in H by done. destruct ms; [done|]. by destruct (is_absolute _).
Qed.

Lemma components_relative ms : valid_names ms -> ms <> [] -> components (str_join "/" ms) = Normal <$> ms.
Proof.
  intros Hv Hne. unfold components. rewrite path_parts_relative by done. cbn [option_list app].
  by rewrite filter_valid, segments_valid.
Qed.

Lemma existsb_agree {A} (P : A -> Prop) f g (l : list A) :
  Forall P l -> (forall a, P a -> f a = g a) -> existsb f l = existsb g l.
Proof. intros Hl Hfg. induction Hl as [|a l Ha Hl IH]; [done|]. cbn. by rewrite Hfg, IH. Qed.

(** * Configurations of absolute paths *)

(** [path] names [l], from the canonical workspace root [wc] when it is relative. *)
Inductive denotes (wc : list string) : PathBuf -> list string -> Prop :=
| denotes_absolute l : valid_names l -> denotes wc (abs l) l
| denotes_relative ms : valid_names (wc ++ ms) -> ms <> [] -> denotes wc (str_join "/" ms) (wc ++ ms).

Section facts.
Context `{JN : JsonNumber} `{FS : FileSystem} `{U : Unicode} `{OS : OsHost} `{SH : SandboxHost} `{HO : Host}
  `{PP : !PosixPaths}.

(** The workspace and the configured roots are absolute and exist. *)
Definition existing_root (root : PathBuf) : Prop :=
  exists l cs, valid_names l /\ root = abs l /\ valid_names cs /\ canonicalize root = Some (abs cs).

Definition absolute_names (path : PathBuf) : Prop := exists l, valid_names l /\ path = abs l.

Record rooted_config (workspace_root : PathBuf) (wc : list string) (config : LocalSandboxConfig) : Prop := {
  plain_workspace : existing_root workspace_root;
  plain_canonical : valid_names wc /\ canonicalize workspace_root = Some (abs wc);
  plain_roots : Forall existing_root (write_paths config ++ writable_roots config);
  plain_approved : Forall absolute_names (approved_write_paths config);
}.

Lemma denotes_candidate wc path l : valid_names wc -> denotes wc path l ->
  valid_names l /\ has_parent_dir path = false
  /\ (if is_absolute path then path else path_join (abs wc) path) = abs l.
Proof.
  intros Hwc [l' Hl|ms Hv Hne].
  - split_and!; [done|by apply has_parent_dir_abs|done].
  - pose proof Hv as [_ Hms]%Forall_app. split_and!; [done| |].
    + unfold has_parent_dir. rewrite components_relative by done. clear. by induction ms.
    + rewrite relative_not_absolute by done. by apply join_relative.
Qed.

Lemma absolute_path_abs l : absolute_path (abs l) = abs l.
Proof. done. Qed.

(** * Deduplicated roots *)

Lemma dedup_onto_elem paths : forall result, Forall absolute_names result -> Forall absolute_names paths ->
  forall x, x ∈ dedup_onto result paths <-> x ∈ result ++ paths.
Proof.
  induction paths as [|p paths IH]; intros result Hr Hp x; [by rewrite app_nil_r|].
  apply Forall_cons in Hp as [(l & Hl & ->) Hp]. cbn [dedup_onto]. rewrite absolute_path_abs.
  destruct (existsb _ result) eqn:E.
  - rewrite IH by done. apply existsb_exists in E as (y & Hy & Heq). apply list_elem_of_In in Hy.
    rewrite Forall_forall in Hr. destruct (Hr y Hy) as (ly & Hly & ->).
    rewrite path_eqb_abs in Heq by done. apply bool_decide_eq_true in Heq as ->. set_solver.
  - rewrite IH; [set_solver| |done]. apply Forall_app. split; [done|]. apply Forall_singleton. by exists l.
Qed.

Lemma dedup_paths_elem paths x : Forall absolute_names paths -> x ∈ dedup_paths paths <-> x ∈ paths.
Proof. intros H. unfold dedup_paths. by rewrite dedup_onto_elem by (done || constructor). Qed.

Lemma existing_root_names root : existing_root root -> absolute_names root.
Proof. intros (l & _ & Hl & -> & _). by exists l. Qed.

Lemma configured_roots_elem ws wc config x : rooted_config ws wc config ->
  sandbox_mode config = SandboxMode.WorkspaceWrite ->
  x ∈ configured_writable_roots config ws <-> x ∈ ws :: write_paths config ++ writable_roots config.
Proof.
  intros [Hws _ Hr _] Hm. unfold configured_writable_roots. rewrite bool_decide_eq_true_2 by done.
  apply dedup_paths_elem. constructor; [by apply existing_root_names|].
  eapply Forall_impl; [exact Hr|]. apply existing_root_names.
Qed.

Lemma configured_roots_existing ws wc config root : rooted_config ws wc config ->
  root ∈ configured_writable_roots config ws -> existing_root root.
Proof.
  intros Hp Hin. destruct (decide (sandbox_mode config = SandboxMode.WorkspaceWrite)) as [Hm|Hm].
  - rewrite (configured_roots_elem _ _ _ _ Hp Hm) in Hin. destruct Hp as [Hws _ Hr _].
    apply elem_of_cons in Hin as [->|Hin]; [done|]. rewrite Forall_forall in Hr. by apply Hr.
  - unfold configured_writable_roots in Hin. rewrite bool_decide_eq_false_2 in Hin by done. by apply elem_of_nil in Hin.
Qed.

(** * Existing prefixes *)

(** A directory that exists contains a path exactly if it contains its existing part. *)
Lemma existing_prefix l cs ms rc : located l cs ms -> canonicalize (abs rc) = Some (abs rc) ->
  rc `prefix_of` cs ++ ms <-> rc `prefix_of` cs.
Proof using PP.
  intros Hloc Hrc. split; [|by apply prefix_app_r].
  intros [k Hk]. apply app_eq_app in Hk as (j & [[-> Hj]|[-> Hj]]); [by exists j|].
  destruct j as [|m j]; [by rewrite app_nil_r|]. exfalso. cbn in Hj. subst ms.
  assert (canonicalize (abs (cs ++ m :: j)) = None) as Hn; [|by rewrite Hn in Hrc].
  apply missing_below; [|by eapply located_none].
  apply located_valid in Hloc as [_ Hv]. change (cs ++ m :: j ++ k) with (cs ++ (m :: j) ++ k) in Hv.
  rewrite app_assoc in Hv. by apply Forall_app in Hv as [Hv _].
Qed.

Lemma existing_ancestor_located fuel candidate l cs ms : located l cs ms -> (length ms <= fuel)%nat ->
  exists es, l = es ++ ms /\ existing_ancestor fuel candidate (abs l) = Ok (abs es)
    /\ canonicalize (abs es) = Some (abs cs).
Proof using PP.
  intros (es & -> & Hl & _ & He & Hm) Hf. exists es. split_and!; [done| |done].
  revert fuel Hl Hf. induction ms as [|n ms IH] using rev_ind; intros fuel Hl Hf.
  - rewrite app_nil_r in *. destruct fuel; cbn [existing_ancestor];
      by rewrite exists_canonical, He, bool_decide_eq_true_2.
  - rewrite length_app in Hf. cbn in Hf. rewrite app_assoc in *. destruct fuel as [|fuel]; [lia|].
    cbn [existing_ancestor]. rewrite exists_canonical by done.
    assert (canonicalize (abs ((es ++ ms) ++ [n])) = None) as ->.
    { destruct ms as [|m ms]; [by rewrite app_nil_r|]. rewrite <- app_assoc in *. by apply missing_below. }
    rewrite bool_decide_eq_false_2 by (by intros [? ?]). rewrite parent_abs by done. cbn [opt_context result_bind].
    apply IH; [by destruct ms|by apply Forall_app in Hl as [? _]|lia].
Qed.

(** * What may be written *)

(** The real names [x] of a path lie in the scope of an approved path. *)
Definition scope_covers (x : list string) (approved : PathBuf) : bool :=
  let a := canonicalize_existing_ancestor approved in
  path_eqb (abs x) a || is_dir a && path_starts_with (abs x) a.

Lemma absolute_located a : absolute_names a -> exists l cs ms, a = abs l /\ located l cs ms.
Proof using PP. intros (l & Hl & ->). destruct (located_total l Hl) as (cs & ms & H). by exists l, cs, ms. Qed.

Lemma scope_covers_located x l cs ms : valid_names x -> located l cs ms ->
  scope_covers x (abs l) = bool_decide (x = cs ++ ms) || is_dir (abs (cs ++ ms)) && bool_decide (cs ++ ms `prefix_of` x).
Proof using PP.
  intros Hx Hloc. unfold scope_covers. rewrite (canonicalize_existing_located _ _ _ Hloc).
  apply located_valid in Hloc as [_ Hv]. by rewrite path_eqb_abs, starts_with_abs.
Qed.

Lemma within_scope path x cs ms approved : is_absolute path = true ->
  canonicalize_existing_ancestor path = abs (cs ++ ms) -> x = cs ++ ms -> located x cs ms ->
  absolute_names approved ->
  path_is_within_approved_scope path approved = scope_covers x approved.
Proof using PP.
  intros Habs Hp -> Hloc Ha. unfold path_is_within_approved_scope.
  assert (absolute_path path = path) as -> by (unfold absolute_path; by rewrite Habs). rewrite Hp.
  destruct (absolute_located _ Ha) as (l & ac & am & -> & Hal). rewrite absolute_path_abs.
  rewrite (canonicalize_existing_located _ _ _ Hal). pose proof (located_canonical _ _ _ Hal) as Hac.
  unfold paths_equal. rewrite !absolute_path_abs.
  rewrite (canonicalize_existing_located _ _ _ Hloc), (canonicalize_existing_located _ _ _ Hac).
  unfold scope_covers. rewrite (canonicalize_existing_located _ _ _ Hal). by destruct (is_dir _).
Qed.

(** The canonical roots of a configuration, and the first that contains [cs]. *)
Definition real_roots (self : LocalExecutionEnvironment) : list PathBuf :=
  canonical_roots (configured_writable_roots (env_sandbox_config self) (env_workspace_root self)).

Definition first_root (self : LocalExecutionEnvironment) (cs : list string) : option PathBuf :=
  List.find (path_starts_with (abs cs)) (real_roots self).

Definition approved_covers (config : LocalSandboxConfig) (x : list string) : bool :=
  existsb (scope_covers x) (approved_write_paths config).

Lemma joined_absolute cs s : is_absolute (path_join (abs cs) s) = true.
Proof. unfold path_join. destruct (is_absolute s) eqn:E; [done|]. by destruct (_ || _). Qed.

Lemma approved_covers_spec config x cs ms : Forall absolute_names (approved_write_paths config) ->
  x = cs ++ ms -> located x cs ms ->
  is_within_approved_write_scope config (path_join (abs cs) (str_join "/" ms)) = approved_covers config x.
Proof using PP.
  intros Ha -> Hloc. unfold is_within_approved_write_scope, approved_covers.
  induction Ha as [|a l Ha Hl IH]; [done|]. cbn [existsb]. rewrite IH. f_equal.
  eapply within_scope; [apply joined_absolute| |done|done|done].
  by apply (canonicalize_existing_joined (cs ++ ms)).
Qed.

(** The outcome of [resolve_write_path] for a path whose real names are [cs ++ ms], of
    which [cs] exist. *)
Definition write_outcome (self : LocalExecutionEnvironment) (path : PathBuf) (l cs ms : list string)
    : Result anyhow PathBuf :=
  let approved := approved_covers (env_sandbox_config self) (cs ++ ms) in
  let root := first_root self cs in
  match sandbox_mode (env_sandbox_config self) with
  | SandboxMode.ReadOnly => Err (Msg "sandbox mode read-only does not permit file writes")
  | SandboxMode.DangerFullAccess => Ok (abs l)
  | SandboxMode.WorkspaceWrite =>
      if bool_decide (root = None) && negb approved
      then Err (Msg ("write path escapes workspace: " +:+ path))
      else if is_protected_metadata_path (path_join (abs cs) (str_join "/" ms)) (default (abs cs) root)
              && negb approved
      then Err (ApprovalRequired ("Write to protected workspace metadata: " +:+ path))
      else Ok (abs l)
  end.

Lemma resolve_write_path_outcome self wc path l cs ms :
  rooted_config (env_workspace_root self) wc (env_sandbox_config self) ->
  denotes wc path l -> located l cs ms ->
  resolve_write_path self path = write_outcome self path l cs ms.
Proof using PP.
  intros Hp Hd Hloc. destruct Hp as [_ [Hwc Hcw] _ Ha].
  destruct (denotes_candidate _ _ _ Hwc Hd) as (Hl & Hpd & Hcand).
  destruct (existing_ancestor_located (String.length (abs l)) (abs l) l cs ms Hloc) as (es & -> & Hea & Hce).
  { pose proof (length_abs _ Hl). destruct Hloc as (es & -> & _). rewrite length_app in *. lia. }
  unfold resolve_write_path, write_outcome, candidate_path, workspace_root_canonical.
  rewrite Hpd, Hcw. cbn [opt_context result_bind]. rewrite Hcand, Hea. cbn [result_bind].
  rewrite strip_prefix_abs, Hce by done. cbn [opt_context result_bind default].
  rewrite (approved_covers_spec _ (cs ++ ms) cs ms) by (done || by eapply located_canonical).
  unfold first_root, real_roots. destruct (sandbox_mode (env_sandbox_config self)); try done.
Qed.

(** * The policy engine *)

Lemma real_root_prefix root l cs ms : existing_root root -> located l cs ms ->
  exists rc, valid_names rc /\ canonicalize root = Some (abs rc)
    /\ path_starts_with (abs (cs ++ ms)) (canonicalize_existing_ancestor root)
       = path_starts_with (abs cs) (abs rc).
Proof using PP.
  intros (rl & rc & Hrl & -> & Hrc & Hc) Hloc. exists rc. split_and!; [done|done|].
  assert (located rl rc []) as Hr by (by apply located_exact).
  rewrite (canonicalize_existing_located _ _ _ Hr), app_nil_r.
  pose proof (located_valid _ _ _ Hloc) as [_ Hv]. pose proof Hv as [Hcs _]%Forall_app.
  rewrite !starts_with_abs by done. apply bool_decide_ext.
  eapply existing_prefix; [exact Hloc|]. by eapply canonical_fixed.
Qed.

Lemma roots_first self wc l cs ms : rooted_config (env_workspace_root self) wc (env_sandbox_config self) ->
  located l cs ms ->
  existsb (fun root => path_starts_with (abs (cs ++ ms)) (canonicalize_existing_ancestor root))
    (configured_writable_roots (env_sandbox_config self) (env_workspace_root self))
  = negb (bool_decide (first_root self cs = None)).
Proof using PP.
  intros Hp Hloc. unfold first_root, real_roots, canonical_roots.
  assert (Forall existing_root (configured_writable_roots (env_sandbox_config self) (env_workspace_root self))) as Hr.
  { apply Forall_forall. intros root. by eapply configured_roots_existing. }
  induction Hr as [|root roots Hr _ IH]; [done|].
  destruct (real_root_prefix _ _ _ _ Hr Hloc) as (rc & _ & Hc & Heq). cbn [existsb]. rewrite Heq, IH.
  cbn [omap list_omap]. rewrite Hc. cbn [List.find]. by destruct (path_starts_with (abs cs) (abs rc)).
Qed.

Lemma policy_scope x approved : valid_names x -> absolute_names approved ->
  (let approved := canonicalize_existing_ancestor approved in
   path_starts_with (abs x) approved && (policy_paths_equal (abs x) approved || is_dir approved))
  = scope_covers x approved.
Proof using PP.
  intros Hx Ha. destruct (absolute_located _ Ha) as (l & ac & am & -> & Hal).
  rewrite (scope_covers_located _ _ _ _ Hx Hal), (canonicalize_existing_located _ _ _ Hal). cbv zeta.
  apply located_valid in Hal as [_ Hv]. unfold policy_paths_equal. rewrite !starts_with_abs by done.
  destruct (decide (x = ac ++ am)) as [->|Hne].
  - by rewrite !bool_decide_eq_true_2.
  - rewrite (bool_decide_eq_false_2 (x = _)) by done. cbn [orb].
    destruct (decide (ac ++ am `prefix_of` x)) as [Hpre|Hpre].
    + rewrite (bool_decide_eq_true_2 (ac ++ am `prefix_of` x)) by done.
      rewrite (bool_decide_eq_false_2 (x `prefix_of` ac ++ am)); [by destruct (is_dir _)|].
      intros Hpre'. by apply Hne, (anti_symm prefix).
    + rewrite (bool_decide_eq_false_2 (ac ++ am `prefix_of` x)) by done. by rewrite andb_false_r.
Qed.

Lemma inspect_write_resolved self mode config wc path l :
  mode = PermissionMode.Auto \/ mode = PermissionMode.Approve ->
  sandbox_mode (env_sandbox_config self) = SandboxMode.WorkspaceWrite ->
  rooted_config (env_workspace_root self) wc (env_sandbox_config self) ->
  denotes wc path l ->
  inspect_write (new_with_config_and_sandbox (env_workspace_root self) mode config (env_sandbox_config self)) path
  = match resolve_write_path self path with
    | Ok _ | Err (ApprovalRequired _) => PolicyDecision.Allow
    | Err _ => PolicyDecision.Ask ("Writing outside authorized roots: " +:+ path)
    end.
Proof using PP.
  intros Hmode Hsm Hp Hd. pose proof (plain_canonical _ _ _ Hp) as [Hwc Hcw].
  destruct (denotes_candidate _ _ _ Hwc Hd) as (Hl & Hpd & Hcand).
  destruct (located_total l Hl) as (cs & ms & Hloc).
  rewrite (resolve_write_path_outcome _ _ _ _ _ _ Hp Hd Hloc). unfold write_outcome. rewrite Hsm.
  assert (inspect_write (new_with_config_and_sandbox (env_workspace_root self) mode config (env_sandbox_config self)) path
    = if negb (bool_decide (first_root self cs = None)) then PolicyDecision.Allow
      else if approved_covers (env_sandbox_config self) (cs ++ ms) then PolicyDecision.Allow
      else PolicyDecision.Ask ("Writing outside authorized roots: " +:+ path)) as ->.
  { unfold inspect_write, new_with_config_and_sandbox, inside_roots, inside_approved_scope, policy_candidate.
    cbn [engine_mode unrestricted_file_access workspace_root engine_writable_roots engine_approved_write_paths].
    rewrite Hpd, Hcw. change (default (env_workspace_root self) (Some (abs wc))) with (abs wc).
    rewrite Hcand, (canonicalize_existing_located _ _ _ Hloc).
    rewrite (roots_first _ _ _ _ _ Hp Hloc), Hsm. unfold approved_covers.
    assert (existsb (fun approved =>
              let approved := canonicalize_existing_ancestor approved in
              path_starts_with (abs (cs ++ ms)) approved
              && (policy_paths_equal (abs (cs ++ ms)) approved || is_dir approved))
              (approved_write_paths (env_sandbox_config self))
            = existsb (scope_covers (cs ++ ms)) (approved_write_paths (env_sandbox_config self))) as <-.
    { pose proof (plain_approved _ _ _ Hp) as Ha. pose proof (located_valid _ _ _ Hloc) as [_ Hv].
      eapply existsb_agree; [exact Ha|]. intros a Hn. by apply policy_scope. }
    by destruct Hmode as [-> | ->]. }
  destruct (bool_decide (first_root self cs = None)), (approved_covers _ _); cbn [negb andb];
    rewrite ?andb_false_r, ?andb_true_r; try done; by destruct (is_protected_metadata_path _ _).
Qed.


(** * Grants *)

(** The fields of a configuration besides the approved paths. *)
Definition without_approvals (config : LocalSandboxConfig) : LocalSandboxConfig :=
  config <| approved_read_paths := [] |> <| approved_write_paths := [] |>.

Lemma grant_read_same paths : forall config,
  without_approvals (foldl grant_read_path config paths) = without_approvals config
  /\ approved_write_paths (foldl grant_read_path config paths) = approved_write_paths config.
Proof.
  induction paths as [|p paths IH]; intros config; [done|]. cbn [foldl].
  destruct (IH (grant_read_path config p)) as [-> ->]. unfold grant_read_path. by destruct (existsb _ _).
Qed.

Lemma grant_write_same paths : forall config,
  without_approvals (foldl grant_write_path config paths) = without_approvals config
  /\ (forall q, q ∈ approved_write_paths (foldl grant_write_path config paths) ->
               q ∈ approved_write_paths config \/ q ∈ paths).
Proof.
  induction paths as [|p paths IH]; intros config; [split; [done|]; cbn; tauto|]. cbn [foldl].
  destruct (IH (grant_write_path config p)) as [-> Hq]. unfold grant_write_path in *.
  destruct (existsb _ _); (split; [done|]); intros q [H|H]%Hq; cbn in *; set_solver.
Qed.

Lemma resolve_requested_names wl paths resolved : valid_names wl ->
  Forall (fun p => exists l, denotes wl p l) paths ->
  resolve_requested_paths (abs wl) paths = Ok resolved -> Forall absolute_names resolved.
Proof.
  intros Hwl Hp. revert resolved. induction Hp as [|p paths [l Hd] _ IH]; intros resolved; cbn [resolve_requested_paths].
  - intros [= <-]. constructor.
  - unfold resolve_requested_path. destruct (denotes_candidate _ _ _ Hwl Hd) as (Hl & -> & ->). cbn [negb ensure result_bind].
    destruct (resolve_requested_paths _ _) as [rest|]; [|done]. cbn [result_bind]. intros [= <-].
    constructor; [by exists l|]. by apply IH.
Qed.

(** What an unapproved grant keeps of the session's configuration. *)
Lemma unapproved_grant_shape base ws intent caps g :
  resolve_with_capabilities base ws intent false caps = Ok g ->
  exists write_paths', resolve_requested_paths ws (requested_write_paths intent) = Ok write_paths'
  /\ without_approvals (grant_sandbox g)
     = without_approvals (intent_sandbox base (filesystem intent)
         <| network := intent_network_policy base (intent_network intent) false caps |>)
  /\ forall q, q ∈ approved_write_paths (grant_sandbox g) -> q ∈ write_paths'
     /\ (is_within_approved_write_scope base q = true \/ sandbox_mode base = SandboxMode.DangerFullAccess).
Proof.
  unfold resolve_with_capabilities. intros (reads & _ & H)%result_bind_Ok.
  apply result_bind_Ok in H as (writes & Hw & [= <-]). exists writes. split; [done|]. cbn [grant_sandbox].
  set (sandbox := foldl grant_read_path _ reads).
  assert (without_approvals sandbox = without_approvals (intent_sandbox base (filesystem intent)
            <| network := intent_network_policy base (intent_network intent) false caps |>)
          /\ approved_write_paths sandbox = []) as [Hs Hnil].
  { unfold sandbox. match goal with |- context [foldl grant_read_path ?c reads] => destruct (grant_read_same reads c) as [-> ->] end. done. }
  clearbody sandbox. assert (forall q l, q ∈ List.filter (is_within_approved_write_scope base) l ->
    q ∈ l /\ is_within_approved_write_scope base q = true) as Hlease.
  { intros q l Hq. apply list_elem_of_In, filter_In in Hq as [Hq ?]. by rewrite list_elem_of_In. }
  destruct (grant_write_same (List.filter (is_within_approved_write_scope base) writes) sandbox) as [Hs1 Hq1].
  rewrite Hnil in Hq1. destruct (approval_escalation intent).
  - rewrite bool_decide_eq_false_2 by done. rewrite Hs, Hnil. split; [done|]. intros q Hq. by apply elem_of_nil in Hq.
  - rewrite (bool_decide_eq_true_2 (ExactPaths = ExactPaths)) by done. cbn [orb]. case_bool_decide as Hd.
    + destruct (grant_write_same writes (foldl grant_write_path sandbox
        (List.filter (is_within_approved_write_scope base) writes))) as [-> Hq2].
      rewrite Hs1, Hs. split; [done|]. intros q [Hq|Hq]%Hq2; [|by auto].
      apply Hq1 in Hq as [Hq%elem_of_nil|Hq]; [done|]. apply Hlease in Hq as [??]. auto.
    + rewrite Hs1, Hs. split; [done|]. intros q [Hq%elem_of_nil|Hq]%Hq1; [done|]. apply Hlease in Hq as [??]. auto.
  - rewrite bool_decide_eq_false_2 by done. rewrite Hs, Hnil. split; [done|]. intros q Hq. by apply elem_of_nil in Hq.
Qed.

Lemma scope_covers_trans x q lq cq mq a : valid_names x -> located lq cq mq -> q = abs lq ->
  absolute_names a -> scope_covers x q = true -> scope_covers (cq ++ mq) a = true -> scope_covers x a = true.
Proof using PP.
  intros Hx Hq -> Ha. pose proof (located_valid _ _ _ Hq) as [_ Hy].
  destruct (absolute_located _ Ha) as (la & ca & ma & -> & Hla).
  rewrite (scope_covers_located x _ _ _ Hx Hq), (scope_covers_located x _ _ _ Hx Hla), (scope_covers_located _ _ _ _ Hy Hla).
  rewrite !orb_true_iff, !andb_true_iff, !bool_decide_eq_true.
  intros [->|[Hd Hpre]]; [done|]. intros [<-|[Hd' Hpre']]; [by right|]. right. split; [done|]. by etrans.
Qed.

Lemma within_base config lq cq mq : Forall absolute_names (approved_write_paths config) -> located lq cq mq ->
  is_within_approved_write_scope config (abs lq) = approved_covers config (cq ++ mq).
Proof using PP.
  intros Ha Hloc. unfold is_within_approved_write_scope, approved_covers.
  eapply existsb_agree; [exact Ha|]. intros a Hn. eapply within_scope; [done| |done|by eapply located_canonical|done].
  by apply canonicalize_existing_located.
Qed.

Lemma without_fields c c' : without_approvals c = without_approvals c' ->
  sandbox_mode c = sandbox_mode c' /\ write_paths c = write_paths c' /\ writable_roots c = writable_roots c'
  /\ network c = network c' /\ enabled c = enabled c' /\ mode c = mode c'.
Proof. destruct c, c'. by intros [= -> -> -> -> -> -> -> -> ->]. Qed.

Lemma intent_sandbox_fields base fs :
  write_paths (intent_sandbox base fs) = write_paths base
  /\ writable_roots (intent_sandbox base fs) = writable_roots base
  /\ enabled (intent_sandbox base fs) = enabled base /\ mode (intent_sandbox base fs) = mode base
  /\ is_attenuation_of (sandbox_mode (intent_sandbox base fs)) (sandbox_mode base) = true.
Proof. unfold intent_sandbox. destruct fs, (sandbox_mode base) eqn:E; cbn; by rewrite ?E. Qed.

Lemma write_outcome_mono ws config config' path l cs ms c :
  sandbox_mode config' <> SandboxMode.ReadOnly ->
  is_attenuation_of (sandbox_mode config') (sandbox_mode config) = true ->
  write_paths config' = write_paths config -> writable_roots config' = writable_roots config ->
  (sandbox_mode config <> SandboxMode.DangerFullAccess ->
   approved_covers config' (cs ++ ms) = true -> approved_covers config (cs ++ ms) = true) ->
  write_outcome {| env_workspace_root := ws; env_sandbox_config := config' |} path l cs ms = Ok c ->
  write_outcome {| env_workspace_root := ws; env_sandbox_config := config |} path l cs ms = Ok c.
Proof.
  intros Hro Hatt Hw Hr Ha. unfold write_outcome, first_root, real_roots, configured_writable_roots.
  cbn [env_sandbox_config env_workspace_root]. rewrite Hw, Hr.
  destruct (sandbox_mode config'), (sandbox_mode config); try done.
  - destruct (approved_covers config' _).
    + rewrite Ha by done. cbn [negb]. by rewrite !andb_false_r.
    + rewrite !andb_true_r. destruct (approved_covers config _); cbn [negb]; rewrite ?andb_false_r, ?andb_true_r; [|done].
      destruct (bool_decide _); [done|]. by destruct (is_protected_metadata_path _ _).
  - by repeat case_match.
Qed.

(** C14: the sandbox a tool call is granted without approval is never wider than the
    session's: every write the call's environment accepts, the session's environment
    accepts with the same result; its sandbox mode is an attenuation, operating-system
    enforcement is unchanged, and the network is offline or the session's. *)
Theorem unapproved_grant_never_widens base wl wc intent caps g :
  valid_names wl -> rooted_config (abs wl) wc base ->
  Forall (fun p => exists l, denotes wl p l) (requested_write_paths intent) ->
  resolve_with_capabilities base (abs wl) intent false caps = Ok g ->
  (forall path l c, denotes wc path l ->
     resolve_write_path {| env_workspace_root := abs wl; env_sandbox_config := grant_sandbox g |} path = Ok c ->
     resolve_write_path {| env_workspace_root := abs wl; env_sandbox_config := base |} path = Ok c)
  /\ is_attenuation_of (sandbox_mode (grant_sandbox g)) (sandbox_mode base) = true
  /\ enabled (grant_sandbox g) = enabled base /\ mode (grant_sandbox g) = mode base
  /\ (network (grant_sandbox g) = NetworkPolicy.Deny \/ network (grant_sandbox g) = network base).
Proof using PP.
  intros Hwl Hp Hreq Hg. destruct (unapproved_grant_shape _ _ _ _ _ Hg) as (writes & Hw & Hsame & Happ).
  apply (resolve_requested_names _ _ _ Hwl Hreq) in Hw. rewrite Forall_forall in Hw.
  apply without_fields in Hsame as (Hsm & Hwp & Hwr & Hnet & Hen & Hmo). cbn in Hsm, Hwp, Hwr, Hnet, Hen, Hmo.
  destruct (intent_sandbox_fields base (filesystem intent)) as (Hwp' & Hwr' & Hen' & Hmo' & Hatt).
  rewrite Hwp' in Hwp. rewrite Hwr' in Hwr. rewrite <- Hsm in Hatt.
  assert (rooted_config (abs wl) wc (grant_sandbox g)) as Hpg.
  { destruct Hp as [H1 H2 H3 H4]. constructor; [done|done|by rewrite Hwp, Hwr|].
    apply Forall_forall. intros q Hq. apply Hw. by apply Happ. }
  split_and!; [|done|congruence|congruence|].
  - intros path l c Hd Hok. destruct (located_total l) as (cs & ms & Hloc).
    { eapply (denotes_candidate wc); [apply Hp|done]. }
    pose proof (located_valid _ _ _ Hloc) as [_ Hv].
    rewrite (resolve_write_path_outcome {| env_workspace_root := abs wl |} wc _ _ _ _ Hpg Hd Hloc) in Hok.
    rewrite (resolve_write_path_outcome {| env_workspace_root := abs wl |} wc _ _ _ _ Hp Hd Hloc).
    eapply write_outcome_mono; [|exact Hatt|done|done| |exact Hok].
    + intros Hro. unfold write_outcome in Hok. cbn [env_sandbox_config] in Hok. by rewrite Hro in Hok.
    + intros Hnd. unfold approved_covers. rewrite !existsb_exists. intros (q & Hq%list_elem_of_In & Hcov).
      apply Happ in Hq as [Hq [Hin|Hdanger]]; [|done]. apply Hw in Hq.
      destruct (absolute_located _ Hq) as (lq & cq & mq & -> & Hlq).
      pose proof (plain_approved _ _ _ Hp) as Ha. rewrite (within_base _ _ _ _ Ha Hlq) in Hin.
      apply existsb_exists in Hin as (a & Hain & Hcov'). exists a. split; [done|].
      eapply scope_covers_trans; [done|exact Hlq|done| |exact Hcov|exact Hcov'].
      rewrite Forall_forall in Ha. apply Ha. by apply list_elem_of_In.
  - rewrite Hnet. unfold intent_network_policy. destruct (intent_network intent), (network_offline caps); auto.
Qed.

End facts.
