(* ===== verification/SandboxPlans.v ===== *)
(** Theorems about the commands a sandbox configuration produces, and limits of the
    protection the sandbox gives. *)
From S2P Require Import Prelude RustStr RustStrFacts RustText Json Enterprise ShellLex ShellAnalysis RustPath Sandbox LocalEnvironment SandboxCommand Policy Authority PathFacts SandboxFacts.

(** * The mounts of a [bwrap] command line *)

(** A mount, with its destination. *)
Inductive mount :=
| ReadOnlyBind (path : PathBuf)
| WritableBind (path : PathBuf)
| PrivateMount (path : PathBuf).

Definition destination (m : mount) : PathBuf :=
  match m with ReadOnlyBind path | WritableBind path | PrivateMount path => path end.

(** The mounts of a command line, in the order in which [bwrap] documents it applies them. *)
Fixpoint mounts_of (args : list string) : list mount :=
  match args with
  | [] => []
  | flag :: rest =>
      if String.eqb flag "--ro-bind" then
        match rest with _ :: path :: rest' => ReadOnlyBind path :: mounts_of rest' | _ => [] end
      else if String.eqb flag "--bind" then
        match rest with _ :: path :: rest' => WritableBind path :: mounts_of rest' | _ => [] end
      else if String.eqb flag "--proc" || String.eqb flag "--dev" || String.eqb flag "--tmpfs" then
        match rest with path :: rest' => PrivateMount path :: mounts_of rest' | _ => [] end
      else if String.eqb flag "--chdir" then
        match rest with _ :: rest' => mounts_of rest' | _ => [] end
      else mounts_of rest
  end.

(** The last mount that covers a path decides whether the host's file may be written. *)
Definition host_writable (mounts : list mount) (path : PathBuf) : bool :=
  match last (List.filter (fun m => path_starts_with path (destination m)) mounts) with
  | Some (WritableBind _) => true
  | _ => false
  end.

Lemma last_filter_app {A} (p : A -> bool) (l k : list A) :
  last (List.filter p (l ++ k)) = match last (List.filter p k) with Some x => Some x | None => last (List.filter p l) end.
Proof. rewrite List.filter_app, last_app. by destruct (last (List.filter p k)). Qed.

(** In a list of mounts of one kind, something covers the path or nothing does. *)
Lemma last_binds (c : PathBuf -> mount) paths path : (forall p, destination (c p) = p) ->
  (existsb (path_starts_with path) paths = true /\
   exists q, last (List.filter (fun m => path_starts_with path (destination m)) (c <$> paths)) = Some (c q))
  \/ (existsb (path_starts_with path) paths = false /\
   last (List.filter (fun m => path_starts_with path (destination m)) (c <$> paths)) = None).
Proof.
  intros Hc. induction paths as [|p paths IH] using rev_ind; [by right|].
  rewrite fmap_app, last_filter_app, existsb_app. cbn [fmap list_fmap List.filter existsb]. rewrite Hc, orb_false_r.
  destruct (path_starts_with path p); cbn [last].
  - left. rewrite orb_true_r. eauto.
  - by rewrite orb_false_r.
Qed.

#[local] Arguments bubblewrap_options : simpl never.
#[local] Arguments seatbelt_profile : simpl never.
#[local] Arguments windows_sandbox_args : simpl never.

Section plans.
Context `{JN : JsonNumber} `{FS : FileSystem} `{U : Unicode} `{OS : OsHost} `{SH : SandboxHost} `{HO : Host}.

Lemma mounts_of_binds (flag : string) (c : PathBuf -> mount) roots rest :
  (forall path k, mounts_of (flag :: path :: path :: k) = c path :: mounts_of k) ->
  mounts_of ((roots ≫= fun path => [flag; absolute_path path; absolute_path path]) ++ rest)
  = (c <$> (absolute_path <$> roots)) ++ mounts_of rest.
Proof.
  intros Hc. induction roots as [|r roots IH]; [done|]. rewrite bind_cons, <- app_assoc.
  cbn [app fmap list_fmap]. by rewrite Hc, IH.
Qed.

Lemma bubblewrap_mounts cwd workspace_root config :
  mounts_of (bubblewrap_options cwd workspace_root config)
  = [ReadOnlyBind "/"; PrivateMount "/proc"; PrivateMount "/dev"; PrivateMount "/tmp"]
    ++ (WritableBind <$> (absolute_path <$> effective_writable_roots config (absolute_path workspace_root)))
    ++ (ReadOnlyBind <$> (absolute_path <$>
          List.filter path_exists (protected_paths (absolute_path workspace_root) config))).
Proof.
  unfold bubblewrap_options.
  match goal with |- mounts_of (?h ++ ?t) = _ => change (mounts_of (h ++ t)) with
    ([ReadOnlyBind "/"; PrivateMount "/proc"; PrivateMount "/dev"; PrivateMount "/tmp"] ++ mounts_of t) end.
  f_equal. match goal with |- mounts_of ((if ?b then ?n else []) ++ ?t) = _ =>
    transitivity (mounts_of t); [by destruct b|] end.
  rewrite (mounts_of_binds "--bind" WritableBind) by done. f_equal.
  rewrite (mounts_of_binds "--ro-bind" ReadOnlyBind) by done. by rewrite app_nil_r.
Qed.

(** C27: under the mounts of the Linux sandbox a host file may be written exactly if it lies
    below a writable root and below no protected path that exists when the command starts;
    in read-only mode nothing of the host may be written. *)
Theorem bubblewrap_writable_exact cwd workspace_root config path :
  host_writable (mounts_of (bubblewrap_options cwd workspace_root config)) path
  = existsb (path_starts_with path)
      (absolute_path <$> effective_writable_roots config (absolute_path workspace_root))
    && negb (existsb (path_starts_with path)
               (absolute_path <$> List.filter path_exists
                  (protected_paths (absolute_path workspace_root) config)))
  /\ (sandbox_mode config = SandboxMode.ReadOnly ->
      host_writable (mounts_of (bubblewrap_options cwd workspace_root config)) path = false).
Proof.
  assert (host_writable (mounts_of (bubblewrap_options cwd workspace_root config)) path
    = existsb (path_starts_with path)
      (absolute_path <$> effective_writable_roots config (absolute_path workspace_root))
    && negb (existsb (path_starts_with path)
               (absolute_path <$> List.filter path_exists
                  (protected_paths (absolute_path workspace_root) config)))) as Heq.
  { rewrite bubblewrap_mounts. unfold host_writable. rewrite !last_filter_app.
    destruct (last_binds ReadOnlyBind (absolute_path <$> List.filter path_exists
      (protected_paths (absolute_path workspace_root) config)) path) as [[-> [q ->]]|[-> ->]];
      [done|cbn [negb]; by rewrite andb_false_r|].
    cbn [negb]. rewrite andb_true_r.
    destruct (last_binds WritableBind (absolute_path <$> effective_writable_roots config (absolute_path workspace_root)) path)
      as [[-> [q ->]]|[-> ->]]; [done|reflexivity|].
    cbn [List.filter]. by repeat destruct (path_starts_with path _). }
  split; [exact Heq|]. intros Hro. rewrite Heq. unfold effective_writable_roots.
  rewrite bool_decide_eq_false_2 by (by rewrite Hro). reflexivity.
Qed.

(** * Enforcement *)

Lemma windows_plan_wrapped sandbox program args cwd ws config options w plan w' :
  build_windows_sandbox_command_with_binary sandbox program args cwd ws config options w = (Ok plan, w') ->
  (exists backend, plan_status plan = StatusWrapped OsSandboxPlatform.Windows backend)
  /\ exists wrapper, plan_args plan = wrapper ++ program :: args.
Proof.
  unfold build_windows_sandbox_command_with_binary. destruct (new_v4 w) as [nonce w1].
  intros [H _]%pair_equal_spec.
  apply result_bind_Ok in H as (? & _ & H). apply result_bind_Ok in H as (? & _ & H).
  apply Ok_inj in H as <-. split; [eexists; reflexivity|]. cbn [plan_args]. exists ("run" :: windows_sandbox_args cwd (absolute_path ws) (if persistent_stdio options && bool_decide (effective_windows_backend config = WindowsSandboxBackend.DedicatedUser) then WindowsSandboxBackend.Unelevated else effective_windows_backend config) config options ++ ["--"]).
  cbn [app]. by rewrite <- app_assoc.
Qed.

(** C28: with enforcement on, and unless the mode is full access, a command runs inside the
    sandbox of its platform or not at all: no plan runs the program unwrapped, and a plan
    that is made ends with the program and its arguments unchanged. *)
Theorem enforced_plan_is_wrapped platform program args cwd workspace_root config options w plan w' :
  is_enforced config = true -> sandbox_mode config <> SandboxMode.DangerFullAccess ->
  build_local_sandbox_command_for_platform_with_options platform program args cwd workspace_root config options w
    = (Ok plan, w') ->
  (exists backend, plan_status plan = StatusWrapped platform backend)
  /\ exists wrapper, plan_args plan = wrapper ++ program :: args.
Proof.
  intros Henf Hmode. unfold build_local_sandbox_command_for_platform_with_options.
  rewrite bool_decide_eq_false_2 by done.
  pose proof Henf as [He Hm]%andb_true_iff. apply bool_decide_eq_true in Hm.
  assert (is_enabled config = true) as -> by (unfold is_enabled; by rewrite He, Hm). cbn [negb].
  assert (forall p reason q, unavailable_backend p reason program args config = Ok q -> False) as Hun.
  { intros p reason q. unfold unavailable_backend. by rewrite Henf. }
  destruct platform.
  - intros [H _]%pair_equal_spec. revert H. unfold build_bubblewrap_command. cbv zeta.
    match goal with |- match ?b with _ => _ end = _ -> _ => destruct b as [backend|] end; [|by intros ?%Hun]. intros <-%Ok_inj. split; [by eexists|].
    exists (bubblewrap_options cwd workspace_root config ++ ["--"]). rewrite <- app_assoc. reflexivity.
  - intros [H _]%pair_equal_spec. revert H. unfold build_sandbox_exec_command.
    destruct (_ && _); [by intros ?%Hun|]. intros <-%Ok_inj. split; [by eexists|]. by exists ["-p"; seatbelt_profile workspace_root config].
  - unfold build_windows_sandbox_command.
    destruct resolve_opentopia_sandbox_binary as [[sandbox|]|e]; [apply windows_plan_wrapped| |];
      intros [= H _]; by apply Hun in H.
  - unfold build_unsupported_sandbox_command. by rewrite Hm.
Qed.

(** * The description of the sandbox *)

(** What a plan says about its sandbox. *)
Definition plan_verdict (r : Result anyhow SandboxCommandPlan) : Result anyhow SandboxCommandStatus :=
  match r with Ok plan => Ok (plan_status plan) | Err e => Err e end.

Lemma unavailable_verdict p reason program args program' args' config :
  plan_verdict (unavailable_backend p reason program args config)
  = plan_verdict (unavailable_backend p reason program' args' config).
Proof. unfold unavailable_backend. by destruct (is_enforced config). Qed.

(** The verdict depends on the configuration, the options and the machine, not on the command. *)
Lemma verdict_of_probe platform program args program' args' cwd cwd' ws config options w w' :
  plan_verdict (build_local_sandbox_command_for_platform_with_options platform program args cwd ws config options w).1
  = plan_verdict (build_local_sandbox_command_for_platform_with_options platform program' args' cwd' ws config options w').1.
Proof.
  unfold build_local_sandbox_command_for_platform_with_options.
  destruct (bool_decide _); [done|]. destruct (negb _); [done|]. destruct platform; cbn [fst].
  - unfold build_bubblewrap_command. destruct (if bool_decide _ then _ else _); [done|apply unavailable_verdict].
  - unfold build_sandbox_exec_command. destruct (_ && _); [apply unavailable_verdict|done].
  - unfold build_windows_sandbox_command.
    destruct resolve_opentopia_sandbox_binary as [[sandbox|]|e]; cbn [fst]; [|apply unavailable_verdict..].
    unfold build_windows_sandbox_command_with_binary. destruct (new_v4 w), (new_v4 w'). cbn [fst].
    repeat match goal with |- context [ensure ?b ?s] => destruct (ensure b s) end; done.
  - unfold build_unsupported_sandbox_command. by destruct (mode config).
Qed.

(** The descriptor of the local sandbox is truthful: it says that the sandbox is enforced, by a
    backend, exactly when every command started with the default options is wrapped by
    that backend, and reports an error exactly when no command can be started. *)
Theorem descriptor_truthful thread_id workspace_root config w :
  let d := (descriptor_local thread_id workspace_root config w).1 in
  let verdict program args cwd w' :=
    plan_verdict (build_local_sandbox_command_for_platform_with_options current_platform program args cwd
                    workspace_root config default_launch_options w').1 in
  (forall backend, (descriptor_enforced d = true /\ descriptor_backend d = Some backend) <->
     forall program args cwd w', exists platform,
       verdict program args cwd w' = Ok (StatusWrapped platform backend))
  /\ (descriptor_lifecycle d = LifecycleError <->
      forall program args cwd w', exists e, verdict program args cwd w' = Err e).
Proof.
  cbn zeta. unfold descriptor_local.
  pose proof (fun program args cwd w' => verdict_of_probe current_platform
     (sandbox_probe_command current_platform).1 (sandbox_probe_command current_platform).2 program args
     workspace_root cwd workspace_root config default_launch_options w w') as Hv.
  destruct (build_local_sandbox_command_for_platform_with_options current_platform (sandbox_probe_command _).1
    _ _ _ _ _ w) as [probe w1]. cbn [fst] in Hv.
  assert (forall Q : Result anyhow SandboxCommandStatus -> Prop, Q (plan_verdict probe) <->
    forall program args cwd w', Q (plan_verdict (build_local_sandbox_command_for_platform_with_options
      current_platform program args cwd workspace_root config default_launch_options w').1)) as Hall.
  { intros Q. split; [intros HQ program args cwd w'; by rewrite <- Hv|]. intros HQ. rewrite (Hv "" [] "" w). apply HQ. }
  split; [intros backend; rewrite <- (Hall (fun r => exists platform, r = Ok (StatusWrapped platform backend)))
         |rewrite <- (Hall (fun r => exists e, r = Err e))];
    (destruct probe as [q|e]; cbn [probe_report plan_verdict];
      [destruct (plan_status q)|]; cbn; naive_solver).
Qed.

(** * Limits *)

Context `{PP : !PosixPaths}.

Definition is_protected_name (name : string) : bool :=
  existsb (eq_ignore_ascii_case name) PROTECTED_METADATA_NAMES.

Lemma first_root_workspace self wc k : rooted_config (env_workspace_root self) wc (env_sandbox_config self) ->
  sandbox_mode (env_sandbox_config self) = SandboxMode.WorkspaceWrite -> valid_names (wc ++ k) ->
  first_root self (wc ++ k) = Some (abs wc).
Proof using PP.
  intros [Hws [Hwc Hc] _ _] Hm Hv. unfold first_root, real_roots, configured_writable_roots, canonical_roots.
  rewrite bool_decide_eq_true_2 by done. unfold dedup_paths. cbn [dedup_onto existsb app].
  assert (absolute_path (env_workspace_root self) = env_workspace_root self) as ->.
  { by destruct Hws as (l & _ & _ & -> & _). }
  assert (forall paths result, exists rest, dedup_onto result paths = result ++ rest) as Hpre.
  { clear. induction paths as [|p paths IH]; intros result; [exists []; by rewrite app_nil_r|]. cbn [dedup_onto].
    destruct (existsb _ result); [apply IH|]. destruct (IH (result ++ [absolute_path p])) as [rest ->].
    rewrite <- app_assoc. eauto. }
  destruct (Hpre (write_paths (env_sandbox_config self) ++ writable_roots (env_sandbox_config self))
              [env_workspace_root self]) as [rest ->].
  cbn [app omap list_omap]. rewrite Hc. cbn [List.find].
  rewrite starts_with_abs, bool_decide_eq_true_2 by (done || by exists k). done.
Qed.

Lemma protected_below wc k ms n r : valid_names (wc ++ k ++ ms) -> ms <> [] -> k ++ ms = n :: r ->
  is_protected_metadata_path (path_join (abs (wc ++ k)) (str_join "/" ms)) (abs wc) = is_protected_name n.
Proof.
  intros Hv Hne Hnr. rewrite join_relative by (by rewrite <- ?app_assoc). rewrite <- app_assoc.
  unfold is_protected_metadata_path. rewrite !absolute_path_abs, strip_prefix_abs, Hnr by done.
  apply Forall_app in Hv as [_ Hv]. rewrite Hnr in Hv. by rewrite components_relative.
Qed.

(** In the workspace only the name directly below the root is compared with the protected
    ones, and a name that does not exist may be written. *)
Lemma workspace_name_writable self wc k m :
  rooted_config (env_workspace_root self) wc (env_sandbox_config self) ->
  sandbox_mode (env_sandbox_config self) = SandboxMode.WorkspaceWrite ->
  valid_names (wc ++ k ++ [m]) ->
  canonicalize (abs (wc ++ k)) = Some (abs (wc ++ k)) ->
  canonicalize (abs (wc ++ k ++ [m])) = None ->
  is_protected_name (default m (head k)) = false ->
  resolve_write_path self (abs (wc ++ k ++ [m])) = Ok (abs (wc ++ k ++ [m])).
Proof using PP.
  intros Hp Hm Hv Hk Hnone Hprot.
  assert (valid_names (wc ++ k)) as Hvk by (rewrite app_assoc in Hv; by apply Forall_app in Hv as [? _]).
  assert (located (wc ++ k ++ [m]) (wc ++ k) [m]) as Hloc.
  { exists (wc ++ k). rewrite <- app_assoc. done. }
  rewrite (resolve_write_path_outcome self wc _ _ _ _ Hp (denotes_absolute _ _ Hv) Hloc).
  unfold write_outcome. rewrite Hm, (first_root_workspace _ _ _ Hp Hm Hvk). cbn [default from_option].
  rewrite (bool_decide_eq_false_2 (Some (abs wc) = None)) by done. cbn [andb].
  destruct (k ++ [m]) as [|n r] eqn:E; [by destruct k|]. unfold id.
  rewrite (protected_below wc k [m] n r) by (done || by rewrite E).
  assert (n = default m (head k)) as -> by (destruct k; by injection E). by rewrite Hprot.
Qed.

(** a name in the workspace that cannot be canonicalized may be written, so a dangling
    symbolic link is accepted like a missing file, whatever it points to: the
    existence check and the canonicalization both look through the link, and the path
    handed to the write is the link itself. *)
Theorem dangling_link_accepted self wc k m :
  rooted_config (env_workspace_root self) wc (env_sandbox_config self) ->
  sandbox_mode (env_sandbox_config self) = SandboxMode.WorkspaceWrite ->
  valid_names (wc ++ k ++ [m]) ->
  canonicalize (abs (wc ++ k)) = Some (abs (wc ++ k)) ->
  canonicalize (abs (wc ++ k ++ [m])) = None ->
  is_protected_name (default m (head k)) = false ->
  resolve_write_path self (abs (wc ++ k ++ [m])) = Ok (abs (wc ++ k ++ [m]))
  /\ forall mode config, mode = PermissionMode.Auto \/ mode = PermissionMode.Approve ->
     inspect_write (new_with_config_and_sandbox (env_workspace_root self) mode config (env_sandbox_config self))
       (abs (wc ++ k ++ [m])) = PolicyDecision.Allow.
Proof using PP.
  intros Hp Hm Hv Hk Hnone Hprot. pose proof (workspace_name_writable self wc k m Hp Hm Hv Hk Hnone Hprot) as Hr.
  split; [done|]. intros mode config Hmode.
  rewrite (inspect_write_resolved self mode config wc _ (wc ++ k ++ [m]) Hmode Hm Hp) by (by constructor).
  by rewrite Hr.
Qed.

Lemma effective_root_elem ws wc config root : rooted_config ws wc config ->
  sandbox_mode config = SandboxMode.WorkspaceWrite -> root ∈ writable_roots config ->
  Forall absolute_names (effective_writable_roots config ws) /\ root ∈ effective_writable_roots config ws.
Proof.
  intros [Hws _ Hr Ha] Hm Hin. unfold effective_writable_roots. rewrite bool_decide_eq_true_2 by done.
  assert (Forall absolute_names (ws :: write_paths config ++ writable_roots config
            ++ omap parent (approved_write_paths config))) as Hall.
  { constructor; [by apply existing_root_names|]. rewrite app_assoc. apply Forall_app. split.
    - eapply Forall_impl; [exact Hr|]. apply existing_root_names.
    - apply Forall_forall. intros x (a & Hain & Hpar)%list_elem_of_omap. rewrite Forall_forall in Ha.
      destruct (Ha a Hain) as (l & Hl & ->). destruct l as [|n l _] using rev_ind; [done|].
      rewrite parent_abs in Hpar by done. injection Hpar as <-. exists l. split; [|done].
      by apply Forall_app in Hl as [? _]. }
  split.
  - apply Forall_forall. intros x Hx. rewrite dedup_paths_elem in Hx by done. rewrite Forall_forall in Hall. by apply Hall.
  - rewrite dedup_paths_elem by done. set_solver.
Qed.

Lemma protected_elem ws config root name : sandbox_mode config = SandboxMode.WorkspaceWrite ->
  Forall absolute_names (effective_writable_roots config ws) -> abs root ∈ effective_writable_roots config ws ->
  valid_names root -> name ∈ PROTECTED_METADATA_NAMES -> abs (root ++ [name]) ∈ protected_paths ws config.
Proof.
  intros Hm Hall Hin Hroot Hname. unfold protected_paths. rewrite Hm.
  assert (forall n, n ∈ PROTECTED_METADATA_NAMES -> valid_name n) as Hnames.
  { intros n Hn. repeat (apply elem_of_cons in Hn as [->|Hn]); [..|by apply elem_of_nil in Hn];
      (split_and!; [done..|]; by apply (bool_decide_unpack _); vm_compute). }
  rewrite dedup_paths_elem.
  - apply list_elem_of_bind. exists (abs root). split; [|done]. apply list_elem_of_fmap. exists name. split; [|done].
    rewrite join_abs; [done|]. apply Forall_app. split; [done|]. apply Forall_singleton. by apply Hnames.
  - apply Forall_forall. intros x (r & (n & -> & Hn)%list_elem_of_fmap & Hr)%list_elem_of_bind.
    rewrite Forall_forall in Hall. destruct (Hall r Hr) as (l & Hl & ->). exists (l ++ [n]).
    assert (valid_names (l ++ [n])) as Hv by (apply Forall_app; split; [done|]; apply Forall_singleton; by apply Hnames).
    split; [done|]. by apply join_abs.
Qed.

(** The metadata of a writable root nested in the workspace is protected from commands
    but not from the file operations: the environment compares only the name below the
    first root that contains the path, which is the workspace. *)
Theorem nested_root_metadata_unprotected self wc n k m :
  rooted_config (env_workspace_root self) wc (env_sandbox_config self) ->
  sandbox_mode (env_sandbox_config self) = SandboxMode.WorkspaceWrite ->
  abs (wc ++ [n]) ∈ writable_roots (env_sandbox_config self) ->
  valid_names (wc ++ (n :: ".git" :: k) ++ [m]) ->
  canonicalize (abs (wc ++ n :: ".git" :: k)) = Some (abs (wc ++ n :: ".git" :: k)) ->
  canonicalize (abs (wc ++ (n :: ".git" :: k) ++ [m])) = None ->
  is_protected_name n = false ->
  abs (wc ++ [n; ".git"]) ∈ protected_paths (env_workspace_root self) (env_sandbox_config self)
  /\ path_starts_with (abs (wc ++ (n :: ".git" :: k) ++ [m])) (abs (wc ++ [n; ".git"])) = true
  /\ resolve_write_path self (abs (wc ++ (n :: ".git" :: k) ++ [m]))
     = Ok (abs (wc ++ (n :: ".git" :: k) ++ [m])).
Proof using PP.
  intros Hp Hm Hin Hv Hk Hnone Hprot.
  assert (valid_names (wc ++ [n; ".git"])) as Hv2.
  { change (wc ++ (n :: ".git" :: k) ++ [m]) with (wc ++ [n; ".git"] ++ k ++ [m]) in Hv.
    rewrite app_assoc in Hv. by apply Forall_app in Hv as [? _]. }
  split_and!.
  - destruct (effective_root_elem _ _ _ _ Hp Hm Hin) as [Hall Helem].
    change [n; ".git"] with ([n] ++ [".git"]) in Hv2 |- *. rewrite app_assoc in Hv2 |- *.
    apply protected_elem; [done|done|done|by apply Forall_app in Hv2 as [? _]|]. cbn. set_solver.
  - rewrite starts_with_abs by done. apply bool_decide_eq_true_2. exists (k ++ [m]). by rewrite <- app_assoc.
  - by apply workspace_name_writable.
Qed.

(** On Linux and macOS a command may require paths it must not write, which the
    environment accepts, but no launch option reaches the command line. *)
Lemma launch_options_ignored platform program args cwd ws config options options' w :
  platform = OsSandboxPlatform.Linux \/ platform = OsSandboxPlatform.Macos ->
  deny_write (for_platform platform (effective_windows_backend config)) = true
  /\ build_local_sandbox_command_for_platform_with_options platform program args cwd ws config options w
     = build_local_sandbox_command_for_platform_with_options platform program args cwd ws config options' w.
Proof. by intros [-> | ->]. Qed.

End plans.
