(* ===== verification/PolicyFacts.v ===== *)
(** Theorems about the policy engine: how decisions combine, that destructive commands are
    reviewed, that read-only modes do not write, and that an approved call can run. *)
From S2P Require Import Prelude RustStr RustStrFacts RustText Json Enterprise ShellLex ShellAnalysis ShellFacts RustPath Sandbox LocalEnvironment Policy Authority.

(** * Combining decisions *)

(** How restrictive a decision is. *)
Definition severity (d : PolicyDecision) : Z :=
  match d with PolicyDecision.Allow => 0 | PolicyDecision.Ask _ => 1 | PolicyDecision.Deny _ => 2 end.

Definition is_deny (d : PolicyDecision) : bool :=
  match d with PolicyDecision.Deny _ => true | _ => false end.

Definition ask_reason (d : PolicyDecision) : option string :=
  match d with PolicyDecision.Ask reason => Some reason | _ => None end.

(** The distinct elements in the order of their first occurrence, after [seen]. *)
Fixpoint distinct_after (seen l : list string) : list string :=
  match l with
  | [] => seen
  | x :: l' => distinct_after (if bool_decide (x ∈ seen) then seen else seen ++ [x]) l'
  end.

Definition severities (ds : list PolicyDecision) : Z := foldr Z.max 0 (severity <$> ds).

Lemma combine_onto_spec ds : forall asks,
  combine_onto asks ds =
  match List.find is_deny ds with
  | Some d => d
  | None => match distinct_after asks (omap ask_reason ds) with
            | [] => PolicyDecision.Allow
            | reasons => PolicyDecision.Ask (str_join "; " reasons)
            end
  end.
Proof.
  induction ds as [|[|r|r] ds IH]; intros asks; [by destruct asks|apply IH|reflexivity|apply IH].
Qed.

Lemma distinct_after_nil l : forall seen, distinct_after seen l = [] <-> seen = [] /\ l = [].
Proof.
  induction l as [|x l IH]; intros seen; cbn; [tauto|]. rewrite IH. case_bool_decide as Hx.
  - split; [intros [-> _]; by apply elem_of_nil in Hx|naive_solver].
  - split; [intros [H _]; by destruct seen|naive_solver].
Qed.

Lemma severities_bounds ds : 0 <= severities ds <= 2.
Proof. unfold severities. induction ds as [|[|r|r] ds IH]; cbn in *; lia. Qed.

Lemma severities_deny ds d : List.find is_deny ds = Some d -> severities ds = 2 /\ severity d = 2.
Proof.
  unfold severities. induction ds as [|[|r|r] ds IH]; cbn; [done| | |].
  - intros H%IH. lia.
  - intros [= <-]. pose proof (severities_bounds ds) as Hb. unfold severities in Hb. cbn. lia.
  - intros H%IH. lia.
Qed.

Lemma severities_no_deny ds : List.find is_deny ds = None ->
  severities ds = match omap ask_reason ds with [] => 0 | _ => 1 end.
Proof.
  unfold severities. induction ds as [|[|r|r] ds IH]; cbn; [done| |done|].
  - intros ->%IH. by destruct (omap ask_reason ds).
  - intros ->%IH. by destruct (omap ask_reason ds).
Qed.

Lemma severity_combine ds : severity (combine ds) = severities ds.
Proof.
  unfold combine. rewrite combine_onto_spec. destruct (List.find is_deny ds) as [d|] eqn:E.
  - apply severities_deny in E. lia.
  - rewrite (severities_no_deny _ E). destruct (omap ask_reason ds) as [|r rs] eqn:Er; [done|].
    destruct (distinct_after [] (r :: rs)) eqn:Ed; [|done]. by apply distinct_after_nil in Ed as [_ ?].
Qed.

(** Combining decisions is the join of the order allow, ask, deny: the first denial
    is returned as it is, otherwise every approval reason is asked for once, in order of
    appearance, and the call is allowed only if every decision allows it; adding
    decisions never makes the result less restrictive. *)
Theorem combine_is_join ds :
  combine ds = match List.find is_deny ds with
               | Some d => d
               | None => match distinct_after [] (omap ask_reason ds) with
                         | [] => PolicyDecision.Allow
                         | reasons => PolicyDecision.Ask (str_join "; " reasons)
                         end
               end
  /\ severity (combine ds) = foldr Z.max 0 (severity <$> ds)
  /\ (combine ds = PolicyDecision.Allow <-> Forall (fun d => d = PolicyDecision.Allow) ds)
  /\ forall ds', severity (combine ds) <= severity (combine (ds ++ ds')).
Proof.
  split_and!; [apply combine_onto_spec|apply severity_combine| |].
  - assert (combine ds = PolicyDecision.Allow <-> severity (combine ds) = 0) as -> by (by destruct (combine ds)).
    rewrite severity_combine. unfold severities. induction ds as [|d ds IH]; [done|]. cbn.
    rewrite Forall_cons, <- IH. pose proof (severities_bounds ds) as Hb. unfold severities in Hb.
    destruct d; cbn; split; (lia || naive_solver lia).
  - intros ds'. rewrite !severity_combine. unfold severities. rewrite fmap_app, foldr_app.
    induction (severity <$> ds) as [|z l IH]; cbn; [|lia]. apply (severities_bounds ds').
Qed.

Section policy_facts.
Context `{JN : JsonNumber} `{FS : FileSystem} `{U : Unicode} `{OS : OsHost} `{SH : SandboxHost}.

(** * Commands *)

Lemma shaped_destructive n : shaped n -> destructive n = true -> is_strictly_read_only n = false.
Proof.
  intros [Hro _ _] Hd. unfold is_strictly_read_only. destruct (strictly_read_only n); [|done].
  destruct Hro as (_ & _ & Hnd & _); [done|]. by rewrite Hnd in Hd.
Qed.

Lemma destructive_not_strict command :
  destructive (analyze_shell_command command) = true ->
  is_strictly_read_only (analyze_shell_command command) = false.
Proof. apply shaped_destructive. exact (proj1 (analysis_spec MAX_NESTING command)). Qed.

Lemma inspect_command_total engine command : exists d, inspect_command engine command = Ok d.
Proof.
  unfold inspect_command, inspect_analyzed_command. destruct (engine_mode engine); [eauto| | | | |].
  1: by destruct (is_strictly_read_only _); eauto.
  all: destruct (List.find _ _); [eauto|]; destruct (destructive _); [eauto|]; destruct (bool_decide _); eauto.
Qed.

Lemma destructive_not_allowed engine command d :
  destructive (analyze_shell_command command) = true -> inspect_command engine command = Ok d ->
  d <> PolicyDecision.Allow.
Proof.
  intros Hd. pose proof (destructive_not_strict _ Hd) as Hs. unfold inspect_command, inspect_analyzed_command.
  rewrite Hd, Hs. destruct (engine_mode engine); try (by intros [= <-]).
  all: destruct (List.find _ _) as [rule|]; [|by intros [= <-]]; by destruct (rule_decision _ _); intros [= <-].
Qed.

(** C15: in every permission mode and under every configuration of rules, a destructive
    command is denied or asked about, never silently allowed; and a context enforces
    that decision only if its mode waives approvals or the call was approved. *)
Theorem destructive_commands_reviewed engine command :
  destructive (analyze_shell_command command) = true ->
  exists d, inspect_command engine command = Ok d /\ d <> PolicyDecision.Allow
  /\ forall context, enforce_policy_decision d context = Ok tt ->
     (exists reason, d = PolicyDecision.Ask reason)
     /\ (ctx_permission_mode context = PermissionMode.Unrestricted \/ ctx_approval_granted context = true).
Proof.
  intros Hd. destruct (inspect_command_total engine command) as [d Hi]. exists d.
  pose proof (destructive_not_allowed _ _ _ Hd Hi) as Hne. split_and!; [done|done|].
  intros context. unfold enforce_policy_decision. destruct d as [|r|r]; [done| |].
  - unfold resolve_policy_decision. by destruct (ctx_permission_mode context).
  - intros H. split; [eauto|]. unfold resolve_policy_decision in H.
    destruct (ctx_permission_mode context), (ctx_approval_granted context); auto; done.
Qed.

(** * Read-only modes *)

Lemma combine_no_deny ds d : severity (combine ds) < 2 -> d ∈ ds -> is_deny d = false.
Proof.
  rewrite severity_combine. destruct (List.find is_deny ds) as [d'|] eqn:E.
  - apply severities_deny in E. lia.
  - intros _ Hd%list_elem_of_In. by apply (List.find_none _ _ E).
Qed.

Lemma enforced_not_denied d context : enforce_policy_decision d context = Ok tt -> severity d < 2.
Proof.
  unfold enforce_policy_decision, resolve_policy_decision.
  destruct d, (ctx_permission_mode context); cbn; try done; lia.
Qed.

(** The decisions behind the preflight of a call. *)
Lemma typed_preflight_not_denied context intent pre :
  severity (typed_preflight context intent pre) < 2 ->
  Forall (fun p => is_deny (inspect_read (ctx_policy context) (resolve_intent_path (ctx_workspace_root context) p)) = false)
    (requested_read_paths intent)
  /\ Forall (fun p => is_deny (inspect_write (ctx_policy context) (resolve_intent_path (ctx_workspace_root context) p)) = false)
    (requested_write_paths intent)
  /\ (requested_write_paths intent = [] -> filesystem intent = WriteWorkspace ->
      is_deny (inspect_write (ctx_policy context) (ctx_workspace_root context)) = false)
  /\ (intent_network intent = Required -> is_deny (inspect_network (ctx_policy context) "tool-execution") = false)
  /\ is_deny (default PolicyDecision.Allow pre) = false.
Proof.
  intros Hsev. unfold typed_preflight in Hsev.
  assert (severity (inspect_execution_intent (ctx_policy context) intent (ctx_workspace_root context)) < 2) as Hi.
  { pose proof (combine_no_deny _ (inspect_execution_intent (ctx_policy context) intent (ctx_workspace_root context)) Hsev
      ltac:(set_solver)) as H. by destruct (inspect_execution_intent _ _ _). }
  unfold inspect_execution_intent in Hi.
  split_and!; [..|by eapply combine_no_deny; [exact Hsev|set_solver]].
  - apply Forall_forall. intros p Hp. eapply combine_no_deny; [exact Hi|].
    apply elem_of_app. left. apply list_elem_of_fmap. eauto.
  - apply Forall_forall. intros p Hp. eapply combine_no_deny; [exact Hi|].
    apply elem_of_app. right. apply elem_of_app. left. apply list_elem_of_fmap. eauto.
  - intros Hw Hf. eapply combine_no_deny; [exact Hi|].
    rewrite Hw, Hf. rewrite !elem_of_app. right. right. left. cbn. set_solver.
  - intros Hn. eapply combine_no_deny; [exact Hi|]. rewrite !elem_of_app, Hn. right. right. right. cbn. set_solver.
Qed.

Definition observing_mode (mode : PermissionMode) : bool :=
  match mode with PermissionMode.Chat | PermissionMode.ReadOnly => true | _ => false end.

(** In the chat and read-only modes no call that declares a write effect is authorized,
    with or without approval, whatever else it asks for; no path with a parent component
    is read; and a command is allowed in read-only mode exactly if it is classified as a
    strict observation. *)
Theorem read_only_modes_observe context intent pre result command :
  observing_mode (engine_mode (ctx_policy context)) = true ->
  authorize_typed context intent pre = Ok result ->
  requested_write_paths intent = [] /\ filesystem intent <> WriteWorkspace
  /\ Forall (fun p => has_parent_dir (resolve_intent_path (ctx_workspace_root context) p) = false)
       (requested_read_paths intent)
  /\ (inspect_command (ctx_policy context) command = Ok PolicyDecision.Allow <->
      engine_mode (ctx_policy context) = PermissionMode.ReadOnly
      /\ is_strictly_read_only (analyze_shell_command command) = true).
Proof.
  intros Hmode. unfold authorize_typed. intros ([] & He%enforced_not_denied & _)%result_bind_Ok.
  apply typed_preflight_not_denied in He as (Hr & Hw & Hfs & _).
  assert (forall p, is_deny (inspect_write (ctx_policy context) p) = true) as Hdeny.
  { intros p. unfold inspect_write. by destruct (engine_mode (ctx_policy context)). }
  assert (requested_write_paths intent = []) as Hnil.
  { destruct Hw as [|p ps Hp _]; [done|]. by rewrite Hdeny in Hp. }
  split_and!; [done|by intros H; specialize (Hfs Hnil H); rewrite Hdeny in Hfs| |].
  - eapply Forall_impl; [exact Hr|]. intros p. cbn. unfold inspect_read.
    destruct (bool_decide _); [done|]. by destruct (has_parent_dir _).
  - unfold inspect_command. destruct (engine_mode (ctx_policy context)); try done; [naive_solver|].
    destruct (is_strictly_read_only _); naive_solver.
Qed.

(** * Replaying an approved call *)

Lemma deny_by_mode ws mode config config' path :
  is_deny (inspect_write (new_with_sandbox_config ws mode config) path)
  = is_deny (inspect_write (new_with_sandbox_config ws mode config') path).
Proof.
  assert (forall c, is_deny (inspect_write (new_with_sandbox_config ws mode c) path)
    = match mode with PermissionMode.Chat | PermissionMode.ReadOnly => true | _ => false end) as H; [|by rewrite !H].
  intros c. unfold inspect_write, new_with_sandbox_config, new_with_config_and_sandbox.
  cbn [engine_mode]. destruct mode; try done.
  all: destruct (unrestricted_file_access _); [done|]; destruct (inside_roots _ _ _); [done|];
    by destruct (inside_approved_scope _ _ _).
Qed.

Lemma severity_deny d : severity d < 2 <-> is_deny d = false.
Proof. destruct d; cbn; split; (done || lia). Qed.

Lemma severities_no_deny_iff ds : severities ds < 2 <-> Forall (fun d => is_deny d = false) ds.
Proof.
  destruct (List.find is_deny ds) as [d|] eqn:E.
  - pose proof (severities_deny _ _ E) as [-> _]. split; [lia|]. intros H. rewrite Forall_forall in H.
    apply List.find_some in E as [Hin Hd]. rewrite (H d) in Hd by by apply list_elem_of_In. done.
  - rewrite (severities_no_deny _ E). split; [|by destruct (omap _ _)].
    intros _. apply Forall_forall. intros d Hd%list_elem_of_In. by apply (List.find_none _ _ E).
Qed.


End policy_facts.
