(* ===== verification/LinkFs.v ===== *)
(** A concrete file system with symbolic links, on which the theorems about paths are
    applied: it satisfies the laws of [PosixPaths]. *)
From S2P Require Import Prelude RustStr RustStrFacts RustText Enterprise RustPath PathFacts.

(** Directories and files by their real names, and links with the names they lead to. *)
Record LinkFs := {
  fs_directories : list (list string);
  fs_files : list (list string);
  fs_links : list (list string * list string);
}.

Section link_fs.
Variable fs : LinkFs.

Definition fs_nodes : list (list string) := fs_directories fs ++ fs_files fs.

(** Below the real names [current], [name] is a link, a file or directory, or missing. *)
Definition fs_step (current : option (list string)) (name : string) : option (list string) :=
  match current with
  | None => None
  | Some current =>
      let path := current ++ [name] in
      match List.find (fun link => bool_decide (link.1 = path)) (fs_links fs) with
      | Some link => if bool_decide (link.2 ∈ fs_nodes) then Some link.2 else None
      | None => if bool_decide (path ∈ fs_nodes) then Some path else None
      end
  end.

Definition fs_resolve (names : list string) : option (list string) := foldl fs_step (Some []) names.

(** The names of an absolute path without parent components. *)
Definition component_name (c : Component) : option string :=
  match c with Normal name => Some name | _ => None end.
Definition path_names (path : PathBuf) : option (list string) :=
  match components path with
  | RootDir :: rest => mapM component_name rest
  | _ => None
  end.

Definition fs_canonicalize (path : PathBuf) : option PathBuf :=
  abs <$> (path_names path ≫= fs_resolve).

(** Where [open] with [O_CREAT] puts a file: through the link, if the name is one. *)
Definition fs_write_target (path : PathBuf) : option PathBuf :=
  names ← path_names path;
  name ← last names;
  directory ← fs_resolve (take (pred (length names)) names);
  Some (match List.find (fun link => bool_decide (link.1 = directory ++ [name])) (fs_links fs) with
        | Some link => abs link.2
        | None => abs (directory ++ [name])
        end).

(** Every node's parent is a directory, no node is a link, and all names are valid. *)
Definition fs_well_formed : bool :=
  forallb (fun node =>
    bool_decide (valid_names node)
    && bool_decide (node <> [])
    && (bool_decide (take (pred (length node)) node ∈ fs_directories fs)
        || bool_decide (take (pred (length node)) node = []))
    && negb (existsb (fun link => bool_decide (link.1 = node)) (fs_links fs))) fs_nodes.

Definition link_file_system : FileSystem := {| canonicalize := fs_canonicalize; cfg_windows := false |}.

Definition link_os (cwd : PathBuf) (env : string -> option string) : OsHost := {|
  path_exists path := bool_decide (is_Some (fs_canonicalize path));
  is_dir path := bool_decide (fs_canonicalize path = Some "/")
                 || existsb (fun node => bool_decide (fs_canonicalize path = Some (abs node))) (fs_directories fs);
  is_file path := existsb (fun node => bool_decide (fs_canonicalize path = Some (abs node))) (fs_files fs);
  current_dir := Some cwd;
  env_var := env;
  temp_dir := "/tmp";
  canonicalize_error path := "No such file or directory";
  default_hash path := "0000000000000000" |}.

(** * The laws *)

Hypothesis Hwf : fs_well_formed = true.

Lemma node_facts l n : l ++ [n] ∈ fs_nodes ->
  valid_names (l ++ [n]) /\ (l ∈ fs_nodes \/ l = [])
  /\ List.find (fun link => bool_decide (link.1 = l ++ [n])) (fs_links fs) = None.
Proof using Hwf.
  intros Hin. unfold fs_well_formed in Hwf. rewrite forallb_forall in Hwf.
  specialize (Hwf (l ++ [n])). rewrite <- list_elem_of_In in Hwf. specialize (Hwf Hin).
  rewrite !andb_true_iff, orb_true_iff, !bool_decide_eq_true, negb_true_iff in Hwf.
  destruct Hwf as [[[Hv _] Hp] Hl]. rewrite length_app, Nat.add_comm in Hp. cbn [length Nat.add pred] in Hp.
  rewrite take_app_length in Hp. split_and!; [done| |].
  - destruct Hp as [Hp|Hp]; [left|by right]. unfold fs_nodes. set_solver.
  - clear -Hl. induction (fs_links fs) as [|k ks IH]; [done|]. cbn in *.
    destruct (bool_decide (k.1 = l ++ [n])); [done|]. by apply IH.
Qed.

Lemma resolve_snoc l n : fs_resolve (l ++ [n]) = fs_step (fs_resolve l) n.
Proof. unfold fs_resolve. by rewrite foldl_app. Qed.

Lemma resolve_node l : l ∈ fs_nodes \/ l = [] -> fs_resolve l = Some l.
Proof using Hwf.
  induction l as [|n l IH] using rev_ind; [done|]. intros [Hin|Hnil]; [|by destruct l].
  destruct (node_facts _ _ Hin) as (_ & Hl & Hnone). rewrite resolve_snoc, IH by done.
  cbn [fs_step]. by rewrite Hnone, bool_decide_eq_true_2.
Qed.

Lemma resolve_result l r : fs_resolve l = Some r -> r ∈ fs_nodes \/ r = [].
Proof.
  destruct l as [|n l _] using rev_ind; [intros [= <-]; by right|]. rewrite resolve_snoc.
  destruct (fs_resolve l) as [current|]; [|done]. cbn [fs_step].
  destruct (List.find _ _); case_bool_decide; intros H'; naive_solver.
Qed.

Lemma node_valid l : l ∈ fs_nodes \/ l = [] -> valid_names l.
Proof using Hwf.
  intros [Hin| ->]; [|constructor]. destruct l as [|n l _] using rev_ind; [constructor|]. by apply node_facts in Hin as [? _].
Qed.

Lemma path_names_abs l : valid_names l -> path_names (abs l) = Some l.
Proof.
  intros Hl. unfold path_names. rewrite components_abs by done. clear Hl.
  induction l as [|n l IH]; [done|]. cbn. by rewrite IH.
Qed.

Lemma canonicalize_names l : valid_names l -> fs_canonicalize (abs l) = abs <$> fs_resolve l.
Proof. intros Hl. unfold fs_canonicalize. by rewrite path_names_abs. Qed.

Lemma abs_string_inj l l' : valid_names l -> valid_names l' -> abs l = abs l' -> l = l'.
Proof. intros Hl Hl' H. apply abs_inj; [done|done|]. by rewrite H. Qed.

Lemma split_char_snoc c s : split_char c (s +:+ String c "") = split_char c s ++ [""].
Proof.
  induction s as [|a s IH]; cbn; [by rewrite Ascii.eqb_refl|]. rewrite IH.
  destruct (Ascii.eqb a c); [done|]. destruct (split_char c s) eqn:E; [|done].
  exfalso. destruct s as [|b s]; [done|]. cbn in E. destruct (Ascii.eqb b c); [done|]. by destruct (split_char c s).
Qed.

Lemma components_slash path : path <> "" -> components (path +:+ "/") = components path.
Proof.
  intros Hne. unfold components, path_parts. change "/" with (String slash ""). rewrite split_char_snoc.
  assert (is_absolute (path +:+ String slash "") = is_absolute path) as ->.
  { destruct path as [|a path]; [done|]. unfold is_absolute. cbn [String.append]. by rewrite !starts_with_slash. }
  destruct (split_char slash path) as [|first rest] eqn:E.
  { destruct path as [|a path]; [done|]. cbn in E. destruct (Ascii.eqb _ _); [done|]. by destruct (split_char _ path). }
  cbn [app]. destruct (is_absolute path); [|destruct (bool_decide (first = "."))].
  all: rewrite ?filter_app; f_equal; f_equal.
  - by rewrite app_nil_r.
  - by rewrite app_nil_r.
  - rewrite app_comm_cons, filter_app. by rewrite app_nil_r.
Qed.

Lemma link_posix_paths cwd env : @PosixPaths link_file_system (link_os cwd env).
Proof using Hwf.
  constructor; cbn [canonicalize link_file_system path_exists link_os].
  - intros p c. unfold fs_canonicalize. intros (r & Hr & ->)%fmap_Some. exists r. split; [|done].
    apply bind_Some in Hr as (names & _ & Hr). by apply node_valid, (resolve_result names).
  - intros p c. unfold fs_canonicalize at 1. intros (r & Hr & ->)%fmap_Some.
    apply bind_Some in Hr as (names & _ & Hr%resolve_result).
    rewrite canonicalize_names by by apply node_valid. by rewrite resolve_node.
  - intros l cs n Hv Hcs. pose proof Hv as [Hl Hn]%Forall_app. rewrite canonicalize_names by done.
    intros (r & Hr & Habs)%fmap_Some. pose proof (resolve_result _ _ Hr) as Hnode.
    apply abs_string_inj in Habs as <-; [|done|by apply node_valid].
    rewrite !canonicalize_names, !resolve_snoc, Hr by (done || by apply Forall_app).
    by rewrite (resolve_node cs).
  - intros l n Hv. pose proof Hv as [Hl Hn]%Forall_app. rewrite !canonicalize_names, resolve_snoc by done.
    destruct (fs_resolve l); [by eexists|]. intros [? [=]].
  - intros l n Hv. pose proof Hv as [Hl Hn]%Forall_app. rewrite !canonicalize_names by done.
    intros (r & Hr & Habs)%fmap_Some. pose proof (resolve_result _ _ Hr) as Hnode.
    apply abs_string_inj in Habs as <-; [|done|by apply node_valid].
    destruct Hnode as [Hin|Hnil]; [|by destruct l]. apply node_facts in Hin as (_ & Hpar & _).
    by rewrite resolve_node.
  - done.
  - intros p c Hc Hne. unfold fs_canonicalize, path_names in *. by rewrite components_slash in Hc.
  - done.
Qed.

End link_fs.
