(* ===== verification/TextPatch.v ===== *)
(** The text patches of tools/apply_patch_tool.rs: the envelope of file operations, the
    hunks and SEARCH/REPLACE blocks of an update, and their application to a file's text. *)
From S2P Require Import Prelude RustStr RustStrFacts RustText Enterprise RustPath.

Inductive NativePatchOperation :=
| CreateFile (path diff : string)
| UpdateFile (path diff : string)
| DeleteFile (path : string).

(** [NativePatchOperation::path]. *)
Definition operation_path (self : NativePatchOperation) : string :=
  match self with CreateFile path _ | UpdateFile path _ | DeleteFile path => path end.

Definition is_delete (operation : NativePatchOperation) : bool :=
  match operation with DeleteFile _ => true | _ => false end.

Definition no_newline_marker : string := "\ No newline at end of file".

Definition validate_patch_operation_path (path : string) : Result anyhow string :=
  let path := trim path in
  let? _ := ensure (negb (str_is_empty path)
                    && str_all (fun a => negb (Ascii.eqb a (chr cr) || Ascii.eqb a (chr lf)
                                               || Ascii.eqb a Ascii.zero)) path)
    "patch path must be a non-empty single line" in
  let? _ := ensure (negb (has_parent_dir path)) ("patch path cannot contain '..': " +:+ path) in
  Ok path.

Definition validate_native_patch_path (path : string) : Result anyhow string :=
  let? path := validate_patch_operation_path path in
  let? _ := ensure (negb (is_absolute path))
    ("unified diff conversion requires a workspace-relative path: " +:+ path) in
  Ok (replace_char (chr "\") "/" path).

(** * Hunks *)

(** From the first line that starts with ["@@"] on. *)
Fixpoint drop_to_hunk (lines : list string) : option (list string) :=
  match lines with
  | [] => None
  | line :: rest => if starts_with "@@" line then Some lines else drop_to_hunk rest
  end.

Definition extract_native_hunks (diff : string) : option string :=
  let normalized := str_replace crlf lf diff in
  lines ← drop_to_hunk (split_inclusive normalized);
  let hunks := str_join "" lines in
  Some (if ends_with lf hunks then hunks else hunks +:+ lf).

Record TextPatchHunk := {
  old_start : option Z;
  old_lines : list string;
  new_lines : list string;
}.

(** The number after the first word of a hunk's header that starts with a minus. *)
Definition header_start (line : string) : option Z :=
  part ← List.find (starts_with "-") (split_whitespace line);
  value ← head (split_char (chr ",") (trim_start_while (fun a => Ascii.eqb a (chr "-")) part));
  parse_usize value.

Definition push_old (value : string) (hunk : TextPatchHunk) : TextPatchHunk :=
  {| old_start := old_start hunk; old_lines := old_lines hunk ++ [value]; new_lines := new_lines hunk |}.
Definition push_new (value : string) (hunk : TextPatchHunk) : TextPatchHunk :=
  {| old_start := old_start hunk; old_lines := old_lines hunk; new_lines := new_lines hunk ++ [value] |}.

(** A line of a hunk's body. *)
Definition hunk_line (line : string) (hunk : TextPatchHunk) : Result anyhow TextPatchHunk :=
  match strip_prefix " " line, strip_prefix "-" line, strip_prefix "+" line with
  | Some value, _, _ => Ok (push_new value (push_old value hunk))
  | _, Some value, _ => Ok (push_old value hunk)
  | _, _, Some value => Ok (push_new value hunk)
  | _, _, _ => Err (Msg ("invalid unified patch line: " +:+ line))
  end.

(** The loop over the lines of the hunks; [done] are the hunks before the last. *)
Fixpoint parse_hunks (lines : list string) (parsed : list TextPatchHunk)
    : Result anyhow (list TextPatchHunk) :=
  match lines with
  | [] => Ok parsed
  | line :: rest =>
      if starts_with "@@" line then
        parse_hunks rest (parsed ++ [{| old_start := header_start line; old_lines := []; new_lines := [] |}])
      else if String.eqb line no_newline_marker then parse_hunks rest parsed
      else match last parsed with
           | None => Err (Msg "patch content appeared before @@ hunk")
           | Some hunk =>
               let? hunk := hunk_line line hunk in
               parse_hunks rest (removelast parsed ++ [hunk])
           end
  end.

Definition line_offset (text : string) (line_index : Z) : nat :=
  if line_index =? 0 then 0%nat
  else match match_indices lf text !! Z.to_nat (line_index - 1) with
       | Some index => S index
       | None => String.length text
       end.

(** [min_by_key(|index| index.abs_diff(expected))]: the first of the nearest. *)
Fixpoint nearest_from (expected best : nat) (candidates : list nat) : nat :=
  match candidates with
  | [] => best
  | index :: rest =>
      nearest_from expected
        (if Z.abs (Z.of_nat index - Z.of_nat expected) <? Z.abs (Z.of_nat best - Z.of_nat expected)
         then index else best) rest
  end.
Definition nearest (expected : nat) (candidates : list nat) : option nat :=
  match candidates with [] => None | index :: rest => Some (nearest_from expected index rest) end.

(** [old_start.unwrap_or(1).saturating_sub(1)] *)
Definition start_line (hunk : TextPatchHunk) : Z := Z.max (default 1 (old_start hunk) - 1) 0.

Definition apply_hunk (hunk : TextPatchHunk) (updated : string) : Result anyhow string :=
  let old := str_join lf (old_lines hunk) in
  let new := str_join lf (new_lines hunk) in
  let expected := line_offset updated (start_line hunk) in
  if str_is_empty old then Ok (insert_str expected new updated) else
  match nearest expected (match_indices old updated) with
  | Some index => Ok (replace_range index (String.length old) new updated)
  | None =>
      match nearest expected (match_indices (old +:+ lf) updated) with
      | Some index => Ok (replace_range index (String.length (old +:+ lf)) (new +:+ lf) updated)
      | None => Err (Msg "unified patch context was not found in target file")
      end
  end.

Fixpoint apply_hunks (hunks : list TextPatchHunk) (updated : string) : Result anyhow string :=
  match hunks with
  | [] => Ok updated
  | hunk :: rest => let? updated := apply_hunk hunk updated in apply_hunks rest updated
  end.

Definition apply_unified_text_hunks (original diff : string) : Result anyhow string :=
  let? hunks := opt_context (extract_native_hunks diff)
    "update_file diff must contain a unified @@ hunk or SEARCH/REPLACE block" in
  let? parsed := parse_hunks (str_lines hunks) [] in
  apply_hunks parsed original.

(** * SEARCH/REPLACE *)

Definition SEARCH : string := "<<<<<<< SEARCH" +:+ lf.
Definition DIVIDER : string := "=======" +:+ lf.
Definition REPLACE : string := ">>>>>>> REPLACE".

Definition replace_only (search replacement updated : string) : Result anyhow string :=
  match match_indices search updated with
  | [] => Err (Msg "SEARCH block was not found in target file")
  | [index] => Ok (replace_range index (String.length search) replacement updated)
  | _ => Err (Msg "SEARCH block matched more than once in target file")
  end.

(** The loop, [fuel] bounding the markers in [remaining]; the number of replacements. *)
Fixpoint search_replace_fuel (fuel : nat) (remaining updated : string) (replacements : Z)
    : Result anyhow (string * Z) :=
  match fuel, split_once SEARCH remaining with
  | S fuel', Some (_, remaining) =>
      let? (search, remaining) := opt_context (split_once DIVIDER remaining)
        "SEARCH/REPLACE patch is missing ======= divider" in
      let? (replacement, remaining) := opt_context (split_once REPLACE remaining)
        "SEARCH/REPLACE patch is missing >>>>>>> REPLACE marker" in
      let? updated := replace_only search replacement updated in
      search_replace_fuel fuel' remaining updated (replacements + 1)
  | _, _ => Ok (updated, replacements)
  end.

Definition apply_search_replace_patch (original diff : string) : Result anyhow string :=
  let? (updated, replacements) := search_replace_fuel (String.length diff) diff original 0 in
  let? _ := ensure (0 <? replacements) "SEARCH/REPLACE patch did not contain a replacement" in
  Ok updated.

Definition apply_text_patch (original diff : string) : Result anyhow string :=
  let newline := if str_contains crlf original then crlf else lf in
  let normalized := str_replace crlf lf original in
  let diff := str_replace crlf lf diff in
  let? updated :=
    if str_contains "<<<<<<< SEARCH" diff then apply_search_replace_patch normalized diff
    else apply_unified_text_hunks normalized diff in
  Ok (if String.eqb newline crlf then replace_char (chr lf) crlf updated else updated).

(** * New files *)

Fixpoint hunk_contents (lines contents : list string) : Result anyhow (list string) :=
  match lines with
  | [] => Ok contents
  | line :: rest =>
      if starts_with "@@" line || String.eqb line no_newline_marker then hunk_contents rest contents
      else match strip_prefix "+" line with
           | Some line => hunk_contents rest (contents ++ [line])
           | None =>
               if starts_with "-" line then Err (Msg "create_file diff cannot remove existing lines")
               else hunk_contents rest (contents ++ option_list (strip_prefix " " line))
           end
  end.

Fixpoint plus_contents (lines : list string) : Result anyhow (list string) :=
  match lines with
  | [] => Ok []
  | line :: rest =>
      match strip_prefix "+" line with
      | Some line => let? contents := plus_contents rest in Ok (line :: contents)
      | None => Err (Msg "create_file content lines must start with '+'")
      end
  end.

Definition create_file_contents_from_diff (diff : string) : Result anyhow string :=
  let normalized := str_replace crlf lf diff in
  match extract_native_hunks normalized with
  | Some hunks =>
      let? contents := hunk_contents (str_lines hunks) [] in
      Ok (str_join lf contents +:+ lf)
  | None =>
      let? contents := plus_contents (str_lines normalized) in
      Ok match contents with [] => "" | _ => str_join lf contents +:+ lf end
  end.

Definition normalize_native_create_hunks (diff : string) : string :=
  match extract_native_hunks diff with
  | Some hunks => hunks
  | None =>
      let normalized := str_replace crlf lf diff in
      let body := default normalized (strip_suffix lf normalized) in
      if str_is_empty body then "" else
      let lines := str_lines body in
      "@@ -0,0 +1," +:+ pretty (vec_len lines) +:+ " @@" +:+ lf
      +:+ str_join "" ((fun line => (if starts_with "+" line then line else "+" +:+ line) +:+ lf) <$> lines)
      +:+ (if ends_with lf normalized then "" else no_newline_marker +:+ lf)
  end.

Definition native_patch_operation_to_unified_diff (operation : NativePatchOperation)
    : Result anyhow string :=
  let? path := validate_native_patch_path (operation_path operation) in
  let git := "diff --git a/" +:+ path +:+ " b/" +:+ path +:+ lf in
  match operation with
  | DeleteFile _ => Err (Msg "delete_file is executed directly and has no supplied diff")
  | CreateFile _ diff =>
      Ok (git +:+ "new file mode 100644" +:+ lf +:+ "--- /dev/null" +:+ lf +:+ "+++ b/" +:+ path +:+ lf
          +:+ normalize_native_create_hunks diff)
  | UpdateFile _ diff =>
      let? hunks := opt_context (extract_native_hunks diff)
        "update_file diff must contain at least one unified @@ hunk" in
      Ok (git +:+ "--- a/" +:+ path +:+ lf +:+ "+++ b/" +:+ path +:+ lf +:+ hunks)
  end.

(** * The envelope *)

Inductive Directive := DirUpdate | DirAdd | DirDelete.

(** The directive of a line and its path; [None] for a blank line. *)
Definition parse_directive (line : string) : Result anyhow (option (Directive * string)) :=
  match strip_prefix "*** Update File: " line, strip_prefix "*** Add File: " line,
        strip_prefix "*** Delete File: " line with
  | Some path, _, _ => Ok (Some (DirUpdate, trim path))
  | _, Some path, _ => Ok (Some (DirAdd, trim path))
  | _, _, Some path => Ok (Some (DirDelete, trim path))
  | _, _, _ => if str_is_empty (trim line) then Ok None
               else Err (Msg ("unsupported apply patch directive: " +:+ line))
  end.

(** The lines up to the next that starts with ["*** "], and from there on. *)
Fixpoint take_diff (lines : list string) : list string * list string :=
  match lines with
  | [] => ([], [])
  | line :: rest => if starts_with "*** " line then ([], lines)
                    else let '(diff, rest) := take_diff rest in (line :: diff, rest)
  end.

(** [join("\n")] with a final newline unless empty. *)
Definition join_diff (diff_lines : list string) : string :=
  let diff := str_join lf diff_lines in
  if str_is_empty diff then diff else diff +:+ lf.

Fixpoint parse_operations (fuel : nat) (lines : list string) (operations : list NativePatchOperation)
    : Result anyhow (list NativePatchOperation) :=
  match fuel, lines with
  | S fuel, line :: rest =>
      if String.eqb (trim line) "*** End Patch" then
        let? _ := ensure (match operations with [] => false | _ => true end) "apply patch envelope is empty" in
        Ok operations
      else
        let? directive := parse_directive line in
        match directive with
        | None => parse_operations fuel rest operations
        | Some (kind, path) =>
            let? _ := validate_patch_operation_path path in
            match kind with
            | DirDelete => parse_operations fuel rest (operations ++ [DeleteFile path])
            | DirAdd => let '(diff, rest) := take_diff rest in
                        parse_operations fuel rest (operations ++ [CreateFile path (join_diff diff)])
            | DirUpdate => let '(diff, rest) := take_diff rest in
                           parse_operations fuel rest (operations ++ [UpdateFile path (join_diff diff)])
            end
        end
  | _, _ => Err (Msg "apply patch envelope is missing *** End Patch")
  end.

Definition parse_apply_patch_envelope (patch : string) : Result anyhow (option (list NativePatchOperation)) :=
  match str_lines (str_replace crlf lf patch) with
  | first :: lines =>
      if String.eqb (trim first) "*** Begin Patch" then
        let? operations := parse_operations (length lines) lines [] in Ok (Some operations)
      else Ok None
  | [] => Ok None
  end.

(** * Unified diffs for [git apply] *)

Definition unified_diff_deletes_file (patch : string) : bool :=
  existsb (fun line =>
             let line := String.rev (trim_start_while (fun a => Ascii.eqb a (chr cr)) (String.rev line)) in
             String.eqb line "+++ /dev/null" || starts_with "deleted file mode " line)
          (str_lines patch).

(** The path a header line of a diff names. *)
Definition diff_line_path (line : string) : option string :=
  raw ← match strip_prefix "+++ " line with Some raw => Some raw | None => strip_prefix "--- " line end;
  let raw := trim (default raw (head (split_char (Ascii.ascii_of_nat 9) raw))) in
  if String.eqb raw "/dev/null" then None else
  let path := match strip_prefix "a/" raw with Some p => p | None => default raw (strip_prefix "b/" raw) end in
  if str_is_empty path then None else Some path.

Definition unified_diff_paths (patch : string) : list string :=
  foldl (fun paths path => if bool_decide (path ∈ paths) then paths else paths ++ [path]) []
    (omap diff_line_path (str_lines (str_replace crlf lf patch))).
