(* ===== verification/TextPatchFacts.v ===== *)
(** Theorems about text patches: where a hunk lands, round trips, line ends, and limits. *)
From S2P Require Import Prelude RustStr RustStrFacts RustText RustTextFacts Enterprise RustPath TextPatch.

(** * Where a hunk lands *)

Definition distance (expected i : nat) : Z := Z.abs (Z.of_nat i - Z.of_nat expected).

Lemma nearest_from_spec expected best l :
  nearest_from expected best l ∈ best :: l
  /\ forall i, i ∈ best :: l -> distance expected (nearest_from expected best l) <= distance expected i.
Proof.
  revert best. induction l as [|j l IH]; intros best; cbn [nearest_from].
  - split; [apply list_elem_of_here|]. intros i ->%list_elem_of_singleton. done.
  - fold (distance expected j) (distance expected best).
    destruct (Z.ltb_spec (distance expected j) (distance expected best)) as [Hj|Hj].
    + destruct (IH j) as [H1 H2]. split; [set_solver|]. intros i [->|Hi]%elem_of_cons; [|by apply H2].
      pose proof (H2 j ltac:(set_solver)). lia.
    + destruct (IH best) as [H1 H2]. split; [set_solver|].
      intros i [->|[->|Hi]%elem_of_cons]%elem_of_cons; [apply H2; set_solver| |apply H2; set_solver].
      pose proof (H2 best ltac:(set_solver)). lia.
Qed.

Lemma nearest_Some expected l i : nearest expected l = Some i ->
  i ∈ l /\ forall j, j ∈ l -> distance expected i <= distance expected j.
Proof. destruct l as [|j l]; [done|]. intros [= <-]. apply nearest_from_spec. Qed.

Lemma nearest_exact expected l : expected ∈ l -> nearest expected l = Some expected.
Proof.
  intros Hin. destruct (nearest expected l) as [i|] eqn:E; [|by destruct l; [set_solver|]].
  apply nearest_Some in E as [_ H]. apply H in Hin. unfold distance in Hin. f_equal. lia.
Qed.

(** A hunk that names lines of the file replaces the occurrence of its old text that is
    nearest to the line in its header, and fails exactly when the old text does not occur;
    the second search, for the old text with a line end, never finds anything new. *)
Lemma apply_hunk_exact hunk text :
  let old := str_join lf (old_lines hunk) in
  old <> "" ->
  match apply_hunk hunk text with
  | Ok result => exists l r, text = l +:+ old +:+ r
      /\ result = l +:+ str_join lf (new_lines hunk) +:+ r
      /\ forall i, i ∈ match_indices old text ->
           distance (line_offset text (start_line hunk)) (String.length l)
           <= distance (line_offset text (start_line hunk)) i
  | Err _ => forall l r, text <> l +:+ old +:+ r
  end.
Proof.
  cbn zeta. intros Hold. unfold apply_hunk. rewrite (proj2 (str_is_empty_false _) Hold).
  destruct (nearest _ (match_indices (str_join lf (old_lines hunk)) text)) as [i|] eqn:E.
  - apply nearest_Some in E as [Hin Hmin].
    apply match_indices_sound in Hin as (l & r & -> & ->). exists l, r.
    rewrite replace_range_app. done.
  - assert (match_indices (str_join lf (old_lines hunk)) text = []) as Hnone
      by (by destruct (match_indices _ text)).
    apply match_indices_nil in Hnone; [|done].
    assert (match_indices (str_join lf (old_lines hunk) +:+ lf) text = []) as ->.
    { apply match_indices_nil; [by destruct (str_join _ _)|]. rewrite split_once_None in Hnone |- *.
      intros l r ->. apply (Hnone l (lf +:+ r)). by rewrite !str_app_assoc. }
    cbn [nearest]. by apply split_once_None.
Qed.

Lemma line_offset_lines pre post : Forall no_lf pre ->
  line_offset (unlines (pre ++ post)) (Z.of_nat (length pre)) = String.length (unlines pre).
Proof.
  intros Hp. unfold line_offset. destruct pre as [|s pre]; [done|].
  destruct (Z.eqb_spec (Z.of_nat (length (s :: pre))) 0); [cbn in *; lia|].
  rewrite unlines_app. unfold match_indices. change (str_is_empty lf) with false. cbn iota.
  replace (Z.to_nat (Z.of_nat (length (s :: pre)) - 1)) with (length (s :: pre) - 1)%nat by lia.
  rewrite occurrences_lines; [| |done|].
  - cbn [unlines]. rewrite !str_length_app. cbn. lia.
  - done.
  - assert (forall l, (length l <= String.length (unlines l))%nat) as Hl.
    { clear. induction l as [|s l IH]; cbn [length unlines]; [done|]. rewrite !str_length_app. cbn. lia. }
    rewrite str_length_app. pose proof (Hl (s :: pre)). lia.
Qed.

(** * Hunks as lists of lines *)

Inductive line_tag := Kept | Removed | Added.
Definition tagged (p : line_tag * string) : string :=
  match p.1 with Kept => " " | Removed => "-" | Added => "+" end +:+ p.2.
Definition old_of (body : list (line_tag * string)) : list string :=
  snd <$> List.filter (fun p => match p.1 with Added => false | _ => true end) body.
Definition new_of (body : list (line_tag * string)) : list string :=
  snd <$> List.filter (fun p => match p.1 with Removed => false | _ => true end) body.

(** A hunk as a diff prints it. *)
Definition print_hunk (h : string * list (line_tag * string)) : list string := h.1 :: (tagged <$> h.2).
Definition parsed_hunk (h : string * list (line_tag * string)) : TextPatchHunk :=
  {| old_start := header_start h.1; old_lines := old_of h.2; new_lines := new_of h.2 |}.

Lemma parse_body body rest before start olds news :
  parse_hunks ((tagged <$> body) ++ rest) (before ++ [{| old_start := start; old_lines := olds; new_lines := news |}])
  = parse_hunks rest (before ++ [{| old_start := start; old_lines := olds ++ old_of body;
                                    new_lines := news ++ new_of body |}]).
Proof.
  revert olds news. induction body as [|[t l] body IH]; intros olds news.
  - cbn. by rewrite !app_nil_r.
  - change ((tagged <$> (t, l) :: body) ++ rest) with (tagged (t, l) :: ((tagged <$> body) ++ rest)).
    assert (forall h, parse_hunks (tagged (t, l) :: ((tagged <$> body) ++ rest)) (before ++ [h])
      = let? h := hunk_line (tagged (t, l)) h in parse_hunks ((tagged <$> body) ++ rest) (before ++ [h])) as ->.
    { intros h. cbn [parse_hunks].
      assert (starts_with "@@" (tagged (t, l)) = false) as -> by (by destruct t).
      assert (String.eqb (tagged (t, l)) no_newline_marker = false) as -> by (by destruct t).
      by rewrite last_snoc, removelast_last. }
    destruct t; unfold hunk_line, tagged; cbn -[parse_hunks app fmap list_fmap];
      unfold push_new, push_old; cbn [old_start old_lines new_lines]; rewrite IH;
      unfold old_of, new_of; cbn -[parse_hunks]; by rewrite <- ?app_assoc.
Qed.

(** Parsing what was printed gives the hunks back. *)
Lemma parse_print_hunks hunks parsed : Forall (fun h => starts_with "@@" h.1 = true) hunks ->
  parse_hunks (mjoin (print_hunk <$> hunks)) parsed = Ok (parsed ++ (parsed_hunk <$> hunks)).
Proof.
  intros Hh. revert parsed. induction Hh as [|[header body] hunks Hs Hh IH]; intros parsed; [cbn; by rewrite app_nil_r|].
  cbn in Hs. cbn -[parse_hunks]. cbn [parse_hunks]. rewrite Hs, parse_body. cbn [app].
  rewrite IH, <- app_assoc. done.
Qed.

Lemma no_cr_unlines l : Forall plain l -> split_once crlf (unlines l) = None.
Proof.
  intros Hl. assert (str_all (fun a => negb (Ascii.eqb a (chr cr))) (unlines l) = true) as H.
  { induction Hl as [|s l Hs _ IH]; [done|]. cbn [unlines]. rewrite !str_all_app, IH, !andb_true_r.
    revert Hs. apply str_all_weaken. intros a. rewrite negb_orb. by intros [_ ?]%andb_true_iff. }
  apply split_once_None. intros x y E. rewrite E, !str_all_app in H. apply andb_true_iff in H as [_ H]. by cbn in H.
Qed.

Lemma split_inclusive_unlines l : Forall no_lf l -> split_inclusive (unlines l) = (fun s => s +:+ lf) <$> l.
Proof. induction 1 as [|s l Hs _ IH]; [done|]. cbn [unlines]. by rewrite split_inclusive_line, IH. Qed.

Lemma join_ended l : str_join "" ((fun s => s +:+ lf) <$> l) = unlines l.
Proof.
  induction l as [|s [|s' l] IH]; [done|done|].
  change (str_join "" ((fun s => s +:+ lf) <$> s :: s' :: l))
    with ((s +:+ lf) +:+ str_join "" ((fun s => s +:+ lf) <$> s' :: l)).
  by rewrite IH, str_app_assoc.
Qed.

Lemma starts_with_app pat s r : starts_with pat s = true -> starts_with pat (s +:+ r) = true.
Proof.
  unfold starts_with. destruct (strip_prefix pat s) as [x|] eqn:E; [|done].
  apply strip_prefix_Some in E as ->. by rewrite str_app_assoc, strip_prefix_app.
Qed.

Lemma extract_printed header ls : starts_with "@@" header = true -> Forall plain (header :: ls) ->
  extract_native_hunks (unlines (header :: ls)) = Some (unlines (header :: ls)).
Proof.
  intros Hs Hp. unfold extract_native_hunks. rewrite str_replace_none by (by apply no_cr_unlines).
  rewrite split_inclusive_unlines by (eapply Forall_impl; [exact Hp|apply plain_no_lf]).
  cbn -[str_join unlines]. rewrite starts_with_app by done. cbn -[str_join unlines].
  change ((header +:+ lf) :: ((fun s => s +:+ lf) <$> ls)) with ((fun s => s +:+ lf) <$> header :: ls).
  rewrite join_ended. f_equal.
  assert (ends_with lf (unlines (header :: ls)) = true) as ->; [|done].
  rewrite <- join_unlines by done. unfold ends_with. by rewrite strip_suffix_app.
Qed.

Definition print_hunks (hunks : list (string * list (line_tag * string))) : string :=
  unlines (mjoin (print_hunk <$> hunks)).

Definition printable (h : string * list (line_tag * string)) : Prop :=
  starts_with "@@" h.1 = true /\ plain h.1 /\ Forall (fun p => plain p.2) h.2.

Lemma plain_tagged p : plain p.2 -> plain (tagged p).
Proof. by destruct p as [[] s]. Qed.

Lemma printable_plain hunks : Forall printable hunks -> Forall plain (mjoin (print_hunk <$> hunks)).
Proof.
  induction 1 as [|h hunks (Hs & Hh & Hb) _ IH]; [done|]. cbn. constructor; [done|].
  apply Forall_app. split; [|done]. apply Forall_fmap. eapply Forall_impl; [exact Hb|]. intros p. apply plain_tagged.
Qed.

(** The text of printed hunks is applied hunk by hunk. *)
Lemma apply_printed hunks text : hunks <> [] -> Forall printable hunks ->
  apply_unified_text_hunks text (print_hunks hunks) = apply_hunks (parsed_hunk <$> hunks) text.
Proof.
  intros Hne Hh. pose proof (printable_plain _ Hh) as Hp. unfold apply_unified_text_hunks, print_hunks.
  destruct hunks as [|h hunks]; [done|]. pose proof Hh as [(Hs & _) _]%Forall_cons.
  assert (mjoin (print_hunk <$> h :: hunks) = h.1 :: ((tagged <$> h.2) ++ mjoin (print_hunk <$> hunks))) as E by done.
  rewrite E in Hp |- *. rewrite extract_printed by done. cbn [opt_context result_bind]. rewrite str_lines_unlines by done.
  rewrite <- E, parse_print_hunks; [done|]. eapply Forall_impl; [exact Hh|]. by intros ? [? _].
Qed.


(** * Line ends *)

(** C21: A file whose lines end in CR LF is patched as the same file with LF line ends would be,
    and keeps its line ends. *)
Theorem crlf_equivariant text diff :
  str_contains lf text = true -> str_contains crlf text = false ->
  apply_text_patch (to_crlf text) diff = result_map to_crlf (apply_text_patch text diff).
Proof.
  intros Hlf Hcrlf. unfold apply_text_patch. rewrite contains_to_crlf, Hcrlf by done.
  rewrite str_replace_to_crlf. rewrite (str_replace_none crlf lf text).
  2: { unfold str_contains in Hcrlf. by destruct (split_once crlf text) as [[]|]. }
  cbn [String.eqb lf crlf]. destruct (if str_contains _ _ then _ else _) as [updated|e]; done.
Qed.

(** * SEARCH/REPLACE *)

Definition print_block (b : string * string) : string :=
  SEARCH +:+ b.1 +:+ DIVIDER +:+ b.2 +:+ REPLACE +:+ lf.

(** The first divider after the search text and the first end marker after the replacement
    are the block's own. *)
Definition block_ok (b : string * string) : Prop :=
  split_once DIVIDER (b.1 +:+ DIVIDER) = Some (b.1, "")
  /\ split_once REPLACE (b.2 +:+ REPLACE) = Some (b.2, "").

(** [text] becomes [result] by replacing, block after block, the only match of its search text. *)
Inductive edited : list (string * string) -> string -> string -> Prop :=
| edited_nil text : edited [] text text
| edited_cons search replacement blocks l r result :
    match_indices search (l +:+ search +:+ r) = [String.length l] ->
    edited blocks (l +:+ replacement +:+ r) result ->
    edited ((search, replacement) :: blocks) (l +:+ search +:+ r) result.

Lemma replace_only_Ok search replacement text result :
  replace_only search replacement text = Ok result <->
  exists l r, text = l +:+ search +:+ r /\ match_indices search text = [String.length l]
              /\ result = l +:+ replacement +:+ r.
Proof.
  unfold replace_only. split.
  - destruct (match_indices search text) as [|i [|]] eqn:E; [done| |done]. intros [= <-].
    destruct (match_indices_sound search text i) as (l & r & -> & ->); [rewrite E; apply list_elem_of_here|].
    exists l, r. by rewrite replace_range_app.
  - intros (l & r & -> & -> & ->). by rewrite replace_range_app.
Qed.

Lemma blocks_cons b blocks :
  str_join "" (print_block <$> b :: blocks) = print_block b +:+ str_join "" (print_block <$> blocks).
Proof. destruct blocks; cbn -[print_block]; [by rewrite str_app_nil_r|done]. Qed.

Lemma split_next_block b blocks x : x = "" \/ x = lf ->
  split_once SEARCH (x +:+ str_join "" (print_block <$> b :: blocks))
  = Some (x, b.1 +:+ DIVIDER +:+ b.2 +:+ REPLACE +:+ lf +:+ str_join "" (print_block <$> blocks)).
Proof.
  intros Hx. rewrite blocks_cons. unfold print_block at 1. rewrite !str_app_assoc.
  apply split_once_app. by destruct Hx as [-> | ->].
Qed.

Fixpoint replace_all (blocks : list (string * string)) (text : string) : Result anyhow string :=
  match blocks with
  | [] => Ok text
  | b :: blocks => let? text := replace_only b.1 b.2 text in replace_all blocks text
  end.

Lemma replace_all_edited blocks text result : replace_all blocks text = Ok result <-> edited blocks text result.
Proof.
  revert text. induction blocks as [|[search replacement] blocks IH]; intros text; cbn [replace_all fst snd].
  - split; [intros [= <-]; constructor|by inversion_clear 1].
  - rewrite result_bind_Ok. setoid_rewrite IH. setoid_rewrite replace_only_Ok. split.
    + intros (u & (l & r & -> & Hm & ->) & He). by constructor.
    + inversion 1; subst. eauto 10.
Qed.

(** The loop reads back the printed blocks. *)
Lemma search_replace_blocks blocks x text n fuel :
  Forall block_ok blocks -> x = "" \/ x = lf -> (length blocks < fuel)%nat ->
  search_replace_fuel fuel (x +:+ str_join "" (print_block <$> blocks)) text n
  = let? u := replace_all blocks text in Ok (u, n + vec_len blocks).
Proof.
  intros Hb. revert x text n fuel. induction Hb as [|[search replacement] blocks [Hd Hr] _ IH];
    intros x text n fuel Hx Hfuel; (destruct fuel as [|fuel]; [cbn in Hfuel; lia|]).
  - assert (split_once SEARCH (x +:+ "") = None) as Hnone by (by destruct Hx as [-> | ->]).
    cbn [search_replace_fuel fmap list_fmap str_join]. rewrite Hnone. cbn. by rewrite Z.add_0_r.
  - cbn [search_replace_fuel replace_all]. rewrite split_next_block by done. cbn [fst snd] in *.
    rewrite (split_once_app DIVIDER search) by done. cbn [opt_context result_bind].
    rewrite (split_once_app REPLACE replacement) by done. cbn [opt_context result_bind].
    destruct (replace_only search replacement text) as [updated|e]; cbn [result_bind]; [|done].
    rewrite IH by ((by right) || (cbn in Hfuel; lia)). unfold vec_len. cbn [length].
    by rewrite Nat2Z.inj_succ, <- Z.add_1_r, (Z.add_comm (Z.of_nat _)), Z.add_assoc.
Qed.

Lemma blocks_length blocks : (2 * length blocks <= String.length (str_join "" (print_block <$> blocks)))%nat.
Proof.
  induction blocks as [|b blocks IH]; [done|]. rewrite blocks_cons. cbn [length].
  rewrite str_length_app. assert (2 <= String.length (print_block b))%nat; [|lia].
  unfold print_block. rewrite !str_length_app. cbn. lia.
Qed.

(** C19: A patch of SEARCH/REPLACE blocks gives exactly the text in which each block in turn has
    replaced the only match of its search text; when one does not match or matches more than
    once, the whole patch fails. *)
Theorem search_replace_exact blocks text result :
  blocks <> [] -> Forall block_ok blocks ->
  str_contains crlf (str_join "" (print_block <$> blocks)) = false -> str_contains crlf text = false ->
  apply_text_patch text (str_join "" (print_block <$> blocks)) = Ok result <-> edited blocks text result.
Proof.
  intros Hne Hb Hd Ht. unfold apply_text_patch. rewrite Ht. cbn [String.eqb lf crlf].
  assert (forall s, str_contains crlf s = false -> str_replace crlf lf s = s) as Hno.
  { intros s Hs. apply str_replace_none. unfold str_contains in Hs. by destruct (split_once crlf s) as [[]|]. }
  rewrite !Hno by done.
  assert (str_contains "<<<<<<< SEARCH" (str_join "" (print_block <$> blocks)) = true) as ->.
  { apply str_contains_spec. destruct blocks as [|b blocks]; [done|]. rewrite blocks_cons. exists "". by eexists. }
  unfold apply_search_replace_patch.
  rewrite (search_replace_blocks blocks "") by (done || (by left) ||
    (pose proof (blocks_length blocks); destruct blocks; [done|]; cbn [length] in *; lia)).
  rewrite <- replace_all_edited. destruct (replace_all blocks text) as [u|e]; cbn [result_bind]; [|done].
  assert (0 <? 0 + vec_len blocks = true) as -> by (apply Z.ltb_lt; destruct blocks; [done|unfold vec_len; cbn [length]; lia]).
  done.
Qed.

(** * The envelope *)

(** The edits of an envelope, the body of a diff as its lines. *)
Inductive file_edit :=
| AddFile (path : string) (lines : list string)
| UpdateLines (path : string) (lines : list string)
| RemoveFile (path : string).

Definition edit_operation (e : file_edit) : NativePatchOperation :=
  match e with
  | AddFile path lines => CreateFile path (join_diff lines)
  | UpdateLines path lines => UpdateFile path (join_diff lines)
  | RemoveFile path => DeleteFile path
  end.

Definition print_edit (e : file_edit) : list string :=
  match e with
  | AddFile path lines => ("*** Add File: " +:+ path) :: lines
  | UpdateLines path lines => ("*** Update File: " +:+ path) :: lines
  | RemoveFile path => ["*** Delete File: " +:+ path]
  end.

Definition print_envelope (edits : list file_edit) : string :=
  unlines ("*** Begin Patch" :: mjoin (print_edit <$> edits) ++ ["*** End Patch"]).

(** A path the tool accepts as it is, and lines that are no directives. *)
Definition edit_ok (e : file_edit) : Prop :=
  let path := operation_path (edit_operation e) in
  plain path /\ trim path = path /\ is_ok (validate_patch_operation_path path) = true
  /\ Forall (fun line => plain line /\ starts_with "*** " line = false) (tail (print_edit e)).

Lemma take_diff_app lines line rest : Forall (fun l => starts_with "*** " l = false) lines ->
  starts_with "*** " line = true -> take_diff (lines ++ line :: rest) = (lines, line :: rest).
Proof.
  intros Hl Hs. induction Hl as [|l lines Hn _ IH]; cbn [app take_diff]; [by rewrite Hs|]. by rewrite Hn, IH.
Qed.

(** A directive is not the end of the envelope. *)
Lemma trim_directive line : strip_ws line = None -> starts_with "*** End Patch" line = false ->
  String.eqb (trim line) "*** End Patch" = false.
Proof.
  intros Hws Hs. apply String.eqb_neq. intros E. unfold trim in E.
  assert (trim_start line = line) as Hts by (unfold trim_start; by apply strip_all_fixed). rewrite Hts in E.
  destruct (trim_end_prefix line) as [p Hp]. rewrite E in Hp. unfold starts_with in Hs.
  by rewrite Hp, strip_prefix_app in Hs.
Qed.

Lemma plain_app s t : plain s -> plain t -> plain (s +:+ t).
Proof. unfold plain. rewrite str_all_app. by intros -> ->. Qed.

Lemma parse_printed_edits edits fuel operations :
  Forall edit_ok edits -> edits <> [] \/ operations <> [] ->
  (length (mjoin (print_edit <$> edits)) < fuel)%nat ->
  parse_operations fuel (mjoin (print_edit <$> edits) ++ ["*** End Patch"]) operations
  = Ok (operations ++ (edit_operation <$> edits)).
Proof.
  intros He. revert fuel operations. induction He as [|e edits (Hpath & Htrim & Hval & Hlines) He IH];
    intros fuel operations Hne Hfuel; (destruct fuel as [|fuel]; [cbn in Hfuel; lia|]).
  - destruct Hne as [|Hne]; [done|]. cbn. rewrite app_nil_r. by destruct operations.
  - assert (exists path, operation_path (edit_operation e) = path) as [path Hp] by eauto. rewrite Hp in *.
    destruct (validate_patch_operation_path path) as [path'|] eqn:Hv; [|done].
    assert (forall lines, Forall (fun l => plain l /\ starts_with "*** " l = false) lines ->
      take_diff (lines ++ mjoin (print_edit <$> edits) ++ ["*** End Patch"])
      = (lines, mjoin (print_edit <$> edits) ++ ["*** End Patch"])) as Htake.
    { intros lines Hl. assert (Forall (fun l => starts_with "*** " l = false) lines) as Hl'
        by (eapply Forall_impl; [exact Hl|by intros ? []]).
      destruct edits as [|[] edits]; cbn; by apply take_diff_app. }
    change (mjoin (print_edit <$> e :: edits)) with (print_edit e ++ mjoin (print_edit <$> edits)) in *.
    rewrite <- app_assoc. change (edit_operation <$> e :: edits) with (edit_operation e :: (edit_operation <$> edits)).
    rewrite length_app in Hfuel.
    destruct e as [p lines|p lines|p]; cbn in Hp; subst p; cbn [print_edit app parse_operations tail length] in *;
      (rewrite trim_directive by done); unfold parse_directive; rewrite strip_prefix_app, Htrim;
      cbn -[parse_operations]; rewrite Hv; cbn [result_bind]; rewrite ?Htake by done.
    + rewrite IH; [by rewrite <- app_assoc|right; by destruct operations|lia].
    + rewrite IH; [by rewrite <- app_assoc|right; by destruct operations|lia].
    + rewrite IH; [by rewrite <- app_assoc|right; by destruct operations|lia].
Qed.

Lemma print_edit_plain edits : Forall edit_ok edits -> Forall plain (mjoin (print_edit <$> edits)).
Proof.
  induction 1 as [|e edits (Hpath & _ & _ & Hlines) _ IH]; [done|]. cbn. apply Forall_app. split; [|done].
  assert (Forall plain (tail (print_edit e))) as Ht by (eapply Forall_impl; [exact Hlines|by intros ? []]).
  destruct e; cbn in *; constructor; (done || by apply plain_app).
Qed.

(** C20: Reading the envelope that was written for some edits gives the operations of these edits. *)
Theorem envelope_round_trip edits :
  edits <> [] -> Forall edit_ok edits ->
  parse_apply_patch_envelope (print_envelope edits) = Ok (Some (edit_operation <$> edits)).
Proof.
  intros Hne He. pose proof (print_edit_plain _ He) as Hp. unfold parse_apply_patch_envelope, print_envelope.
  assert (Forall plain ("*** Begin Patch" :: mjoin (print_edit <$> edits) ++ ["*** End Patch"])) as Hall.
  { constructor; [done|]. apply Forall_app. by split; [|constructor]. }
  rewrite str_replace_none by (by apply no_cr_unlines). rewrite str_lines_unlines by done.
  change (String.eqb (trim "*** Begin Patch") "*** Begin Patch") with true. cbn iota.
  rewrite parse_printed_edits; [done|done|by left|]. rewrite length_app. cbn. lia.
Qed.

(** * Limits *)

(** Where hunks do not do what a unified diff says: an inserted line is joined to the line it is
    inserted before, a hunk that only removes leaves an empty line, an old text is found
    inside a longer line, and of two overlapping matches the second is never found, even if
    the header names it. *)
Theorem unified_hunks_misapply :
  (forall lines added, Forall plain lines -> plain added ->
     str_contains "<<<<<<< SEARCH" (print_hunks [("@@ -1,0 +1 @@", [(Added, added)])]) = false ->
     apply_text_patch (unlines lines) (print_hunks [("@@ -1,0 +1 @@", [(Added, added)])])
     = Ok (added +:+ unlines lines))
  /\ apply_text_patch (unlines ["one"; "two"; "three"]) (print_hunks [("@@ -2 +1,0 @@", [(Removed, "two")])])
     = Ok (unlines ["one"; ""; "three"])
  /\ apply_text_patch (unlines ["forty two"; "two"]) (print_hunks [("@@", [(Removed, "two"); (Added, "2")])])
     = Ok (unlines ["forty 2"; "two"])
  /\ apply_text_patch (unlines ["x"; "x"; "x"; "end"])
       (print_hunks [("@@ -2,2 +2,2 @@", [(Kept, "x"); (Removed, "x"); (Added, "y")])])
     = Ok (unlines ["x"; "y"; "x"; "end"]).
Proof.
  split_and!; [|vm_compute; reflexivity..]. intros lines added Hl Ha Hsr.
  unfold apply_text_patch. rewrite (str_replace_none crlf lf (unlines lines)) by (by apply no_cr_unlines).
  assert (str_contains crlf (unlines lines) = false) as -> by (unfold str_contains; by rewrite no_cr_unlines).
  assert (printable ("@@ -1,0 +1 @@", [(Added, added)])) as Hp by (split_and!; [done|done|by constructor]).
  rewrite (str_replace_none crlf lf (print_hunks _)) by (apply no_cr_unlines, printable_plain; by constructor).
  rewrite Hsr, apply_printed by (done || by constructor). cbn -[apply_hunk header_start]. unfold parsed_hunk. cbn [fst snd].
  change (header_start "@@ -1,0 +1 @@") with (Some 1). unfold apply_hunk. cbn -[insert_str].
  unfold start_line. cbn -[insert_str]. exact (f_equal Ok (insert_str_app "" added (unlines lines))).
Qed.
