(* ===== verification/FileMutation.v ===== *)
(** file_mutation.rs: batches of prepared file changes, committed all or nothing under one
    lock per file. *)
From S2P Require Import Prelude RustStr RustStrFacts RustText Enterprise RustPath.

(** * The environment *)

(** Files by what identifies them, with their contents. *)
Notation Files := (gmap string string).
Notation FileM := (M (Files * World)).

(** The part of the trait [ExecutionEnvironment] (execution.rs) that touches files. *)
Class ExecutionEnvironment := {
  env_read_file : PathBuf -> FileM string;
  env_write_file : PathBuf -> string -> FileM unit;
  env_delete_file : PathBuf -> FileM unit;
}.

(** An error of kind [NotFound] in the chain. *)
Fixpoint is_not_found_error (e : anyhow) : bool :=
  match e with
  | IoNotFound _ => true
  | WithContext _ source => is_not_found_error source
  | _ => false
  end.

(** [{:#}]: the messages of the chain. *)
Fixpoint error_chain `{Host} (e : anyhow) : string :=
  match e with
  | WithContext message source => message +:+ ": " +:+ error_chain source
  | _ => error_string e
  end.

(** What an environment promises while nobody else changes the files.  [file_identity]
    is the file a path names.  A write that fails may leave anything in its own file. *)
Class EnvironmentLaws `{ExecutionEnvironment} := {
  file_identity : PathBuf -> string;
  read_keeps path : keeps id (env_read_file path);
  read_contents path files w contents s' :
    env_read_file path (files, w) = (Ok contents, s') -> files !! file_identity path = Some contents;
  read_missing path files w e s' :
    env_read_file path (files, w) = (Err e, s') -> is_not_found_error e = true ->
    files !! file_identity path = None;
  write_Ok path contents files w files' w' :
    env_write_file path contents (files, w) = (Ok tt, (files', w')) ->
    files' = <[file_identity path := contents]> files;
  write_Err path contents files w e files' w' :
    env_write_file path contents (files, w) = (Err e, (files', w')) ->
    exists left_behind, files' = partial_alter (fun _ => left_behind) (file_identity path) files;
  delete_Ok path files w files' w' :
    env_delete_file path (files, w) = (Ok tt, (files', w')) ->
    files' = delete (file_identity path) files;
  delete_Err path files w e files' w' :
    env_delete_file path (files, w) = (Err e, (files', w')) -> files' = files;
}.

(** * Mutations *)

Record FileMutationScope := {
  scope_thread_id : Uuid;
  scope_turn_id : Uuid;
  scope_agent_path : string;
  scope_workspace_root : PathBuf;
}.

Inductive FileMutationTarget := WriteContents (contents : string) | DeleteTarget.

Record PreparedFileMutation := {
  mutation_path : PathBuf;
  original : option string;
  target : FileMutationTarget;
}.

(** [Path::extension]: what follows the last dot of the file name, unless it starts it. *)
Definition path_extension (path : PathBuf) : option string :=
  name ← file_name path;
  match split_once "." (String.rev name) with
  | Some (_, "") | None => None
  | Some (extension, _) => Some (String.rev extension)
  end.

Definition normalize_text_encoding (path : PathBuf) (contents : string) : string :=
  let is_powershell_script :=
    match path_extension path with
    | Some extension => eq_ignore_ascii_case extension "ps1"
    | None => false
    end in
  if is_powershell_script && negb (starts_with utf8_bom contents) && utf8_valid contents
  then utf8_bom +:+ contents else contents.

(** [PreparedFileMutation::write] and [PreparedFileMutation::delete]. *)
Definition mutation_write (path : PathBuf) (original : option string) (contents : string)
    : PreparedFileMutation :=
  {| mutation_path := path; original := original;
     target := WriteContents (normalize_text_encoding path contents) |}.
Definition mutation_delete (path : PathBuf) (original : string) : PreparedFileMutation :=
  {| mutation_path := path; original := Some original; target := DeleteTarget |}.

(** The contents a mutation leaves. *)
Definition after (mutation : PreparedFileMutation) : option string :=
  match target mutation with WriteContents contents => Some contents | DeleteTarget => None end.

Definition mutation_path_key `{FileSystem} (path : PathBuf) : string :=
  let value := replace_char (chr "/") "\" path in
  if cfg_windows then str_map to_ascii_lower value else value.

(** [FileMutationBatch::new]: the loop over the set of keys. *)
Fixpoint check_distinct `{FileSystem} (mutations : list PreparedFileMutation) (paths : gset string)
    : Result anyhow unit :=
  match mutations with
  | [] => Ok tt
  | mutation :: rest =>
      let key := mutation_path_key (mutation_path mutation) in
      let? _ := ensure (negb (bool_decide (key ∈ paths)))
        ("file mutation batch contains duplicate path: " +:+ mutation_path mutation) in
      check_distinct rest ({[key]} ∪ paths)
  end.

Record FileMutationBatch := { mutations : list PreparedFileMutation }.

Definition batch_new `{FileSystem} (mutations : list PreparedFileMutation) : Result anyhow FileMutationBatch :=
  let? _ := ensure (match mutations with [] => false | _ => true end) "file mutation batch is empty" in
  let? _ := check_distinct mutations ∅ in
  Ok {| mutations := mutations |}.

(** * Commit *)

Section commit.
Context `{EE : ExecutionEnvironment} `{HO : Host}.

Definition context (message : string) (e : anyhow) : anyhow := WithContext message e.

Definition read_optional (path : PathBuf) : FileM (option string) := fun s =>
  match env_read_file path s with
  | (Ok contents, s') => (Ok (Some contents), s')
  | (Err e, s') =>
      if is_not_found_error e then (Ok None, s')
      else (Err (context ("failed to read mutation target " +:+ path) e), s')
  end.

(** The first loop: every file still has the contents the batch was prepared from. *)
Definition validate (mutation : PreparedFileMutation) : FileM unit :=
  let* current := read_optional (mutation_path mutation) in
  m_ensure (bool_decide (current = original mutation))
    ("file changed after patch validation: " +:+ mutation_path mutation
     +:+ "; reread the latest file and retry").

Definition apply_mutation (mutation : PreparedFileMutation) : FileM unit :=
  match target mutation with
  | WriteContents contents => env_write_file (mutation_path mutation) contents
  | DeleteTarget => env_delete_file (mutation_path mutation)
  end.

Definition restore (mutation : PreparedFileMutation) : FileM unit :=
  match original mutation with
  | Some contents => env_write_file (mutation_path mutation) contents
  | None => env_delete_file (mutation_path mutation)
  end.

(** One step of the rollback: the error it adds, if any. *)
Definition rollback_one (mutation : PreparedFileMutation) : FileM (option string) := fun s =>
  match read_optional (mutation_path mutation) s with
  | (Ok current, s1) =>
      if bool_decide (current = after mutation)
      then match restore mutation s1 with
           | (Ok _, s2) => (Ok None, s2)
           | (Err e, s2) =>
               (Ok (Some ("failed to restore " +:+ mutation_path mutation +:+ ": " +:+ error_chain e)), s2)
           end
      else (Ok (Some ("rollback conflict at " +:+ mutation_path mutation
                      +:+ ": file changed after batch write")), s1)
  | (Err e, s1) =>
      (Ok (Some ("failed to inspect " +:+ mutation_path mutation +:+ " during rollback: "
                 +:+ error_chain e)), s1)
  end.

Fixpoint rollback (applied_reversed : list PreparedFileMutation) : FileM (list string) :=
  match applied_reversed with
  | [] => m_ret []
  | mutation :: rest =>
      let* error := rollback_one mutation in
      let* errors := rollback rest in
      m_ret (option_list error ++ errors)
  end.

(** [rollback_after_error] always fails, with the errors of the rollback, if any. *)
Definition rollback_after_error {A} (applied : list PreparedFileMutation) (original_error : anyhow)
    : FileM A :=
  let* rollback_errors := rollback (reverse applied) in
  m_fail match rollback_errors with
         | [] => context "file mutation batch was rolled back" original_error
         | _ => context ("file mutation batch failed and rollback was incomplete: "
                         +:+ str_join "; " rollback_errors) original_error
         end.

(** The second loop; [applied] are the mutations done so far. *)
Fixpoint apply_all (pending applied : list PreparedFileMutation) : FileM unit :=
  match pending with
  | [] => m_ret tt
  | mutation :: rest => fun s =>
      match apply_mutation mutation s with
      | (Ok _, s') => apply_all rest (applied ++ [mutation]) s'
      | (Err e, s') =>
          rollback_after_error applied
            (context ("failed to commit file mutation " +:+ mutation_path mutation) e) s'
      end
  end.

(** An observer of committed mutations; it keeps a journal elsewhere. *)
Notation Observer := (FileMutationScope -> list PreparedFileMutation -> FileM unit).

(** [FileMutationBatch::commit_observed]; the locks are below. *)
Definition commit_observed (self : FileMutationBatch) (observer : option Observer)
    (scope : option FileMutationScope) : FileM (list PathBuf) :=
  m_ensure (Bool.eqb (bool_decide (is_Some observer)) (bool_decide (is_Some scope)))
    "file mutation observer and scope must be provided together" ;;*
  m_for (mutations self) validate ;;*
  apply_all (mutations self) [] ;;*
  match observer, scope with
  | Some observer, Some scope => fun s =>
      match observer scope (mutations self) s with
      | (Ok _, s') => (Ok tt, s')
      | (Err e, s') =>
          rollback_after_error (mutations self)
            (context "failed to persist the turn file-mutation journal" e) s'
      end
  | None, None => m_ret tt
  | _, _ => m_fail (Panic "observer/scope pairing was validated before writing")
  end ;;*
  m_ret (mutation_path <$> mutations self).

(** [FileMutationBatch::commit]. *)
Definition commit (self : FileMutationBatch) : FileM (list PathBuf) := commit_observed self None None.
End commit.

(** * Locks *)

(** The order in which [lock_mutation_paths] takes the locks. *)
Definition lock_order `{FileSystem} (paths : list PathBuf) : list string :=
  dedup_by String.eqb (sort_by_key id (mutation_path_key <$> paths)).

(** A task inside [lock_mutation_paths], or one that holds its locks and works. *)
Record Locker := { held : list string; wanted : list string }.

(** Tasks take the next lock when nobody else holds it and drop all of them at the end. *)
Inductive lock_step : list Locker -> list Locker -> Prop :=
| step_acquire lockers i taken k rest :
    lockers !! i = Some {| held := taken; wanted := k :: rest |} ->
    (forall j other, lockers !! j = Some other -> k ∉ held other) ->
    lock_step lockers (<[i := {| held := taken ++ [k]; wanted := rest |}]> lockers)
| step_release lockers i taken :
    lockers !! i = Some {| held := taken; wanted := [] |} -> taken <> [] ->
    lock_step lockers (<[i := {| held := []; wanted := [] |}]> lockers).

Definition start_lockers `{FileSystem} (batches : list (list PathBuf)) : list Locker :=
  (fun paths => {| held := []; wanted := lock_order paths |}) <$> batches.

Definition all_finished (lockers : list Locker) : Prop :=
  Forall (fun l => held l = [] /\ wanted l = []) lockers.
