(* ===== verification/FileMutationFacts.v ===== *)
(** Theorems about batches of file changes: all or nothing, no deadlock, and where distinct
    paths of one file defeat both. *)
From S2P Require Import Prelude RustStr RustStrFacts RustText Enterprise RustPath FileMutation.

Section commit.
Context `{EE : ExecutionEnvironment} `{EL : !EnvironmentLaws} `{HO : Host}.

Definition file_of (m : PreparedFileMutation) : string := file_identity (mutation_path m).

(** The mutations concern different files. *)
Definition distinct_files (l : list PreparedFileMutation) : Prop := NoDup (file_of <$> l).

(** Every file of the batch has the contents [g] gives for its mutation. *)
Definition contents_are (g : PreparedFileMutation -> option string) (l : list PreparedFileMutation)
    (files : Files) : Prop := forall m, m ∈ l -> files !! file_of m = g m.

(** [files] and [files'] differ at most at the files of [l]. *)
Definition only_at (l : list PreparedFileMutation) (files files' : Files) : Prop :=
  forall i, i ∉ file_of <$> l -> files' !! i = files !! i.

(** The files after all mutations. *)
Fixpoint write_all (l : list PreparedFileMutation) (files : Files) : Files :=
  match l with
  | [] => files
  | m :: l' => partial_alter (fun _ => after m) (file_of m) (write_all l' files)
  end.

Lemma only_at_refl l files : only_at l files files.
Proof using Type. done. Qed.

Lemma only_at_trans l files files' files'' :
  only_at l files files' -> only_at l files' files'' -> only_at l files files''.
Proof using Type. intros H H' i Hi. by rewrite H', H. Qed.

Lemma only_at_alter l m v files : m ∈ l -> only_at l files (partial_alter (fun _ => v) (file_of m) files).
Proof using Type.
  intros Hm i Hi. apply lookup_partial_alter_ne. intros <-. by apply Hi, list_elem_of_fmap_2.
Qed.

Lemma write_all_other l files i : i ∉ file_of <$> l -> write_all l files !! i = files !! i.
Proof using Type.
  induction l as [|m l IH]; cbn; [done|]. intros [Hne Hi]%not_elem_of_cons.
  by rewrite lookup_partial_alter_ne, IH.
Qed.

Lemma distinct_cons m l : distinct_files (m :: l) <-> file_of m ∉ file_of <$> l /\ distinct_files l.
Proof using Type. unfold distinct_files. cbn. by rewrite NoDup_cons. Qed.

Lemma write_all_contents l files : distinct_files l -> contents_are after l (write_all l files).
Proof using Type.
  induction l as [|m l IH]; [intros _ m ?%elem_of_nil; done|]. intros [Hm Hl]%distinct_cons.
  intros m' [->|Hm']%elem_of_cons; cbn; [by rewrite lookup_partial_alter_eq|].
  rewrite lookup_partial_alter_ne; [by apply IH|]. intros E. apply Hm. rewrite E. by apply list_elem_of_fmap_2.
Qed.

(** * Steps *)

Lemma read_optional_run path files w r files' w' :
  read_optional path (files, w) = (r, (files', w')) ->
  files' = files /\ (forall current, r = Ok current -> files !! file_identity path = current).
Proof using EL.
  unfold read_optional. destruct (env_read_file path (files, w)) as [[c|e] [f1 w1]] eqn:E;
    pose proof (keeps_run id _ _ _ _ _ _ (read_keeps path) E) as Hk; cbn in Hk; subst f1.
  - intros [= <- <- <-]. split; [done|]. intros ? [= <-]. by eapply read_contents.
  - destruct (is_not_found_error e) eqn:He; intros [= <- <- <-]; (split; [done|]); [|done].
    intros ? [= <-]. by eapply read_missing.
Qed.

Lemma apply_mutation_Ok m files w files' w' :
  apply_mutation m (files, w) = (Ok tt, (files', w')) ->
  files' = partial_alter (fun _ => after m) (file_of m) files.
Proof using Type.
  unfold apply_mutation, after. destruct (target m) as [contents|]; [apply write_Ok|apply delete_Ok].
Qed.

Lemma apply_mutation_Err m files w e files' w' :
  apply_mutation m (files, w) = (Err e, (files', w')) ->
  exists left_behind, files' = partial_alter (fun _ => left_behind) (file_of m) files.
Proof using Type.
  unfold apply_mutation. destruct (target m) as [contents|]; [apply write_Err|].
  intros ->%delete_Err. exists (files !! file_of m). symmetry. apply partial_alter_self.
Qed.

Lemma restore_Ok m files w files' w' :
  restore m (files, w) = (Ok tt, (files', w')) ->
  files' = partial_alter (fun _ => original m) (file_of m) files.
Proof using Type. unfold restore. destruct (original m); [apply write_Ok|apply delete_Ok]. Qed.

Lemma restore_Err m files w e files' w' :
  restore m (files, w) = (Err e, (files', w')) ->
  exists left_behind, files' = partial_alter (fun _ => left_behind) (file_of m) files.
Proof using Type.
  unfold restore. destruct (original m); [apply write_Err|].
  intros ->%delete_Err. exists (files !! file_of m). symmetry. apply partial_alter_self.
Qed.

(** One step of the rollback, on a file that still has the batch's contents. *)
Lemma rollback_one_run m files w r files' w' :
  files !! file_of m = after m ->
  rollback_one m (files, w) = (r, (files', w')) ->
  exists error, r = Ok error /\ only_at [m] files files'
    /\ (error = None -> files' !! file_of m = original m).
Proof using EL.
  intros Hm. unfold rollback_one. destruct (read_optional _ _) as [[current|e] [f1 w1]] eqn:E;
    apply read_optional_run in E as [-> Hc].
  - rewrite bool_decide_eq_true_2 by (rewrite <- Hm; symmetry; by apply Hc).
    destruct (restore m (files, w1)) as [[[]|e] [f2 w2]] eqn:Er; intros [= <- <- <-].
    + apply restore_Ok in Er as ->. eexists. split_and!; [done|apply only_at_alter; set_solver|].
      intros _. by rewrite lookup_partial_alter_eq.
    + apply restore_Err in Er as [v ->]. eexists. split_and!; [done|apply only_at_alter; set_solver|done].
  - intros [= <- <- <-]. eexists. by split_and!.
Qed.

Lemma rollback_run l files w r files' w' :
  distinct_files l -> contents_are after l files ->
  rollback l (files, w) = (r, (files', w')) ->
  exists errors, r = Ok errors /\ only_at l files files' /\ (errors = [] -> contents_are original l files').
Proof using EL.
  revert files w r files' w'. induction l as [|m l IH]; intros files w r files' w' Hd Hafter.
  { intros [= <- <- <-]. eexists. split_and!; [done|done|]. by intros _ m ?%elem_of_nil. }
  apply distinct_cons in Hd as [Hfresh Hd]. cbn [rollback]. unfold m_bind at 1.
  destruct (rollback_one m (files, w)) as [r1 [f1 w1]] eqn:E1.
  apply rollback_one_run in E1 as (error & -> & Hat & Hone); [|apply Hafter; set_solver].
  unfold m_bind at 1. destruct (rollback l (f1, w1)) as [r2 [f2 w2]] eqn:E2.
  assert (forall m', m' ∈ l -> file_of m' ∉ file_of <$> [m]) as Hother.
  { intros m' Hm' [E|]%elem_of_cons; [|set_solver]. apply Hfresh. rewrite <- E. by apply list_elem_of_fmap_2. }
  apply IH in E2 as (errors & -> & Hat' & Hall); [|done|].
  2: { intros m' Hm'. rewrite Hat by (by apply Hother). apply Hafter. set_solver. }
  intros [= <- <- <-]. eexists. split_and!; [done| |].
  - intros i Hi. cbn in Hi. apply not_elem_of_cons in Hi as [Hne Hi].
    rewrite Hat', Hat by (done || cbn; set_solver). done.
  - intros Hnil. destruct error; [done|]. cbn in Hnil.
    intros m' [->|Hm']%elem_of_cons; [|by apply Hall].
    rewrite Hat' by done. by apply Hone.
Qed.

(** * The commit *)

(** The error of a batch that could not be undone completely. *)
Definition incomplete (e : anyhow) : bool :=
  match e with
  | WithContext message _ =>
      starts_with "file mutation batch failed and rollback was incomplete" message
  | _ => false
  end.

(** The files once a commit has failed: as they were, up to what a failed write of its own left
    in one file; or, if the error says so, changed in files of the batch. *)
Definition undone (l : list PreparedFileMutation) (files : Files) (e : anyhow) (files' : Files) : Prop :=
  if incomplete e then only_at l files files'
  else files' = files
       \/ exists m left_behind, m ∈ l /\ (exists s e', fst (apply_mutation m s) = Err e')
            /\ files' = partial_alter (fun _ => left_behind) (file_of m) files.

Lemma only_at_mono l k files files' : file_of <$> l ⊆ file_of <$> k -> only_at l files files' -> only_at k files files'.
Proof using Type. intros Hlk H i Hi. apply H. set_solver. Qed.

(** Undoing [applied] after changing at most one other file. *)
Lemma rollback_after_error_run {A} applied error files0 files w r files' w' :
  distinct_files applied -> contents_are original applied files0 -> contents_are after applied files ->
  @rollback_after_error _ _ A applied error (files, w) = (r, (files', w')) ->
  exists e, r = Err e /\ only_at applied files files'
    /\ (incomplete e = false -> contents_are original applied files').
Proof using EL.
  intros Hd Ho Ha. unfold rollback_after_error, m_bind.
  destruct (rollback (reverse applied) (files, w)) as [r1 [f1 w1]] eqn:E.
  assert (forall m, m ∈ reverse applied <-> m ∈ applied) as Hrev by (intros m; by rewrite elem_of_reverse).
  apply rollback_run in E as (errors & -> & Hat & Hall).
  - intros [= <- <- <-]. eexists. split_and!; [done| |].
    + eapply only_at_mono; [|exact Hat]. rewrite fmap_reverse. intros i. by rewrite elem_of_reverse.
    + destruct errors; cbn; [|done]. intros _ m Hm. by apply Hall, Hrev.
  - unfold distinct_files. rewrite fmap_reverse. by rewrite reverse_Permutation.
  - intros m Hm. by apply Ha, Hrev.
Qed.

Lemma apply_all_run pending applied files0 files w r files' w' :
  distinct_files (applied ++ pending) -> contents_are original (applied ++ pending) files0 ->
  only_at applied files0 files -> contents_are after applied files ->
  apply_all pending applied (files, w) = (r, (files', w')) ->
  match r with
  | Ok _ => only_at (applied ++ pending) files0 files' /\ contents_are after (applied ++ pending) files'
  | Err e => undone (applied ++ pending) files0 e files'
  end.
Proof using EL.
  revert applied files w. induction pending as [|m pending IH]; intros applied files w Hd Ho Hat Ha; cbn [apply_all].
  { intros [= <- <- <-]. by rewrite app_nil_r. }
  assert (file_of m ∉ file_of <$> applied) as Hfresh.
  { unfold distinct_files in Hd. rewrite fmap_app in Hd. apply NoDup_app in Hd as (_ & Hd & _).
    intros Hin. apply (Hd _ Hin). cbn. set_solver. }
  destruct (apply_mutation m (files, w)) as [[[]|e] [f1 w1]] eqn:E.
  - apply apply_mutation_Ok in E as ->. rewrite (cons_middle m applied pending), app_assoc in Hd, Ho |- *.
    apply IH; [done|done| |].
    + apply only_at_trans with files; [eapply only_at_mono; [|exact Hat]; set_solver|].
      apply only_at_alter. set_solver.
    + intros m' [Hm'| ->%list_elem_of_singleton]%elem_of_app; [|by rewrite lookup_partial_alter_eq].
      rewrite lookup_partial_alter_ne; [by apply Ha|]. intros Eq. apply Hfresh. rewrite Eq. by apply list_elem_of_fmap_2.
  - pose proof E as Herr. apply apply_mutation_Err in E as [v ->]. intros Hrun.
    assert (distinct_files applied) as Hda by (unfold distinct_files in *; rewrite fmap_app in Hd; by apply NoDup_app in Hd as [? _]).
    eapply rollback_after_error_run in Hrun as (e' & -> & Hat' & Hback); [|done|intros m' Hm'; apply Ho; set_solver|].
    2: { intros m' Hm'. rewrite lookup_partial_alter_ne; [by apply Ha|]. intros Eq. apply Hfresh. rewrite Eq.
         by apply list_elem_of_fmap_2. }
    unfold undone. destruct (incomplete e').
    + apply only_at_trans with files; [eapply only_at_mono; [|exact Hat]; set_solver|].
      apply only_at_trans with (partial_alter (fun _ => v) (file_of m) files); [apply only_at_alter; set_solver|].
      eapply only_at_mono; [|exact Hat']. set_solver.
    + right. exists m, v. split_and!; [set_solver|by exists (files, w), e; rewrite Herr|].
      apply map_eq. intros i. destruct (decide (i ∈ file_of <$> applied)) as [Hi|Hi].
      * apply list_elem_of_fmap in Hi as (m' & -> & Hm').
        rewrite Hback by done. rewrite lookup_partial_alter_ne.
        -- symmetry. apply Ho. set_solver.
        -- intros Eq. apply Hfresh. rewrite Eq. by apply list_elem_of_fmap_2.
      * rewrite Hat' by done. destruct (decide (file_of m = i)) as [<-|Hne].
        -- by rewrite !lookup_partial_alter_eq.
        -- by rewrite !lookup_partial_alter_ne, Hat.
Qed.

Lemma validate_run l files w r files' w' :
  m_for l validate (files, w) = (r, (files', w')) ->
  files' = files /\ match r with Ok _ => contents_are original l files | Err e => incomplete e = false end.
Proof using EL.
  revert w. induction l as [|m l IH]; intros w; cbn [m_for].
  { intros [= <- <- <-]. split; [done|]. by intros m ?%elem_of_nil. }
  unfold validate at 1, m_bind at 1 2. destruct (read_optional _ _) as [[current|e] [f1 w1]] eqn:E.
  - apply read_optional_run in E as [-> Hc]. cbn. case_bool_decide as Hb; cbn.
    + intros [-> Hl]%IH. split; [done|]. destruct r; [|done].
      intros m' [->|Hm']%elem_of_cons; [|by apply Hl]. rewrite <- Hb. by apply Hc.
    + intros [= <- <- <-]. done.
  - pose proof E as E'. apply read_optional_run in E as [-> _]. intros [= <- <- <-]. split; [done|].
    unfold read_optional in E'. destruct (env_read_file _ _) as [[|e'] ?]; [done|].
    destruct (is_not_found_error e'); [done|]. by injection E' as <- _.
Qed.

(** What a commit makes of the files. *)
Definition commit_outcome (l : list PreparedFileMutation) (files : Files) (r : Result anyhow (list PathBuf))
    (files' : Files) : Prop :=
  match r with
  | Ok paths => paths = mutation_path <$> l /\ contents_are original l files /\ files' = write_all l files
  | Err e => undone l files e files'
  end.

Lemma commit_observed_run batch observer scope files w r files' w' :
  distinct_files (mutations batch) ->
  (forall o s l, observer = Some o -> keeps id (o s l)) ->
  commit_observed batch observer scope (files, w) = (r, (files', w')) ->
  commit_outcome (mutations batch) files r files'.
Proof using EL.
  intros Hd Hobs. unfold commit_outcome, commit_observed, m_bind at 1, m_ensure, m_lift.
  destruct (ensure _ _) as [[]|e0] eqn:Hpair.
  2: { intros [= <- <- <-]. unfold ensure in Hpair. destruct (Bool.eqb _ _); [done|]. injection Hpair as <-. by left. }
  unfold m_bind at 1. destruct (m_for _ _ _) as [[[]|e1] [f1 w1]] eqn:Hval; apply validate_run in Hval as [-> Hval].
  2: { intros [= <- <- <-]. unfold undone. rewrite Hval. by left. }
  unfold m_bind at 1. destruct (apply_all _ _ _) as [[[]|e2] [f2 w2]] eqn:Happ.
  all: eapply (apply_all_run _ [] files) in Happ; [|done|done|done|by intros m ?%elem_of_nil]; cbn [app] in Happ.
  2: by intros [= <- <- <-].
  destruct Happ as [Hat Hafter].
  assert (f2 = write_all (mutations batch) files) as Hf2.
  { apply map_eq. intros i. destruct (decide (i ∈ file_of <$> mutations batch)) as [Hi|Hi].
    - apply list_elem_of_fmap in Hi as (m & -> & Hm). rewrite Hafter by done. symmetry. by apply write_all_contents.
    - by rewrite Hat, write_all_other. }
  destruct observer as [o|], scope as [sc|]; cbn [m_bind m_fail m_ret]; unfold m_bind; try (cbn in Hpair; done).
  - destruct (o sc (mutations batch) (f2, w2)) as [[[]|e3] [f3 w3]] eqn:Ho;
      pose proof (keeps_run id _ _ _ _ _ _ (Hobs o sc (mutations batch) eq_refl) Ho) as Hk; cbn in Hk; subst f3.
    + by intros [= <- <- <-].
    + destruct (rollback_after_error _ _ _) as [r4 [f4 w4]] eqn:Hr.
      eapply rollback_after_error_run in Hr as (e' & -> & Hat' & Hback); [|done|exact Hval|done].
      intros [= <- <- <-]. unfold undone. destruct (incomplete e').
      * by apply only_at_trans with f2.
      * left. apply map_eq. intros i. destruct (decide (i ∈ file_of <$> mutations batch)) as [Hi|Hi].
        -- apply list_elem_of_fmap in Hi as (m & -> & Hm). rewrite Hback by done. symmetry. by apply Hval.
        -- by rewrite Hat', Hat.
  - by intros [= <- <- <-].
Qed.

(** ** Whatever the files are *)

Lemma rollback_after_error_Err {A} applied error s : exists e s', @rollback_after_error _ _ A applied error s = (Err e, s').
Proof using Type.
  unfold rollback_after_error, m_bind. destruct (rollback (reverse applied) s) as [[errors|e] s']; by eexists _, _.
Qed.

Lemma apply_all_Ok pending applied files w files' w' :
  apply_all pending applied (files, w) = (Ok tt, (files', w')) ->
  files' = foldl (fun files m => partial_alter (fun _ => after m) (file_of m) files) files pending.
Proof using Type.
  revert applied files w. induction pending as [|m pending IH]; intros applied files w; cbn [apply_all foldl].
  { by intros [= <- <-]. }
  destruct (apply_mutation m (files, w)) as [[[]|e] [f1 w1]] eqn:E.
  - apply apply_mutation_Ok in E as ->. apply IH.
  - destruct (rollback_after_error_Err (A := unit) applied
      (context ("failed to commit file mutation " +:+ mutation_path m) e) (f1, w1)) as (e' & s' & ->). done.
Qed.

(** A commit that succeeds has applied the mutations in order, even to the same file. *)
Lemma commit_observed_Ok batch observer scope files w paths files' w' :
  (forall o s l, observer = Some o -> keeps id (o s l)) ->
  commit_observed batch observer scope (files, w) = (Ok paths, (files', w')) ->
  files' = foldl (fun files m => partial_alter (fun _ => after m) (file_of m) files) files (mutations batch).
Proof using EL.
  intros Hobs. unfold commit_observed. rewrite m_bind_Ok. intros (u0 & [f0 w0] & [= _ <- <-] & H).
  apply m_bind_Ok in H as (u1 & [f1 w1] & [-> _]%validate_run & H).
  apply m_bind_Ok in H as ([] & [f2 w2] & Happ & H). apply apply_all_Ok in Happ as ->.
  apply m_bind_Ok in H as (u3 & [f3 w3] & Ho & [= _ <- _]).
  destruct observer as [o|], scope as [sc|]; try done; [|by injection Ho].
  destruct (o sc (mutations batch) _) as [[[]|e] [f4 w4]] eqn:E;
    pose proof (keeps_run id _ _ _ _ _ _ (Hobs o sc (mutations batch) eq_refl) E) as Hk; cbn in Hk; subst f4.
  - by injection Ho as _ <- _.
  - destruct (rollback_after_error_Err (A := unit) (mutations batch)
      (context "failed to persist the turn file-mutation journal" e)
      (foldl (fun files m => partial_alter (fun _ => after m) (file_of m) files) files (mutations batch), w4))
      as (e' & s' & Hr). by rewrite Hr in Ho.
Qed.

(** A batch of changes to different files is committed all or nothing.  On success every file
    had the contents the batch was prepared from and has the contents it asks for, and no
    other file changed.  On failure the files are as they were, except that a write of the
    batch that failed may have damaged its own file; otherwise the error says that the rollback
    was incomplete, and then too only files of the batch changed. *)
Theorem file_batch_all_or_nothing batch observer scope files w r files' w' :
  distinct_files (mutations batch) ->
  (forall o s l, observer = Some o -> keeps id (o s l)) ->
  commit_observed batch observer scope (files, w) = (r, (files', w')) ->
  commit_outcome (mutations batch) files r files'.
Proof using EL. apply commit_observed_run. Qed.
End commit.

(** * Locks *)

Definition before (s t : string) : Prop := String.leb s t /\ s <> t.

Lemma before_trans s t u : before s t -> before t u -> before s u.
Proof.
  intros [Hst Hne] [Htu _]. split; [by etrans|]. intros ->. apply Hne. by apply (anti_symm String.le).
Qed.

Lemma dedup_after_sorted kept l : StronglySorted (key_le id) (kept :: l) ->
  StronglySorted before (kept :: dedup_after String.eqb kept l).
Proof.
  revert kept. induction l as [|y l IH]; intros kept Hs; cbn [dedup_after]; [by repeat constructor|].
  apply StronglySorted_inv in Hs as [Hs Hk]. apply Forall_cons in Hk as [Hky Hk].
  destruct (String.eqb_spec y kept) as [->|Hne].
  - apply IH. by constructor; [apply StronglySorted_inv in Hs as [? _]|].
  - apply IH in Hs. constructor; [done|]. apply StronglySorted_inv in Hs as [_ Hy].
    constructor; [by split; [|intros ->]|]. eapply Forall_impl; [exact Hy|]. intros z Hyz.
    eapply before_trans; [|exact Hyz]. by split; [|intros ->].
Qed.

Lemma lock_order_sorted `{FileSystem} paths : StronglySorted before (lock_order paths).
Proof.
  unfold lock_order. pose proof (sort_by_key_sorted id (mutation_path_key <$> paths)) as Hs.
  destruct (sort_by_key id _) as [|x l]; [constructor|]. by apply dedup_after_sorted.
Qed.

Definition lock_work (lockers : list Locker) : nat :=
  sum_list_with (fun l => 2 * length (wanted l) + (if held l then 0 else 1))%nat lockers.

Lemma sum_list_insert {A} (f : A -> nat) l i x y : l !! i = Some y ->
  (sum_list_with f (<[i:=x]> l) + f y = sum_list_with f l + f x)%nat.
Proof.
  revert i. induction l as [|z l IH]; intros [|i] Hl; try done.
  - injection Hl as ->. cbn. lia.
  - change (<[S i:=x]> (z :: l)) with (z :: <[i:=x]> l). cbn [sum_list_with]. pose proof (IH i Hl). lia.
Qed.

Lemma lock_step_work lockers lockers' : lock_step lockers lockers' -> (lock_work lockers' < lock_work lockers)%nat.
Proof.
  destruct 1 as [lockers i taken k rest Hi _|lockers i taken Hi Hne]; unfold lock_work.
  - pose proof (sum_list_insert (fun l => 2 * length (wanted l) + (if held l then 0 else 1))%nat lockers i
      {| held := taken ++ [k]; wanted := rest |} _ Hi) as E.
    cbn [held wanted length] in E. destruct taken; cbn [app] in *; lia.
  - pose proof (sum_list_insert (fun l => 2 * length (wanted l) + (if held l then 0 else 1))%nat lockers i
      {| held := []; wanted := [] |} _ Hi) as E.
    destruct taken; [done|]. cbn [held wanted length] in E. lia.
Qed.

(** What holds of the tasks at all times: each takes its locks in the common order, and no lock
    has two holders. *)
Record lockers_ok (lockers : list Locker) : Prop := {
  in_order i l : lockers !! i = Some l -> StronglySorted before (held l ++ wanted l);
  exclusive i j l l' k : lockers !! i = Some l -> lockers !! j = Some l' -> k ∈ held l -> k ∈ held l' -> i = j;
}.

Lemma lockers_ok_start `{FileSystem} batches : lockers_ok (start_lockers batches).
Proof.
  unfold start_lockers. split.
  - intros i l. rewrite list_lookup_fmap. destruct (batches !! i); [|done]. intros [= <-]. apply lock_order_sorted.
  - intros i j l l' k. rewrite list_lookup_fmap. destruct (batches !! i); [|done]. intros [= <-] _. by intros ?%elem_of_nil.
Qed.

Lemma lockers_ok_step lockers lockers' : lock_step lockers lockers' -> lockers_ok lockers -> lockers_ok lockers'.
Proof.
  destruct 1 as [lockers i taken k rest Hi Hfree|lockers i taken Hi Hne]; intros [Hord Hex]; split.
  - intros j l [(-> & <- & _)|(Hne & Hl)]%list_lookup_insert_Some; [|by eapply Hord].
    cbn. rewrite <- app_assoc. apply (Hord _ _ Hi).
  - intros j1 j2 l1 l2 x [(-> & <- & _)|(Hn1 & H1)]%list_lookup_insert_Some
      [(-> & <- & _)|(Hn2 & H2)]%list_lookup_insert_Some Hx1 Hx2; [done| | |by eapply Hex].
    + apply elem_of_app in Hx1 as [Hx1|Hx1]; [by eapply (Hex j1 j2)|].
      apply list_elem_of_singleton in Hx1 as ->. by destruct (Hfree j2 l2).
    + apply elem_of_app in Hx2 as [Hx2|Hx2]; [by eapply (Hex j1 j2)|].
      apply list_elem_of_singleton in Hx2 as ->. by destruct (Hfree j1 l1).
  - intros j l [(-> & <- & _)|(Hn & Hl)]%list_lookup_insert_Some; [constructor|by eapply Hord].
  - intros j1 j2 l1 l2 x [(-> & <- & _)|(Hn1 & H1)]%list_lookup_insert_Some
      [(-> & <- & _)|(Hn2 & H2)]%list_lookup_insert_Some Hx1 Hx2; try by eapply Hex.
    all: by apply elem_of_nil in Hx1 || by apply elem_of_nil in Hx2.
Qed.

Lemma exists_last (l : list string) : l <> [] -> exists x, x ∈ l /\ forall y, y ∈ l -> String.leb y x.
Proof.
  induction l as [|x l IH]; [done|]. intros _. destruct (decide (l = [])) as [->|Hl].
  - exists x. split; [set_solver|]. by intros y ->%list_elem_of_singleton.
  - destruct (IH Hl) as (m & Hm & Hmax). destruct (total String.le x m) as [Hx|Hx].
    + exists m. split; [set_solver|]. intros y [->|Hy]%elem_of_cons; auto.
    + exists x. split; [set_solver|]. intros y [->|Hy]%elem_of_cons; [done|]. etrans; [by apply Hmax|done].
Qed.

Lemma sorted_middle x l r y : StronglySorted before (l ++ r) -> x ∈ l -> y ∈ r -> before x y.
Proof.
  induction l as [|z l IH]; cbn; [by intros _ ?%elem_of_nil|]. intros [Hs Hz]%StronglySorted_inv.
  rewrite Forall_forall in Hz. intros [->|Hx]%elem_of_cons Hy; [apply Hz; set_solver|by apply IH].
Qed.

Lemma lockers_progress lockers : lockers_ok lockers -> all_finished lockers \/ exists lockers', lock_step lockers lockers'.
Proof.
  intros [Hord _].
  destruct (decide (Exists (fun l => wanted l = [] /\ held l <> []) lockers)) as [Hrel|Hrel].
  { right. apply Exists_exists in Hrel as ([taken want] & Hl & Hw & Hh). cbn in *. subst want.
    apply list_elem_of_lookup in Hl as [i Hi]. eexists. by eapply step_release. }
  assert (forall i l, lockers !! i = Some l -> wanted l = [] -> held l = []) as Hdone.
  { intros i [[|h t] want] Hi Hw; [done|]. exfalso. apply Hrel, Exists_exists. eexists. split; [by eapply list_elem_of_lookup_2|].
    by split. }
  destruct (decide (omap (fun l => head (wanted l)) lockers = [])) as [Hnone|Hsome].
  - left. apply Forall_forall. intros l Hl. apply list_elem_of_lookup in Hl as [i Hi].
    assert (wanted l = []) as Hw.
    { destruct (wanted l) as [|k rest] eqn:E; [done|]. exfalso. apply (elem_of_nil k). rewrite <- Hnone.
      apply list_elem_of_omap. exists l. split; [by eapply list_elem_of_lookup_2|by rewrite E]. }
    split; [by eapply Hdone|done].
  - right. apply exists_last in Hsome as (k & Hk & Hmax). apply list_elem_of_omap in Hk as ([taken want] & Hl & Hhead).
    destruct want as [|k' rest]; [done|]. injection Hhead as ->. apply list_elem_of_lookup in Hl as [i Hi].
    destruct (decide (Exists (fun l => k ∈ held l) lockers)) as [Hheld|Hfree].
    + exfalso. apply Exists_exists in Hheld as (l & Hl & Hkl). apply list_elem_of_lookup in Hl as [j Hj].
      destruct (wanted l) as [|k2 rest2] eqn:Ew; [apply Hdone in Hj; [rewrite Hj in Hkl; by apply elem_of_nil in Hkl|done]|].
      pose proof (Hord j l Hj) as Hs. rewrite Ew in Hs.
      destruct (sorted_middle k (held l) (k2 :: rest2) k2 Hs Hkl ltac:(set_solver)) as [Hle Hne].
      apply Hne, (anti_symm String.le); [done|]. apply Hmax. apply list_elem_of_omap.
      exists l. split; [by eapply list_elem_of_lookup_2|by rewrite Ew].
    + eexists. eapply step_acquire; [done|]. intros j other Hj Hin. apply Hfree, Exists_exists.
      exists other. split; [by eapply list_elem_of_lookup_2|done].
Qed.

(** C17: The per-file locks exclude each other and cannot deadlock: however the tasks that commit
    batches interleave, no lock has two holders, some task can go on until all of them are
    done, and every step brings that end nearer. *)
Theorem file_locks_make_progress `{FileSystem} batches lockers :
  rtc lock_step (start_lockers batches) lockers ->
  (forall i j l l' k, lockers !! i = Some l -> lockers !! j = Some l' -> k ∈ held l -> k ∈ held l' -> i = j)
  /\ (all_finished lockers \/ exists lockers', lock_step lockers lockers')
  /\ forall lockers', lock_step lockers lockers' -> (lock_work lockers' < lock_work lockers)%nat.
Proof.
  intros Hreach. assert (lockers_ok lockers) as Hok.
  { pose proof (lockers_ok_start batches) as H0. induction Hreach; [done|]. apply IHHreach. by eapply lockers_ok_step. }
  split_and!; [apply Hok|by apply lockers_progress|apply lock_step_work].
Qed.
