(* ===== verification/PatchTool.v ===== *)
(** The apply_patch tool (tools/apply_patch_tool.rs): authorization and preparation of the
    operations of a patch, their commit as one batch, and what a patch then does to the
    files. *)
From S2P Require Import Prelude RustStr RustStrFacts RustText RustTextFacts Json Enterprise ShellLex ShellAnalysis RustPath Sandbox LocalEnvironment Policy Authority TextPatch FileMutation FileMutationFacts.

Inductive ApplyPatchInput :=
| Portable (patch : string)
| Structured (operation : NativePatchOperation).

Definition normalize_workspace_path (workspace_root : PathBuf) (path : string) : Result anyhow PathBuf :=
  let? _ := ensure (negb (has_parent_dir path)) ("workspace path cannot contain '..': " +:+ path) in
  Ok (if is_absolute path then path else path_join workspace_root path).

(** [execution_intent]: the paths the call asks to write. *)
Definition patch_execution_intent (input : ApplyPatchInput) : ToolExecutionIntent :=
  workspace_mutation
    match input with
    | Structured operation => [operation_path operation]
    | Portable patch =>
        match parse_apply_patch_envelope patch with
        | Ok (Some operations) => operation_path <$> operations
        | _ => unified_diff_paths patch
        end
    end.

(** [authorization_preflight]: a call that deletes a file asks. *)
Definition patch_authorization_preflight (input : ApplyPatchInput) : option PolicyDecision :=
  let deletes_file :=
    match input with
    | Structured operation => is_delete operation
    | Portable patch =>
        match parse_apply_patch_envelope patch with
        | Ok (Some operations) => existsb is_delete operations
        | _ => false
        end || unified_diff_deletes_file patch
    end in
  if deletes_file
  then Some (PolicyDecision.Ask "Deleting a file through apply_patch requires approval.") else None.

Record NativePatchReport := { report_operation : string; report_bytes : Z }.

Record NativePatchBatchOutcome := {
  outputs : list string;
  reports : list NativePatchReport;
  changed_paths : list string;
}.

(** The part of the tool's context outside Authority.v. *)
Record PatchContext := {
  tool_context : ToolInvocationContext;
  file_mutation_observer : option (FileMutationScope -> list PreparedFileMutation -> FileM unit);
  patch_thread_id : option Uuid;
  patch_turn_id : option Uuid;
  patch_agent_path : string;
}.

(** * Output of processes (tools.rs) *)

Definition looks_like_sandbox_denial (stderr : string) : bool :=
  let stderr := str_map to_ascii_lower stderr in
  existsb (fun pattern => str_contains pattern stderr)
    ["access is denied"; "access denied"; "access to the path"; "permissiondenied"; "permission denied";
     "operation not permitted"; "read-only file system"; "unauthorized"; "unauthorizedaccessexception";
     "network is unreachable"; "network access is denied"; "blocked by sandbox"].

(** Half of [max_chars] from the head and half from the tail. *)
Definition truncate (value : string) (max_chars : nat) : string :=
  let characters := str_chars value in
  let total_chars := length characters in
  if (total_chars <=? max_chars)%nat then value
  else
    let head_chars := (max_chars / 2)%nat in
    let tail_chars := (max_chars - head_chars)%nat in
    str_join "" (take head_chars characters)
    +:+ lf +:+ lf +:+ "[" +:+ pretty (total_chars - max_chars)%nat +:+ " characters omitted]" +:+ lf +:+ lf
    +:+ str_join "" (drop (total_chars - tail_chars) characters).

(** [ExecResult], its output decoded as text. *)
Record ExecResult := {
  exec_stdout : string;
  exec_stderr : string;
  exec_exit_code : option Z;
  exec_success : bool;
}.

(** [{:?}] of an exit code. *)
Definition debug_exit_code (code : option Z) : string :=
  match code with Some code => "Some(" +:+ pretty code +:+ ")" | None => "None" end.

(** [ExecutionEnvironment::apply_patch] starts the program git. *)
Class PatchProcess := { git_apply : string -> FileM ExecResult }.

Section tool.
Context `{FS : FileSystem} `{OS : OsHost} `{SH : SandboxHost} `{UC : Unicode} `{JN : JsonNumber}
  `{HO : Host} `{EE : ExecutionEnvironment} `{GP : PatchProcess}.

Definition file_mutation_scope (ctx : PatchContext) : Result anyhow (option FileMutationScope) :=
  match file_mutation_observer ctx, patch_thread_id ctx, patch_turn_id ctx with
  | Some _, Some thread_id, Some turn_id =>
      Ok (Some {| scope_thread_id := thread_id; scope_turn_id := turn_id;
                  scope_agent_path := patch_agent_path ctx;
                  scope_workspace_root := ctx_workspace_root (tool_context ctx) |})
  | Some _, _, _ => Err (Msg "file mutation journaling requires thread and turn identity")
  | None, _, _ => Ok None
  end.

Definition commit_file_mutations (ctx : PatchContext) (batch : FileMutationBatch) : FileM (list PathBuf) :=
  let* scope := m_lift (file_mutation_scope ctx) in
  commit_observed batch (file_mutation_observer ctx) scope.

(** The new contents of an updated file: its text without the byte order mark is patched. *)
Definition updated_contents (logical_path : string) (original_bytes diff : string) : Result anyhow string :=
  let text := default original_bytes (strip_prefix utf8_bom original_bytes) in
  let? _ := ensure (utf8_valid text) ("update_file target is not UTF-8 text: " +:+ logical_path) in
  let? updated := map_err (context ("failed to apply update_file patch to " +:+ logical_path))
                    (apply_text_patch text diff) in
  let? _ := ensure (negb (String.eqb updated text)) ("update_file patch made no changes: " +:+ logical_path) in
  Ok (if starts_with utf8_bom original_bytes then utf8_bom +:+ updated else updated).

(** The [match] on the operation, given the file's contents. *)
Definition prepare_mutation (operation : NativePatchOperation) (logical_path : string) (target : PathBuf)
    (original : option string) : Result anyhow (PreparedFileMutation * string * NativePatchReport) :=
  match operation with
  | DeleteFile _ =>
      let? original := opt_context original ("delete_file target does not exist: " +:+ logical_path) in
      Ok (mutation_delete target original, "Deleted " +:+ target,
          {| report_operation := "delete_file"; report_bytes := 0 |})
  | CreateFile _ diff =>
      let? _ := ensure (negb (bool_decide (is_Some original)))
        ("create_file target already exists: " +:+ logical_path) in
      let? contents := create_file_contents_from_diff diff in
      let contents := normalize_text_encoding target contents in
      Ok (mutation_write target None contents, "Created " +:+ target,
          {| report_operation := "create_file"; report_bytes := str_len contents |})
  | UpdateFile _ diff =>
      let? original_bytes := opt_context original ("update_file target does not exist: " +:+ logical_path) in
      let? contents := updated_contents logical_path original_bytes diff in
      let contents := normalize_text_encoding target contents in
      Ok (mutation_write target (Some original_bytes) contents, "Updated " +:+ target,
          {| report_operation := "update_file"; report_bytes := str_len contents |})
  end.

(** The path of an operation, once the policy lets it be changed. *)
Definition authorize_operation (ctx : ToolInvocationContext) (operation : NativePatchOperation)
    : Result anyhow (string * PathBuf) :=
  let? logical_path := validate_patch_operation_path (operation_path operation) in
  let? target := normalize_workspace_path (ctx_workspace_root ctx) logical_path in
  let? _ := enforce_policy_decision (inspect_write (ctx_policy ctx) target) ctx in
  let? _ := if is_delete operation
            then enforce_policy_decision
                   (PolicyDecision.Ask ("Deleting workspace file " +:+ target +:+ " requires approval.")) ctx
            else Ok tt in
  Ok (logical_path, target).

Definition prepare_operation (ctx : ToolInvocationContext) (operation : NativePatchOperation)
    : FileM (PreparedFileMutation * string * NativePatchReport) :=
  let* (logical_path, target) := m_lift (authorize_operation ctx operation) in
  let* original := read_optional target in
  m_lift (prepare_mutation operation logical_path target original).

Fixpoint prepare_operations (ctx : ToolInvocationContext) (operations : list NativePatchOperation)
    : FileM (list (PreparedFileMutation * string * NativePatchReport)) :=
  match operations with
  | [] => m_ret []
  | operation :: rest =>
      let* prepared := prepare_operation ctx operation in
      let* others := prepare_operations ctx rest in
      m_ret (prepared :: others)
  end.

Definition execute_native_patch_batch (ctx : PatchContext) (operations : list NativePatchOperation)
    : FileM NativePatchBatchOutcome :=
  m_ensure (match operations with [] => false | _ => true end) "native patch batch is empty" ;;*
  let* prepared := prepare_operations (tool_context ctx) operations in
  let* batch := m_lift (batch_new ((fun p => p.1.1) <$> prepared)) in
  let* committed := commit_file_mutations ctx batch in
  m_ret {| outputs := (fun p => p.1.2) <$> prepared;
           reports := (fun p => p.2) <$> prepared;
           changed_paths := (fun path =>
             default path (path_strip_prefix path (ctx_workspace_root (tool_context ctx)))) <$> committed |}.

(** [execute_native_patch_operation]: the output, the report and the path. *)
Definition execute_native_patch_operation (ctx : PatchContext) (operation : NativePatchOperation)
    : FileM (string * NativePatchReport * string) :=
  let* outcome := execute_native_patch_batch ctx [operation] in
  let* report := m_lift (opt_context (last (reports outcome)) "native patch batch returned no operation report") in
  let* changed_path := m_lift (opt_context (last (changed_paths outcome)) "native patch batch returned no changed path") in
  m_ret (default "" (last (outputs outcome)), report, changed_path).

(** ** Unified diffs, which [git apply] applies *)

(** [rollback_external_mutations]. *)
Definition rollback_strictly (mutation : PreparedFileMutation) : FileM unit :=
  let* current := read_optional (mutation_path mutation) in
  m_ensure (bool_decide (current = after mutation))
    ("cannot roll back unjournaled patch because " +:+ mutation_path mutation +:+ " changed again") ;;*
  restore mutation.

Definition rollback_external_mutations (mutations : list PreparedFileMutation) : FileM unit :=
  m_for (reverse mutations) rollback_strictly.

(** The files before the patch, and what it changed in them. *)
Fixpoint read_originals (paths : list PathBuf) : FileM (list (option string)) :=
  match paths with
  | [] => m_ret []
  | path :: rest =>
      let* original := read_optional path in
      let* others := read_originals rest in
      m_ret (original :: others)
  end.

Fixpoint observed_mutations (originals : list (PathBuf * option string)) : FileM (list PreparedFileMutation) :=
  match originals with
  | [] => m_ret []
  | (path, original) :: rest =>
      let* current := read_optional path in
      let* others := observed_mutations rest in
      m_ret (if bool_decide (current = original) then others
             else {| mutation_path := path; original := original;
                     target := match current with
                               | Some contents => WriteContents contents
                               | None => DeleteTarget
                               end |} :: others)
  end.

Definition with_target (mutation : PreparedFileMutation) (contents : string) : PreparedFileMutation :=
  {| mutation_path := mutation_path mutation; original := original mutation; target := WriteContents contents |}.

(** The loop that gives scripts their byte order mark; [done] are the mutations it has passed. *)
Fixpoint normalize_encodings (passed pending : list PreparedFileMutation) : FileM (list PreparedFileMutation) :=
  match pending with
  | [] => m_ret passed
  | mutation :: rest =>
      match target mutation with
      | DeleteTarget => normalize_encodings (passed ++ [mutation]) rest
      | WriteContents contents =>
          let path := mutation_path mutation in
          let normalized := normalize_text_encoding path contents in
          if String.eqb normalized contents then normalize_encodings (passed ++ [mutation]) rest
          else fun s =>
            match env_write_file path normalized s with
            | (Ok _, s') => normalize_encodings (passed ++ [with_target mutation normalized]) rest s'
            | (Err e, s') =>
                (rollback_external_mutations (passed ++ mutation :: rest) ;;*
                 m_fail (context ("failed to normalize text encoding for " +:+ path) e)) s'
            end
      end
  end.

(** The end of a patch [git apply] has applied: the observer is told, or all is undone. *)
Definition record_external (ctx : PatchContext) (scope : option FileMutationScope)
    (mutations : list PreparedFileMutation) : FileM unit :=
  match file_mutation_observer ctx, scope with
  | Some observer, Some scope => fun s =>
      match observer scope mutations s with
      | (Ok _, s') => (Ok tt, s')
      | (Err e, s') =>
          (rollback_external_mutations mutations ;;*
           m_fail (context "failed to persist applied unified diff" e)) s'
      end
  | _, _ => m_ret tt
  end.

(** What the call of [git apply] reported; none of the failures changes a file. *)
Definition check_exec (result : ExecResult) : Result anyhow unit :=
  let? _ := if negb (exec_success result) && looks_like_sandbox_denial (exec_stderr result)
            then Err (ApprovalRequired ("Patch was blocked by the sandbox: " +:+ truncate (exec_stderr result) 2000))
            else Ok tt in
  ensure (exec_success result)
    ("git apply failed (" +:+ debug_exit_code (exec_exit_code result) +:+ ")" +:+ lf
     +:+ truncate (exec_stderr result) 12000).

(** The checks before the patch is applied. *)
Definition authorize_unified (ctx : PatchContext) (patch : string)
    : Result anyhow (option FileMutationScope * list PathBuf) :=
  let tool := tool_context ctx in
  let? _ := if unified_diff_deletes_file patch
            then enforce_policy_decision
                   (PolicyDecision.Ask "Deleting a file through apply_patch requires approval.") tool
            else Ok tt in
  let? decision := inspect_command (ctx_policy tool) "git apply --whitespace=nowarn -" in
  let? _ := enforce_policy_decision decision tool in
  let? scope := file_mutation_scope ctx in
  let? paths := r_mapM (normalize_workspace_path (ctx_workspace_root tool)) (unified_diff_paths patch) in
  Ok (scope, paths).

Definition apply_unified_diff (ctx : PatchContext) (patch : string) : FileM string :=
  let* (scope, paths) := m_lift (authorize_unified ctx patch) in
  let* originals := read_originals paths in
  let* result := fun s =>
    match git_apply patch s with
    | (Ok result, s') => (Ok result, s')
    | (Err e, s') => (Err (Msg ("git apply failed: " +:+ error_chain e)), s')
    end in
  m_lift (check_exec result) ;;*
  let* observed := observed_mutations (zip paths originals) in
  let* mutations := normalize_encodings [] observed in
  record_external ctx scope mutations ;;*
  m_ret ("Patch applied." +:+ lf +:+ lf +:+ "[stdout]" +:+ lf +:+ truncate (exec_stdout result) 8000
         +:+ lf +:+ lf +:+ "[stderr]" +:+ lf +:+ truncate (exec_stderr result) 8000).

(** [execute_portable_patch]; the path locks are in FileMutation.v. *)
Definition execute_portable_patch (ctx : PatchContext) (patch : string) : FileM string :=
  let* envelope := m_lift (parse_apply_patch_envelope patch) in
  match envelope with
  | Some operations =>
      let* outcome := execute_native_patch_batch ctx operations in
      m_ret (str_join lf (outputs outcome))
  | None => apply_unified_diff ctx patch
  end.

(** [execute_typed] behind the checks every typed tool makes. *)
Definition call_apply_patch (ctx : PatchContext) (input : ApplyPatchInput) : FileM string :=
  let* (_, narrowed) := m_lift (authorize_typed (tool_context ctx) (patch_execution_intent input)
                                  (patch_authorization_preflight input)) in
  let ctx := {| tool_context := narrowed; file_mutation_observer := file_mutation_observer ctx;
                patch_thread_id := patch_thread_id ctx; patch_turn_id := patch_turn_id ctx;
                patch_agent_path := patch_agent_path ctx |} in
  match input with
  | Portable patch => execute_portable_patch ctx patch
  | Structured operation =>
      let* (output, _, _) := execute_native_patch_operation ctx operation in m_ret output
  end.
End tool.
