(* ===== verification/PatchFacts.v ===== *)
(** Theorems about the apply_patch tool: what a patch does to the files, who must have agreed,
    and the edit that is lost when one file is named twice. *)
From S2P Require Import Prelude RustStr RustStrFacts RustText RustTextFacts Json Enterprise ShellLex ShellAnalysis RustPath Sandbox LocalEnvironment Policy Authority TextPatch FileMutation FileMutationFacts PatchTool.

Section facts.
Context `{FS : FileSystem} `{OS : OsHost} `{SH : SandboxHost} `{UC : Unicode} `{JN : JsonNumber}
  `{HO : Host} `{EE : ExecutionEnvironment} `{EL : !EnvironmentLaws} `{GP : PatchProcess}.

Lemma normalize_text_encoding_idemp path contents :
  normalize_text_encoding path (normalize_text_encoding path contents) = normalize_text_encoding path contents.
Proof using Type.
  unfold normalize_text_encoding. cbv zeta.
  generalize (match path_extension path with Some e => eq_ignore_ascii_case e "ps1" | None => false end). intros b.
  destruct (b && negb (starts_with utf8_bom contents) && utf8_valid contents) eqn:E; [|by rewrite E].
  assert (starts_with utf8_bom (utf8_bom +:+ contents) = true) as -> by (unfold starts_with; by rewrite strip_prefix_app).
  by rewrite andb_false_r.
Qed.

(** What an operation does to its file. *)
Definition operation_effect (ctx : ToolInvocationContext) (files files' : Files)
    (operation : NativePatchOperation) : Prop :=
  exists logical_path target, authorize_operation ctx operation = Ok (logical_path, target)
  /\ let file := file_identity target in
     match operation with
     | DeleteFile _ =>
         (ctx_permission_mode ctx = PermissionMode.Unrestricted \/ ctx_approval_granted ctx = true)
         /\ is_Some (files !! file) /\ files' !! file = None
     | CreateFile _ diff =>
         files !! file = None /\ exists contents, create_file_contents_from_diff diff = Ok contents
         /\ files' !! file = Some (normalize_text_encoding target contents)
     | UpdateFile _ diff =>
         exists old new, files !! file = Some old /\ updated_contents logical_path old diff = Ok new
         /\ files' !! file = Some (normalize_text_encoding target new)
     end.

(** The file an operation is about, if it is authorized. *)
Definition operation_file (ctx : ToolInvocationContext) (operation : NativePatchOperation) : option string :=
  match authorize_operation ctx operation with Ok (_, target) => Some (file_identity target) | Err _ => None end.

Lemma delete_needs_approval ctx operation result :
  is_delete operation = true -> authorize_operation ctx operation = Ok result ->
  ctx_permission_mode ctx = PermissionMode.Unrestricted \/ ctx_approval_granted ctx = true.
Proof using Type.
  unfold authorize_operation. intros ->. rewrite result_bind_Ok. intros (l & _ & H).
  apply result_bind_Ok in H as (t & _ & H). apply result_bind_Ok in H as (u & _ & H).
  apply result_bind_Ok in H as ([] & H & _). unfold enforce_policy_decision, resolve_policy_decision in H.
  destruct (ctx_permission_mode ctx) eqn:Hm; cbn in H; try (by left);
    right; by destruct (ctx_approval_granted ctx).
Qed.

Notation Prepared := (PreparedFileMutation * string * NativePatchReport)%type.

(** What the first phase has found out about an operation. *)
Definition prepared_from (ctx : ToolInvocationContext) (files : Files) (operation : NativePatchOperation)
    (p : Prepared) : Prop :=
  exists logical_path target, authorize_operation ctx operation = Ok (logical_path, target)
  /\ prepare_mutation operation logical_path target (files !! file_identity target) = Ok p.

Lemma prepare_operation_run ctx operation files w r files' w' :
  prepare_operation ctx operation (files, w) = (r, (files', w')) ->
  files' = files /\ forall p, r = Ok p -> prepared_from ctx files operation p.
Proof using EL.
  unfold prepare_operation, m_bind at 1, m_lift.
  destruct (authorize_operation ctx operation) as [[logical_path target]|e] eqn:Ha; [|by intros [= <- <- <-]].
  unfold m_bind. destruct (read_optional target (files, w)) as [[current|e] [f1 w1]] eqn:E;
    apply read_optional_run in E as [-> Hc]; [|by intros [= <- <- <-]].
  intros [= <- <- <-]. split; [done|]. intros p Hp. exists logical_path, target. split; [done|].
  by rewrite (Hc _ eq_refl).
Qed.

Lemma prepare_operations_run ctx operations files w r files' w' :
  prepare_operations ctx operations (files, w) = (r, (files', w')) ->
  files' = files /\ forall l, r = Ok l -> Forall2 (prepared_from ctx files) operations l.
Proof using EL.
  revert w r files' w'. induction operations as [|operation rest IH]; intros w r files' w'; cbn [prepare_operations].
  { intros [= <- <- <-]. split; [done|]. intros l [= <-]. constructor. }
  unfold m_bind at 1. destruct (prepare_operation _ _ _) as [[p|e] [f1 w1]] eqn:E;
    apply prepare_operation_run in E as [-> Hp]; [|by intros [= <- <- <-]].
  unfold m_bind. destruct (prepare_operations ctx rest (files, w1)) as [[l|e] [f2 w2]] eqn:E2;
    apply IH in E2 as [-> Hl]; intros [= <- <- <-]; (split; [done|]); intros l' [= <-].
  constructor; [by apply Hp|by apply Hl].
Qed.

(** The mutation prepared for an operation names its file and leaves what the operation asks for. *)
Lemma prepared_mutation ctx files operation p :
  prepared_from ctx files operation p ->
  operation_file ctx operation = Some (file_of p.1.1)
  /\ forall files', files' !! file_of p.1.1 = after p.1.1 -> operation_effect ctx files files' operation.
Proof using Type.
  intros (logical_path & target & Ha & Hp). unfold operation_file. rewrite Ha. unfold prepare_mutation in Hp.
  destruct operation as [path diff|path diff|path].
  - apply result_bind_Ok in Hp as (u & Hex%ensure_Ok & Hp). apply result_bind_Ok in Hp as (contents & Hc & [= <-]).
    split; [done|]. intros files' Hafter. exists logical_path, target. split; [done|]. cbv zeta.
    split; [by apply negb_true_iff, bool_decide_eq_false, eq_None_not_Some in Hex|].
    exists contents. split; [done|]. cbn in Hafter. by rewrite normalize_text_encoding_idemp in Hafter.
  - apply result_bind_Ok in Hp as (old & Hold%opt_context_Ok & Hp). apply result_bind_Ok in Hp as (new & Hn & [= <-]).
    split; [done|]. intros files' Hafter. exists logical_path, target. split; [done|]. cbv zeta.
    exists old, new. split_and!; [done|done|]. cbn in Hafter. by rewrite normalize_text_encoding_idemp in Hafter.
  - apply result_bind_Ok in Hp as (old & Hold%opt_context_Ok & [= <-]).
    split; [done|]. intros files' Hafter. exists logical_path, target. split; [done|]. cbv zeta.
    split_and!; [by eapply (delete_needs_approval _ (DeleteFile path))|by rewrite Hold|done].
Qed.

Lemma prepared_files ctx files operations l : Forall2 (prepared_from ctx files) operations l ->
  omap (operation_file ctx) operations = file_of <$> ((fun p => p.1.1) <$> l).
Proof using Type.
  induction 1 as [|operation p operations l Hp _ IH]; [done|].
  apply prepared_mutation in Hp as [Hf _]. cbn. by rewrite Hf, IH.
Qed.


(** * One file under two names *)

(** Two updates of one file that name it differently, say as [a] and as [./a], are taken for
    changes of two files: both are computed from the file as it was, and the second is
    written over the first, whose change is lost without an error. *)
Theorem aliased_update_is_lost ctx path1 diff1 path2 diff2 logical1 target1 logical2 target2 files w outcome files' w' :
  authorize_operation (tool_context ctx) (UpdateFile path1 diff1) = Ok (logical1, target1) ->
  authorize_operation (tool_context ctx) (UpdateFile path2 diff2) = Ok (logical2, target2) ->
  file_identity target1 = file_identity target2 ->
  (forall o s l, file_mutation_observer ctx = Some o -> keeps id (o s l)) ->
  execute_native_patch_batch ctx [UpdateFile path1 diff1; UpdateFile path2 diff2] (files, w)
    = (Ok outcome, (files', w')) ->
  exists old new, files !! file_identity target2 = Some old
    /\ updated_contents logical2 old diff2 = Ok new
    /\ files' = <[file_identity target2 := normalize_text_encoding target2 new]> files.
Proof using EL.
  intros Ha1 Ha2 Hsame Hobs. unfold execute_native_patch_batch. rewrite m_bind_Ok.
  intros (u & [f0 w0] & [= _ <- <-] & H). apply m_bind_Ok in H as (l & [f1 w1] & Hprep & H).
  apply prepare_operations_run in Hprep as [-> Hprep]. specialize (Hprep l eq_refl).
  apply Forall2_cons_inv_l in Hprep as (p1 & l1 & (lg1 & t1 & Hp1 & Hm1) & Hprep & ->).
  apply Forall2_cons_inv_l in Hprep as (p2 & l2 & (lg2 & t2 & Hp2 & Hm2) & Hprep & ->).
  apply Forall2_nil_inv_l in Hprep as ->. rewrite Ha1 in Hp1. rewrite Ha2 in Hp2.
  injection Hp1 as <- <-. injection Hp2 as <- <-.
  cbn in Hm1, Hm2. apply result_bind_Ok in Hm1 as (old1 & _ & Hm1). apply result_bind_Ok in Hm1 as (new1 & _ & [= <-]).
  apply result_bind_Ok in Hm2 as (old & Hold%opt_context_Ok & Hm2). apply result_bind_Ok in Hm2 as (new & Hnew & [= <-]).
  apply m_bind_Ok in H as (batch & [f2 w2] & Hb & H). unfold m_lift in Hb. injection Hb as Hb <- <-.
  apply m_bind_Ok in H as (paths & [f3 w3] & Hc & [= _ <- _]).
  apply m_bind_Ok in Hc as (scope & [f4 w4] & Hs & Hc). unfold m_lift in Hs. injection Hs as _ <- <-.
  apply commit_observed_Ok in Hc; [|done]. exists old, new. split_and!; [done|done|]. rewrite Hc.
  unfold batch_new in Hb. apply result_bind_Ok in Hb as (? & _ & Hb). apply result_bind_Ok in Hb as (? & _ & [= <-]).
  cbn. unfold file_of. cbn. rewrite Hsame, !normalize_text_encoding_idemp.
  by rewrite partial_alter_partial_alter_eq.
Qed.
(** * Patches that git applies *)

Definition same_places (l l' : list PreparedFileMutation) : Prop :=
  Forall2 (fun m m' => mutation_path m' = mutation_path m /\ original m' = original m) l l'.

Lemma same_places_files l l' : same_places l l' -> file_of <$> l' = file_of <$> l.
Proof using Type. induction 1 as [|m m' l l' [Hp _] _ IH]; [done|]. cbn. unfold file_of at 1 3. by rewrite Hp, IH. Qed.

Lemma read_originals_run paths files w r files' w' :
  read_originals paths (files, w) = (r, (files', w')) ->
  files' = files /\ forall l, r = Ok l -> l = (fun path => files !! file_identity path) <$> paths.
Proof using EL.
  revert w r files' w'. induction paths as [|path paths IH]; intros w r files' w'; cbn [read_originals].
  { intros [= <- <- <-]. split; [done|]. by intros l [= <-]. }
  unfold m_bind. destruct (read_optional path (files, w)) as [[o|e] [f1 w1]] eqn:E;
    apply read_optional_run in E as [-> Ho]; [|by intros [= <- <- <-]].
  destruct (read_originals paths (files, w1)) as [[l|e] [f2 w2]] eqn:E2; apply IH in E2 as [-> Hl];
    intros [= <- <- <-]; (split; [done|]); intros l' [= <-].
  rewrite (Hl _ eq_refl). cbn. by rewrite (Ho _ eq_refl).
Qed.

(** The mutations observed say, of each path, what its file was and is. *)
Definition observed_from (before files : Files) (paths : list PathBuf) (l : list PreparedFileMutation) : Prop :=
  mutation_path <$> l `sublist_of` paths
  /\ contents_are original l before /\ contents_are after l files
  /\ forall path, path ∈ paths -> files !! file_identity path <> before !! file_identity path ->
       path ∈ mutation_path <$> l.

Lemma observed_mutations_run before paths files w r files' w' :
  observed_mutations ((fun path => (path, before !! file_identity path)) <$> paths) (files, w) = (r, (files', w')) ->
  files' = files /\ forall l, r = Ok l -> observed_from before files paths l.
Proof using EL.
  revert w r files' w'. induction paths as [|path paths IH]; intros w r files' w'; cbn [fmap list_fmap observed_mutations].
  { intros [= <- <- <-]. split; [done|]. intros l [= <-].
    split_and!; [done|by intros m ?%elem_of_nil|by intros m ?%elem_of_nil|by intros p ?%elem_of_nil]. }
  unfold m_bind. destruct (read_optional path (files, w)) as [[o|e] [f1 w1]] eqn:E;
    apply read_optional_run in E as [-> Ho]; [|by intros [= <- <- <-]].
  change (list_fmap _ _ (fun p => (p, before !! file_identity p)) paths)
    with ((fun p => (p, before !! file_identity p)) <$> paths).
  destruct (observed_mutations _ (files, w1)) as [[l|e] [f2 w2]] eqn:E2; apply IH in E2 as [-> Hl];
    intros [= <- <- <-]; (split; [done|]); intros l' [= <-].
  specialize (Hl _ eq_refl) as (Hsub & Horig & Hafter & Hall). specialize (Ho _ eq_refl). subst o.
  case_bool_decide as Hsame.
  - split_and!; [by apply sublist_cons|done|done|]. intros p [->|Hp]%elem_of_cons Hne; [done|by apply Hall].
  - split_and!.
    + cbn. by apply sublist_skip.
    + intros m [->|Hm]%elem_of_cons; [done|by apply Horig].
    + intros m [->|Hm]%elem_of_cons; [|by apply Hafter]. unfold file_of, after. cbn.
      by destruct (files !! file_identity path).
    + intros p [->|Hp]%elem_of_cons Hne; cbn; [set_solver|]. apply elem_of_cons. right. by apply Hall.
Qed.

Lemma normalize_encodings_run passed pending files w l files' w' :
  distinct_files (passed ++ pending) -> contents_are after (passed ++ pending) files ->
  normalize_encodings passed pending (files, w) = (Ok l, (files', w')) ->
  same_places (passed ++ pending) l /\ contents_are after l files' /\ only_at (passed ++ pending) files files'.
Proof using EL.
  revert passed files w. induction pending as [|m pending IH]; intros passed files w Hd Ha; cbn [normalize_encodings].
  { intros [= <- <- <-]. rewrite app_nil_r in *. split_and!; [|done|done]. by apply Forall2_same_length_lookup_2; [|naive_solver]. }
  assert (distinct_files ((passed ++ [m]) ++ pending)) as Hd1 by (by rewrite <- app_assoc).
  assert (contents_are after ((passed ++ [m]) ++ pending) files) as Ha1 by (by rewrite <- app_assoc).
  assert (forall l files', same_places ((passed ++ [m]) ++ pending) l /\ contents_are after l files'
            /\ only_at ((passed ++ [m]) ++ pending) files files' ->
          same_places (passed ++ m :: pending) l /\ contents_are after l files'
            /\ only_at (passed ++ m :: pending) files files') as Hshift by (intros ??; by rewrite <- app_assoc).
  destruct (target m) as [contents|] eqn:Ht; [|intros H; by apply Hshift; eapply IH].
  destruct (String.eqb _ _); [intros H; by apply Hshift; eapply IH|].
  destruct (env_write_file _ _ _) as [[[]|e] [f1 w1]] eqn:Ew.
  2: { unfold m_bind, m_fail. by destruct (rollback_external_mutations _ _) as [[]]. }
  apply write_Ok in Ew as ->. set (m' := with_target m (normalize_text_encoding (mutation_path m) contents)).
  assert (file_of m' = file_of m) as Hf by done.
  assert (forall x, x ∈ passed ++ pending -> file_of x <> file_of m) as Hother.
  { unfold distinct_files in Hd. rewrite fmap_app, fmap_cons in Hd. apply NoDup_app in Hd as (_ & Hx & Hy).
    apply NoDup_cons in Hy as [Hy _].
    intros x [Hin|Hin]%elem_of_app E; [apply (Hx (file_of x)); [by apply list_elem_of_fmap_2|rewrite E; set_solver]|].
    apply Hy. rewrite <- E. by apply list_elem_of_fmap_2. }
  intros H. apply IH in H as (Hs & Hl & Hat).
  - split_and!.
    + unfold same_places in *. apply Forall2_app_inv_l in Hs as (l1 & l2 & H1 & H2 & ->).
      apply Forall2_app_inv_l in H1 as (l3 & l4 & H3 & H4 & ->). rewrite <- app_assoc. apply Forall2_app; [done|].
      apply Forall2_cons_inv_l in H4 as (x & y & [Hp Ho] & Hnil & ->). apply Forall2_nil_inv_l in Hnil as ->.
      by constructor.
    + done.
    + intros i Hi. rewrite Hat.
      * rewrite lookup_insert_ne; [done|]. intros E. apply Hi. rewrite fmap_app, fmap_cons. change (file_identity (mutation_path m)) with (file_of m) in E. set_solver.
      * rewrite !fmap_app in *. cbn in *. set_solver.
  - unfold distinct_files in *. by rewrite !fmap_app in *.
  - intros x [[Hx|Hx]%elem_of_app|Hx]%elem_of_app.
    + rewrite lookup_insert_ne; [apply Ha; set_solver|]. intros E. apply (Hother x); [set_solver|done].
    + apply list_elem_of_singleton in Hx as ->. by rewrite lookup_insert_eq.
    + rewrite lookup_insert_ne; [apply Ha; set_solver|]. intros E. apply (Hother x); [set_solver|done].
Qed.

(** C22: The journal of a patch that git applied is complete: when the call succeeds, the observer
    was given, for every file the diff names whose contents the call changed, exactly the
    contents before and after it, and nothing changed since. *)
Theorem external_patch_journaled ctx patch scope paths observer files w output files' w' :
  authorize_unified ctx patch = Ok (Some scope, paths) ->
  file_mutation_observer ctx = Some observer -> (forall s l, keeps id (observer s l)) ->
  NoDup (file_identity <$> paths) ->
  apply_unified_diff ctx patch (files, w) = (Ok output, (files', w')) ->
  exists journal w1 w2, observer scope journal (files', w1) = (Ok tt, (files', w2))
    /\ contents_are original journal files /\ contents_are after journal files'
    /\ forall path, path ∈ paths -> path ∉ mutation_path <$> journal ->
         files' !! file_identity path = files !! file_identity path.
Proof using EL.
  intros Ha Hobs Hkeep Hd. unfold apply_unified_diff. rewrite Ha. rewrite m_bind_Ok.
  intros ([? ?] & [f0 w0] & [= <- <- <- <-] & H). apply m_bind_Ok in H as (originals & [f1 w1] & Ho & H).
  apply read_originals_run in Ho as [-> Ho]. specialize (Ho _ eq_refl). subst originals.
  apply m_bind_Ok in H as (result & [f2 w2] & _ & H). apply m_bind_Ok in H as (u & [f3 w3] & [= _ <- <-] & H).
  apply m_bind_Ok in H as (observed & [f4 w4] & Hobserved & H).
  rewrite zip_with_fmap_r, zip_with_diag in Hobserved.
  apply observed_mutations_run in Hobserved as [-> Hobserved].
  specialize (Hobserved _ eq_refl) as (Hsub & Horig & Hafter & Hall).
  apply m_bind_Ok in H as (l & [f5 w5] & Hn & H). apply normalize_encodings_run in Hn as (Hs & Hl & Hat); [|cbn|done].
  2: { unfold distinct_files. replace (file_of <$> observed) with (file_identity <$> (mutation_path <$> observed)) by (by rewrite <- list_fmap_compose).
       eapply sublist_NoDup; [exact Hd|]. by apply fmap_sublist. }
  cbn [app] in *. apply m_bind_Ok in H as ([] & [f6 w6] & Hr & [= _ <- _]).
  unfold record_external in Hr. rewrite Hobs in Hr.
  destruct (observer scope l (f5, w5)) as [[[]|e] [f7 w7]] eqn:Eo.
  2: { exfalso. revert Hr. unfold m_bind, m_fail. by destruct (rollback_external_mutations _ _) as [[]]. }
  pose proof (keeps_run id _ _ _ _ _ _ (Hkeep scope l) Eo) as Hk. cbn in Hk. subst f7. injection Hr as <- <-.
  exists l, w5, w7. pose proof (same_places_files _ _ Hs) as Hfiles. split_and!; [done| |done|].
  - intros m Hm. apply list_elem_of_lookup in Hm as [i Hi]. eapply Forall2_lookup_r in Hs as (m0 & Hi0 & Hp & Hor); [|exact Hi].
    rewrite Hor. unfold file_of. rewrite Hp. apply Horig. by eapply list_elem_of_lookup_2.
  - intros path Hin Hnot.
    assert (mutation_path <$> l = mutation_path <$> observed) as Hpaths
      by (clear -Hs; induction Hs as [|m m' ? ? [Hp _] _ IH]; [done|]; cbn; by rewrite Hp, IH).
    rewrite Hpaths in Hnot. rewrite Hat.
    + destruct (decide (f2 !! file_identity path = files !! file_identity path)) as [|Hne]; [done|].
      by destruct Hnot; apply Hall.
    + intros Hf. apply list_elem_of_fmap in Hf as (m & Hfm & Hm). apply Hnot.
      assert (mutation_path m ∈ paths) as Hmp.
      { eapply elem_of_sublist; [|exact Hsub]. by apply list_elem_of_fmap_2. }
      assert (path = mutation_path m) as ->; [|by apply list_elem_of_fmap_2].
      apply list_elem_of_lookup in Hin as [i Hi]. apply list_elem_of_lookup in Hmp as [j Hj].
      assert (i = j) as ->.
      { eapply NoDup_lookup; [exact Hd| |]; rewrite list_lookup_fmap, ?Hi, ?Hj; cbn; [reflexivity|by rewrite Hfm]. }
      congruence.
Qed.
End facts.
