(* ===== verification/FlowCommitFacts.v ===== *)
(** What a commit does to a run: a superstep takes effect as a whole or not at all,
    and loops stay within their budgets. *)
From S2P Require Import Prelude RustStr RustStrFacts Json Enterprise WorkflowState WorkflowAutomation FlowGraph FlowActivation Flow WorkflowInterrupt HumanTask Workflow FlowRun FlowEngine FlowResume FlowStore FlowDriver FlowCommit FlowLoop FlowProgress.

Section commit_facts.
Context `{JN : JsonNumber} `{JT : !JsonText} `{SWC : !StateWriteCodec} `{HO : Host}.

(** * The first pass *)

(** The fields the first pass leaves alone. *)
Definition data_of (run : FlowRunV1) :=
  (node_outputs run, run_state run, ready_nodes run, loop_counts run,
   (run_graph run, run_budget run, run_status run)).

Definition succeeded_write (graph : GraphDefinitionV1) (write : WorkflowPendingWriteV1)
    : option (GraphNodeV1 * Value) :=
  result ← write_result write;
  node ← find_node graph (write_node_id write);
  Some (node, result_output result).

Definition routed_write (graph : GraphDefinitionV1) (write : WorkflowPendingWriteV1)
    : option string :=
  match write_result write with
  | Some _ => None
  | None => error_route graph (write_node_id write)
  end.

(** The write is an error no edge of the graph handles. *)
Definition unrouted (graph : GraphDefinitionV1) (write : WorkflowPendingWriteV1) : Prop :=
  write_result write = None /\ error_route graph (write_node_id write) = None.

#[local] Instance unrouted_dec graph write : Decision (unrouted graph write).
Proof. unfold unrouted. apply _. Defined.

Lemma record_write_data progress write : keeps data_of (record_write progress write).
Proof using Type. unfold record_write. solve_keeps. Qed.

Lemma record_write_Ok progress write run w progress' s' :
  record_write progress write (run, w) = (Ok progress', s') ->
  let graph := run_graph run in
  succeeded progress' = succeeded progress ++ option_list (succeeded_write graph write)
  /\ routed_errors progress' = routed_errors progress ++ option_list (routed_write graph write)
  /\ (unhandled_error progress' = None <->
      unhandled_error progress = None /\ ~ unrouted graph write)
  /\ is_Some (find_node graph (write_node_id write)).
Proof using Type.
  unfold record_write, succeeded_write, routed_write, unrouted. cbn zeta.
  intros (run0 & ? & [= <- <-] & H)%m_bind_Ok.
  apply m_bind_Ok in H as (node & ? & [= Hnode <-] & H). apply opt_context_Ok in Hnode.
  apply m_bind_Ok in H as (nr & ? & [= _ <-] & H). rewrite Hnode.
  destruct (write_result write) as [result|]; cbn in H |- *.
  - injection H as <- _. cbn. rewrite app_nil_r. naive_solver.
  - destruct (error_route (run_graph run) (write_node_id write)); cbn in H |- *;
      injection H as <- _; cbn; rewrite ?app_nil_r.
    + naive_solver.
    + destruct (unhandled_error progress); naive_solver.
Qed.

Lemma record_writes_Ok progress writes run w progress' run' w' :
  record_writes progress writes (run, w) = (Ok progress', (run', w')) ->
  let graph := run_graph run in
  data_of run' = data_of run
  /\ succeeded progress' = succeeded progress ++ omap (succeeded_write graph) writes
  /\ routed_errors progress' = routed_errors progress ++ omap (routed_write graph) writes
  /\ (unhandled_error progress' = None <->
      unhandled_error progress = None /\ Forall (fun write => ~ unrouted graph write) writes)
  /\ Forall (fun write => is_Some (find_node graph (write_node_id write))) writes.
Proof using Type.
  cbn zeta. revert progress run w. induction writes as [|write writes IH]; intros progress run w;
    cbn [record_writes].
  - intros [= <- <- <-]. cbn. rewrite !app_nil_r. repeat split; try done; naive_solver.
  - intros (p1 & [run1 w1] & Hw & H)%m_bind_Ok.
    pose proof (keeps_run _ _ _ _ _ _ _ (record_write_data progress write) Hw) as Hdata.
    apply record_write_Ok in Hw as (Hs & Hr & Hu & Hn).
    assert (run_graph run1 = run_graph run) as Hg by (unfold data_of in Hdata; congruence).
    apply IH in H as (Hdata' & Hs' & Hr' & Hu' & Hn'). rewrite Hg in *.
    split_and!; [congruence|..].
    + rewrite Hs', Hs, <-app_assoc. cbn. by destruct (succeeded_write _ write).
    + rewrite Hr', Hr, <-app_assoc. cbn. by destruct (routed_write _ write).
    + rewrite Hu', Hu, Forall_cons. tauto.
    + by constructor.
Qed.

(** * The second pass *)

(** The outputs a list of writes publishes, in order. *)
Definition publish_writes (outputs : gmap string Value) (writes : list WorkflowPendingWriteV1)
    : gmap string Value :=
  fold_left (fun outputs write =>
    match write_result write with
    | Some result => <[write_node_id write := result_output result]> outputs
    | None => outputs
    end) writes outputs.

(** The state writes of one node. *)
Definition publish_state (entry : GraphNodeV1 * Value) : M (gmap string Value) unit :=
  let* writes := m_lift (map_err Msg (parse_state_writes (config (fst entry)))) in
  apply_state_writes writes (snd entry).

Lemma publish_output_Ok entry run w u run' w' :
  publish_output entry (run, w) = (Ok u, (run', w')) ->
  node_outputs run' = <[node_id (fst entry) := snd entry]> (node_outputs run)
  /\ publish_state entry (run_state run) = (Ok tt, run_state run')
  /\ ready_nodes run' = ready_nodes run /\ loop_counts run' = loop_counts run
  /\ run_graph run' = run_graph run.
Proof using Type.
  destruct entry as [node output]. unfold publish_output, publish_state, m_bind, m_update, m_lift,
    on_run_state. cbn. destruct (parse_state_writes (config node)) as [writes|e]; cbn; [|done].
  destruct (apply_state_writes writes output (run_state run)) as [[[]|e] state]; [|done].
  by intros [= _ <- _].
Qed.

Lemma publish_outputs_Ok entries run w u run' w' :
  m_for entries publish_output (run, w) = (Ok u, (run', w')) ->
  node_outputs run' = fold_left (fun m entry => <[node_id (fst entry) := snd entry]> m) entries
                                (node_outputs run)
  /\ m_for entries publish_state (run_state run) = (Ok tt, run_state run')
  /\ ready_nodes run' = ready_nodes run /\ loop_counts run' = loop_counts run
  /\ run_graph run' = run_graph run.
Proof using Type.
  revert run w. induction entries as [|entry entries IH]; intros run w; cbn [m_for fold_left].
  - by intros [= _ <- _].
  - intros (u1 & [run1 w1] & H1 & H)%m_bind_Ok.
    apply publish_output_Ok in H1 as (Ho1 & Hs1 & Hr1 & Hl1 & Hg1).
    apply IH in H as (Ho & Hs & Hr & Hl & Hg). rewrite Ho, Ho1, Hr, Hr1, Hl, Hl1, Hg, Hg1.
    repeat split; try done. unfold m_bind. by rewrite Hs1.
Qed.

Definition outputs_of (run : FlowRunV1) := (node_outputs run, run_state run).

Lemma route_after_node_outputs id output : keeps outputs_of (route_after_node id output).
Proof using Type.
  unfold route_after_node. solve_keeps. destruct x as [index edge]. unfold route_edge. solve_keeps.
  unfold consume_loop_budget. solve_keeps.
Qed.

(** Routing only adds to the queue. *)
Lemma enqueue_unique_elem queue id x : x ∈ enqueue_unique queue id <-> x ∈ queue \/ x = id.
Proof using Type.
  unfold enqueue_unique. destruct (existsb _ _) eqn:Hex; [|set_solver].
  apply existsb_exists in Hex as (y & Hy%list_elem_of_In & ->%String.eqb_eq).
  split; [auto|]. intros [?| ->]; done.
Qed.

Lemma enqueue_unique_nodup queue id : NoDup queue -> NoDup (enqueue_unique queue id).
Proof using Type.
  intros Hnd. unfold enqueue_unique. destruct (existsb _ _) eqn:Hex; [done|].
  apply NoDup_app. repeat split; [done| |apply NoDup_singleton].
  intros x Hx ->%list_elem_of_singleton.
  assert (existsb (fun queued => String.eqb queued id) queue = true); [|congruence].
  apply existsb_exists. exists id. split; [by apply list_elem_of_In|apply String.eqb_refl].
Qed.

Lemma succeeded_write_id graph write node output :
  succeeded_write graph write = Some (node, output) ->
  node_id node = write_node_id write
  /\ exists result, write_result write = Some result /\ result_output result = output.
Proof using Type.
  unfold succeeded_write. destruct (write_result write) as [result|]; [|done]. cbn.
  destruct (find_node graph (write_node_id write)) as [n|] eqn:Hn; [|done]. cbn.
  intros [= -> <-]. apply find_node_Some in Hn as [_ Hn]. eauto.
Qed.

Lemma publish_writes_succeeded graph outputs writes :
  Forall (fun write => is_Some (find_node graph (write_node_id write))) writes ->
  fold_left (fun m entry => <[node_id (fst entry) := snd entry]> m)
    (omap (succeeded_write graph) writes) outputs = publish_writes outputs writes.
Proof using Type.
  intros Hall. revert outputs. induction Hall as [|write writes [node Hn] Hall IH]; intros outputs; [done|].
  cbn. unfold publish_writes. cbn [fold_left].
  destruct (succeeded_write graph write) as [[n o]|] eqn:Hs.
  - apply succeeded_write_id in Hs as (Hid & result & -> & <-). cbn. rewrite Hid. apply IH.
  - unfold succeeded_write in Hs. rewrite Hn in Hs. destruct (write_result write); [done|]. apply IH.
Qed.

(** Routing only ever adds to the queue, and keeps it free of duplicates. *)
Definition grows_ready {A} (m : RunM A) : Prop := forall run w,
  ready_nodes run ⊆ ready_nodes (fst (snd (m (run, w))))
  /\ (NoDup (ready_nodes run) -> NoDup (ready_nodes (fst (snd (m (run, w)))))).

Lemma grows_keeps {A} (m : RunM A) : keeps ready_nodes m -> grows_ready m.
Proof using Type. intros Hk run w. rewrite Hk. done. Qed.

Lemma grows_bind {A B} (m : RunM A) (k : A -> RunM B) :
  grows_ready m -> (forall a, grows_ready (k a)) -> grows_ready (m_bind m k).
Proof using Type.
  intros Hm Hk run w. destruct (Hm run w) as [Hin Hnd]. unfold m_bind.
  destruct (m (run, w)) as [[a|e] [run1 w1]]; [|done]. cbn in *.
  destruct (Hk a run1 w1) as [Hin1 Hnd1]. split; [by etrans|auto].
Qed.

Lemma grows_for {A} (l : list A) (f : A -> RunM unit) :
  (forall x, grows_ready (f x)) -> grows_ready (m_for l f).
Proof using Type.
  intros Hf. induction l as [|x l IH]; cbn [m_for]; [by apply grows_keeps, keeps_ret|].
  apply grows_bind; [apply Hf|]. done.
Qed.

Lemma route_after_node_grows id output : grows_ready (route_after_node id output).
Proof using Type.
  unfold route_after_node. apply grows_bind; [apply grows_keeps; solve_keeps|]. intros run0.
  apply grows_for. intros [index edge]. unfold route_edge.
  assert (grows_ready (m_update (fun run =>
    run <| ready_nodes := enqueue_unique (ready_nodes run) (edge_to edge) |>))) as Henq.
  { intros run w. cbn. split; [|apply enqueue_unique_nodup].
    intros x Hx. apply enqueue_unique_elem. by left. }
  destruct (negb _); [by apply grows_keeps, keeps_ret|].
  destruct (loop_policy edge) as [policy|]; [|done].
  destruct (negb _); [by apply grows_keeps, keeps_ret|].
  apply grows_bind; [|intros []; [done|by apply grows_keeps, keeps_ret]].
  apply grows_keeps. unfold consume_loop_budget. solve_keeps.
Qed.

Lemma route_outputs_grow entries : grows_ready (m_for entries route_output).
Proof using Type.
  apply grows_for. intros [node output]. unfold route_output.
  destruct (is_output_node node); [by apply grows_keeps, keeps_ret|apply route_after_node_grows].
Qed.

Lemma enqueue_all_elem targets queue x :
  x ∈ fold_left enqueue_unique targets queue <-> x ∈ queue \/ x ∈ targets.
Proof using Type.
  revert queue. induction targets as [|t targets IH]; intros queue; cbn; [set_solver|].
  rewrite IH, enqueue_unique_elem. set_solver.
Qed.

Lemma enqueue_all_nodup targets queue :
  NoDup queue -> NoDup (fold_left enqueue_unique targets queue).
Proof using Type.
  revert queue. induction targets as [|t targets IH]; intros queue Hnd; cbn; [done|].
  apply IH. by apply enqueue_unique_nodup.
Qed.

(** The readings of a run the end of a commit leaves alone. *)
Definition settled_data (run : FlowRunV1) :=
  (outputs_of run, ready_nodes run, loop_counts run, run_tool_calls run, run_budget run).

Lemma publish_outputs_effect progress run w u run' w' :
  publish_outputs progress (run, w) = (Ok u, (run', w')) ->
  node_outputs run' = fold_left (fun m entry => <[node_id (fst entry) := snd entry]> m)
                                (succeeded progress) (node_outputs run)
  /\ m_for (succeeded progress) publish_state (run_state run) = (Ok tt, run_state run')
  /\ ready_nodes run ++ routed_errors progress ⊆ ready_nodes run'
  /\ (NoDup (ready_nodes run) -> NoDup (ready_nodes run'))
  /\ run_tool_calls run' = run_tool_calls run /\ run_budget run' = run_budget run.
Proof using Type.
  unfold publish_outputs. intros (u1 & [run1 w1] & H1 & H)%m_bind_Ok.
  apply m_bind_Ok in H as (u2 & [run2 w2] & H2 & [= _ <- _]).
  assert (keeps (fun r => (run_tool_calls r, run_budget r)) (m_for (succeeded progress) publish_output)) as K1.
  { apply keeps_for. intros [node output]. unfold publish_output. solve_keeps.
    intros r w0. unfold on_run_state. by destruct (apply_state_writes _ _ _). }
  assert (keeps (fun r => (outputs_of r, (run_tool_calls r, run_budget r)))
            (m_for (succeeded progress) route_output)) as K2.
  { apply keeps_for. intros [node output]. unfold route_output. solve_keeps.
    unfold route_after_node. solve_keeps. destruct x as [index edge]. unfold route_edge. solve_keeps.
    unfold consume_loop_budget. solve_keeps. }
  pose proof (keeps_run _ _ _ _ _ _ _ K1 H1) as [= Ht1 Hb1].
  pose proof (keeps_run _ _ _ _ _ _ _ K2 H2) as [= Ho2 Hs2 Ht2 Hb2].
  apply publish_outputs_Ok in H1 as (Ho1 & Hs1 & Hr1 & Hl1 & Hg1).
  destruct (route_outputs_grow (succeeded progress) run1 w1) as [Hin Hnd].
  rewrite H2 in Hin, Hnd. cbn in Hin, Hnd. rewrite Hr1 in Hin, Hnd. cbn.
  rewrite Ho2, Ho1, Hs2, Ht2, Ht1, Hb2, Hb1. split_and!; try done.
  - intros x [Hx|Hx]%elem_of_app; apply enqueue_all_elem; [left; by apply Hin|by right].
  - intros Hr. apply enqueue_all_nodup. auto.
Qed.

(** * The commit as a whole *)

Lemma finish_with_outputs_data checkpoint t values :
  keeps settled_data (finish_with_outputs checkpoint t values).
Proof using Type.
  unfold finish_with_outputs. solve_keeps; by apply keeps_touch.
Qed.

Lemma finish_with_outputs_status checkpoint t values run w task run' w' :
  finish_with_outputs checkpoint t values (run, w) = (Ok task, (run', w')) ->
  run_output run' = finished_output values
  /\ if output_review_required run && negb (output_reviewed run)
     then run_status run' = WaitingHuman /\ (task_id <$> task) = active_human_task_id run' /\ is_Some task
     else run_status run' = Succeeded /\ task = None.
Proof using Type.
  unfold finish_with_outputs, m_bind, m_update, m_self, m_world, touch. cbn.
  destruct (output_review_required run && negb (output_reviewed run)); cbn; intros [= <- <- _]; cbn; eauto.
Qed.

(** The status a commit without outputs leaves. *)
Definition resumed_status (status : FlowRunStatusV1) : FlowRunStatusV1 :=
  match status with PauseRequested => Paused | _ => Running end.

(** What the commit found out before it settled the status. *)
Lemma commit_checkpoint_inv checkpoint run w task run' w' :
  commit_checkpoint checkpoint (run, w) = (Ok task, (run', w')) ->
  exists progress run1 w1, record_writes {| succeeded := []; routed_errors := []; unhandled_error := None |}
      (ck_pending_writes checkpoint) (run, w) = (Ok progress, (run1, w1))
  /\ match check_tool_budget run1 progress with
     | Some error => run_status run' = Failed /\ run_error run' = Some error /\ task = None
                     /\ settled_data run' = settled_data run1
     | None => exists run2 w2, publish_outputs progress (run1, w1) = (Ok tt, (run2, w2))
                 /\ settled_data run' = settled_data run2
                 /\ match output_values progress with
                    | [] => run_status run' = resumed_status (run_status run2) /\ task = None
                    | values => run_output run' = finished_output values
                        /\ if output_review_required run2 && negb (output_reviewed run2)
                           then run_status run' = WaitingHuman
                                /\ (task_id <$> task) = active_human_task_id run' /\ is_Some task
                           else run_status run' = Succeeded /\ task = None
                    end
     end.
Proof using Type.
  unfold commit_checkpoint. intros (progress & [run1 w1] & Hr & H)%m_bind_Ok.
  exists progress, run1, w1. split; [done|].
  apply m_bind_Ok in H as (r & ? & [= <- <-] & H).
  destruct (check_tool_budget run1 progress) as [error|].
  - cbn in H. injection H as <- <- _. done.
  - apply m_bind_Ok in H as ([] & [run2 w2] & Hp & H). exists run2, w2. split; [done|].
    apply m_bind_Ok in H as (t & ? & [= <- <-] & H).
    apply m_bind_Ok in H as (u & ? & [= <- <-] & H). cbv beta iota in H.
    destruct (output_values progress) as [|v values].
    + cbn in H. injection H as <- <- _. done.
    + pose proof (keeps_run _ _ _ _ _ _ _ (finish_with_outputs_data _ _ _) H) as Hk.
      apply finish_with_outputs_status in H. done.
Qed.



(** * Loops *)

(** A method that may end the run's progress as an exhausted loop does. *)
Definition may_stop {A} (m : RunM A) : Prop := forall run w,
  let run' := fst (snd (m (run, w))) in
  run_status run' = run_status run \/ run_status run' = Paused \/ run_status run' = Succeeded.

Lemma may_stop_keeps {A} (m : RunM A) : keeps run_status m -> may_stop m.
Proof using Type. intros Hk run w. left. apply Hk. Qed.

Lemma may_stop_bind {A B} (m : RunM A) (k : A -> RunM B) :
  may_stop m -> (forall a, may_stop (k a)) -> may_stop (m_bind m k).
Proof using Type.
  intros Hm Hk run w. specialize (Hm run w). unfold m_bind.
  destruct (m (run, w)) as [[a|e] [run1 w1]]; [|done]. cbn in *.
  specialize (Hk a run1 w1). cbn in Hk. intuition congruence.
Qed.

Lemma may_stop_for {A} (l : list A) (f : A -> RunM unit) :
  (forall x, may_stop (f x)) -> may_stop (m_for l f).
Proof using Type.
  intros Hf. induction l as [|x l IH]; cbn [m_for]; [by apply may_stop_keeps, keeps_ret|].
  apply may_stop_bind; [apply Hf|]. done.
Qed.

Lemma consume_loop_budget_may_stop index policy : may_stop (consume_loop_budget index policy).
Proof using Type.
  intros run w. unfold consume_loop_budget, m_bind, m_self, m_update, m_world. cbn.
  destruct (_ <? _); cbn; [by left|]. destruct (on_exhausted policy); cbn; auto.
Qed.

Lemma publish_outputs_may_stop progress : may_stop (publish_outputs progress).
Proof using Type.
  unfold publish_outputs. apply may_stop_bind.
  { apply may_stop_for. intros [node output]. apply may_stop_keeps. unfold publish_output. solve_keeps.
    intros r w0. unfold on_run_state. by destruct (apply_state_writes _ _ _). }
  intros _. apply may_stop_bind; [|intros _; apply may_stop_keeps; solve_keeps].
  apply may_stop_for. intros [node output]. unfold route_output.
  destruct (is_output_node node); [by apply may_stop_keeps, keeps_ret|].
  unfold route_after_node. apply may_stop_bind; [apply may_stop_keeps; solve_keeps|]. intros run0.
  apply may_stop_for. intros [index edge]. unfold route_edge.
  destruct (negb _); [by apply may_stop_keeps, keeps_ret|].
  destruct (loop_policy edge) as [policy|]; [|apply may_stop_keeps; solve_keeps].
  destruct (negb _); [by apply may_stop_keeps, keeps_ret|].
  apply may_stop_bind; [apply consume_loop_budget_may_stop|]. intros b. apply may_stop_keeps. solve_keeps.
Qed.

(** an exhausted loop does not stop a run at a commit: whatever its exhaustion
    action (to hand over to a person, or to finish with a partial result), a superstep
    that commits without an Output node leaves the run running, or paused only when a
    pause had been requested before. *)
Theorem commit_overrides_loop_exhaustion checkpoint run w task run' w' :
  commit_checkpoint checkpoint (run, w) = (Ok task, (run', w')) ->
  Forall (fun write => forall node output,
    succeeded_write (run_graph run) write = Some (node, output) -> kind node <> Output)
    (ck_pending_writes checkpoint) ->
  run_status run' = Failed \/ run_status run' = Running
  \/ run_status run' = Paused /\ run_status run = PauseRequested.
Proof using Type.
  intros (progress & run1 & w1 & Hrec & H)%commit_checkpoint_inv Hkinds.
  apply record_writes_Ok in Hrec as (Hd & Hs & _ & _ & _). cbn in Hs.
  assert (run_status run1 = run_status run) as Hstat by (unfold data_of in Hd; congruence).
  destruct (check_tool_budget run1 progress); [left; by destruct H|]. right.
  destruct H as (run2 & w2 & Hp & _ & Hend).
  pose proof (publish_outputs_may_stop progress run1 w1) as Hstop. rewrite Hp in Hstop. cbn in Hstop.
  assert (output_values progress = []) as Hnone.
  { unfold output_values. rewrite Hs. clear -Hkinds.
    induction Hkinds as [|write writes Hw Hall IH]; [done|]. cbn.
    destruct (succeeded_write (run_graph run) write) as [[node output]|]; [|exact IH]. cbn.
    unfold is_output_node. rewrite bool_decide_eq_false_2 by (by eapply Hw). exact IH. }
  rewrite Hnone in Hend. destruct Hend as [-> _]. rewrite Hstat in Hstop.
  destruct Hstop as [->|[->| ->]]; [|by left..]. destruct (run_status run); auto.
Qed.

(** The traversals an edge's loop policy and the run's budget allow. *)
Definition loop_limit (run : FlowRunV1) (policy : GraphLoopPolicyV1) : Z :=
  Z.max 0 (Z.min (max_iterations policy) (max_loop_iterations (run_budget run))).

Definition loops_within (run : FlowRunV1) : Prop :=
  forall index edge policy count,
    edges (run_graph run) !! index = Some edge -> loop_policy edge = Some policy ->
    loop_counts run !! pretty index = Some count -> 0 <= count <= loop_limit run policy.

Definition loop_data (run : FlowRunV1) := (edges (run_graph run), run_budget run, loop_counts run).

Lemma loops_within_data run run' :
  loop_data run' = loop_data run -> loops_within run -> loops_within run'.
Proof using Type.
  unfold loop_data. intros [= He Hb Hl] Hin index edge policy count. rewrite He, Hl.
  intros ? ? ?. unfold loop_limit. rewrite Hb. eapply Hin; eauto.
Qed.

(** [m] keeps every loop within its budget. *)
Definition loop_safe {A} (m : RunM A) : Prop := preserves (fun s => loops_within (fst s)) m.

Lemma loop_safe_keeps {A} (m : RunM A) : keeps loop_data m -> loop_safe m.
Proof using Type. intros Hk [run w] Hin. cbn in *. eapply loops_within_data; [apply Hk|done]. Qed.

Lemma loops_within_insert run index edge policy count :
  edges (run_graph run) !! index = Some edge -> loop_policy edge = Some policy ->
  0 <= count <= loop_limit run policy -> loops_within run ->
  loops_within (run <| loop_counts := <[pretty index := count]> (loop_counts run) |>).
Proof using Type.
  intros He Hp Hc Hin index' edge' policy' count' He' Hp' Hl'. cbn in He', Hl'.
  change (loop_limit (run <| loop_counts := _ |>) policy') with (loop_limit run policy').
  destruct (decide (index' = index)) as [->|Hne].
  - rewrite lookup_insert_eq in Hl'. congruence.
  - rewrite lookup_insert_ne in Hl' by (intros Heq; by apply (inj pretty) in Heq). eauto.
Qed.

Lemma consume_loop_budget_safe index edge policy run w :
  edges (run_graph run) !! index = Some edge -> loop_policy edge = Some policy ->
  loops_within run -> loops_within (fst (snd (consume_loop_budget index policy (run, w)))).
Proof using Type.
  intros He Hp Hin. unfold consume_loop_budget, m_bind, m_self, m_update, m_world. cbn.
  set (count := default 0 (loop_counts run !! pretty index)).
  assert (0 <= count <= loop_limit run policy) as Hcount.
  { unfold count. destruct (loop_counts run !! pretty index) eqn:Hl; cbn; [by eauto|].
    unfold loop_limit. lia. }
  assert (loops_within (run <| loop_counts := <[pretty index := count]> (loop_counts run) |>)) as Hin1
    by (by eapply loops_within_insert).
  destruct (Z.ltb_spec count (Z.min (max_iterations policy) (max_loop_iterations (run_budget run)))); cbn.
  - eapply loops_within_data; [|apply (loops_within_insert (run <| loop_counts := <[pretty index := count]> (loop_counts run) |>)
             index edge policy (u32_saturating_add count 1)); [exact He|exact Hp| |exact Hin1]]; [reflexivity|].
    unfold loop_limit, u32_saturating_add in *. cbn. unfold u32_max. lia.
  - destruct (on_exhausted policy); cbn; [done|..]; (eapply loops_within_data; [|exact Hin1]; done).
Qed.

Lemma loop_safe_ret {A} (a : A) : loop_safe (m_ret a).
Proof using Type. apply preserves_ret. Qed.

Lemma outgoing_edges_elem graph id index edge :
  (index, edge) ∈ outgoing_edges graph id -> edges graph !! index = Some edge.
Proof using Type.
  unfold outgoing_edges. intros [Hin _]%list_elem_of_In%filter_In.
  apply list_elem_of_In, list_elem_of_lookup in Hin as [i Hi].
  rewrite list_lookup_imap in Hi. destruct (edges graph !! i) eqn:He; [|done].
  by injection Hi as -> ->.
Qed.

(** Routing looks at the edges of the graph only, which it does not change. *)
Lemma route_edge_graph output indexed : keeps (fun r => edges (run_graph r)) (route_edge output indexed).
Proof using Type.
  destruct indexed as [index edge]. unfold route_edge, consume_loop_budget. solve_keeps.
Qed.

Lemma route_edge_safe output index edge run w :
  edges (run_graph run) !! index = Some edge ->
  loops_within run -> loops_within (fst (snd (route_edge output (index, edge) (run, w)))).
Proof using Type.
  intros He Hin. unfold route_edge. destruct (negb _); [done|].
  destruct (loop_policy edge) as [policy|] eqn:Hp; [|by eapply loops_within_data; [|exact Hin]].
  destruct (negb _); [done|]. pose proof (consume_loop_budget_safe index edge policy run w He Hp Hin) as Hc.
  unfold m_bind. destruct (consume_loop_budget index policy (run, w)) as [[[]|e] [run1 w1]]; cbn in *;
    [|done..]. by eapply loops_within_data; [|exact Hc].
Qed.

Lemma route_edges_safe output indexed : forall run w,
  (forall index edge, (index, edge) ∈ indexed -> edges (run_graph run) !! index = Some edge) ->
  loops_within run -> loops_within (fst (snd (m_for indexed (route_edge output) (run, w)))).
Proof using Type.
  induction indexed as [|[index edge] indexed IH]; intros run w Hedges Hin; [done|].
  cbn [m_for]. pose proof (route_edge_safe output index edge run w) as H1.
  pose proof (route_edge_graph output (index, edge) run w) as Hg. unfold m_bind.
  destruct (route_edge output (index, edge) (run, w)) as [[u|e] [run1 w1]]; cbn in *.
  - apply IH; [intros i e Hie; rewrite Hg; apply Hedges; set_solver|].
    apply H1; [apply Hedges; set_solver|done].
  - apply H1; [apply Hedges; set_solver|done].
Qed.

Lemma route_after_node_safe id output : loop_safe (route_after_node id output).
Proof using Type.
  intros [run w] Hin. unfold route_after_node. unfold m_bind, m_self. cbn.
  apply route_edges_safe; [|done]. intros index edge. apply outgoing_edges_elem.
Qed.

End commit_facts.
