(* ===== verification/FlowResumeFacts.v ===== *)
(** Beginning, cancelling, recovering and resuming the checkpoint of a run. *)
From S2P Require Import Prelude RustStr RustStrFacts Json Enterprise WorkflowState WorkflowAutomation FlowGraph FlowActivation Flow WorkflowInterrupt HumanTask Workflow FlowRun FlowEngine FlowResume FlowStore FlowDriver FlowCommit FlowLoop FlowProgress FlowCommitFacts.

Section resume_facts.
Context `{JN : JsonNumber} `{JT : !JsonText} `{SWC : !StateWriteCodec} `{AC : !ActivationCodec}
  `{SC : !SpecCodec} `{WB : !WorkflowBytes} `{SG : !SignalCodec} `{RC : !ResponseCodec}
  `{FS : FileSystem} `{U : Unicode} `{HO : Host}.

(** * Beginning a superstep *)

(** The node run a superstep opens for an item. *)
Definition opened_for (item : WorkflowSuperstepNodeV1) (node_run : FlowNodeRunV1) : Prop :=
  node_run_id node_run = item_node_run_id item
  /\ node_run_node_id node_run = item_node_id item
  /\ node_run_attempt node_run = item_attempt item
  /\ node_run_input node_run = item_input item
  /\ node_run_status node_run = NodeRunning /\ node_run_completed_at node_run = None.

(** What an item fixes of the run it starts from. *)
Definition planned_for (run : FlowRunV1) (id : string) (item : WorkflowSuperstepNodeV1) : Prop :=
  item_node_id item = id /\ item_input item = node_input run id
  /\ item_attempt item = next_attempt run id.

Definition inputs_of (run : FlowRunV1) := (node_outputs run, run_graph run, run_input run).

Lemma node_input_inputs run run' id :
  inputs_of run' = inputs_of run -> node_input run' id = node_input run id.
Proof using Type.
  unfold inputs_of, node_input, incoming_values. by intros [= -> -> ->].
Qed.

Lemma remove_first_elem queue id x :
  NoDup queue -> x ∈ remove_first queue id <-> x ∈ queue /\ x <> id.
Proof using Type.
  induction 1 as [|y queue Hy Hnd IH]; cbn; [set_solver|].
  destruct (String.eqb_spec y id) as [->|Hne]; [set_solver|].
  rewrite !elem_of_cons, IH. set_solver.
Qed.

Lemma remove_first_nodup queue id : NoDup queue -> NoDup (remove_first queue id).
Proof using Type.
  induction 1 as [|y queue Hy Hnd IH]; cbn; [constructor|].
  destruct (String.eqb_spec y id); [done|]. constructor; [|done].
  rewrite remove_first_elem by done. tauto.
Qed.

Lemma next_attempt_app run run' extra id :
  node_runs run' = node_runs run ++ extra ->
  Forall (fun node_run => node_run_node_id node_run <> id) extra ->
  next_attempt run' id = next_attempt run id.
Proof using Type.
  intros Hr Hall. unfold next_attempt. rewrite Hr, List.filter_app.
  assert (List.filter (fun r => String.eqb (node_run_node_id r) id) extra = []) as ->.
  { clear Hr. induction Hall as [|nr extra Hne Hall IH]; [done|]. cbn.
    rewrite (proj2 (String.eqb_neq _ _) Hne). exact IH. }
  by rewrite app_nil_r.
Qed.

Lemma begin_superstep_item_spec id run w item run' w' :
  begin_superstep_item id (run, w) = (Ok item, (run', w')) ->
  planned_for run id item
  /\ exists opened, opened_for item opened /\ node_runs run' = node_runs run ++ [opened]
       /\ ready_nodes run' = remove_first (ready_nodes run) id /\ inputs_of run' = inputs_of run.
Proof using Type.
  cbn. intros [= <- <- _]. split; [done|]. eexists. split; [|done]. done.
Qed.

Lemma begin_superstep_items_spec ids run w items run' w' :
  begin_superstep_items ids (run, w) = (Ok items, (run', w')) -> NoDup ids ->
  NoDup (ready_nodes run) ->
  Forall2 (planned_for run) ids items
  /\ (exists opened, node_runs run' = node_runs run ++ opened /\ Forall2 opened_for items opened)
  /\ NoDup (ready_nodes run') /\ (forall x, x ∈ ready_nodes run' <-> x ∈ ready_nodes run /\ x ∉ ids).
Proof using Type.
  revert run w items. induction ids as [|id ids IH]; intros run w items; cbn [begin_superstep_items].
  - intros [= <- <- <-] _ Hrd.
    split_and!; [constructor|exists []; by rewrite app_nil_r|done|set_solver].
  - intros (item & [run1 w1] & Hi & (items' & [run2 w2] & Hr & [= <- <- <-])%m_bind_Ok)%m_bind_Ok.
    intros [Hid Hnd]%NoDup_cons Hrd.
    apply begin_superstep_item_spec in Hi as (Hplan1 & new & Hnew & Hnr1 & Hrd1 & Hinp1).
    apply IH in Hr as (Hplan & (opened & Hnr & Hopen) & Hrd' & Hin);
      [|done|rewrite Hrd1; by apply remove_first_nodup].
    split_and!; [| |done|].
    + constructor; [done|]. assert (Forall (fun x => x <> id) ids) as Hother
        by (apply Forall_forall; intros x Hx ->; done).
      clear -Hplan Hother Hnr1 Hinp1 Hnew Hplan1. induction Hplan as [|x it ids items (Hx & Hxi & Hxa) Hplan IH];
        [constructor|]. inversion Hother; subst. constructor; [|by apply IH].
      split; [done|]. split.
      * rewrite Hxi. by apply node_input_inputs.
      * rewrite Hxa. apply (next_attempt_app _ _ [new]); [done|]. constructor; [|done].
        destruct Hnew as (_ & -> & _), Hplan1 as (-> & _). congruence.
    + exists (new :: opened). split; [by rewrite Hnr, Hnr1, <-app_assoc|by constructor].
    + intros x. rewrite Hin, Hrd1, remove_first_elem by done. set_solver.
Qed.

(** C10: a superstep begins well-formed: the checkpoint holds exactly the requested
    nodes, in order and once each, with the inputs and attempt numbers of the run it
    started from and no writes; each item has its own open node run, the earlier
    node runs are untouched, and the queue loses exactly the nodes begun. *)
Theorem begin_superstep_well_formed ids run w u run' w' :
  begin_superstep_run ids (run, w) = (Ok u, (run', w')) -> NoDup ids -> NoDup (ready_nodes run) ->
  exists checkpoint opened, active_checkpoint run' = Some checkpoint
    /\ ck_pending_writes checkpoint = [] /\ ck_superstep checkpoint = u32_saturating_add (run_superstep run) 1
    /\ Forall2 (planned_for run) ids (ck_nodes checkpoint)
    /\ NoDup (item_node_id <$> ck_nodes checkpoint)
    /\ node_runs run' = node_runs run ++ opened /\ Forall2 opened_for (ck_nodes checkpoint) opened
    /\ NoDup (ready_nodes run') /\ forall x, x ∈ ready_nodes run' <-> x ∈ ready_nodes run /\ x ∉ ids.
Proof using Type.
  intros H Hids Hrd. unfold begin_superstep_run in H.
  apply m_bind_Ok in H as (? & ? & [= _ <-] & H). apply m_bind_Ok in H as (? & ? & [= <- <-] & H).
  apply m_bind_Ok in H as (? & ? & [= _ <-] & H).
  apply m_bind_Ok in H as (items & [run1 w1] & Hitems & H).
  assert (keeps run_superstep (begin_superstep_items ids)) as Ks.
  { clear. induction ids as [|id ids IH]; cbn [begin_superstep_items]; solve_keeps.
    unfold begin_superstep_item, superstep_node_run. solve_keeps. }
  pose proof (keeps_run _ _ _ _ _ _ _ Ks Hitems) as Hss.
  apply begin_superstep_items_spec in Hitems as (Hplan & (opened & Hnr & Hopen) & Hrd' & Hin); [|done..].
  apply m_bind_Ok in H as (? & ? & [= _ <-] & H).
  apply m_bind_Ok in H as (? & [run2 w2] & Hstart & H).
  assert (keeps (fun r => (node_runs r, ready_nodes r, run_superstep r)) mark_started) as Km
    by (unfold mark_started; solve_keeps).
  pose proof (keeps_run _ _ _ _ _ _ _ Km Hstart) as [= Hnr2 Hrd2 Hss2].
  assert (NoDup (item_node_id <$> items)).
  { assert (item_node_id <$> items = ids) as ->; [|done].
    clear -Hplan. induction Hplan as [|id item ids items [Hid _] _ IH]; [done|]. cbn. by rewrite Hid, IH. }
  cbn in H. injection H as _ <- _. eexists _, opened. cbn. rewrite Hnr2, Hrd2, Hss2, Hss, Hnr.
  split_and!; done.
Qed.

(** * Cancelling *)

Definition is_closed (node_run : FlowNodeRunV1) : Prop := is_Some (node_run_completed_at node_run).

(** [runs'] is [runs] with some open node runs closed as cancelled. *)
Definition closes_some (t : DateTime) (old new : FlowNodeRunV1) : Prop :=
  new = old
  \/ ~ is_closed old
     /\ new = old <| node_run_status := NodeCancelled |>
                  <| node_run_error := Some "Flow run cancelled before superstep commit" |>
                  <| node_run_completed_at := Some t |>.

Lemma closes_some_id t old new : closes_some t old new -> node_run_id new = node_run_id old.
Proof using Type. by intros [->|[_ ->]]. Qed.

Lemma closes_some_trans t r1 r2 r3 : closes_some t r1 r2 -> closes_some t r2 r3 -> closes_some t r1 r3.
Proof using Type.
  intros [->|[H1 ->]] [->|[H2 ->]]; [by left|by right|by right|]. destruct H2. by eexists.
Qed.

Lemma closes_some_refl t runs : Forall2 (closes_some t) runs runs.
Proof using Type. induction runs; constructor; [by left|done]. Qed.

Lemma cancel_item_spec t runs item :
  NoDup (node_run_id <$> runs) ->
  Forall2 (closes_some t) runs (cancel_item t runs item)
  /\ Forall (fun n => node_run_id n = item_node_run_id item -> is_closed n) (cancel_item t runs item).
Proof using Type.
  intros Hnd. unfold cancel_item, update_first_or.
  set (p := fun n => bool_decide (node_run_id n = item_node_run_id item)
              && match node_run_completed_at n with None => true | Some _ => false end).
  assert (forall n, p n = true <-> node_run_id n = item_node_run_id item /\ ~ is_closed n) as Hp.
  { intros n. unfold p, is_closed. rewrite andb_true_iff, bool_decide_eq_true.
    destruct (node_run_completed_at n); naive_solver. }
  destruct (update_first p _ runs) as [runs'|] eqn:Hu; cbn.
  - apply update_first_Some in Hu as (l1 & x & l2 & -> & Hx & Hl1 & ->). apply Hp in Hx as [Hxid Hopen].
    rewrite fmap_app in Hnd. apply NoDup_app in Hnd as (_ & Hd1 & Hd2). cbn in Hd1, Hd2.
    apply NoDup_cons in Hd2 as [Hd2 _]. split.
    + apply Forall2_app; [apply closes_some_refl|].
      constructor; [by right|]. apply closes_some_refl.
    + rewrite Forall_app, Forall_cons. split_and!; [|by eexists|].
      * apply Forall_forall. intros n Hn Heq. exfalso. apply (Hd1 (node_run_id n)).
        -- apply list_elem_of_fmap. by exists n.
        -- rewrite Heq, <-Hxid. apply list_elem_of_here.
      * apply Forall_forall. intros n Hn Heq. exfalso. apply Hd2. rewrite Hxid, <-Heq.
        apply list_elem_of_fmap. by exists n.
  - split; [apply closes_some_refl|].
    apply update_first_None in Hu. apply Forall_forall. intros n Hn Heq.
    eapply find_none in Hu; [|by apply list_elem_of_In]. destruct (node_run_completed_at n) eqn:Hc; [by eexists|].
    exfalso. assert (p n = true); [|congruence]. apply Hp. split; [done|]. unfold is_closed. rewrite Hc. by intros [].
Qed.

Lemma cancel_items_spec t items : forall runs,
  NoDup (node_run_id <$> runs) ->
  Forall2 (closes_some t) runs (fold_left (cancel_item t) items runs)
  /\ forall item, item ∈ items ->
       Forall (fun n => node_run_id n = item_node_run_id item -> is_closed n)
              (fold_left (cancel_item t) items runs).
Proof using Type.
  induction items as [|item items IH]; intros runs Hnd; cbn.
  - split; [|set_solver]. apply closes_some_refl.
  - destruct (cancel_item_spec t runs item Hnd) as [Hsome Hclosed].
    assert (node_run_id <$> cancel_item t runs item = node_run_id <$> runs) as Hids.
    { clear -Hsome. induction Hsome as [|a b l l' Hab _ IH]; [done|]. cbn. by rewrite IH, (closes_some_id _ _ _ Hab). }
    destruct (IH (cancel_item t runs item)) as [Hsome' Hclosed']; [by rewrite Hids|]. split.
    + clear -Hsome Hsome'. revert Hsome'. generalize (fold_left (cancel_item t) items (cancel_item t runs item)).
      intros l Hl. eapply Forall2_trans; [|exact Hsome|exact Hl]. intros; by eapply closes_some_trans.
    + intros it [->|Hit]%elem_of_cons; [|by apply Hclosed'].
      clear -Hclosed Hsome'. revert Hclosed.
      induction Hsome' as [|a b l l' Hab _ IH]; [constructor|]. inversion 1; subst. constructor; [|auto].
      rewrite (closes_some_id _ _ _ Hab). intros Hid. destruct Hab as [->|[_ ->]]; [auto|by eexists].
Qed.

(** C34: cancelling a run at a checkpoint boundary never fails, leaves no active
    checkpoint and no node run of that checkpoint open, records the checkpoint as
    cancelled in the history, and changes no other node run. *)
Theorem cancel_run_closes_checkpoint run w checkpoint :
  active_checkpoint run = Some checkpoint -> NoDup (node_run_id <$> node_runs run) ->
  exists run' w' t, cancel_run (run, w) = (Ok tt, (run', w'))
    /\ run_status run' = Cancelled /\ active_checkpoint run' = None /\ is_Some (run_completed_at run')
    /\ Forall2 (closes_some t) (node_runs run) (node_runs run')
    /\ (forall item, item ∈ ck_nodes checkpoint ->
         Forall (fun n => node_run_id n = item_node_run_id item -> is_closed n) (node_runs run'))
    /\ checkpoint_history run' = checkpoint_history run ++ [checkpoint_summary checkpoint CkCancelled t]
    /\ run_revision run' = u32_saturating_add (run_revision run) 1.
Proof using Type.
  intros Hck Hnd. unfold cancel_run, cancel_active_checkpoint, m_bind, m_self. cbn. rewrite Hck. cbn.
  do 3 eexists. split; [done|]. cbn.
  destruct (cancel_items_spec (host_now w) (ck_nodes checkpoint) (node_runs run) Hnd) as [Hsome Hclosed].
  split_and!; eauto.
Qed.

(** * Recovering a checkpoint after a crash *)

(** What becomes of an item when its checkpoint is retried. *)
Definition retried (completed : gset string) (runs : list FlowNodeRunV1)
    (old new : WorkflowSuperstepNodeV1) : Prop :=
  if decide (item_node_id old ∈ completed) then new = old
  else item_node_id new = item_node_id old /\ item_input new = item_input old
       /\ item_attempt new = u32_saturating_add (item_attempt old) 1
       /\ exists node_run, node_run ∈ runs /\ opened_for new node_run.

(** Identifiers drawn from now on are new to the items of a checkpoint. *)
Definition fresh_for (w : World) (items : list WorkflowSuperstepNodeV1) : Prop :=
  forall n, (w <= n)%N -> host_v4 n ∉ item_node_run_id <$> items.

Lemma update_first_or_elem {A} (p : A -> bool) f l x : x ∈ l -> p x = false -> x ∈ update_first_or p f l.
Proof using Type.
  intros Hx Hp. unfold update_first_or. destruct (update_first p f l) eqn:Hu; [|done]. cbn.
  apply update_first_Some in Hu as (l1 & y & l2 & -> & Hy & _ & ->).
  rewrite elem_of_app, elem_of_cons in *. destruct Hx as [?|[->|?]]; [auto|congruence|auto].
Qed.

Lemma retry_item_spec completed item run w :
  exists item' run' w', retry_item completed item (run, w) = (Ok item', (run', w'))
    /\ retried completed (node_runs run') item item'
    /\ (forall node_run, node_run ∈ node_runs run -> node_run_id node_run <> item_node_run_id item ->
                         node_run ∈ node_runs run')
    /\ (item_node_id item ∈ completed \/ exists n, (w <= n)%N /\ item_node_run_id item' = host_v4 n)
    /\ (w <= w')%N
    /\ node_executions run' = if decide (item_node_id item ∈ completed) then node_executions run
                              else u32_saturating_add (node_executions run) 1.
Proof using Type.
  unfold retry_item, retried. destruct (decide (item_node_id item ∈ completed)).
  { exists item, run, w. split_and!; auto; lia. }
  unfold m_bind, m_self, m_world, m_update. cbn.
  destruct (existsb _ _); cbn; (do 3 eexists; split; [done|]; cbn; split_and!; [done|done|done| | |right; eexists; split; [|done]; unfold World in *; lia|unfold World in *; lia|done]).
  1,3: eexists; split; [apply elem_of_app; right; apply list_elem_of_singleton; reflexivity|done].
  - intros nr Hin Hne. apply elem_of_app. left. apply update_first_or_elem; [done|].
    by apply bool_decide_eq_false_2.
  - intros nr Hin _. apply elem_of_app. by left.
Qed.

Lemma retry_items_spec completed items (w0 : World) : forall run (w : World),
  fresh_for w0 items -> (w0 <= w)%N ->
  exists items' run' w', retry_items completed items (run, w) = (Ok items', (run', w'))
    /\ Forall2 (retried completed (node_runs run')) items items'
    /\ (forall node_run n, node_run ∈ node_runs run -> node_run_id node_run = host_v4 n ->
                           (w0 <= n)%N -> node_run ∈ node_runs run').
Proof using Type.
  induction items as [|item items IH]; intros run w Hfresh Hw; cbn [retry_items].
  - exists [], run, w. split_and!; [done|constructor|done].
  - destruct (retry_item_spec completed item run w) as (item' & run1 & w1 & Hi & Hret & Hkeep & Hnew & Hle & _).
    assert (fresh_for w0 items) as Hfresh' by (intros m Hm Hin; apply (Hfresh m Hm); cbn; set_solver).
    destruct (IH run1 w1 Hfresh' ltac:(lia)) as (items' & run2 & w2 & Hr & Hall & Hkeep').
    exists (item' :: items'), run2, w2. unfold m_bind. rewrite Hi, Hr. split_and!; [done| |].
    + constructor; [|done]. unfold retried in *. destruct (decide _) as [|Hnot]; [done|].
      destruct Hret as (Hid & Hin & Hatt & nr & Hnr & Hop). split_and!; try done.
      exists nr. split; [|done]. destruct Hnew as [?|(m & Hwm & Hm)]; [done|].
      apply (Hkeep' _ m); [done| |lia]. destruct Hop as (-> & _). exact Hm.
    + intros nr n Hin Hid Hn. apply (Hkeep' _ n); [|done|done]. apply Hkeep; [done|]. rewrite Hid. intros Heq.
      apply (Hfresh n Hn). cbn. rewrite Heq. apply list_elem_of_here.
Qed.

Definition unfinished (completed : gset string) (items : list WorkflowSuperstepNodeV1)
    : list WorkflowSuperstepNodeV1 :=
  List.filter (fun item => negb (bool_decide (item_node_id item ∈ completed))) items.

Lemma retried_ids completed runs items items' :
  Forall2 (retried completed runs) items items' ->
  item_node_id <$> unfinished completed items' = item_node_id <$> unfinished completed items.
Proof using Type.
  induction 1 as [|old new items items' Hret _ IH]; [done|]. unfold unfinished in *. cbn.
  assert (item_node_id new = item_node_id old) as Hid.
  { unfold retried in Hret. destruct (decide _); [by subst|tauto]. }
  rewrite Hid. destruct (negb _); [|exact IH]. by rewrite !fmap_cons, IH, Hid.
Qed.

Lemma retry_items_frame completed items :
  keeps (fun r => (node_outputs r, run_state r, ready_nodes r, run_graph r, run_status r))
        (retry_items completed items).
Proof using Type.
  induction items as [|item items IH]; cbn [retry_items]; solve_keeps.
  unfold retry_item. destruct (decide _); solve_keeps. unfold superstep_node_run. solve_keeps.
Qed.

Lemma prepare_resume_checkpoint retry run w checkpoint :
  active_checkpoint run = Some checkpoint ->
  prepare_flow_resume retry (run, w) = retry_checkpoint checkpoint retry (run, w).
Proof using Type. intros Hck. unfold prepare_flow_resume, m_bind at 1. cbn [m_self]. by rewrite Hck. Qed.

Lemma retry_checkpoint_run run w checkpoint :
  let completed := completed_nodes checkpoint in
  let run0 := run <| active_checkpoint := None |> in
  retry_checkpoint checkpoint true (run, w) =
    if u32_saturating_add (node_executions run)
         (as_u32 (vec_len (unfinished completed (ck_nodes checkpoint))))
       <=? max_node_executions (run_budget run)
    then (let* items := retry_items completed (ck_nodes checkpoint) in
          m_update (fun run => run
            <| active_checkpoint := Some
                 (checkpoint <| ck_pending_writes := List.filter (fun write =>
                                  bool_decide (write_node_id write ∈ completed))
                                  (ck_pending_writes checkpoint) |>
                             <| ck_nodes := items |>) |>
            <| active_human_task_id := None |>)) (run0, w)
    else (Err (Msg ("Flow node execution budget exhausted ("
                    +:+ pretty (max_node_executions (run_budget run)) +:+ ")")), (run0, w)).
Proof using Type.
  cbn zeta. unfold retry_checkpoint, unfinished.
  unfold m_bind at 1 2 3 4, m_update, m_ensure, m_lift, m_self. cbn -[m_bind].
  by destruct (_ <=? _).
Qed.


(** * Resuming an interrupted Agent *)

Lemma resume_command_new_Ok task key interrupt signal note by_ w command w' :
  resume_command_new task key interrupt signal note by_ w = (Ok command, w') ->
  validates command interrupt = true /\ command_signal command = signal
  /\ command_id command = host_v5 task key /\ issued_by command = by_.
Proof using Type.
  unfold resume_command_new. destruct (str_is_empty (trim key)); [done|]. cbn.
  intros [= <- _]. unfold validates. cbn. by rewrite bool_decide_eq_true_2, Z.eqb_refl.
Qed.

Lemma prepare_flow_interrupt_resume_inv task action response note actor key run w command run' w' :
  prepare_flow_interrupt_resume task action response note actor key (run, w)
    = (Ok command, (run', w')) ->
  run_status run = WaitingHuman /\ active_human_task_id run = Some (task_id task)
  /\ exists continuation checkpoint write interrupt signal w1 w2,
       task_continuation_id task = Some continuation /\ active_checkpoint run = Some checkpoint
       /\ List.find (has_continuation continuation) (ck_pending_writes checkpoint) = Some write
       /\ write_interrupt write = Some interrupt
       /\ resume_signal write interrupt action response note = Ok signal
       /\ resume_command_new (task_id task) key interrupt signal note actor w1 = (Ok command, w2)
       /\ run_status run' = Resuming
       /\ active_checkpoint run' = Some (checkpoint <| ck_pending_writes :=
            update_first_or (has_continuation continuation)
              (fun write => write <| write_resume_command := Some command |>)
              (ck_pending_writes checkpoint) |>).
Proof using Type.
  unfold prepare_flow_interrupt_resume, m_ensure, m_lift. intros H.
  apply m_bind_Ok in H as (r & ? & [= <- <-] & H).
  apply m_bind_Ok in H as (? & ? & [= Hs <-] & H). apply ensure_Ok, bool_decide_eq_true in Hs.
  apply m_bind_Ok in H as (? & ? & [= Ht <-] & H). apply ensure_Ok, bool_decide_eq_true in Ht.
  apply m_bind_Ok in H as (continuation & ? & [= Hc%opt_context_Ok <-] & H).
  apply m_bind_Ok in H as (checkpoint & ? & [= Hk%opt_context_Ok <-] & H).
  apply m_bind_Ok in H as (write & ? & [= Hw%opt_context_Ok <-] & H).
  apply m_bind_Ok in H as (interrupt & ? & [= Hi%opt_context_Ok <-] & H).
  apply m_bind_Ok in H as (signal & ? & [= Hsig <-] & H).
  apply m_bind_Ok in H as (made & [run1 w1] & Hm & H). unfold m_world in Hm.
  destruct (resume_command_new _ _ _ _ _ _ _) as [r w2] eqn:Hnew. injection Hm as -> <- <-.
  apply m_bind_Ok in H as (command0 & ? & [= -> <-] & H).
  cbn in H. injection H as -> <- <-. split_and!; [done..|].
  exists continuation, checkpoint, write, interrupt, signal, w, w2. done.
Qed.

(** C8: resolving the Human task of an interrupted Agent reaches the driver: it is
    possible only while the run waits for that very task and only with an answer the
    interrupt's kind admits, and then the resuming run's checkpoint carries exactly
    that command on the interrupted write, where the driver's search finds it. *)
Theorem interrupt_resume_reaches_driver task action response note actor key run w command run' w'
    checkpoint :
  prepare_flow_interrupt_resume task action response note actor key (run, w)
    = (Ok command, (run', w')) ->
  active_checkpoint run = Some checkpoint -> resumable_write checkpoint = None ->
  run_status run = WaitingHuman /\ active_human_task_id run = Some (task_id task)
  /\ run_status run' = Resuming /\ pending_resume_command_id run' = Some (command_id command)
  /\ exists checkpoint' write interrupt,
       active_checkpoint run' = Some checkpoint' /\ write ∈ ck_pending_writes checkpoint
       /\ write_interrupt write = Some interrupt
       /\ task_continuation_id task = Some (envelope_id (interrupt_continuation interrupt))
       /\ resume_signal write interrupt action response note = Ok (command_signal command)
       /\ resumable_write checkpoint'
          = Some (write <| write_resume_command := Some command |>, interrupt, command).
Proof using Type.
  intros H Hck Hnone. apply prepare_flow_interrupt_resume_inv in H as (Hs & Ht & continuation & ck &
    write & interrupt & signal & w1 & w2 & Hc & Hk & Hw & Hi & Hsig & Hnew & Hs' & Hk').
  rewrite Hck in Hk. injection Hk as <-.
  apply resume_command_new_Ok in Hnew as (Hval & Hcs & _ & _).
  pose proof (find_update_first _ (fun write => write <| write_resume_command := Some command |>) _ _ Hw)
    as (l1 & l2 & Hl & _ & Hu).
  unfold update_first_or in Hk'. rewrite Hu in Hk'. cbn [default] in Hk'.
  assert (Hhas := Hw). apply list_find_Some_elem in Hhas as [Hin Hcont].
  unfold has_continuation in Hcont. rewrite Hi in Hcont. apply bool_decide_eq_true in Hcont.
  assert (forall (B : Type) (f : _ -> _ -> _ -> B),
    find_map (fun write => interrupt ← write_interrupt write; command ← write_resume_command write;
              if validates command interrupt then Some (f write interrupt command) else None)
      (l1 ++ write <| write_resume_command := Some command |> :: l2)
    = Some (f (write <| write_resume_command := Some command |>) interrupt command)) as Hfind.
  { intros B f. rewrite find_map_app_None; [cbn; by rewrite Hi; cbn; rewrite Hval|].
    intros x Hx. unfold resumable_write in Hnone. rewrite find_map_None in Hnone.
    specialize (Hnone x). rewrite Hl in Hnone. specialize (Hnone ltac:(set_solver)).
    destruct (write_interrupt x) as [f0|]; cbn in *; [|done].
    destruct (write_resume_command x) as [w0|]; cbn in *; [|done].
    revert Hnone. destruct (validates w0 f0); [intros Hx0; discriminate Hx0|done]. }
  split_and!; try done.
  - unfold pending_resume_command_id. rewrite Hk'. cbn. exact (Hfind _ (fun _ _ c => command_id c)).
  - do 2 eexists. exists interrupt. split_and!; [exact Hk'|exact Hin|done|congruence|by rewrite Hcs|].
    exact (Hfind _ (fun write interrupt command => (write, interrupt, command))).
Qed.
End resume_facts.
