(* ===== verification/FlowLimits.v ===== *)
(** Where the driver does less than its callers expect: a budget that can be planned
    but not executed, and requests that a concurrent transition overwrites. *)
From S2P Require Import Prelude RustStr RustStrFacts Json Enterprise WorkflowState WorkflowAutomation FlowGraph FlowActivation Flow WorkflowInterrupt HumanTask Workflow FlowRun FlowEngine FlowResume FlowStore FlowDriver FlowCommit FlowLoop FlowProgress FlowConcurrency.

Section limits.
Context `{JN : JsonNumber} `{JT : !JsonText} `{SWC : !StateWriteCodec} `{AC : !ActivationCodec}
  `{SC : !SpecCodec} `{WB : !WorkflowBytes} `{SG : !SignalCodec} `{RC : !ResponseCodec}
  `{FS : FileSystem} `{U : Unicode} `{HO : Host}
  `{EN : !Environment} `{HA : !FlowNodeHarness} `{EX : !Executor}.

(** C39: the node budget is off by one superstep: a superstep may begin when it fills
    the budget exactly, but the next iteration of the driver then refuses to execute
    it, so its nodes never run and the run fails. *)
Theorem superstep_filling_budget_fails ids run w u run' w' context id st w2 :
  begin_superstep_run ids (run, w) = (Ok u, (run', w')) ->
  node_executions run' = max_node_executions (run_budget run') ->
  store_runs (interfere w2 st) !! id = Some run' ->
  drive_step context id (st, w2)
  = (Err (Msg ("Flow node execution budget exhausted ("
               +:+ pretty (max_node_executions (run_budget run')) +:+ ")")),
     (interfere w2 st, N.succ w2)).
Proof using Type.
  intros Hbegin Hfull Hst.
  apply begin_superstep_run_Ok in Hbegin as (_ & _ & _ & Hs & _ & _).
  unfold drive_step, m_bind at 1. rewrite get_flow_run_run, Hst. cbn [opt_context m_lift m_bind].
  unfold m_bind at 1. cbn [m_lift]. unfold run_is_parked. rewrite Hs. cbn [is_terminal orb].
  unfold drive_work, m_bind at 1, m_world, enforce_run_budget. rewrite Hfull, Z.ltb_irrefl. done.
Qed.

Lemma swap_pending_write_Ok run ck replacement run' :
  swap_pending_write run ck replacement = Ok run' ->
  run_id run' = run_id run /\ run_status run' = Running.
Proof using Type.
  unfold swap_pending_write. intros (c & _ & H)%result_bind_Ok.
  apply result_bind_Ok in H as (? & _ & H). apply result_bind_Ok in H as (? & _ & H).
  by injection H as <-.
Qed.

(** Recording the result of a resumed Agent forgets requests: whatever status the
    stored run has at that moment, a cancellation or pause requested in the meantime
    included, [replace_pending_write] leaves it running. *)
Theorem resumed_write_forgets_requests id ck replacement st w u st' w' :
  revisions_identify ->
  keeps_keyed id -> keyed id st ->
  replace_pending_write id ck replacement (st, w) = (Ok u, (st', w')) ->
  exists st0 run run', env_steps st st0 /\ store_runs st0 !! id = Some run
    /\ st' = st0 <| store_runs := <[id := run']> (store_runs st0) |> /\ run_status run' = Running.
Proof using Type.
  intros Hrev Hkeeps Hkey H.
  apply cas_loop_atomic in H as (st0 & run & Henv & Hrun & H); [|done| |done|done].
  - destruct H as [[H _]|(run1 & t & H & ->)].
    + by destruct (swap_pending_write run ck replacement).
    + exists st0, run, (touched run1 t). split_and!; [done..|].
      destruct (swap_pending_write run ck replacement) as [r|] eqn:Hs; [|done]. injection H as ->.
      by apply swap_pending_write_Ok in Hs as [_ Hs].
  - intros r r' Hr. destruct (swap_pending_write r ck replacement) as [x|] eqn:Hs; [|done].
    injection Hr as ->. by apply swap_pending_write_Ok in Hs as [Hs _].
Qed.

(** The control action of the Flow tools cancels outright only a paused run or one
    waiting for an approval; every other run it leaves to its driver. *)
Lemma request_cancel_status run w :
  exists run' w', request_cancel (run, w) = (Ok tt, (run', w'))
    /\ run_status run' = (match run_status run with Paused | WaitingApproval => Cancelled
                                                  | _ => CancelRequested end)
    /\ active_checkpoint run' = active_checkpoint run.
Proof using Type.
  unfold request_cancel, m_bind, m_self. cbn.
  destruct (run_status run); cbn; (do 2 eexists; split; [done|]; done).
Qed.

(** Cancelling a run that waits for an Agent's human task strands it: the driver
    has returned at the first sight of that status, and the Flow tool's cancel only
    requests the cancellation a driver would have to carry out. *)
Theorem cancel_strands_waiting_run context id st w run w2 :
  store_runs (interfere w st) !! id = Some run -> run_status run = WaitingHuman ->
  drive_step context id (st, w) = (Ok false, (interfere w st, N.succ w))
  /\ exists run' w2', request_cancel (run, w2) = (Ok tt, (run', w2'))
       /\ run_status run' = CancelRequested /\ is_terminal (run_status run') = false
       /\ active_checkpoint run' = active_checkpoint run.
Proof using Type.
  intros Hrun Hs. split.
  - unfold drive_step, m_bind at 1. rewrite get_flow_run_run, Hrun. cbn [opt_context m_lift].
    unfold m_bind at 1. cbn [m_lift]. unfold run_is_parked. by rewrite Hs.
  - destruct (request_cancel_status run w2) as (run' & w2' & Hr & Hs' & Ha). rewrite Hs in Hs'.
    exists run', w2'. by rewrite Hs'.
Qed.
End limits.
