(* ===== verification/WorkflowFacts.v ===== *)
(** What compiling a workflow and creating a run guarantee: every Agent node has
    its frozen template, and no execution is given more authority than it was
    granted. *)
From S2P Require Import Prelude RustStr RustStrFacts Json Enterprise WorkflowState WorkflowAutomation FlowGraph FlowActivation Flow FlowSearch FlowFacts WorkflowInterrupt HumanTask Workflow FlowRun FlowEngine FlowResume FlowStore FlowDriver FlowCommit.

Section workflow_facts.
Context `{JN : JsonNumber} `{JT : !JsonText} `{SWC : !StateWriteCodec} `{AC : !ActivationCodec}
  `{SC : !SpecCodec} `{WB : !WorkflowBytes} `{SG : !SignalCodec} `{RC : !ResponseCodec}
  `{FS : FileSystem} `{U : Unicode} `{HO : Host}.

(** * Compilation *)

Lemma graph_agents_Some graph id node :
  NoDup (node_id <$> nodes graph) ->
  graph_agents graph !! id = Some node <-> node ∈ nodes graph /\ node_id node = id /\ kind node = Agent.
Proof using Type.
  intros Hnd. unfold graph_agents.
  assert (forall l (m : gmap string GraphNodeV1), NoDup (node_id <$> l) ->
    (forall n, n ∈ l -> m !! node_id n = None) ->
    fold_left (fun m node => <[node_id node := node]> m) l m !! id = Some node <->
    m !! id = Some node \/ node ∈ l /\ node_id node = id) as Hfold.
  { induction l as [|x l IH]; intros m Hl Hm; cbn; [set_solver|].
    apply NoDup_cons in Hl as [Hx Hl]. rewrite IH; [|done|].
    - destruct (decide (node_id x = id)) as [<-|Hne].
      + rewrite lookup_insert_eq. specialize (Hm x (list_elem_of_here _ _)). rewrite Hm. split.
        * intros [[= ->]|[Hin Hid]]; set_solver.
        * intros [?|[[->|Hin]%elem_of_cons Hid]]; [done|by left|].
          exfalso. apply Hx. apply list_elem_of_fmap. by exists node.
      + rewrite lookup_insert_ne by done. set_solver.
    - intros n Hn. rewrite lookup_insert_ne; [set_solver|].
      intros Heq. apply Hx. apply list_elem_of_fmap. by exists n. }
  rewrite Hfold; [|eapply sublist_NoDup; [exact Hnd|]; apply fmap_sublist|by intros; apply lookup_empty].
  - rewrite lookup_empty, list_elem_of_In, filter_In, <-list_elem_of_In, bool_decide_eq_true. naive_solver.
  - clear. induction (nodes graph) as [|x l IH]; cbn; [constructor|]. destruct (bool_decide _); by constructor.
Qed.

(** What admitting Agent specs checked. *)
Definition spec_matches (agents : gmap string GraphNodeV1) (spec : WorkflowAgentSpecV1) : Prop :=
  exists node, agents !! agent_node_id spec = Some node
    /\ template_id spec = node_template_id node /\ template_version spec = node_template_version node.

Lemma admit_agent_specs_Ok agents specs : forall compiled compiled',
  (forall id spec, compiled !! id = Some spec -> agent_node_id spec = id) ->
  admit_agent_specs agents compiled specs = Ok compiled' ->
  Forall (spec_matches agents) specs
  /\ (forall id spec, compiled' !! id = Some spec <->
        compiled !! id = Some spec \/ spec ∈ specs /\ agent_node_id spec = id)
  /\ NoDup (agent_node_id <$> specs)
  /\ (forall spec, spec ∈ specs -> compiled !! agent_node_id spec = None).
Proof using Type.
  induction specs as [|spec specs IH]; intros compiled compiled' Hkey; cbn.
  - intros [= <-]. split_and!; [constructor|set_solver|constructor|set_solver].
  - intros (c1 & Ha & H)%result_bind_Ok. unfold admit_agent_spec in Ha.
    destruct (agents !! agent_node_id spec) as [node|] eqn:Hnode; [|done].
    destruct (String.eqb_spec (template_id spec) (node_template_id node)) as [Ht|]; [|done].
    destruct (Z.eqb_spec (template_version spec) (node_template_version node)) as [Hv|]; [|done].
    cbn in Ha. destruct (compiled !! agent_node_id spec) eqn:Hc; [done|]. injection Ha as <-.
    apply IH in H as (Hall & Hiff & Hnd & Hnone).
    2: { intros id s. rewrite lookup_insert_Some. intros [[<- <-]|[_ ?]]; auto. }
    assert (forall s, s ∈ specs -> agent_node_id s <> agent_node_id spec) as Hne.
    { intros s Hs Heq. specialize (Hnone s Hs). rewrite Heq, lookup_insert_eq in Hnone. done. }
    split_and!.
    + constructor; [by exists node|done].
    + intros id s. rewrite Hiff, lookup_insert_Some. split.
      * intros [[[<- <-]|[Hid ?]]|[Hin Hid]]; [right; set_solver|by left|right; set_solver].
      * intros [Hs|[[->|Hin]%elem_of_cons Hid]]; [|left; by left|right; done].
        left. right. split; [|done]. intros <-. congruence.
    + constructor; [|done]. intros (s & Heq & Hs)%list_elem_of_fmap. by apply (Hne s Hs).
    + intros s [->|Hs]%elem_of_cons; [done|]. specialize (Hnone s Hs).
      by apply lookup_insert_None in Hnone as [? _].
Qed.

(** The operations collected under their model-facing names. *)
Definition aliased (by_alias : gmap string ExecutionConnectionOperationV1) : Prop :=
  forall name op, by_alias !! name = Some op -> model_tool_name op = name.

Lemma add_operations_Ok ops : forall by_alias by_alias',
  add_operations by_alias ops = Ok by_alias' -> aliased by_alias ->
  aliased by_alias' /\ forall op, by_alias' !! model_tool_name op = Some op <->
    by_alias !! model_tool_name op = Some op \/ op ∈ ops.
Proof using Type.
  induction ops as [|op ops IH]; intros by_alias by_alias'; cbn.
  - intros [= <-] Ha. split; [done|set_solver].
  - intros (b1 & Hadd & H)%result_bind_Ok Ha. unfold add_operation in Hadd.
    destruct (by_alias !! model_tool_name op) as [existing|] eqn:He.
    + destruct (decide (existing = op)) as [->|]; [|done]. injection Hadd as <-.
      apply IH in H as [Ha' Hiff]; [|done]. split; [done|]. intros o. rewrite Hiff, elem_of_cons.
      split; [tauto|]. intros [?|[->|?]]; auto.
    + injection Hadd as <-. apply IH in H as [Ha' Hiff].
      * split; [done|]. intros o. rewrite Hiff, elem_of_cons, lookup_insert_Some. split.
        -- intros [[[_ <-]|[_ ?]]|?]; auto.
        -- intros [Ho|[->|?]]; [|by left; left|by right]. left. right. split; [congruence|done].
      * intros name o. rewrite lookup_insert_Some. intros [[<- <-]|[_ ?]]; [done|by apply Ha].
Qed.

Lemma merge_agents_Ok specs : forall capabilities by_alias merged,
  identity_stable -> merge_agents capabilities by_alias specs = Ok merged -> aliased by_alias ->
  (forall c, is_subset_of merged.1 c =
     is_subset_of capabilities c && forallb (fun spec => is_subset_of (agent_capabilities spec) c) specs)
  /\ aliased merged.2
  /\ forall op, merged.2 !! model_tool_name op = Some op <->
       by_alias !! model_tool_name op = Some op
       \/ exists spec, spec ∈ specs /\ op ∈ agent_operations spec.
Proof using Type.
  induction specs as [|spec specs IH]; intros capabilities by_alias merged Hid; cbn.
  - intros [= <-] Ha. split_and!; [intros c; by rewrite andb_true_r|done|set_solver].
  - intros (b1 & Hadd & H)%result_bind_Ok Ha. apply add_operations_Ok in Hadd as [Ha1 Hiff1]; [|done].
    apply IH in H as (Hcap & Ha2 & Hiff); [|done..]. split_and!; [|done|].
    + intros c. by rewrite Hcap, union_join, andb_assoc by done.
    + intros op. rewrite Hiff, Hiff1. split.
      * intros [[?|?]|(s & Hs & Hop)]; [by left|right; exists spec; set_solver|right; exists s; set_solver].
      * intros [?|(s & [->|Hs]%elem_of_cons & Hop)]; [by left; left|by left; right|right; by exists s].
Qed.

(** The authority frozen into a workflow, as its list of operations. *)
Definition authority_operations (authority : RuntimeConnectionAuthorityV1)
    : list ExecutionConnectionOperationV1 :=
  match authority with Structured operations => operations | _ => [] end.

(** C12: a workflow that compiles is well-formed and complete: it holds exactly one
    Agent spec per Agent node of the graph, the ones supplied, each with the template
    its node names; its harness capabilities are the least projection above the
    definition's and every Agent's; and its frozen authority is exactly the union of
    the Agents' operations, at most one per model-facing name. *)
Theorem workflow_compile_sound (Hid : identity_stable) definition specs w workflow w' :
  workflow_compile definition specs w = (Ok workflow, w') ->
  flow_well_formed (to_spec definition) (def_capabilities definition)
  /\ (forall id, is_Some (agent_specs workflow !! id) <->
        exists node, node ∈ nodes (def_graph definition) /\ node_id node = id /\ kind node = Agent)
  /\ (forall id spec, agent_specs workflow !! id = Some spec <->
        spec ∈ specs /\ agent_node_id spec = id)
  /\ NoDup (agent_node_id <$> specs)
  /\ (forall node spec, node ∈ nodes (def_graph definition) ->
        agent_specs workflow !! node_id node = Some spec -> kind node = Agent ->
        template_id spec = node_template_id node /\ template_version spec = node_template_version node)
  /\ (forall c, is_subset_of (harness_capabilities workflow) c = true <->
        is_subset_of (def_capabilities definition) c = true
        /\ forall spec, spec ∈ specs -> is_subset_of (agent_capabilities spec) c = true)
  /\ (forall op, op ∈ authority_operations (harness_connection_authority workflow) <->
        exists spec, spec ∈ specs /\ op ∈ agent_operations spec)
  /\ (forall op1 op2, op1 ∈ authority_operations (harness_connection_authority workflow) ->
        op2 ∈ authority_operations (harness_connection_authority workflow) ->
        model_tool_name op1 = model_tool_name op2 -> op1 = op2).
Proof using Type.
  unfold workflow_compile. destruct (compile_flow _ _ w) as [[plan|report] w1] eqn:Hcomp; [|done].
  assert (flow_well_formed (to_spec definition) (def_capabilities definition)) as Hwf
    by (apply (compile_flow_ok _ _ w); by rewrite Hcomp).
  intros [= H _]. apply result_bind_Ok in H as (compiled & Hadmit & H).
  apply result_bind_Ok in H as (u & Hmissing & H).
  apply result_bind_Ok in H as ([caps by_alias] & Hmerge & [= <-]). cbn.
  apply admit_agent_specs_Ok in Hadmit as (Hall & Hiff & Hnd & _);
    [|intros ? ?; by rewrite lookup_empty].
  assert (forall id spec, compiled !! id = Some spec <-> spec ∈ specs /\ agent_node_id spec = id) as Hspecs
    by (intros id spec; rewrite Hiff, lookup_empty; naive_solver).
  pose proof (fun id node => graph_agents_Some (def_graph definition) id node (wf_ids _ _ Hwf)) as Hagents.
  apply merge_agents_Ok in Hmerge as (Hcap & Halias & Hops); [|done|intros ? ?; by rewrite lookup_empty].
  cbn in Hcap, Halias, Hops.
  assert (forall spec, spec ∈ btree_values compiled <-> spec ∈ specs) as Hvalues.
  { intros spec. rewrite btree_values_elem. setoid_rewrite Hspecs. naive_solver. }
  assert (forall op, op ∈ btree_values by_alias <-> by_alias !! model_tool_name op = Some op) as Hlist.
  { intros op. rewrite btree_values_elem. split; [|eauto]. intros [name Hn]. by rewrite (Halias _ _ Hn). }
  split_and!; try done.
  - intros id. split.
    + intros [spec Hs]. apply Hspecs in Hs as [Hin <-]. rewrite Forall_forall in Hall.
      destruct (Hall spec Hin) as (node & Hn & _). apply Hagents in Hn. eauto.
    + intros (node & Hn). apply Hagents in Hn. destruct (List.find _ _) eqn:Hf; [done|].
      eapply find_none in Hf; [|apply list_elem_of_In, btree_keys_elem; by exists node].
      by apply negb_false_iff, bool_decide_eq_true in Hf.
  - intros node spec Hn Hs Hk. apply Hspecs in Hs as [Hin Hsid]. rewrite Forall_forall in Hall.
    destruct (Hall spec Hin) as (node' & Hn' & Ht). rewrite Hsid in Hn'.
    assert (graph_agents (def_graph definition) !! node_id node = Some node) by (by apply Hagents).
    by simplify_eq.
  - intros c. rewrite Hcap, andb_true_iff, forallb_forall. setoid_rewrite <-list_elem_of_In.
    by setoid_rewrite Hvalues.
  - intros op. rewrite Hlist, Hops, lookup_empty. setoid_rewrite Hvalues. naive_solver.
  - intros op1 op2 H1%Hlist H2%Hlist Heq. congruence.
Qed.

(** * Creating a run *)

(** A run nothing has happened to yet. *)
Definition untouched (run : FlowRunV1) : Prop :=
  run_status run = Queued /\ run_revision run = 1 /\ node_runs run = [] /\ node_outputs run = ∅
  /\ run_state run = ∅ /\ active_checkpoint run = None /\ loop_counts run = ∅
  /\ node_executions run = 0 /\ run_tool_calls run = 0 /\ run_superstep run = 0.

(** C33: a run of a published definition is created exactly when the definition's
    capabilities fit the caller's and the definition is still well-formed under both;
    it starts untouched, at nodes of its graph, and its capabilities and Connection
    authority never exceed the definition's, the caller's, or each other. *)
Theorem run_creation_exact thread_id definition input available authority w :
  let effective := intersect (def_capabilities definition) available in
  let created := (run_new_with_connection_authority thread_id definition input available authority w).1 in
  (is_ok created = true <->
     is_subset_of (def_capabilities definition) available = true
     /\ flow_well_formed (to_spec definition) effective)
  /\ forall run, created = Ok run ->
       untouched run /\ run_graph run = def_graph definition /\ run_budget run = def_budget definition
       /\ (forall id, id ∈ ready_nodes run -> id ∈ node_id <$> nodes (def_graph definition))
       /\ (forall name, allows_tool (run_capabilities run) name
                        = allows_tool (def_capabilities definition) name && allows_tool available name)
       /\ (forall server, allows_mcp_server (run_capabilities run) server
             = allows_mcp_server (def_capabilities definition) server && allows_mcp_server available server)
       /\ (forall op, op ∈ authority_operations (effective_connection_authority run) ->
             op ∈ authority_operations authority /\ operation_allowed (run_capabilities run) op = true).
Proof using Type.
  cbn zeta. unfold run_new_with_connection_authority.
  set (effective := intersect (def_capabilities definition) available).
  destruct (is_subset_of (def_capabilities definition) available); cbn [negb]; [|split; [split; [done|by intros []]|done]].
  pose proof (compile_flow_ok (to_spec definition) effective w) as Hok.
  destruct (compile_flow (to_spec definition) effective w) as [[plan|report] w1]; cbn in *;
    [|split; [split; [done|intros [_ H]; by apply Hok in H]|done]].
  split; [split; [intros _; split; [done|by apply Hok]|done]|]. intros run [= <-]. cbn.
  assert (flow_well_formed (to_spec definition) effective) as Hwf by (by apply Hok).
  split_and!; try done.
  - intros id Hin. apply initial_ready_nodes_spec in Hin as [(node & Hn & <- & _)|(-> & _ & _)].
    + apply list_elem_of_fmap. by exists node.
    + destruct (wf_entry _ _ Hwf) as (node & Hn & Heq). apply list_elem_of_fmap. by exists node.
  - intros name. apply allows_tool_intersect.
  - intros server. apply allows_mcp_server_intersect.
  - intros op. unfold effective_connection_authority. cbn. destruct authority as [| |ops]; cbn; [set_solver..|].
    intros [Hin Hop]%list_elem_of_In%filter_In. split; [by apply list_elem_of_In|done].
Qed.

(** * The authority of a node *)

Lemma expected_routes_spec operations : forall (expected : gmap string ExecutionConnectionOperationV1) name op,
  (forall n o, expected !! n = Some o -> model_tool_name o = n) ->
  fold_left (fun expected operation => <[model_tool_name operation := operation]> expected)
            operations expected !! name = Some op ->
  model_tool_name op = name /\ (expected !! name = Some op \/ op ∈ operations).
Proof using Type.
  induction operations as [|o operations IH]; intros expected name op Hkey H; cbn in *; [eauto|].
  apply IH in H as [Hn Hin].
  - split; [done|]. destruct Hin as [Hl|?]; [|right; set_solver].
    apply lookup_insert_Some in Hl as [[_ <-]|[_ ?]]; [right; set_solver|by left].
  - intros n o' [[<- <-]|[_ ?]]%lookup_insert_Some; eauto.
Qed.

Lemma expected_routes_some operations op :
  op ∈ operations -> is_Some (expected_routes operations !! model_tool_name op).
Proof using Type.
  unfold expected_routes. generalize (∅ : gmap string ExecutionConnectionOperationV1).
  induction operations as [|o operations IH]; intros m; [set_solver|]. cbn.
  intros [->|Hin]%elem_of_cons; [|by apply IH]. clear IH.
  assert (forall l (m : gmap string ExecutionConnectionOperationV1) k, is_Some (m !! k) ->
    is_Some (fold_left (fun e x => <[model_tool_name x := x]> e) l m !! k)) as Hmono.
  { induction l as [|x l IH]; intros m' k Hk; [done|]. cbn. apply IH.
    destruct (decide (model_tool_name x = k)) as [<-|]; [rewrite lookup_insert_eq; by eexists|].
    by rewrite lookup_insert_ne. }
  apply Hmono. rewrite lookup_insert_eq. by eexists.
Qed.

(** C11: a node never runs with more than its frozen authority: its context carries
    exactly its own capabilities; with no authority it sees no tool and no route;
    with a structured authority its routes are exactly the frozen operations, all of
    them available unchanged in the caller's context, and every tool it sees is one
    of theirs.  The restriction fails when a frozen operation is missing or differs. *)
Theorem node_context_within_authority run id context :
  match node_context run id context with
  | Ok restricted =>
      capability_projection restricted = effective_capabilities_for_node run id
      /\ match effective_connection_authority_for_node run id with
         | DenyAll => mcp_tools restricted = [] /\ connection_operations restricted = ∅
         | LegacyMcp => mcp_tools restricted = mcp_tools context
                        /\ connection_operations restricted = connection_operations context
         | Structured operations =>
             connection_operations restricted = expected_routes operations
             /\ expected_routes operations ⊆ connection_operations context
             /\ forall tool, tool ∈ mcp_tools restricted <->
                  tool ∈ mcp_tools context
                  /\ exists op, op ∈ operations /\ model_tool_name op = public_name tool
         end
  | Err _ => exists operations, effective_connection_authority_for_node run id = Structured operations
      /\ exists name op, expected_routes operations !! name = Some op
                         /\ connection_operations context !! name <> Some op
  end.
Proof using Type.
  unfold node_context, restrict_flow_node_connection_context.
  destruct (effective_connection_authority_for_node run id) as [| |operations]; cbn; [done..|].
  assert (forall entry, check_route context entry = Ok tt <->
    connection_operations context !! entry.1 = Some entry.2) as Hcheck.
  { intros [name op]. cbn. destruct (connection_operations context !! name) as [route|]; cbn; [|done].
    rewrite ensure_Ok, bool_decide_eq_true. naive_solver. }
  assert ((forall name op, expected_routes operations !! name = Some op ->
             connection_operations context !! name = Some op)
          \/ exists name op, expected_routes operations !! name = Some op
                             /\ connection_operations context !! name <> Some op) as Hcases.
  { destruct (decide (map_Forall (fun name op => connection_operations context !! name = Some op)
                        (expected_routes operations))) as [H|H]; [by left|right].
    apply map_not_Forall in H; [|apply _]. naive_solver. }
  assert (r_for (btree_entries (expected_routes operations)) (check_route context) = Ok tt <->
    forall name op, expected_routes operations !! name = Some op ->
      connection_operations context !! name = Some op) as Hiff.
  { rewrite r_for_Ok. setoid_rewrite Hcheck. split.
    - intros H name op Hn. apply (H (name, op)). by apply btree_entries_elem.
    - intros H [name op] Hn%btree_entries_elem. by apply H. }
  destruct (r_for _ _) as [[]|e] eqn:Hr; cbn.
  - assert (forall name op, expected_routes operations !! name = Some op ->
      connection_operations context !! name = Some op) as Hall by (by apply Hiff).
    split_and!; [done| | |].
    + apply map_eq. intros name. apply option_eq. intros op. rewrite map_lookup_filter_Some. split; [tauto|].
      intros Hn. split; [by apply Hall|done].
    + apply map_subseteq_spec. exact Hall.
    + intros tool. rewrite list_elem_of_In, filter_In, <-list_elem_of_In, bool_decide_eq_true.
      apply and_iff_compat_l. split.
      * intros [op Hop]. assert (Hop' := Hop). unfold expected_routes in Hop.
        apply expected_routes_spec in Hop as [Hname [He|Hin]]; [by rewrite lookup_empty in He|by exists op|].
        intros n o. by rewrite lookup_empty.
      * intros (op & Hin & <-). by apply expected_routes_some.
  - exists operations. split; [done|]. destruct Hcases as [Hall|?]; [|done]. by apply Hiff in Hall.
Qed.
End workflow_facts.
