(* ===== verification/Concrete.v ===== *)
(** A concrete instance of every external service the development is parametric in,
    and a small workflow run on it: the inputs at which the theorems are applied. *)
From S2P Require Import Prelude RustStr RustStrFacts Json Enterprise WorkflowState WorkflowAutomation FlowGraph FlowActivation Flow WorkflowInterrupt HumanTask Workflow FlowRun FlowEngine FlowResume FlowStore FlowDriver FlowCommit FlowLoop.

(** * Services *)

(** Fresh ids start at 1000 and never repeat; the clock advances a second a call. *)
#[export] Instance concrete_host : Host := {|
  host_v4 n := (1000 + n)%N;
  host_now n := duration_seconds (Z.of_N n);
  host_v5 ns _ := (500000 + ns)%N;
  host_uuid_string id := pretty id;
  host_uuid_parse _ := None;
  host_rfc3339 t := pretty t;
|}.

#[export] Instance concrete_file_system : FileSystem := {| canonicalize p := Some p; cfg_windows := false |}.
#[export] Instance concrete_unicode : Unicode := {| unicode_lowercase s := s |}.

#[export] Instance concrete_number : JsonNumber := {|
  number := Z;
  number_as_u64 n := if (0 <=? n) then Some n else None;
  number_nonzero n := negb (n =? 0);
  number_of_u64 n := n;
|}.

#[export] Instance concrete_text : JsonText := {|
  json_parse s := if String.eqb s "true" then Some (VBool true)
                  else if String.eqb s "false" then Some (VBool false) else None;
  json_text v := match v with VString s => s | _ => "" end;
|}.

(** A string names a channel to replace with the whole output. *)
#[export] Instance concrete_state_writes : StateWriteCodec := {|
  decode_state_write v := match v with
    | VString s => Ok {| channel := s; reducer := Replace; value_path := None |}
    | _ => Err "invalid type"
    end;
|}.

(** A string names the Agent whose final output activates the node. *)
#[export] Instance concrete_activation : ActivationCodec := {|
  decode_activation v := match v with
    | VString "manual" => Ok {| expression := Source SrcManual; ingress_policy := Immediate |}
    | VString s => Ok {| expression := Source (AgentFinal s); ingress_policy := Immediate |}
    | _ => Err "invalid type"
    end;
|}.

#[export] Instance concrete_spec_bytes : SpecCodec := {| spec_bytes := spec_flow_id |}.
#[export] Instance concrete_workflow_bytes : WorkflowBytes :=
  {| compiled_bytes _ hash _ _ _ := hash; revision_bytes _ _ _ _ _ _ author := author |}.
#[export] Instance concrete_signals : SignalCodec := {| signal_to_value _ := Null |}.
#[export] Instance concrete_responses : ResponseCodec :=
  {| decode_user_input_response _ := Err "invalid type" |}.
#[export] Instance concrete_continuations : ContinuationCodec := {|
  AgentContinuation := string;
  continuation_to_value s := Ok (VString s);
  continuation_from_value v := match v with VString s => Ok s | _ => Err "invalid type" end;
|}.

(** Two executors: one yields writes as submitted, the other reversed. *)
#[export] Instance concrete_executor : Executor :=
  {| completion_order _ writes := writes; completion_order_perm _ _ := Permutation_refl _ |}.
Definition reversing_executor : Executor :=
  {| completion_order _ writes := reverse writes;
     completion_order_perm _ writes := reverse_Permutation writes |}.

(** An Agent that asks for approval first and answers once resumed. *)
Definition approval_interrupt (w : World) : Result anyhow FlowNodeInterruptV1 * World :=
  node_interrupt_new IApproval "Send the mail?" "" Null "transcript so far" 2 [] w.
#[export] Instance concrete_harness : FlowNodeHarness := {|
  execute_flow_node _ w := match approval_interrupt w with
    | (Ok interrupt, w) => (Ok (OutcomeInterrupted interrupt), w)
    | (Err e, w) => (Err e, w)
    end;
  resume_flow_node _ w :=
    (Ok (OutcomeCompleted {| result_output := VString "sent"; result_tool_calls := 3;
                             result_transcript := [] |}), w);
|}.

(** * Environments *)

Definition quiet_environment : Environment := {| interfere _ st := st |}.

Definition request_pause (run : FlowRunV1) : FlowRunV1 :=
  if bool_decide (run_status run = Running) && (run_revision run <? u32_max)
  then run <| run_status := PauseRequested |> <| run_revision := run_revision run + 1 |>
  else run.

(** Another request pauses run 7 before every access at an even tick at which the
    run is running, and files an effect receipt. *)
#[export] Instance pausing_environment : Environment := {|
  interfere n st :=
    if N.even n
    then st <| store_runs := alter request_pause 7%N (store_runs st) |>
            <| store_effects := <[n := Null]> (store_effects st) |>
    else st;
|}.

(** * A workflow: [start] fans out to an Agent and a check, joined before the output *)

Definition node (id : string) (k : GraphNodeKindV1) (config : Value) : GraphNodeV1 :=
  {| node_id := id; label := id; kind := k; config := config; input_schema := object_schema;
     output_schema := object_schema |}.
Definition edge (from to : string) : GraphEdgeV1 :=
  {| edge_from := from; edge_to := to; condition := None; allowed_fields := ∅;
     data_classification := Internal; on_error := None; loop_policy := None |}.

Definition writer_config : Value :=
  json_object [("reference", VString "writer"); ("templateVersion", VNumber 1)].
Definition plain_config : Value := json_object [].

Definition graph : GraphDefinitionV1 :=
  {| graph_schema_version := 1; entry_node_id := "start";
     nodes := [node "start" Condition plain_config; node "write" Agent writer_config;
               node "check" Condition (json_object [("stateWrites", VArray [VString "checked"])]);
               node "merge" Join plain_config; node "out" Output plain_config];
     edges := [edge "start" "write"; edge "start" "check"; edge "write" "merge";
               edge "check" "merge"; edge "merge" "out"] |}.

(** The part without the Agent: two checks run side by side. *)
Definition check_graph : GraphDefinitionV1 :=
  {| graph_schema_version := 1; entry_node_id := "start";
     nodes := [node "start" Condition plain_config; node "left" Condition plain_config;
               node "right" Condition (json_object [("stateWrites", VArray [VString "checked"])]);
               node "merge" Join plain_config; node "out" Output plain_config];
     edges := [edge "start" "left"; edge "start" "right"; edge "left" "merge";
               edge "right" "merge"; edge "merge" "out"] |}.

Definition spec : FlowSpecV1 :=
  {| spec_flow_id := "mail"; spec_name := "Mail"; spec_description := ""; spec_owner := "ops";
     spec_categories := ∅; spec_source := NaturalLanguage "write a mail";
     spec_input_schema := object_schema; spec_output_schema := object_schema;
     spec_graph := graph; requested_capabilities := only_tools ["send"];
     spec_budget := flow_budget_default; spec_risk_class := Low; pending_decisions := [] |}.

Definition definition : FlowDefinitionV1 :=
  {| def_schema_version := 1; def_id := 21%N; def_flow_id := "mail"; def_name := "Mail";
     def_version := 1; def_owner := "ops"; def_description := ""; def_categories := ∅;
     def_source := NaturalLanguage "write a mail"; def_graph := graph;
     def_input_schema := object_schema; def_output_schema := object_schema;
     def_capabilities := only_tools ["send"]; def_budget := flow_budget_default;
     def_risk_class := Low; def_content_hash := "0123456789abcdef"; published_at := 0;
     published_by := "ops" |}.

Definition send_operation : ExecutionConnectionOperationV1 :=
  {| op_connection_id := 31%N; op_capability_revision := 1; operation_id := "send";
     mcp_server_id := 32%N; provider_tool_name := "send_mail"; model_tool_name := "mail__send";
     pinned_operation_fingerprint := "f" |}.

Definition writer_spec : WorkflowAgentSpecV1 :=
  {| agent_node_id := "write"; template_id := "writer"; template_version := 1;
     template_content_hash := "h"; agent_name := "Writer"; agent_owner := "ops";
     instructions := "Write the mail."; agent_capabilities := only_tools ["mail__send"];
     resource_grants := []; model_policy := {| allow_all_models := true; allowed_models := ∅ |};
     state_schema := object_schema; agent_output_schema := object_schema;
     agent_risk_class := Low; connection_bindings := []; knowledge_binding := None;
     agent_connection_authority := Structured [send_operation] |}.

Definition context : ToolInvocationContext :=
  {| has_state := true; has_flow_harness := true; mcp_tools := [];
     connection_operations := ∅; capability_projection := unrestricted |}.

(** * Runs *)

Definition run_on (g : GraphDefinitionV1) : FlowRunV1 :=
  fresh_run 7%N 8%N g (VString "hello") 0 <| ready_nodes := ["start"] |>.

Definition store_with (run : FlowRunV1) : FlowStore :=
  {| store_runs := {[ 7%N := run ]}; store_tasks := ∅; store_effects := ∅ |}.

(** What an iteration of the driver left in the store, for the runs the theorems
    are applied to. *)
Definition stored_run (st : FlowStore) : FlowRunV1 :=
  default (run_on check_graph) (store_runs st !! 7%N).

Fixpoint iterate (EN : Environment) (n : nat) (s : FlowStore * World) : FlowStore * World :=
  match n with
  | O => s
  | S n => iterate EN n (snd (drive_step (EN := EN) context 7%N s))
  end.

(** The run of [g] after [n] undisturbed iterations. *)
Definition run_after (g : GraphDefinitionV1) (n : nat) : FlowRunV1 :=
  stored_run (fst (iterate quiet_environment n (store_with (run_on g), 0%N : World))).
