(* ===== verification/Witnesses.v ===== *)
(** The theorems at concrete inputs: every hypothesis of a theorem is discharged on
    the instances and the workflow of [Concrete.v], and the driver is evaluated. *)
From S2P Require Import Prelude RustStr RustStrFacts Json Fingerprint Enterprise WorkflowState WorkflowAutomation FlowGraph FlowActivation Flow FlowSearch FlowFacts WorkflowInterrupt HumanTask Workflow FlowRun FlowEngine FlowResume FlowStore FlowDriver FlowCommit FlowLoop FlowProgress FlowConcurrency FlowCommitFacts FlowResumeFacts FlowLimits WorkflowFacts Concrete.

(** The id of the runs of [Concrete.v]. *)
Notation run_key := (7%N : Uuid).

(** A computation that evaluates to a success, without its result. *)
Lemma ran_ok {E A S} (m : Result E A * S) : is_ok (fst m) = true -> exists a s, m = (Ok a, s).
Proof. destruct m as [[a|e] s]; [eauto|done]. Qed.

(** A fact about the final state of such a computation. *)
Lemma ran_state {E A S B} (m : Result E A * S) a s (f : S -> B) b :
  m = (Ok a, s) -> f (snd m) = b -> f s = b.
Proof. by intros ->. Qed.

(** * The driver evaluated *)

Example check_graph_succeeds :
  run_status (run_after check_graph 8) = Succeeded
  /\ run_state (run_after check_graph 8) !! "checked"
     = Some (json_object [("matched", VBool true);
                          ("value", json_object [("matched", VBool true); ("value", VString "hello")])]).
Proof. by vm_compute. Qed.

Example agent_graph_waits :
  run_status (run_after graph 4) = WaitingHuman /\ is_Some (active_human_task_id (run_after graph 4)).
Proof. vm_compute. eauto. Qed.

Example driver_succeeds :
  fst (drive_flow_run (EN := quiet_environment) 100 context run_key (store_with (run_on check_graph), 0%N : World))
  = Ok (Some tt).
Proof. by vm_compute. Qed.

Example driver_pauses :
  run_status (stored_run (fst (snd (drive_flow_run 100 context run_key
    (store_with (run_on check_graph), 0%N : World))))) = Paused.
Proof. by vm_compute. Qed.

(** * The pausing environment *)

Lemma pausing_lookup n st run :
  store_runs (interfere n st) !! run_key = Some run ->
  exists run0, store_runs st !! run_key = Some run0 /\ (run = run0 \/ run = request_pause run0).
Proof.
  cbn. destruct (N.even n); [|by eauto]. cbn. rewrite lookup_alter_eq.
  destruct (store_runs st !! run_key) as [run0|]; cbn; [|done]. intros [= <-]. eauto.
Qed.

Lemma request_pause_data run :
  run_id (request_pause run) = run_id run /\ run_budget (request_pause run) = run_budget run
  /\ run_fuel (request_pause run) = run_fuel run.
Proof.
  unfold request_pause. destruct (bool_decide_reflect (run_status run = Running)) as [Hs|]; [|done].
  destruct (run_revision run <? u32_max); [|done]. split_and!; [done..|].
  unfold run_fuel, superstep_rank, run_is_parked. cbn -[Z.sub Z.to_nat Nat.mul].
  by rewrite Hs.
Qed.

Lemma pausing_calm : calm_environment run_key.
Proof.
  split.
  - intros n st Hdoc run (run0 & Hrun & [->| ->])%pausing_lookup; apply Hdoc in Hrun; [done|].
    destruct (request_pause_data run0) as (-> & -> & _). done.
  - intros n st. unfold stored_fuel. case_match eqn:Hrun; [|apply Nat.le_0_l].
    apply pausing_lookup in Hrun as (run0 & -> & [->| ->]); [done|].
    by destruct (request_pause_data run0) as (_ & _ & ->).
Qed.

Lemma pausing_keyed : keeps_keyed run_key.
Proof.
  intros n st Hkey run (run0 & Hrun & [->| ->])%pausing_lookup; apply Hkey in Hrun; [done|].
  by destruct (request_pause_data run0) as (-> & _).
Qed.

Lemma pausing_revisions : revisions_identify.
Proof.
  intros n st id run run' Hrun Hrun'. cbn in Hrun'. destruct (N.even n); [|congruence]. cbn in Hrun'.
  destruct (decide (id = run_key)) as [->|]; [|rewrite lookup_alter_ne in Hrun' by done; congruence].
  rewrite lookup_alter_eq, Hrun in Hrun'. cbn in Hrun'. injection Hrun' as <-.
  unfold request_pause. destruct (_ && _); [|done]. cbn. lia.
Qed.

Lemma stored_keyed run : run_id run = run_key -> keyed run_key (store_with run).
Proof. intros Hid run' Hrun. cbn in Hrun. rewrite lookup_singleton_eq in Hrun. by injection Hrun as <-. Qed.

Lemma stored_document run :
  run_id run = run_key -> max_node_executions (run_budget run) <= u32_max ->
  document_ok run_key (store_with run).
Proof.
  intros Hid Hmax run' Hrun. cbn in Hrun. rewrite lookup_singleton_eq in Hrun. by injection Hrun as <-.
Qed.

Lemma stored_lookup run :
  run_id run = run_key -> store_runs (store_with run) !! run_id run = Some run.
Proof. intros ->. apply lookup_singleton_eq. Qed.

(** * The driver *)


(** [check_graph]'s run once [left] and [right] are planned. *)
Definition fanned_out : FlowRunV1 := run_after check_graph 3.
Definition planned (run : FlowRunV1) : WorkflowCheckpointV1 :=
  default {| ck_id := 0%N; ck_superstep := 0; ck_status := CkRunning; ck_nodes := [];
             ck_pending_writes := []; ck_created_at := 0; ck_completed_at := None |}
          (active_checkpoint run).

Lemma superstep_order_irrelevant_witness :
  length (ck_nodes (planned fanned_out)) = 2%nat
  /\ complete_checkpoint (EN := quiet_environment) (EX := concrete_executor) context fanned_out
       (planned fanned_out) (store_with fanned_out, 60%N : World)
     = complete_checkpoint (EN := quiet_environment) (EX := reversing_executor) context fanned_out
         (planned fanned_out) (store_with fanned_out, 60%N : World).
Proof.
  split; [by vm_compute|].
  apply (superstep_order_irrelevant (EN := quiet_environment) (fun _ _ => eq_refl)
           concrete_executor reversing_executor).
  - apply stored_lookup. by vm_compute.
  - by vm_compute.
  - apply (bool_decide_unpack _). by vm_compute.
  - apply (bool_decide_unpack _). by vm_compute.
Defined.

Definition left_write : WorkflowPendingWriteV1 :=
  {| write_node_id := "left"; write_node_run_id := 1%N; write_result := None;
     write_error := Some "failed"; write_interrupt := None; write_resume_command := None;
     write_completed_at := 0 |}.

Lemma persist_pending_write_atomic_witness :
  exists u st' w' st0 run checkpoint,
    persist_pending_write run_key (ck_id (planned fanned_out)) left_write (store_with fanned_out, 60%N : World)
    = (Ok u, (st', w'))
    /\ env_steps (store_with fanned_out) st0 /\ store_runs st0 !! run_key = Some run
    /\ active_checkpoint run = Some checkpoint /\ ck_id checkpoint = (ck_id (planned fanned_out)).
Proof.
  destruct (ran_ok (persist_pending_write run_key (ck_id (planned fanned_out)) left_write
                      (store_with fanned_out, 60%N : World))) as (u & [st' w'] & H); [by vm_compute|].
  destruct (persist_pending_write_atomic run_key (ck_id (planned fanned_out)) left_write (store_with fanned_out)
    (60%N : World) u st' w' pausing_revisions pausing_keyed) as (st0 & run & checkpoint & Hst & Hrun & Hck & Hid & _).
  - apply stored_keyed. by vm_compute.
  - exact H.
  - exists u, st', w', st0, run, checkpoint. split_and!; assumption.
Defined.

(** The run of [graph] whose Agent has asked for approval, and the one about to
    commit the writes of [check_graph]'s second superstep. *)
Definition waiting_store : FlowStore :=
  fst (iterate quiet_environment 4 (store_with (run_on graph), 0%N : World)).
Definition waiting : FlowRunV1 := stored_run waiting_store.
Definition waiting_task : HumanTaskV1 :=
  default (fst (flow_approval 8%N run_key 0%N "" "" Null (0%N : World)))
          (pending_task_of run_key waiting_store).

Definition result_write (id : string) (run : Uuid) : WorkflowPendingWriteV1 :=
  {| write_node_id := id; write_node_run_id := run;
     write_result := Some {| result_output := VString "done"; result_tool_calls := 1;
                             result_transcript := [] |};
     write_error := None; write_interrupt := None; write_resume_command := None;
     write_completed_at := 0 |}.

(** Every planned item of a run, answered. *)
Definition answered (run : FlowRunV1) : WorkflowCheckpointV1 :=
  planned run <| ck_pending_writes :=
    (fun item => result_write (item_node_id item) (item_node_run_id item)) <$> ck_nodes (planned run) |>.


(** A loop that is exhausted: [work] repeats at most once, then asks for a person. *)
Definition once : GraphLoopPolicyV1 :=
  {| max_iterations := 1; continue_condition := "true"; on_exhausted := RequireHuman |}.
Definition loop_edge : GraphEdgeV1 :=
  {| edge_from := "work"; edge_to := "work"; condition := None; allowed_fields := ∅;
     data_classification := Internal; on_error := None;
     loop_policy := Some once |}.
Definition loop_graph : GraphDefinitionV1 :=
  {| graph_schema_version := 1; entry_node_id := "work";
     nodes := [node "work" Loop (json_object [("feedbackSchema", object_schema)]);
               node "mid" Condition plain_config; node "out" Output plain_config];
     edges := [loop_edge; edge "work" "mid"; edge "mid" "out"] |}.

(** The run of [loop_graph] with [work] planned for the second time, next to [mid]. *)
Definition looping : FlowRunV1 :=
  let start := fresh_run run_key 8%N loop_graph (VString "hello") 0 <| ready_nodes := ["work"] |> in
  stored_run (fst (iterate quiet_environment 3 (store_with start, 0%N : World))).

Lemma no_output_writes g writes :
  forallb (fun write => match succeeded_write g write with
                        | Some (n, _) => negb (is_output_node n) | None => true end) writes = true ->
  Forall (fun write => forall n output, succeeded_write g write = Some (n, output) -> kind n <> Output)
    writes.
Proof.
  intros H%Is_true_true%forallb_True. eapply Forall_impl; [exact H|]. cbn. intros write Hw n output Hs.
  rewrite Hs in Hw. unfold is_output_node in Hw.
  apply Is_true_true, negb_true_iff, bool_decide_eq_false in Hw. exact Hw.
Qed.

Lemma commit_overrides_loop_exhaustion_witness :
  exists task run' w',
    commit_checkpoint (answered looping) (looping, 60%N : World) = (Ok task, (run', w'))
    /\ run_error run' = Some "loop budget exhausted after 1 iteration(s); human decision required"
    /\ run_status run' = Running.
Proof.
  destruct (ran_ok (commit_checkpoint (answered looping) (looping, 60%N : World)))
    as (task & [run' w'] & H); [by vm_compute|].
  exists task, run', w'. split; [exact H|].
  assert (run_error run' = Some "loop budget exhausted after 1 iteration(s); human decision required")
    as Herr by (apply (ran_state _ _ _ (fun s => run_error (fst s)) _ H); vm_compute; reflexivity).
  assert (run_status run' = Running) as Hrunning
    by (apply (ran_state _ _ _ (fun s => run_status (fst s)) _ H); vm_compute; reflexivity).
  split; [exact Herr|].
  destruct (commit_overrides_loop_exhaustion _ _ _ _ _ _ H) as [Hs|[Hs|[_ Hs]]].
  - apply no_output_writes. vm_compute. reflexivity.
  - rewrite Hrunning in Hs. discriminate Hs.
  - exact Hs.
  - exact Hrunning.
Defined.

Lemma loop_graph_policy index e policy :
  edges loop_graph !! index = Some e -> loop_policy e = Some policy ->
  index = O /\ loop_policy loop_edge = Some policy.
Proof. destruct index as [|[|[|index]]]; intros [= <-] Hp; done. Qed.

Lemma looping_within : loops_within looping.
Proof.
  intros index e policy count He Hp Hc.
  assert (edges (run_graph looping) = edges loop_graph) as Hg by (vm_compute; reflexivity).
  rewrite Hg in He. destruct (loop_graph_policy _ _ _ He Hp) as [-> [= <-]].
  assert (loop_counts looping !! pretty 0%nat = Some 1) as Hcount by (vm_compute; reflexivity).
  rewrite Hcount in Hc. injection Hc as <-.
  assert (loop_limit looping once = 1) as -> by (vm_compute; reflexivity). lia.
Qed.


Lemma begin_superstep_well_formed_witness :
  let run := run_after check_graph 2 in
  exists u run' w' checkpoint,
    begin_superstep_run ["left"; "right"] (run, 60%N : World) = (Ok u, (run', w'))
    /\ active_checkpoint run' = Some checkpoint
    /\ Forall2 (planned_for run) ["left"; "right"] (ck_nodes checkpoint).
Proof.
  intros run. destruct (ran_ok (begin_superstep_run ["left"; "right"] (run, 60%N : World)))
    as (u & [run' w'] & H); [vm_compute; reflexivity|].
  destruct (begin_superstep_well_formed _ _ _ _ _ _ H) as (checkpoint & opened & Hck & _ & _ & Hplan & _).
  - apply (bool_decide_unpack _). vm_compute. exact I.
  - apply (bool_decide_unpack _). vm_compute. exact I.
  - exists u, run', w', checkpoint. split; [exact H|]. split; [exact Hck|exact Hplan].
Defined.

Lemma fanned_out_planned : active_checkpoint fanned_out = Some (planned fanned_out).
Proof. vm_compute. reflexivity. Qed.

Lemma cancel_run_closes_checkpoint_witness :
  exists run' w', cancel_run (fanned_out, 60%N : World) = (Ok tt, (run', w'))
    /\ run_status run' = Cancelled /\ active_checkpoint run' = None.
Proof.
  destruct (cancel_run_closes_checkpoint fanned_out (60%N : World) (planned fanned_out) fanned_out_planned)
    as (run' & w' & t & H & Hs & Hck & _).
  - apply (bool_decide_unpack _). vm_compute. exact I.
  - exists run', w'. split; [exact H|]. split; [exact Hs|exact Hck].
Defined.

(** The process stopped with [left] answered and [right] still open. *)
Definition interrupted : FlowRunV1 :=
  fanned_out <| active_checkpoint := Some (planned fanned_out <| ck_pending_writes :=
    [result_write "left" 1%N] |>) |>.


Lemma interrupt_resume_reaches_driver_witness :
  exists command run' w', prepare_flow_interrupt_resume waiting_task ActApprove None None "ops" "key"
      (waiting, 90%N : World) = (Ok command, (run', w'))
    /\ run_status run' = Resuming /\ pending_resume_command_id run' = Some (command_id command).
Proof.
  destruct (ran_ok (prepare_flow_interrupt_resume waiting_task ActApprove None None "ops" "key"
    (waiting, 90%N : World))) as (command & [run' w'] & H); [vm_compute; reflexivity|].
  destruct (interrupt_resume_reaches_driver _ _ _ _ _ _ _ _ _ _ _ (planned waiting) H)
    as (_ & _ & Hs & Hp & _).
  - vm_compute. reflexivity.
  - vm_compute. reflexivity.
  - exists command, run', w'. split; [exact H|]. split; [exact Hs|exact Hp].
Defined.

(** The run resumed by that answer, and by the driver's next two iterations. *)
Definition resumed : FlowRunV1 :=
  fst (snd (prepare_flow_interrupt_resume waiting_task ActApprove None None "ops" "key"
              (waiting, 90%N : World))).

Example resumed_run_succeeds :
  run_status (stored_run (fst (iterate quiet_environment 6 (store_with resumed, 100%N : World)))) = Succeeded.
Proof. vm_compute. reflexivity. Qed.

(** Room for one more node execution than [start] has used. *)
Definition tight : FlowRunV1 :=
  run_after check_graph 2 <| run_budget :=
    {| max_node_executions := 3; max_tool_calls := 10; max_duration_seconds := 3600;
       max_loop_iterations := 5 |} |>.

Lemma superstep_filling_budget_fails_witness :
  exists u run' w',
    begin_superstep_run ["left"; "right"] (tight, 60%N : World) = (Ok u, (run', w'))
    /\ fst (drive_step context run_key (store_with run', 61%N : World))
       = Err (Msg "Flow node execution budget exhausted (3)").
Proof.
  destruct (ran_ok (begin_superstep_run ["left"; "right"] (tight, 60%N : World)))
    as (u & [run' w'] & H); [vm_compute; reflexivity|].
  assert (max_node_executions (run_budget run') = 3) as Hmax
    by (apply (ran_state _ _ _ (fun s => max_node_executions (run_budget (fst s))) _ H); vm_compute; reflexivity).
  exists u, run', w'. split; [exact H|].
  rewrite (superstep_filling_budget_fails _ _ _ _ _ _ context run_key (store_with run') (61%N : World) H).
  - rewrite Hmax. vm_compute. reflexivity.
  - rewrite Hmax. apply (ran_state _ _ _ (fun s => node_executions (fst s)) _ H). vm_compute. reflexivity.
  - apply lookup_singleton_eq.
Defined.

(** The answer of the resumed Agent arrives after another request asked to pause. *)
Definition resumed_write : WorkflowPendingWriteV1 :=
  match resumable_write (planned resumed) with
  | Some (write, _, _) => result_write (write_node_id write) (write_node_run_id write)
                            <| write_resume_command := write_resume_command write |>
  | None => left_write
  end.
Definition pause_requested : FlowRunV1 := resumed <| run_status := PauseRequested |>.

Lemma resumed_write_forgets_requests_witness :
  exists u st' w' st0 run run',
    replace_pending_write run_key (ck_id (planned resumed)) resumed_write
      (store_with pause_requested, 101%N : World) = (Ok u, (st', w'))
    /\ env_steps (store_with pause_requested) st0 /\ store_runs st0 !! run_key = Some run
    /\ st' = st0 <| store_runs := <[run_key := run']> (store_runs st0) |> /\ run_status run' = Running.
Proof.
  destruct (ran_ok (replace_pending_write run_key (ck_id (planned resumed)) resumed_write
    (store_with pause_requested, 101%N : World))) as (u & [st' w'] & H); [vm_compute; reflexivity|].
  destruct (resumed_write_forgets_requests run_key (ck_id (planned resumed)) resumed_write
    (store_with pause_requested) (101%N : World) u st' w' pausing_revisions pausing_keyed)
    as (st0 & run & run' & Hst & Hrun & Heq & Hs).
  - apply stored_keyed. vm_compute. reflexivity.
  - exact H.
  - exists u, st', w', st0, run, run'. split_and!; assumption.
Defined.

Lemma cancel_strands_waiting_run_witness :
  drive_step (EN := quiet_environment) context run_key (waiting_store, 90%N : World)
    = (Ok false, (waiting_store, 91%N : World))
  /\ exists run' w', request_cancel (waiting, 92%N : World) = (Ok tt, (run', w'))
       /\ run_status run' = CancelRequested.
Proof.
  destruct (cancel_strands_waiting_run (EN := quiet_environment) context run_key waiting_store
    (90%N : World) waiting (92%N : World)) as [H (run' & w' & Hr & Hs & _)].
  - vm_compute. reflexivity.
  - vm_compute. reflexivity.
  - split; [exact H|]. exists run', w'. split; [exact Hr|exact Hs].
Defined.

(** * Validation, publication and compilation *)

Lemma identity_is_stable : identity_stable.
Proof. intros p. reflexivity. Qed.

Lemma spec_well_formed : flow_well_formed spec unrestricted.
Proof. apply (validate_flow_spec_valid spec unrestricted (0%N : World)). vm_compute. reflexivity. Qed.

Definition draft : FlowDraftV1 := fst (draft_new 8%N spec unrestricted (0%N : World)).

Lemma published_definition_valid_witness :
  flow_well_formed (to_spec (fst (definition_from_draft draft 1 "ops" (50%N : World)))) unrestricted.
Proof.
  destruct (published_definition_valid identity_is_stable draft unrestricted 1 "ops" (50%N : World))
    as [H _].
  - apply (validate_flow_spec_valid (draft_spec draft) unrestricted (0%N : World)). vm_compute. reflexivity.
  - apply (bool_decide_unpack (effective_capabilities draft
      = intersect (requested_capabilities (draft_spec draft)) unrestricted)). vm_compute. exact I.
  - exact H.
Defined.

Lemma workflow_compile_sound_witness :
  exists workflow w', workflow_compile definition [writer_spec] (0%N : World) = (Ok workflow, w')
    /\ is_Some (agent_specs workflow !! "write")
    /\ forall op, op ∈ authority_operations (harness_connection_authority workflow) <->
         exists spec, spec ∈ [writer_spec] /\ op ∈ agent_operations spec.
Proof.
  destruct (ran_ok (workflow_compile definition [writer_spec] (0%N : World))) as (workflow & w' & H);
    [vm_compute; reflexivity|].
  exists workflow, w'. split; [exact H|].
  destruct (workflow_compile_sound identity_is_stable _ _ _ _ _ H)
    as (_ & Hagents & _ & _ & _ & _ & Hops & _).
  split; [|exact Hops]. apply Hagents. exists (node "write" Agent writer_config).
  split; [|split; reflexivity]. right. left.
Defined.

Lemma normalize_flow_spec_idempotent_witness :
  normalize_flow_spec (normalize_flow_spec spec) = normalize_flow_spec spec.
Proof. apply normalize_flow_spec_idempotent. vm_compute. reflexivity. Defined.

(** * Capabilities *)

Lemma intersect_union_lattice_witness :
  is_subset_of (only_tools ["send"]) (intersect (only_tools ["send"; "read"]) unrestricted)
  = is_subset_of (only_tools ["send"]) (only_tools ["send"; "read"])
    && is_subset_of (only_tools ["send"]) unrestricted.
Proof.
  destruct (intersect_union_lattice identity_is_stable (only_tools ["send"; "read"]) unrestricted
    (only_tools ["send"])) as [H _]. exact H.
Defined.

Lemma is_subset_of_never_widens_witness :
  is_subset_of (only_tools ["send"]) (only_tools ["send"; "read"]) = true
  /\ allows_tool (only_tools ["send"; "read"]) "send" = true.
Proof.
  split; [vm_compute; reflexivity|].
  destruct (is_subset_of_never_widens (only_tools ["send"]) (only_tools ["send"; "read"])
    ltac:(vm_compute; reflexivity) "send") as [H _]. apply H. vm_compute. reflexivity.
Defined.

(** * Activations *)

Lemma evaluate_monotone_witness :
  evaluate (And [Source (AgentFinal "write"); Source FlowInput]) None {["write"; "check"]} = true.
Proof.
  apply (evaluate_monotone _ None {["write"]} {["write"; "check"]}).
  - vm_compute. reflexivity.
  - intros x. apply elem_of_union_l.
  - vm_compute. reflexivity.
Defined.

Definition follower : GraphNodeV1 :=
  node "follow" Agent (json_object [("reference", VString "writer"); ("templateVersion", VNumber 1);
                                    ("activation", VString "write")]).
Definition follower_graph : GraphDefinitionV1 :=
  {| graph_schema_version := 1; entry_node_id := "write";
     nodes := [node "write" Agent writer_config; follower; node "out" Output plain_config];
     edges := [edge "write" "follow"; edge "follow" "out"] |}.

Lemma node_activation_ready_local_witness :
  node_activation_ready follower None ["write"] = node_activation_ready follower None ["write"; "out"].
Proof.
  apply (node_activation_ready_local follower_graph).
  - vm_compute. reflexivity.
  - right. left.
  - intros e He Hto. change (e ∈ [edge "write" "follow"; edge "follow" "out"]) in He.
    apply elem_of_cons in He as [->|He]; [|apply list_elem_of_singleton in He as ->; discriminate Hto].
    split; intros _; left.
Defined.

(** * Workflow state *)

Definition replace_write (name : string) : WorkflowStateWriteV1 :=
  {| channel := name; reducer := Replace; value_path := None |}.

Lemma apply_state_writes_interleaving_witness :
  apply_state_writes [replace_write "b"; replace_write "a"] (VString "v") ∅
  = apply_state_writes [replace_write "a"; replace_write "b"] (VString "v") ∅.
Proof.
  destruct (ran_ok (apply_state_writes [replace_write "a"; replace_write "b"] (VString "v") ∅))
    as ([] & state & H); [vm_compute; reflexivity|].
  rewrite H. apply (apply_state_writes_interleaving [replace_write "a"; replace_write "b"]); [|exact H].
  intros c. rewrite !filter_cons, filter_nil. cbn [channel replace_write].
  destruct (decide ("a" = c)) as [Ha|], (decide ("b" = c)) as [Hb|];
    [congruence|reflexivity..].
Defined.

(** * Interrupts *)

Definition progress : AgentContinuation := "progress".

Lemma continuation_round_trip_witness :
  exists envelope w', encode progress (0%N : World) = (Ok envelope, w') /\ decode envelope = Ok progress.
Proof.
  destruct (continuation_round_trip progress (VString "progress") (0%N : World) eq_refl eq_refl)
    as (envelope & w' & He & Hd & _).
  exists envelope, w'. split; [exact He|exact Hd].
Defined.

Definition question : WorkflowInterruptRequestV1 :=
  match resumable_write (planned resumed) with
  | Some (_, interrupt, _) => interrupt
  | None => at_checkpoint 0%N 0 "" 0%N
              {| ni_id := 0%N; ni_revision := 1; ni_kind := IApproval; ni_title := "";
                 ni_description := ""; ni_payload := Null;
                 ni_continuation := {| envelope_schema_version := 1; envelope_id := 0%N;
                                       envelope_content_hash := ""; envelope_payload := Null |};
                 ni_tool_calls := 0; ni_transcript := []; ni_created_at := 0 |}
  end.

Lemma resume_command_single_use_witness :
  exists command w', resume_command_new 5%N "key" question (SigApproval None true) None "ops" (90%N : World)
      = (Ok command, w')
    /\ validates command question = true
    /\ validates command (resume_retry question command "interrupted" (95%N : World)).1 = false.
Proof.
  destruct (ran_ok (resume_command_new 5%N "key" question (SigApproval None true) None "ops" (90%N : World)))
    as (command & w' & H); [vm_compute; reflexivity|].
  exists command, w'. split; [exact H|].
  apply (resume_command_single_use 5%N "key" question (SigApproval None true) None "ops" (90%N : World)
           command w' "interrupted" (95%N : World) H).
  intros n Hn. assert (interrupt_id question = 1045%N) as Hq by (vm_compute; reflexivity).
  rewrite Hq in Hn. cbn in Hn. unfold World, Uuid in *. lia.
Defined.

(** * Human tasks *)

Definition manual_task : HumanTaskV1 :=
  fst (delivery_handoff 8%N 9%N "Hand over" "" None Null (0%N : World)).

Lemma manual_task_created : created manual_task.
Proof. apply created_handoff. Qed.

Lemma task_life_invariant_witness :
  task_ok (run_ops [OpClaim "ops"; OpResolve ActAcknowledge None "ops" None None None; OpCancel None "ops"]
             (manual_task, 10%N : World)).2.1.
Proof. apply task_life_invariant. exact manual_task_created. Defined.

Lemma task_resolved_once_witness :
  exists t w, run_op (OpResolve ActAcknowledge None "ops" None None None)
      (run_ops [OpClaim "ops"] (manual_task, 10%N : World)).2 = (Ok tt, (t, w))
    /\ (run_ops [OpClaim "eve"; OpCancel None "eve"] (t, w)).2 = (t, w).
Proof.
  destruct (ran_ok (run_op (OpResolve ActAcknowledge None "ops" None None None)
    (run_ops [OpClaim "ops"] (manual_task, 10%N : World)).2)) as ([] & [t w] & H); [vm_compute; reflexivity|].
  exists t, w. split; [exact H|].
  destruct (task_resolved_once [OpClaim "ops"] _ [OpClaim "eve"; OpCancel None "eve"] _ _ _ _ H) as [Hr _];
    [reflexivity|exact Hr].
Defined.

Lemma claim_exclusive_witness :
  exists t w, claim "ops" (manual_task, 10%N : World) = (Ok tt, (t, w))
    /\ claimed_by t = Some "ops" /\ is_ok (claim "eve" (t, w)).1 = false.
Proof.
  destruct (ran_ok (claim "ops" (manual_task, 10%N : World))) as ([] & [t w] & H); [vm_compute; reflexivity|].
  exists t, w. split; [exact H|].
  destruct (claim_exclusive "ops" "eve" _ _ _ _ H) as (Hc & _ & Hne). split; [exact Hc|].
  apply Hne. discriminate.
Defined.

(** * Schedules: hourly, two and a half hours late *)

Lemma schedule_advance_terminates_witness :
  exists k, 0 < k /\ schedule_due_key_and_advance 10 (Schedule 3%N 3600 0) (duration_seconds 9000)
    = Some (Some "schedule:0", Schedule 3%N 3600 (0 + k * duration_seconds 3600)).
Proof.
  destruct (schedule_advance_terminates 3%N 3600 0 (duration_seconds 9000) 10) as (k & Hk & _ & H).
  - vm_compute. reflexivity.
  - vm_compute. discriminate.
  - apply (bool_decide_unpack _). vm_compute. exact I.
  - exists k. split; [exact Hk|exact H].
Defined.

Lemma schedule_fires_once_witness :
  exists key self, schedule_due_key_and_advance 10 (Schedule 3%N 3600 0) (duration_seconds 9000)
      = Some (Some key, self)
    /\ schedule_due_key_and_advance 10 self (duration_seconds 8000) = Some (None, self).
Proof.
  destruct (schedule_due_key_and_advance 10 (Schedule 3%N 3600 0) (duration_seconds 9000))
    as [[[key|] self]|] eqn:H; [|vm_compute in H; discriminate H..].
  exists key, self. split; [reflexivity|].
  apply (schedule_fires_once 10 10 _ _ _ _ _ H). vm_compute. discriminate.
Defined.
