(* ===== verification/SandboxWitnesses.v ===== *)
(** The theorems on paths, sandboxes and the policy engine at concrete inputs: a workspace
    with a nested writable root, a protected repository and a dangling link. *)
From S2P Require Import Prelude RustStr RustStrFacts RustText Json Enterprise ShellLex ShellAnalysis ShellFacts RustPath Sandbox LocalEnvironment SandboxCommand Policy Authority PathFacts SandboxFacts SandboxPlans PolicyFacts LinkFs Concrete.

Definition workspace_fs : LinkFs := {|
  fs_directories := [["ws"]; ["ws"; "src"]; ["ws"; "sub"]; ["ws"; "sub"; ".git"]; ["usr"]; ["usr"; "bin"]; ["out"]];
  fs_files := [["ws"; "src"; "main.rs"]; ["usr"; "bin"; "bwrap"]];
  fs_links := [(["ws"; "link"], ["out"; "new"]); (["ws"; "away"], ["out"])] |}.

#[export] Instance workspace_file_system : FileSystem := link_file_system workspace_fs.
#[export] Instance workspace_os : OsHost := link_os workspace_fs "/ws" (fun _ => None).
#[export] Instance workspace_machine : SandboxHost := {|
  current_platform := OsSandboxPlatform.Linux; current_exe := None;
  verify_sandbox_binary _ := Err "no helper"; metadata_generation p := p; object_identity p := p |}.

#[export] Instance workspace_posix : PosixPaths.
Proof. apply link_posix_paths. vm_compute. reflexivity. Qed.

(** The sandbox: the nested root is writable, and one file outside was approved. *)
Definition nested_config : LocalSandboxConfig :=
  enforce <| writable_roots := ["/ws/sub"] |> <| approved_write_paths := ["/out/approved.txt"] |>.

Definition nested_environment : LocalExecutionEnvironment :=
  {| env_workspace_root := "/ws"; env_sandbox_config := nested_config |}.

Lemma valid_by names : bool_decide (valid_names names) = true -> valid_names names.
Proof. apply bool_decide_eq_true. Qed.

Lemma nested_plain : rooted_config "/ws" ["ws"] nested_config.
Proof.
  constructor.
  - exists ["ws"], ["ws"]. split_and!; (reflexivity || (apply valid_by; vm_compute; reflexivity) || (vm_compute; reflexivity)).
  - split; [apply valid_by; vm_compute; reflexivity|vm_compute; reflexivity].
  - repeat constructor. exists ["ws"; "sub"], ["ws"; "sub"].
    split_and!; (reflexivity || (apply valid_by; vm_compute; reflexivity) || (vm_compute; reflexivity)).
  - repeat constructor. exists ["out"; "approved.txt"]. split; [apply valid_by; vm_compute; reflexivity|reflexivity].
Qed.

(** What the environment answers at some paths. *)
Example writes_answered :
  resolve_write_path nested_environment "src/new.rs" = Ok "/ws/src/new.rs"
  /\ resolve_write_path nested_environment "/ws/away/x" = Err (Msg "write path escapes workspace: /ws/away/x")
  /\ resolve_write_path nested_environment "/ws/.git/config"
     = Err (ApprovalRequired "Write to protected workspace metadata: /ws/.git/config")
  /\ resolve_write_path nested_environment "/out/approved.txt" = Ok "/out/approved.txt"
  /\ resolve_write_path nested_environment "/out/other.txt" = Err (Msg "write path escapes workspace: /out/other.txt").
Proof. vm_compute. repeat split. Qed.

Lemma denotes_by names : bool_decide (valid_names names) = true -> denotes ["ws"] (abs names) names.
Proof. intros H. constructor. by apply valid_by. Qed.


(** The grant of a call that writes one file of the workspace. *)
Definition mutation : ToolExecutionIntent := workspace_mutation ["/out/approved.txt"; "/out/other.txt"].

Lemma unapproved_grant_never_widens_witness :
  exists g, grant_resolve nested_config "/ws" mutation false = Ok g
    /\ approved_write_paths (grant_sandbox g) = ["/out/approved.txt"]
    /\ network (grant_sandbox g) = NetworkPolicy.Deny
    /\ resolve_write_path nested_environment "/out/approved.txt" = Ok "/out/approved.txt".
Proof.
  destruct (grant_resolve nested_config "/ws" mutation false) as [g|e] eqn:Hg; [|vm_compute in Hg; discriminate Hg].
  exists g. split; [reflexivity|].
  assert (valid_names ["ws"]) as Hv by (apply valid_by; vm_compute; reflexivity).
  assert (Forall (fun p => exists l, denotes ["ws"] p l) (requested_write_paths mutation)) as Hd.
  { apply Forall_cons. split; [exists ["out"; "approved.txt"]; apply (denotes_by ["out"; "approved.txt"]); vm_compute; reflexivity|].
    apply Forall_cons. split; [exists ["out"; "other.txt"]; apply (denotes_by ["out"; "other.txt"]); vm_compute; reflexivity|].
    apply Forall_nil. exact I. }
  destruct (unapproved_grant_never_widens nested_config ["ws"] ["ws"] mutation _ g Hv nested_plain Hd Hg)
    as (Hw & _ & _ & _ & Hn).
  unfold grant_resolve in Hg. vm_compute in Hg. apply Ok_inj in Hg. rewrite <- Hg in Hw |- *.
  split_and!; [reflexivity|reflexivity|].
  apply (Hw "/out/approved.txt" ["out"; "approved.txt"] "/out/approved.txt").
  - apply (denotes_by ["out"; "approved.txt"]). vm_compute. reflexivity.
  - vm_compute. reflexivity.
Defined.

Lemma enforced_plan_is_wrapped_witness :
  exists plan, build_local_sandbox_command_for_platform_with_options OsSandboxPlatform.Linux "sh" ["-c"; "make"]
      "/ws" "/ws" nested_config default_launch_options 0%N = (Ok plan, 0%N)
    /\ exists wrapper, plan_args plan = wrapper ++ ["sh"; "-c"; "make"].
Proof.
  destruct (build_local_sandbox_command_for_platform_with_options OsSandboxPlatform.Linux "sh" ["-c"; "make"]
      "/ws" "/ws" nested_config default_launch_options 0%N) as [[plan|e] w] eqn:H;
    [|vm_compute in H; discriminate H].
  assert (w = 0%N) as Hw by (vm_compute in H; congruence).
  exists plan. split; [rewrite Hw; reflexivity|].
  apply (enforced_plan_is_wrapped OsSandboxPlatform.Linux "sh" ["-c"; "make"] "/ws" "/ws" nested_config
    default_launch_options 0%N plan w); [reflexivity|discriminate|exact H].
Defined.

(** The name [link] is a dangling link out of the workspace; the write is accepted and
    would create the file the link points to. *)
Lemma dangling_link_accepted_witness :
  resolve_write_path nested_environment "/ws/link" = Ok "/ws/link"
  /\ fs_write_target workspace_fs "/ws/link" = Some "/out/new"
  /\ resolve_write_path nested_environment "/out/new" = Err (Msg "write path escapes workspace: /out/new").
Proof.
  split; [|split; vm_compute; reflexivity].
  apply (dangling_link_accepted nested_environment ["ws"] [] "link"); [exact nested_plain|reflexivity|..].
  - apply valid_by. vm_compute. reflexivity.
  - vm_compute. reflexivity.
  - vm_compute. reflexivity.
  - vm_compute. reflexivity.
Defined.

Lemma nested_root_metadata_unprotected_witness :
  "/ws/sub/.git" ∈ protected_paths "/ws" nested_config
  /\ resolve_write_path nested_environment "/ws/sub/.git/hook" = Ok "/ws/sub/.git/hook".
Proof.
  destruct (nested_root_metadata_unprotected nested_environment ["ws"] "sub" [] "hook") as (H1 & _ & H2).
  - exact nested_plain.
  - reflexivity.
  - apply list_elem_of_here.
  - apply valid_by. vm_compute. reflexivity.
  - vm_compute. reflexivity.
  - vm_compute. reflexivity.
  - vm_compute. reflexivity.
  - split; [exact H1|exact H2].
Defined.

(** * The policy engine *)

Definition auto_authority : ExecutionAuthority :=
  {| authority_workspace_root := "/ws"; authority_permission_mode := PermissionMode.Auto;
     authority_sandbox_config := nested_config; capability_projection := Enterprise.unrestricted |}.

Lemma destructive_commands_reviewed_witness :
  exists d, inspect_command (ctx_policy (local_tool_context auto_authority)) "rm -r build" = Ok d
    /\ enforce_policy_decision d (local_tool_context auto_authority) <> Ok tt.
Proof.
  destruct (destructive_commands_reviewed (ctx_policy (local_tool_context auto_authority)) "rm -r build")
    as (d & Hd & _ & He); [vm_compute; reflexivity|].
  exists d. split; [exact Hd|]. intros H. destruct (He _ H) as [_ [Hm|Ha]]; [discriminate Hm|discriminate Ha].
Defined.

(** A read in read-only mode. *)
Definition read_only_context : ToolInvocationContext :=
  local_tool_context
    {| authority_workspace_root := "/ws"; authority_permission_mode := PermissionMode.ReadOnly;
       authority_sandbox_config := nested_config; capability_projection := Enterprise.unrestricted |}.

Lemma read_only_modes_observe_witness :
  exists result, authorize_typed read_only_context (observation ["src/main.rs"]) None = Ok result
    /\ Forall (fun p => has_parent_dir (resolve_intent_path "/ws" p) = false) ["src/main.rs"].
Proof.
  destruct (authorize_typed read_only_context (observation ["src/main.rs"]) None) as [result|e] eqn:H;
    [|vm_compute in H; discriminate H].
  exists result. split; [reflexivity|].
  destruct (read_only_modes_observe read_only_context (observation ["src/main.rs"]) None result "ls") as (_ & _ & Hf & _);
    [reflexivity|exact H|exact Hf].
Defined.

