(* ===== verification/PatchWitnesses.v ===== *)
(** The theorems on text patches and batches of file changes at concrete inputs: files in
    memory, one of which cannot be written. *)
From S2P Require Import Prelude RustStr RustStrFacts RustText RustTextFacts Json Enterprise ShellLex ShellAnalysis RustPath Sandbox LocalEnvironment Policy Authority TextPatch TextPatchFacts FileMutation FileMutationFacts PatchTool PatchFacts LinkFs Concrete SandboxWitnesses.

Lemma plain_lines l : forallb (str_all (fun a => negb (Ascii.eqb a (chr lf) || Ascii.eqb a (chr cr)))) l = true ->
  Forall plain l.
Proof. intros H. apply Forall_forall. intros x Hx%list_elem_of_In. by apply (proj1 (forallb_forall _ _) H). Qed.

(** * Text *)

Definition rename_body : list (line_tag * string) :=
  [(Kept, "fn main() {"); (Removed, "    old();"); (Added, "    new();"); (Kept, "}")].

Lemma rename_printable : printable ("@@ -3,3 +3,3 @@", rename_body).
Proof. split_and!; [reflexivity|reflexivity|]. repeat (constructor; [reflexivity|]). constructor. Qed.


Lemma crlf_equivariant_witness :
  apply_text_patch ("one" +:+ crlf +:+ "two" +:+ crlf) (print_hunks [("@@ -2 +2 @@", [(Removed, "two"); (Added, "2")])])
  = Ok ("one" +:+ crlf +:+ "2" +:+ crlf).
Proof.
  refine (eq_trans (crlf_equivariant (unlines ["one"; "two"]) (print_hunks [("@@ -2 +2 @@", [(Removed, "two"); (Added, "2")])])
    eq_refl eq_refl) _). vm_compute. reflexivity.
Defined.

Lemma search_replace_exact_witness :
  edited [("old" +:+ lf, "new" +:+ lf)] (unlines ["a"; "old"; "b"]) (unlines ["a"; "new"; "b"]).
Proof.
  apply (search_replace_exact [("old" +:+ lf, "new" +:+ lf)]).
  - discriminate.
  - repeat constructor.
  - vm_compute. reflexivity.
  - vm_compute. reflexivity.
  - vm_compute. reflexivity.
Defined.

Definition two_edits : list file_edit :=
  [UpdateLines "src/a.rs" ["@@ -1 +1 @@"; "-x"; "+y"]; RemoveFile "b.txt"].

Lemma two_edits_ok : Forall edit_ok two_edits.
Proof.
  repeat constructor; try (vm_compute; reflexivity).
Qed.

Lemma envelope_round_trip_witness :
  parse_apply_patch_envelope (print_envelope two_edits)
  = Ok (Some [UpdateFile "src/a.rs" (unlines ["@@ -1 +1 @@"; "-x"; "+y"]); DeleteFile "b.txt"]).
Proof. refine (envelope_round_trip two_edits _ two_edits_ok). discriminate. Defined.

(** * Files in memory *)

Definition memory_identity (path : PathBuf) : string := str_join "/" (omap component_name (components path)).
Definition locked (path : PathBuf) : bool := String.eqb (memory_identity path) "ws/locked.txt".

#[export] Instance memory : ExecutionEnvironment := {|
  env_read_file path := fun '(files, w) =>
    match files !! memory_identity path with
    | Some contents => (Ok contents, (files, w))
    | None => (Err (WithContext ("path does not exist: " +:+ path) (IoNotFound "entity not found")), (files, w))
    end;
  env_write_file path contents := fun '(files, w) =>
    if locked path then (Err (Msg "permission denied"), (files, w))
    else (Ok tt, (<[memory_identity path := contents]> files, w));
  env_delete_file path := fun '(files, w) => (Ok tt, (delete (memory_identity path) files, w));
|}.

#[export] Instance memory_laws : EnvironmentLaws.
Proof.
  refine {| file_identity := memory_identity |}.
  - intros path files w. cbn. by destruct (files !! memory_identity path).
  - intros path files w contents s'. cbn. destruct (files !! memory_identity path); [by intros [= -> _]|done].
  - intros path files w e s'. cbn. by destruct (files !! memory_identity path).
  - intros path contents files w files' w'. cbn. destruct (locked path); [done|]. by intros [= <- _].
  - intros path contents files w e files' w'. cbn. destruct (locked path); [|done]. intros [= _ <- _].
    exists (files !! memory_identity path). symmetry. apply partial_alter_self.
  - intros path files w files' w'. cbn. by intros [= <- _].
  - intros path files w e files' w'. cbn. done.
Defined.

Definition memory_files : Files := <["ws/a.txt" := unlines ["one"; "two"]]> (<["ws/locked.txt" := "x"]> ∅).

(** A batch whose second write fails. *)
Definition half_batch : FileMutationBatch :=
  {| mutations := [mutation_write "/ws/a.txt" (Some (unlines ["one"; "two"])) "1";
                   mutation_write "/ws/locked.txt" (Some "x") "y"] |}.

Lemma file_batch_all_or_nothing_witness :
  exists e files', commit half_batch (memory_files, 0%N) = (Err e, (files', 0%N))
    /\ incomplete e = false /\ undone (mutations half_batch) memory_files e files'
    /\ files' !! "ws/a.txt" = Some (unlines ["one"; "two"]).
Proof.
  destruct (commit half_batch (memory_files, 0%N)) as [[paths|e] [files' w']] eqn:H;
    [vm_compute in H; discriminate H|].
  exists e, files'.
  assert (w' = 0%N) as Hw by (vm_compute in H; congruence).
  assert (incomplete e = false) as Hi by (vm_compute in H; injection H as <- _ _; reflexivity).
  assert (files' !! "ws/a.txt" = Some (unlines ["one"; "two"])) as Hf
    by (vm_compute in H; injection H as _ <- _; vm_compute; reflexivity).
  split; [rewrite Hw; reflexivity|]. split; [exact Hi|]. split; [|exact Hf].
  refine (file_batch_all_or_nothing half_batch None None memory_files 0%N (Err e) files' w' _ _ H).
  - apply (proj1 (bool_decide_eq_true (NoDup ["ws/a.txt"; "ws/locked.txt"]))). vm_compute. reflexivity.
  - intros o s l Ho. discriminate Ho.
Defined.

(** Two tasks whose batches name the same files in opposite orders. *)
Definition crossing : list (list PathBuf) := [["/ws/a"; "/ws/b"]; ["/ws/b"; "/ws/a"]].

Lemma file_locks_make_progress_witness :
  exists lockers, lock_step (start_lockers crossing) lockers
    /\ (all_finished lockers \/ exists lockers', lock_step lockers lockers').
Proof.
  eexists. assert (lock_step (start_lockers crossing)
    (<[0%nat := {| held := ["\ws\a"]; wanted := ["\ws\b"] |}]> (start_lockers crossing))) as Hs.
  { apply (step_acquire (start_lockers crossing) 0 [] "\ws\a" ["\ws\b"]); [vm_compute; reflexivity|].
    intros [|[|j]] other Hj; [injection Hj as <-|injection Hj as <-|discriminate Hj]; apply not_elem_of_nil. }
  split; [exact Hs|].
  refine (proj1 (proj2 (file_locks_make_progress crossing _ _))). eapply rtc_l; [exact Hs|apply rtc_refl].
Defined.

(** * The tool *)

Definition patch_context : PatchContext := {|
  tool_context := local_tool_context auto_authority; file_mutation_observer := None;
  patch_thread_id := None; patch_turn_id := None; patch_agent_path := "/root" |}.

Definition hunk_text (body : list (line_tag * string)) : string := print_hunks [("@@", body)].

Definition one_patch : list NativePatchOperation :=
  [UpdateFile "a.txt" (hunk_text [(Kept, "one"); (Removed, "two"); (Added, "2")]);
   CreateFile "b.txt" (unlines ["+new"])].


Definition first_edit : NativePatchOperation := UpdateFile "a.txt" (hunk_text [(Removed, "one"); (Added, "1")]).
Definition second_diff : string := hunk_text [(Removed, "two"); (Added, "2")].

Lemma aliased_update_is_lost_witness :
  exists outcome files', execute_native_patch_batch patch_context [first_edit; UpdateFile "./a.txt" second_diff]
      (memory_files, 0%N) = (Ok outcome, (files', 0%N))
    /\ files' !! "ws/a.txt" = Some (unlines ["one"; "2"]).
Proof.
  destruct (execute_native_patch_batch patch_context [first_edit; UpdateFile "./a.txt" second_diff] (memory_files, 0%N))
    as [[outcome|e] [files' w']] eqn:H; [|vm_compute in H; discriminate H].
  assert (w' = 0%N) as Hw by (vm_compute in H; congruence).
  exists outcome, files'. split; [rewrite Hw; reflexivity|].
  destruct (aliased_update_is_lost patch_context "a.txt" (hunk_text [(Removed, "one"); (Added, "1")])
    "./a.txt" second_diff "a.txt" "/ws/a.txt" "./a.txt" "/ws/./a.txt" memory_files 0%N outcome files' w')
    as (old & new & Hold & Hnew & Hf).
  - vm_compute. reflexivity.
  - vm_compute. reflexivity.
  - vm_compute. reflexivity.
  - intros o s l Hl. discriminate Hl.
  - exact H.
  - rewrite Hf. vm_compute in Hold. injection Hold as <-. vm_compute in Hnew. injection Hnew as <-.
    vm_compute. reflexivity.
Defined.

(** A program that makes the change of [unified] below. *)
#[export] Instance editing_git : PatchProcess := {|
  git_apply patch := fun '(files, w) =>
    (Ok {| exec_stdout := ""; exec_stderr := ""; exec_exit_code := Some 0; exec_success := true |},
     (<["ws/a.txt" := unlines ["one"; "2"]]> files, w)) |}.

Definition unified : string :=
  unlines ["--- a/a.txt"; "+++ b/a.txt"; "@@ -1,2 +1,2 @@"; " one"; "-two"; "+2"].

Definition silent_observer (s : FileMutationScope) (l : list PreparedFileMutation) : FileM unit := m_ret tt.
Definition journaled_context : PatchContext := {|
  tool_context := {| ctx_workspace_root := "/ws"; ctx_policy := ctx_policy (local_tool_context auto_authority);
                     ctx_permission_mode := PermissionMode.Unrestricted;
                     ctx_sandbox_config := None; ctx_approval_granted := true |};
  file_mutation_observer := Some silent_observer;
  patch_thread_id := Some 1%N; patch_turn_id := Some 2%N; patch_agent_path := "/root" |}.
Definition journal_scope : FileMutationScope := {|
  scope_thread_id := 1%N; scope_turn_id := 2%N; scope_agent_path := "/root"; scope_workspace_root := "/ws" |}.

Lemma external_patch_journaled_witness :
  exists output files', apply_unified_diff journaled_context unified (memory_files, 0%N) = (Ok output, (files', 0%N))
    /\ exists journal, contents_are original journal memory_files /\ contents_are after journal files'.
Proof.
  destruct (apply_unified_diff journaled_context unified (memory_files, 0%N)) as [[output|e] [files' w']] eqn:H;
    [|vm_compute in H; discriminate H].
  assert (w' = 0%N) as Hw by (vm_compute in H; congruence).
  exists output, files'. split; [rewrite Hw; reflexivity|].
  destruct (external_patch_journaled journaled_context unified journal_scope ["/ws/a.txt"] silent_observer
    memory_files 0%N output files' w') as (journal & w1 & w2 & _ & Ho & Ha & _).
  - vm_compute. reflexivity.
  - reflexivity.
  - intros s l files w. reflexivity.
  - apply (proj1 (bool_decide_eq_true _)). vm_compute. reflexivity.
  - exact H.
  - exists journal. split; [exact Ho|exact Ha].
Defined.

(** A diff that only renames a file names no path and deletes nothing, as far as the tool can
    tell: nobody is asked, no path is locked and nothing is journaled. *)
Lemma rename_unnoticed :
  let rename := unlines ["diff --git a/a.txt b/c.txt"; "similarity index 100%"; "rename from a.txt"; "rename to c.txt"] in
  unified_diff_paths rename = [] /\ unified_diff_deletes_file rename = false
  /\ patch_authorization_preflight (Portable rename) = None
  /\ requested_write_paths (patch_execution_intent (Portable rename)) = [].
Proof. vm_compute. repeat split. Qed.
