(* ===== verification/ApiWitnesses.v ===== *)
(** The theorems on start-up recovery and on the HTTP handlers at concrete inputs: a
    server that stops in the middle of a superstep, and the recovery task it leaves. *)
From S2P Require Import Prelude RustStr RustStrFacts Json Enterprise WorkflowState WorkflowAutomation FlowGraph FlowActivation Flow WorkflowInterrupt HumanTask Workflow FlowRun FlowEngine FlowResume FlowStore FlowDriver FlowCommit FlowLoop FlowConcurrency FlowRestart FlowApi Concrete Witnesses.

(** No other client. *)
#[export] Instance alone : Environment := quiet_environment.

#[export] Instance concrete_server : Server := {|
  ensure_enterprise _ := Ok tt;
  ensure_flow_thread _ _ := Ok tt;
  flow_runtime_context _ _ := Ok context;
  DeliveryReceipt := unit;
  deliver_run_output _ := m_ret tt;
  get_workflow_delivery_receipt _ := m_ret None;
|}.

(** The store when the server stopped: two nodes of [graph] were running. *)
Definition stopped_store : FlowStore := store_with (run_after graph 3).

Lemma store_with_keyed run id : run_id run = 7%N -> keyed id (store_with run).
Proof. intros Hid r. unfold store_with. cbn. intros [<- <-]%lookup_singleton_Some. exact Hid. Qed.

Lemma stopped_keyed id : keyed id stopped_store.
Proof. apply store_with_keyed. vm_compute. reflexivity. Qed.

(** The store after the next start, and the run and the task in it. *)
Definition restarted_store : FlowStore := fst (snd (recover_interrupted_runtime_state (stopped_store, 100%N : World))).
Definition restarted_run : FlowRunV1 := stored_run restarted_store.


(** The run was resumed after the restart and stopped again in the same node: the task
    that handed the node over is still in the store. *)
Definition stopped_again : FlowStore :=
  stopped_store <| store_tasks := store_tasks restarted_store |>.

Lemma handed_over_stopped_again : handed_over_before 7%N (run_after graph 3) stopped_again.
Proof.
  split_and!; [apply lookup_singleton_eq|vm_compute; reflexivity|].
  destruct (last_node_run is_open_status (run_after graph 3)) as [node_run|] eqn:Hl; [|vm_compute in Hl; discriminate Hl].
  exists node_run. split; [reflexivity|].
  assert (stable_task_id (run_id (run_after graph 3)) "recovery" (host_uuid_string (node_run_id node_run)) = 500007%N) as ->.
  { vm_compute in Hl. injection Hl as <-. vm_compute. reflexivity. }
  apply (bool_decide_unpack _). vm_compute. exact I.
Qed.

Lemma second_interruption_blocks_startup_witness :
  exists e, fst (recover_interrupted_runtime_state
    (Nat.iter 3 (fun s => snd (recover_interrupted_runtime_state s)) (stopped_again, 300%N : World))) = Err e.
Proof.
  apply (second_interruption_blocks_startup stopped_again 300%N 7%N (run_after graph 3) 3).
  - intros id r. apply (stopped_keyed id).
  - exact handed_over_stopped_again.
  - vm_compute. reflexivity.
Defined.

(** * Answering the recovery task *)

Definition recovery_task : HumanTaskV1 := default manual_task (store_tasks restarted_store !! 500007%N).

Definition retry_request : ResolveHumanTaskRequest :=
  {| request_expected_revision := 1; request_action := ActRetry; request_note := None;
     request_idempotency_key := Some "press-1"; request_response := None |}.

Definition no_deliveries (task : HumanTaskV1) (request : ResolveHumanTaskRequest) (key : string)
    : Handler ResolveHumanTaskResponse := h_fail (api_conflict "no receipts").

Lemma recovery_task_stored : store_tasks restarted_store !! 500007%N = Some recovery_task.
Proof. vm_compute. reflexivity. Qed.

Lemma recovery_task_ok : task_ok recovery_task.
Proof.
  constructor.
  - split; intros _; vm_compute; reflexivity.
  - split; intros _; vm_compute; reflexivity.
  - intros r Hr. vm_compute in Hr. discriminate Hr.
  - split; intros H; vm_compute in H; apply is_Some_None in H; destruct H.
  - intros a Ha. vm_compute in Ha. discriminate Ha.
  - vm_compute. split; discriminate.
Qed.

Lemma quiet : undisturbed.
Proof. intros n st. reflexivity. Qed.
Lemma served : serving.
Proof. split; intros; reflexivity. Qed.
Lemma deliveries_keep : delivery_keeps_documents.
Proof. intros run st w r st' w' [= _ <- _]. split; [reflexivity|reflexivity]. Qed.

Lemma restarted_stored : store_runs restarted_store !! 7%N = Some restarted_run.
Proof. vm_compute. reflexivity. Qed.

Lemma restarted_keyed : keyed 7%N restarted_store.
Proof.
  intros r Hr. pose proof (eq_trans (eq_sym Hr) restarted_stored) as Heq.
  assert (r = restarted_run) as -> by (congruence). vm_compute. reflexivity.
Qed.

Lemma resolve_human_task_idempotent_witness :
  exists resp st' w' run w2,
    resolve_human_task no_deliveries 500007%N retry_request (restarted_store, 400%N : World) = (Ok resp, (st', w'))
    /\ resolve_human_task no_deliveries 500007%N retry_request (st', w')
       = (Ok {| response_task := response_task resp; response_run := Some run; response_receipt := None |}, (st', w2)).
Proof.
  destruct (ran_ok (resolve_human_task no_deliveries 500007%N retry_request (restarted_store, 400%N : World)))
    as (resp & [st' w'] & H); [vm_compute; reflexivity|].
  destruct (resolve_human_task_idempotent no_deliveries 500007%N retry_request restarted_store 400%N recovery_task
    resp st' w' quiet served deliveries_keep recovery_task_stored) as (run & w2 & H2).
  - vm_compute. reflexivity.
  - vm_compute. reflexivity.
  - exact recovery_task_ok.
  - exact restarted_keyed.
  - exact H.
  - exists resp, st', w', run, w2. split; [exact H|exact H2].
Defined.

(** What two identical requests computed from the same reads. *)
Definition retry_key : string := request_key recovery_task retry_request.
Definition retried_run : FlowRunV1 :=
  match apply_action recovery_task retry_request retry_key with
  | inr m => fst (snd (m (restarted_run, 400%N : World)))
  | inl _ => restarted_run
  end.
Definition retried_task : HumanTaskV1 :=
  fst (snd (resolve_with_command ActRetry None actor (Some 1%N) (Some retry_key) None (recovery_task, 401%N : World))).

Lemma identical_requests_race_witness :
  exists resp st1 w1,
    commit_resolution 500007%N retry_request retry_key restarted_run retried_run retried_task (Some context)
      (restarted_store, 402%N : World) = (Ok resp, (st1, w1))
    /\ fst (commit_resolution 500007%N retry_request retry_key restarted_run retried_run retried_task (Some context)
              (st1, 500%N : World))
       = Err (api_conflict ("Flow run revision conflict; current revision is " +:+ pretty (run_revision restarted_run + 1))).
Proof.
  destruct (ran_ok (commit_resolution 500007%N retry_request retry_key restarted_run retried_run retried_task (Some context)
      (restarted_store, 402%N : World))) as (resp & [st1 w1] & H); [vm_compute; reflexivity|].
  exists resp, st1, w1. split; [exact H|].
  destruct (identical_requests_race 500007%N retry_request retry_key restarted_run recovery_task retried_run retried_task
    (Some context) retried_run retried_task (Some context) restarted_store 402%N resp st1 w1 500%N quiet deliveries_keep)
    as [_ H2].
  - vm_compute. reflexivity.
  - vm_compute. reflexivity.
  - vm_compute. reflexivity.
  - vm_compute. reflexivity.
  - vm_compute. reflexivity.
  - exact recovery_task_stored.
  - vm_compute. reflexivity.
  - split; [vm_compute; reflexivity|]. split; [vm_compute; discriminate|].
    split; [apply (bool_decide_unpack _); vm_compute; exact I|]. split; vm_compute; reflexivity.
  - exact H.
  - rewrite H2. reflexivity.
Defined.
